(* ===== verification/_CoqProject ===== *)
-Q . S2P
Prelude.v
Utf8.v
Blocks.v
Words.v
BlockCache.v
Bitmap.v
Layout.v
InodeMap.v
InodeGrow.v
InodeClear.v
InodeIO.v
LayoutLemmas.v
Efs.v
Vfs.v
MemDisk.v
FsInv.v
FsOps.v
FsFile.v
FsDir.v
FsCreate.v
FsSpec.v
FsBoot.v
FsThms.v
Durable.v
Proto.v
FileAttr.v
Address.v
PhysMem.v
FrameAlloc.v
PageTable.v
MemorySet.v
KernelSpace.v
Virtio.v
ElfLoad.v
PcbExt.v
UserCopy.v
ContextPath.v
ContextArea.v
Task.v
OsFile.v
Blocking.v
EventBus.v
KernelInv.v
TaskLife.v
AgentSched.v
KernelSteps.v
KernelThms.v
Tools.v
AgentCalls.v
CallThms.v
Syscall.v
SysThms.v
SysFiles.v
SysFileThms.v
UserLib.v
UserLibThms.v
Pack.v
UserCalls.v
WaitModel.v
Programs.v
ProgramThms.v
TestPrograms.v
UserApi.v
StackBounds.v
ExecLoad.v
Boot.v
