(* ===== verification/Prelude.v ===== *)
(** * Agent-OS in Rocq

    Agent-OS is a small RISC-V kernel in Rust (an rCore descendant) whose
    processes may become agents: they call kernel tools over a framed binary
    protocol, keep a history of these calls in a memory area shared with the
    kernel, and sleep until a heartbeat, a message or a file event wakes them.
    This library is a shallow embedding of the kernel, of its file system, of
    the tool that packs the disk image and of the user library's side of the
    agent calls, with the theorems that make them correct.

    ** The program and its files

    The source crates are [os/] (the kernel), [easy-fs/] (the file system),
    [agent_proto/] (the protocol), [easy-fs-fuse/] (the image packer) and
    [user/] (the user library and programs), all under [src/].

    - This file: outcomes of code that may panic, machine words with their
      wrap-around, bytes, slices, the list operations of [Vec].  [Utf8] is
      [str::from_utf8] and [String::from_utf8_lossy].
    - [easy-fs/], bottom up.  [Blocks] states the two interfaces: a block
      device ([BlockDevice], [DeviceLaws]) and the block store the file system
      is written against ([BlockStore], [StoreLaws]).  [BlockCache]
      ([block_cache.rs]) implements the second over the first: sixteen entries,
      eviction, write-back.  [Words], [Bitmap] ([bitmap.rs]), [Layout]
      ([layout.rs]), [Efs] ([efs.rs]), [Vfs] ([vfs.rs]) are the code;
      [InodeMap], [InodeGrow], [InodeClear], [InodeIO], [LayoutLemmas] its
      functional specification; [FsInv], [FsOps], [FsFile], [FsDir],
      [FsCreate] the invariant of the disk and the effect of each operation;
      [FsSpec] the abstract disk (a list of named files) and the refinement;
      [FsBoot] creation and reopening; [FsThms] and [Durable] the theorems.
      [MemDisk] is a concrete device.
    - Memory.  [Address] ([mm/address.rs], [config.rs]), [PhysMem] (physical
      memory as bytes and which accesses fault), [FrameAlloc]
      ([frame_allocator.rs]), [PageTable] ([page_table.rs]), [MemorySet]
      ([memory_set.rs]), [UserCopy] (copies across page boundaries),
      [KernelSpace] (the kernel's own space, [mm/mod.rs] and
      [linker-qemu.ld]), [Virtio] (the DMA memory of the block device driver,
      [drivers/block/virtio_blk.rs]), [ElfLoad] (what [from_elf] builds).
    - Agents.  [PcbExt] ([agent/pcb_ext.rs]), [ContextPath]
      ([context_path.rs]), [ContextArea] ([context_area.rs]), [FileAttr]
      ([file_attr.rs]), [Proto] ([agent_proto/src/lib.rs]), [Tools]
      ([agent/tool/]), [Blocking] and [EventBus] ([blocking.rs],
      [event_bus.rs], and the loop of [sys_agent_wait]), [AgentCalls]
      ([syscall/agent.rs]).
    - Tasks.  [Task] ([task/], [syscall/process.rs]): one record [Kernel] with
      the control blocks, the ready queue, the processor, the sleeping agents,
      the pid allocator and memory.  [KernelInv], [TaskLife], [AgentSched],
      [KernelSteps] prove its invariants; [KernelThms], [CallThms] the
      theorems.
    - The machine.  [OsFile] ([os/src/fs/]) adds open files, the disk and the
      console to the kernel: the record [Machine].  [Syscall] ([syscall/],
      [trap/mod.rs]) is the dispatcher, the trap handler and the step relation
      [mstep] of the machine (an idle turn, user code that changes memory as
      it likes, a trap).  [SysThms], [SysFiles], [SysFileThms] are its
      theorems; [ExecLoad] composes file system, loader and address spaces
      into [exec], [StackBounds] bounds the kernel stacks ([task/pid.rs]), and
      [Boot] ([main.rs], the lazy statics of [task/mod.rs] and
      [fs/inode.rs]) is start-up, up to the first state of the machine.
    - User space.  [UserCalls] ([user/src/syscall.rs]), [UserLib],
      [UserLibThms] and [UserApi] ([user/src/lib.rs]); [Programs],
      [ProgramThms] and [TestPrograms] (the shell, init, the test runners and
      the waiting loops as interaction trees); [WaitModel] (what a program
      sees of its children through [waitpid], shown to be what [sys_waitpid]
      answers); [Pack] ([easy-fs-fuse]).

    ** How code becomes definitions

    A function of the source is a function here with the same name, its state
    passed and returned.  A panic, a failed [unwrap] or assertion, an index out
    of range or an access that faults in the kernel is [Panic].  Integers are
    [Z] with the wrap-around of a release build written where it can happen.
    Structs that the source overlays on bytes are decoded from and encoded to
    those bytes, so that memory and disk are bytes throughout.  Drop glue is
    explicit: a frame, a page table, an area, a control block is released where
    the source's value goes out of scope, and reference counts are counts of
    the places of the state that hold a pid.  A task that gives up the
    processor keeps what it does next as data ([TaskContext]), which the
    scheduler runs when it comes back; so [__switch] needs no stack in the
    model.  Locks are not part of the state: there is one hart, and interrupts
    are off in the kernel.

    ** Code outside the repository

    It is a parameter, each one a class: [Platform] (linker symbols and the
    trap trampoline) with [KernelLayout] (what the linker script says of
    them), [BlockDevice] with [DeviceLaws] (VirtIO, or the host's
    image file), [ElfParser] ([xmas_elf]), [PostcardCodec] with
    [PostcardLaws], [PostcardVec] and [PostcardRead] ([postcard]).  Witnesses
    instantiate each by a concrete function ([DemoPlatform], [demo_layout],
    [MemDisk], [DemoElf] and [demo_parser], [OneByteCodec], [DemoVec],
    [MetaCodec]).  The VirtIO driver is known by the sizes of the DMA requests
    it makes, an argument of [rust_main].  Time, console input
    and the register [sstatus] are the record [Env]; a reading of the time
    register is in ticks, and each call converts it to milliseconds or not
    as its code does.  Two interfaces are
    internal: [BlockStore] lets the file system's theorems be independent of
    the cache, and [UserMem] with [UserLaws] lets the context path's be
    independent of page tables.

    ** What is proved

    - Whole system ([SysThms]): every machine state that any sequence of
      traps, timer ticks and arbitrary user code reaches keeps the scheduling
      invariant, the process tree, the pids and the agents' invariant; no
      sleeping agent misses an event; the liveness defect of the idle loop.
    - Start-up ([Boot]): from the host's files, through the packed image,
      memory, the driver's pages and the loader, to the first state of the
      machine, in which process 0 is loaded byte for byte and the invariant
      holds; with the theorem above it holds for ever after.  Memory on its
      own is [KernelSpace.kernel_space_boots], the driver's pages
      [Virtio.driver_memory_at_boot].
    - Tasks ([KernelThms]): what fork, exit, waitpid, the scheduler, the
      process listing, the timer tick, message delivery and [sys_agent_wait]
      do on every branch.
    - Memory: [PageTable.page_table_refines] (a finite map, for any sequence of
      operations), [MemorySet.fork_copies_and_isolates], the frame allocator's
      specifications, [UserCopy.user_copy_roundtrip] and the divergence on a
      non-canonical pointer.  [ElfLoad.from_elf_loads] says what a loaded
      program sees, [ExecLoad.exec_runs_the_file] that [exec] makes the named
      file the task's program and frees exactly the old space, and
      [StackBounds.kernel_stacks_fit] up to which pid the kernel stacks are
      where they should be.
    - Files: open, read and write for every kind of descriptor, standard
      streams included, from the call to the blocks ([SysFileThms]), the
      round trip through them, the block map of an inode as it grows and is
      cleared, the refinement of the abstract disk across
      power losses ([Durable]), write-back and eviction, no leak, the limits
      of names ([FsThms]), and that a packed image boots ([Pack]).
    - Agents: the context path refines a list of nodes for any run
      ([ContextPath]), eviction keeps the longest suffix, the attribute
      indexes agree with the attributes and indexed queries with full scans
      ([FileAttr]), the protocol's round trip ([Proto]), and the two ends of
      the shared memory agree: a tool call gives the program the bytes of the
      tool, and history is read without copying ([UserLibThms]).
    - Each stub of the user library reaches the kernel function of its name
      ([UserCalls]); the shell starts exactly the commands that were typed and
      waits for each child it made, and init reaps every process that becomes
      its child and exits ([ProgramThms]).

    ** Fuel

    Loops the source bounds by its data get their measure as fuel and a
    theorem that it is enough: the eviction loop by the number of nodes, the
    process listing by the number of control blocks, the time-out scan by the
    length of the sleeping list, block loops by the number of blocks.  The
    loops over a user string and over a program file take the fuel
    [Env.loop_fuel], and their theorems say which fuel suffices (one more than
    the string; one block of 512 bytes per unit).  The copy loop of
    [translated_byte_buffer] has as fuel the number of pages of the range and
    one more; that it can need more, for ever, is
    [UserCopy.tbb_noncanonical_diverges].

    ** Not modelled

    The VirtIO driver and the allocators behind the two heaps (external
    crates; of the driver the four functions it calls back are modelled); the
    console, SBI calls, logging and the panic handler (no state of their own),
    and at start-up the clearing of the BSS, the trap vector, the timer and
    what is printed; the assembly of the context switch and the trap entry
    (their contract is in [Task] and [Syscall]); [UPSafeCell] (a [RefCell] on
    one hart: the model has no double borrow because state is threaded);
    formatting for debugging, self tests, and the demonstration programs and
    those test programs that make no call another does not.  The allocation
    of heap memory is taken to succeed. *)

From Stdlib Require Export ZArith Lia.
From Stdlib Require Export Strings.Byte.
From stdpp Require Export prelude gmap strings list list_numbers sorting fin_maps.

#[global] Open Scope Z_scope.

(** ** Outcomes

    The kernel is compiled with [panic = abort]-like semantics: an [unwrap] of
    [None], a failed [assert!] or an index out of range stops the machine.
    [Panic] is that outcome; [NoFuel] is the outcome of a loop whose fuel ran
    out, which theorems about termination exclude. *)
Inductive outcome (A : Type) : Type :=
  | Ret (a : A)
  | Panic
  | NoFuel.
Arguments Ret {A} a.
Arguments Panic {A}.
Arguments NoFuel {A}.

#[global] Instance outcome_ret : MRet outcome := λ A a, Ret a.
#[global] Instance outcome_bind : MBind outcome := λ A B f m,
  match m with Ret a => f a | Panic => Panic | NoFuel => NoFuel end.
#[global] Instance outcome_fmap : FMap outcome := λ A B f m,
  match m with Ret a => Ret (f a) | Panic => Panic | NoFuel => NoFuel end.

(** [Option::unwrap] and [assert!]. *)
Definition unwrap {A} (o : option A) : outcome A :=
  match o with Some a => Ret a | None => Panic end.
Definition rassert (b : bool) : outcome unit := if b then Ret tt else Panic.

Definition is_Ret {A} (m : outcome A) : Prop := ∃ a, m = Ret a.

(** ** Machine words

    The kernel is built in release mode for a 64-bit target: additions and
    multiplications wrap around, [as] casts truncate. *)
Definition wrap (w z : Z) : Z := z mod 2 ^ w.
Abbreviation u8 := (wrap 8).
Abbreviation u16 := (wrap 16).
Abbreviation u32 := (wrap 32).
Abbreviation u64 := (wrap 64).
Abbreviation usize := (wrap 64).

(** [x as i64] / [x as isize] of a 64-bit word. *)
Definition as_i64 (z : Z) : Z :=
  let u := u64 z in if u <? 2 ^ 63 then u else u - 2 ^ 64.

(** [usize::saturating_sub] and its [u32]/[u64] versions. *)
Definition sat_sub (a b : Z) : Z := Z.max 0 (a - b).

(** ** Bytes *)
#[global] Instance byte_eq_decision : EqDecision byte := byte_eq_dec.

Definition Z_of_byte (b : byte) : Z := Z.of_N (Byte.to_N b).
Definition byte_of_Z (z : Z) : byte :=
  default x00 (Byte.of_N (Z.to_N (z mod 256))).

(** [to_le_bytes] / [from_le_bytes] of an [n]-byte integer. *)
Definition to_le_bytes (n : nat) (z : Z) : list byte :=
  byte_of_Z <$> Z_to_little_endian (Z.of_nat n) 8 z.
Definition from_le_bytes (bs : list byte) : Z :=
  little_endian_to_Z 8 (Z_of_byte <$> bs).

(** [&s[off .. off + len]], without the bounds check. *)
Definition slice {A} (off len : nat) (l : list A) : list A := take len (drop off l).

(** [&s[off .. off + len]] with the bounds check. *)
Definition slice_checked {A} (off len : nat) (l : list A) : outcome (list A) :=
  if (off + len <=? length l)%nat then Ret (slice off len l) else Panic.

(** [s[off .. off + src.len()].copy_from_slice(src)], without the check. *)
Definition splice {A} (off : nat) (src l : list A) : list A :=
  take off l ++ src ++ drop (off + length src) l.

(** [Vec::remove] and [Vec::swap_remove] at an index known to be in range. *)
Definition vec_remove {A} (i : nat) (l : list A) : list A := delete i l.
Definition vec_swap_remove {A} (i : nat) (l : list A) : list A :=
  match last l with
  | None => l
  | Some x => take (length l - 1) (<[i := x]> l)
  end.

(** ** Proof automation *)

(** Splits every successful bind of the context. *)
Lemma bind_Ret {A B} (m : outcome A) (f : A → outcome B) b :
  m ≫= f = Ret b ↔ ∃ a, m = Ret a ∧ f a = Ret b.
Proof. destruct m; cbn; split; [eauto|by intros (?&[= ->]&?)|done|by intros (?&[=]&?)|done|by intros (?&[=]&?)]. Qed.

Lemma unwrap_Ret {A} (o : option A) a : unwrap o = Ret a ↔ o = Some a.
Proof. destruct o; cbn; split; congruence. Qed.

Lemma rassert_Ret b u : rassert b = Ret u ↔ b = true.
Proof. destruct b, u; cbn; split; congruence. Qed.

Ltac inv_ret :=
  repeat match goal with
  | H : Ret _ = Ret _ |- _ => injection H as H; simplify_eq
  | H : Panic = Ret _ |- _ => discriminate H
  | H : NoFuel = Ret _ |- _ => discriminate H
  | H : _ ≫= _ = Ret _ |- _ =>
      let Ha := fresh "Hm" in apply bind_Ret in H; destruct H as (? & Ha & H); simpl in H
  | H : unwrap _ = Ret _ |- _ => apply unwrap_Ret in H
  | H : rassert _ = Ret _ |- _ => apply rassert_Ret in H
  | H : (let '_ := ?p in _) = Ret _ |- _ => destruct p eqn:?
  end.

Create HintDb osdb.

(** Z-boolean tests to propositions, in hypotheses and goal. *)
Ltac zify_bool :=
  repeat match goal with
  | H : (_ <? _) = true |- _ => apply Z.ltb_lt in H
  | H : (_ <? _) = false |- _ => apply Z.ltb_ge in H
  | H : (_ <=? _) = true |- _ => apply Z.leb_le in H
  | H : (_ <=? _) = false |- _ => apply Z.leb_gt in H
  | H : (_ =? _) = true |- _ => apply Z.eqb_eq in H
  | H : (_ =? _) = false |- _ => apply Z.eqb_neq in H
  | H : (_ && _)%bool = true |- _ => apply andb_true_iff in H as [??]
  | H : (_ || _)%bool = false |- _ => apply orb_false_iff in H as [??]
  end.

(** ** Word and byte lemmas *)
Lemma wrap_range w z : 0 ≤ w → 0 ≤ wrap w z < 2 ^ w.
Proof. intros. apply Z.mod_pos_bound. lia. Qed.

Lemma wrap_small w z : 0 ≤ z < 2 ^ w → wrap w z = z.
Proof. apply Z.mod_small. Qed.

Lemma wrap_idem w z : 0 ≤ w → wrap w (wrap w z) = wrap w z.
Proof. intros. apply wrap_small, wrap_range; done. Qed.

Lemma Z_of_byte_range b : 0 ≤ Z_of_byte b < 256.
Proof. unfold Z_of_byte. pose proof (Byte.to_N_bounded b). lia. Qed.

Lemma Z_of_byte_of_Z z : Z_of_byte (byte_of_Z z) = z mod 256.
Proof.
  unfold Z_of_byte, byte_of_Z.
  pose proof (Z.mod_pos_bound z 256 ltac:(lia)) as Hb.
  destruct (Byte.of_N (Z.to_N (z mod 256))) eqn:E; simpl.
  - apply Byte.to_of_N in E. rewrite E. lia.
  - apply Byte.of_N_None_iff in E. lia.
Qed.

Lemma byte_of_Z_of_byte b : byte_of_Z (Z_of_byte b) = b.
Proof.
  unfold byte_of_Z. rewrite Z.mod_small by apply Z_of_byte_range.
  unfold Z_of_byte. rewrite N2Z.id, Byte.of_to_N. done.
Qed.

#[global] Instance Z_of_byte_inj : Inj (=) (=) Z_of_byte.
Proof. intros a b H. by rewrite <-(byte_of_Z_of_byte a), H, byte_of_Z_of_byte. Qed.

Lemma length_to_le_bytes n z : length (to_le_bytes n z) = n.
Proof.
  unfold to_le_bytes. rewrite length_fmap.
  apply Nat2Z.inj. rewrite length_Z_to_little_endian by lia. done.
Qed.

Lemma from_to_le_bytes n z :
  from_le_bytes (to_le_bytes n z) = z mod 2 ^ (8 * Z.of_nat n).
Proof.
  unfold from_le_bytes, to_le_bytes. rewrite <-list_fmap_compose.
  rewrite (list_fmap_ext _ id).
  - rewrite list_fmap_id.
    rewrite little_endian_to_Z_to_little_endian by lia.
    f_equal. f_equal. lia.
  - intros i x Hx. simpl. rewrite Z_of_byte_of_Z.
    pose proof (Z_to_little_endian_bound (Z.of_nat n) 8 z ltac:(lia) ltac:(lia)) as Hf.
    rewrite Forall_lookup in Hf. specialize (Hf _ _ Hx). rewrite Z.mod_small; [done|].
    exact Hf.
Qed.

Lemma from_to_le_bytes_small n z :
  0 ≤ z < 2 ^ (8 * Z.of_nat n) → from_le_bytes (to_le_bytes n z) = z.
Proof. intros. rewrite from_to_le_bytes. by apply Z.mod_small. Qed.

Lemma from_le_bytes_range bs : 0 ≤ from_le_bytes bs < 2 ^ (8 * Z.of_nat (length bs)).
Proof.
  unfold from_le_bytes.
  pose proof (little_endian_to_Z_bound 8 (Z_of_byte <$> bs) ltac:(lia)) as H.
  rewrite length_fmap in H. replace (8 * Z.of_nat (length bs)) with (Z.of_nat (length bs) * 8) by lia.
  apply H. apply Forall_fmap, Forall_true. intros b. apply (Z_of_byte_range b).
Qed.

Lemma to_from_le_bytes bs n : length bs = n → to_le_bytes n (from_le_bytes bs) = bs.
Proof.
  intros <-. unfold to_le_bytes, from_le_bytes.
  rewrite <-(length_fmap Z_of_byte bs).
  rewrite Z_to_little_endian_to_Z; [|done|lia|].
  - rewrite <-list_fmap_compose. rewrite <-(list_fmap_id bs) at 2.
    apply list_fmap_ext. intros. apply byte_of_Z_of_byte.
  - apply Forall_fmap, Forall_true. intros b. apply (Z_of_byte_range b).
Qed.

(** ** Slices and splices

    Both are characterised by their lookups; equalities between them are
    proved pointwise with [list_pointwise]. *)
Lemma lookup_slice {A} off len (l : list A) i :
  slice off len l !! i = if decide (i < len)%nat then l !! (off + i)%nat else None.
Proof.
  unfold slice. case_decide.
  - rewrite lookup_take_lt by lia. apply lookup_drop.
  - apply lookup_take_ge. lia.
Qed.

Lemma lookup_splice {A} off (src l : list A) i :
  (off + length src ≤ length l)%nat →
  splice off src l !! i =
    if decide (off ≤ i < off + length src)%nat then src !! (i - off)%nat else l !! i.
Proof.
  intros Hlen. unfold splice. assert (Ht : length (take off l) = off) by (rewrite length_take; lia).
  case_decide as Hd.
  - rewrite lookup_app_r by lia. rewrite Ht. apply lookup_app_l. lia.
  - destruct (decide (i < off)%nat).
    + rewrite lookup_app_l by lia. apply lookup_take_lt. lia.
    + rewrite lookup_app_r, lookup_app_r by lia. rewrite Ht, lookup_drop. f_equal. lia.
Qed.

Lemma length_splice {A} off (src l : list A) :
  (off + length src ≤ length l)%nat → length (splice off src l) = length l.
Proof. intros. unfold splice. rewrite !length_app, length_take, length_drop. lia. Qed.

Lemma length_slice {A} off len (l : list A) :
  (off + len ≤ length l)%nat → length (slice off len l) = len.
Proof. intros. unfold slice. rewrite length_take, length_drop. lia. Qed.

(** Pointwise equality of lists built from slices, splices, takes, drops. *)
Ltac list_pointwise :=
  apply list_eq; intros ?i;
  repeat first
    [ rewrite lookup_slice | rewrite lookup_splice by (rewrite ?length_splice; simpl in *; lia)
    | rewrite lookup_take | rewrite lookup_drop | case_decide ];
  try (exfalso; simpl in *; lia); try done.

Lemma slice_splice {A} off (src l : list A) :
  (off + length src ≤ length l)%nat → slice off (length src) (splice off src l) = src.
Proof.
  intros. apply list_eq. intros i. rewrite lookup_slice. case_decide.
  - rewrite lookup_splice by lia. rewrite decide_True by lia. f_equal. lia.
  - symmetry. apply lookup_ge_None. lia.
Qed.

Lemma slice_splice_disjoint {A} off off' len (src l : list A) :
  (off + length src ≤ length l)%nat →
  (off' + len ≤ off ∨ off + length src ≤ off')%nat →
  slice off' len (splice off src l) = slice off' len l.
Proof.
  intros. apply list_eq. intros i. rewrite !lookup_slice. case_decide; [|done].
  rewrite lookup_splice by lia. by rewrite decide_False by lia.
Qed.

Lemma drop_splice {A} off (src l : list A) :
  (off + length src ≤ length l)%nat →
  drop off (splice off src l) = src ++ drop (off + length src) l.
Proof.
  intros. unfold splice. rewrite drop_app_length'; [done|]. rewrite length_take. lia.
Qed.

Lemma splice_app {A} off (a b l : list A) :
  (off + length a + length b ≤ length l)%nat →
  splice (off + length a) b (splice off a l) = splice off (a ++ b) l.
Proof.
  intros H. apply list_eq. intros i.
  rewrite !lookup_splice by (rewrite ?length_splice, ?length_app by lia; lia).
  rewrite length_app. repeat case_decide; try lia; try done.
  - rewrite lookup_app_r by lia. f_equal. lia.
  - by rewrite lookup_app_l by lia.
Qed.

(** ** Lists *)
Lemma sublist_fmap {A B} (f : A → B) (l k : list A) :
  l `sublist_of` k → f <$> l `sublist_of` f <$> k.
Proof. induction 1; simpl; by constructor. Qed.

Lemma filter_keep_all {A} (P : A → Prop) `{!∀ x, Decision (P x)} (l : list A) :
  (∀ x, x ∈ l → P x) → filter P l = l.
Proof.
  induction l as [|x l IH]; intros Hl; [done|]. rewrite filter_cons_True by set_solver.
  f_equal. set_solver.
Qed.

Lemma list_filter_iff' {A} (P Q : A → Prop) `{∀ x, Decision (P x)} `{∀ x, Decision (Q x)} (l : list A) :
  (∀ x, x ∈ l → P x ↔ Q x) → filter P l = filter Q l.
Proof.
  induction l as [|x l IH]; intros Hl; [done|].
  assert (IH' : filter P l = filter Q l) by (apply IH; intros y Hy; apply Hl; by right).
  specialize (Hl x ltac:(left)). rewrite !filter_cons, IH'. by repeat case_decide; naive_solver.
Qed.

(** [Vec::pop]: the last element and the rest. *)
Definition vec_pop {A} (l : list A) : option (A * list A) :=
  match last l with
  | None => None
  | Some x => Some (x, take (length l - 1) l)
  end.

Lemma vec_pop_Some {A} (l : list A) x l' : vec_pop l = Some (x, l') ↔ l = l' ++ [x].
Proof.
  unfold vec_pop. split.
  - destruct (last l) as [y|] eqn:E; [|done]. intros [= -> <-].
    apply last_Some in E as [k ->]. rewrite length_app. simpl.
    rewrite take_app_length' by lia. done.
  - intros ->. rewrite last_snoc, length_app. simpl. by rewrite take_app_length' by lia.
Qed.

Lemma vec_pop_None {A} (l : list A) : vec_pop l = None ↔ l = [].
Proof.
  unfold vec_pop. destruct (last l) eqn:E.
  - split; [done|]. intros ->. done.
  - by apply last_None in E.
Qed.
