(* ===== verification/Utf8.v ===== *)
(** * UTF-8 as the Rust standard library checks it

    [str::from_utf8] accepts a byte string when it is a sequence of
    well-formed encoded characters; [String::from_utf8_lossy] replaces every
    maximal ill-formed part by U+FFFD. *)

From S2P Require Import Prelude.

Definition in_range (lo hi : Z) (b : byte) : bool := (lo <=? Z_of_byte b) && (Z_of_byte b <=? hi).
Definition is_cont (b : byte) : bool := in_range 0x80 0xBF b.

(** The bytes allowed after the lead byte of a three- and four-byte character. *)
Definition second3 (b0 b : byte) : bool :=
  if Z_of_byte b0 =? 0xE0 then in_range 0xA0 0xBF b
  else if Z_of_byte b0 =? 0xED then in_range 0x80 0x9F b else is_cont b.
Definition second4 (b0 b : byte) : bool :=
  if Z_of_byte b0 =? 0xF0 then in_range 0x90 0xBF b
  else if Z_of_byte b0 =? 0xF4 then in_range 0x80 0x8F b else is_cont b.

(** The first character of [b0 :: r]: how many bytes to take, and whether they
    are a character or a maximal ill-formed part. *)
Definition utf8_next (b0 : byte) (r : list byte) : nat * bool :=
  if Z_of_byte b0 <? 0x80 then (1%nat, true)
  else if in_range 0xC2 0xDF b0 then
    match r with
    | b1 :: _ => if is_cont b1 then (2%nat, true) else (1%nat, false)
    | [] => (1%nat, false)
    end
  else if in_range 0xE0 0xEF b0 then
    match r with
    | b1 :: r =>
        if second3 b0 b1 then
          match r with
          | b2 :: _ => if is_cont b2 then (3%nat, true) else (2%nat, false)
          | [] => (2%nat, false)
          end
        else (1%nat, false)
    | [] => (1%nat, false)
    end
  else if in_range 0xF0 0xF4 b0 then
    match r with
    | b1 :: r =>
        if second4 b0 b1 then
          match r with
          | b2 :: r =>
              if is_cont b2 then
                match r with
                | b3 :: _ => if is_cont b3 then (4%nat, true) else (3%nat, false)
                | [] => (3%nat, false)
                end
              else (2%nat, false)
          | [] => (2%nat, false)
          end
        else (1%nat, false)
    | [] => (1%nat, false)
    end
  else (1%nat, false).

(** U+FFFD. *)
Definition replacement : list byte := [xef; xbf; xbd].

Fixpoint utf8_valid_loop (fuel : nat) (bs : list byte) : bool :=
  match bs, fuel with
  | [], _ => true
  | _, O => false
  | b0 :: r, S fuel =>
      let '(n, ok) := utf8_next b0 r in
      ok && utf8_valid_loop fuel (drop n bs)
  end.

Definition utf8_valid (bs : list byte) : bool := utf8_valid_loop (length bs) bs.

Fixpoint utf8_lossy_loop (fuel : nat) (bs : list byte) : list byte :=
  match bs, fuel with
  | [], _ | _, O => []
  | b0 :: r, S fuel =>
      let '(n, ok) := utf8_next b0 r in
      (if ok then take n bs else replacement) ++ utf8_lossy_loop fuel (drop n bs)
  end.

Definition from_utf8 (bs : list byte) : option string :=
  if utf8_valid bs then Some (String.string_of_list_byte bs) else None.

Definition from_utf8_lossy (bs : list byte) : string :=
  String.string_of_list_byte (utf8_lossy_loop (length bs) bs).

(** ** Lemmas *)
Lemma utf8_next_pos b0 r : (1 ≤ (utf8_next b0 r).1)%nat.
Proof. unfold utf8_next. repeat case_match; simpl; lia. Qed.

Lemma utf8_next_len b0 r n : utf8_next b0 r = (n, true) → (n ≤ length (b0 :: r))%nat.
Proof. unfold utf8_next. repeat case_match; intros; simplify_eq; simpl; lia. Qed.

(** A character is recognised whatever follows it. *)
Lemma utf8_next_app b0 r n s :
  utf8_next b0 r = (n, true) → utf8_next b0 (take (n - 1) r ++ s) = (n, true).
Proof.
  unfold utf8_next. destruct (Z_of_byte b0 <? 0x80); [intros [= <-]; done|].
  destruct (in_range 0xC2 0xDF b0).
  { destruct r as [|b1 r]; [done|]. destruct (is_cont b1) eqn:E; intros [= <-]. simpl. by rewrite E. }
  destruct (in_range 0xE0 0xEF b0).
  { destruct r as [|b1 [|b2 r]]; try done; destruct (second3 b0 b1) eqn:E1; try done.
    destruct (is_cont b2) eqn:E2; intros [= <-]. simpl. by rewrite E1, E2. }
  destruct (in_range 0xF0 0xF4 b0); [|done].
  destruct r as [|b1 [|b2 [|b3 r]]]; try done; destruct (second4 b0 b1) eqn:E1; try done;
    destruct (is_cont b2) eqn:E2; try done.
  destruct (is_cont b3) eqn:E3; intros [= <-]. simpl. by rewrite E1, E2, E3.
Qed.

Lemma utf8_valid_fuel fuel bs : (length bs ≤ fuel)%nat → utf8_valid_loop fuel bs = utf8_valid bs.
Proof.
  unfold utf8_valid. remember (length bs) as n eqn:Hn. revert bs fuel Hn.
  induction n as [n IH] using lt_wf_ind. intros bs fuel -> Hf.
  destruct bs as [|b0 r]; [by destruct fuel|]. destruct fuel as [|fuel]; [simpl in Hf; lia|].
  cbn [length utf8_valid_loop]. pose proof (utf8_next_pos b0 r) as Hp.
  destruct (utf8_next b0 r) as [n ok]. simpl in Hp. destruct ok; [|done]. simpl.
  set (d := drop n (b0 :: r)). assert (Hd : (length d ≤ length r)%nat) by (unfold d; rewrite length_drop; simpl; lia).
  transitivity (utf8_valid_loop (length d) d).
  - apply (IH (length d)); simpl in *; lia.
  - symmetry. apply (IH (length d)); simpl in *; lia.
Qed.

(** Recognising a well-formed character in front. *)
Lemma utf8_valid_cons b0 r n s :
  utf8_next b0 r = (n, true) → utf8_valid (take n (b0 :: r) ++ s) = utf8_valid s.
Proof.
  intros E. pose proof (utf8_next_pos b0 r) as Hp. pose proof (utf8_next_len b0 r n E) as Hl.
  rewrite E in Hp. simpl in Hp, Hl. destruct n as [|n]; [lia|]. simpl.
  unfold utf8_valid at 1. simpl. pose proof (utf8_next_app b0 r (S n) s E) as Ha. simpl in Ha.
  rewrite Nat.sub_0_r in Ha. rewrite Ha. simpl.
  assert (Hlen : length (take n r) = n) by (rewrite length_take; lia).
  rewrite drop_app_length' by done. apply utf8_valid_fuel. rewrite length_app. lia.
Qed.

(** The lossy conversion gives well-formed text, and keeps well-formed text. *)
Lemma utf8_lossy_valid fuel bs : utf8_valid (utf8_lossy_loop fuel bs) = true.
Proof.
  revert bs. induction fuel as [|fuel IH]; intros [|b0 r]; try done. cbn [utf8_lossy_loop].
  destruct (utf8_next b0 r) as [n ok] eqn:E. destruct ok; [by rewrite (utf8_valid_cons _ _ _ _ E)|].
  change replacement with (take 3 (xef :: [xbf; xbd])). by rewrite (utf8_valid_cons xef [xbf; xbd] 3).
Qed.

Lemma utf8_lossy_id bs : utf8_valid bs = true → utf8_lossy_loop (length bs) bs = bs.
Proof.
  unfold utf8_valid. generalize (length bs). intros fuel. revert bs.
  induction fuel as [|fuel IH]; intros [|b0 r]; try done. cbn [utf8_valid_loop utf8_lossy_loop].
  destruct (utf8_next b0 r) as [n ok]. intros [-> Hv]%andb_true_iff.
  rewrite IH by done. apply take_drop.
Qed.

Lemma from_utf8_lossy_id bs s : from_utf8 bs = Some s → from_utf8_lossy bs = s.
Proof.
  unfold from_utf8, from_utf8_lossy. destruct (utf8_valid bs) eqn:E; [|done]. intros [= <-].
  by rewrite utf8_lossy_id.
Qed.

Lemma utf8_valid_ascii bs : Forall (λ b, Z_of_byte b < 128) bs → utf8_valid bs = true.
Proof.
  induction 1 as [|b bs Hb _ IH]; [done|]. unfold utf8_valid. cbn [length utf8_valid_loop]. unfold utf8_next.
  rewrite (proj2 (Z.ltb_lt _ _)) by lia. exact IH.
Qed.
