(* ===== verification/Blocks.v ===== *)
(** * Blocks: the interface of the block cache ([easy-fs/src/block_dev.rs], [block_cache.rs])

    A device stores blocks of 512 bytes.  [BlockStore] is what the file system
    uses of the block cache: a block is handed out behind a lock, its content
    is read or replaced, and it is given back.  [StoreLaws] is what the file
    system relies on: a flat array of blocks, whatever is cached at the moment.
    [BlockCache] implements the interface and proves the laws. *)

From Stdlib Require Import FunctionalExtensionality.
From stdpp Require Import functions gmap.
From S2P Require Import Prelude.

Definition BLOCK_SZ : Z := 512.
Abbreviation BLOCK_LEN := 512%nat.
Abbreviation Block := (list byte).

(** ** The device *)

(** The trait [BlockDevice]; its implementations (the virtio driver, a host
    file) panic on an error. *)
Class BlockDevice (D : Type) : Type := {
  read_block : Z → D → outcome Block;
  write_block : Z → Block → D → outcome D;
}.

(** A device that stores blocks. *)
Class DeviceLaws (D : Type) `{!BlockDevice D} : Type := {
  dev_size : D → Z;
  dev_block : D → Z → Block;
  dev_block_length d b : 0 ≤ b < dev_size d → length (dev_block d b) = BLOCK_LEN;
  read_block_ok d b : 0 ≤ b < dev_size d → read_block b d = Ret (dev_block d b);
  write_block_ok d b data :
    0 ≤ b < dev_size d → length data = BLOCK_LEN →
    ∃ d', write_block b data d = Ret d' ∧ dev_size d' = dev_size d ∧
      dev_block d' = <[b := data]> (dev_block d);
}.

(** ** What the file system asks of its blocks *)
Class BlockStore (S : Type) : Type := {
  acquire : Z → S → outcome (Block * S);
  release : Z → option Block → S → outcome S;
  sync_all : S → outcome S;
}.

Class StoreLaws (S : Type) `{!BlockStore S} : Type := {
  st_wf : S → Prop;
  st_size : S → Z;
  st_view : S → Z → Block;
  st_held : S → gset Z;
  st_view_length s b : st_wf s → 0 ≤ b < st_size s → length (st_view s b) = BLOCK_LEN;
  acquire_ok s b :
    st_wf s → 0 ≤ b < st_size s → b ∉ st_held s → (size (st_held s) < 16)%nat →
    ∃ s', acquire b s = Ret (st_view s b, s') ∧ st_wf s' ∧ st_size s' = st_size s ∧
      st_view s' = st_view s ∧ st_held s' = {[b]} ∪ st_held s;
  release_ok s b o :
    st_wf s → b ∈ st_held s → (∀ d, o = Some d → length d = BLOCK_LEN) →
    ∃ s', release b o s = Ret s' ∧ st_wf s' ∧ st_size s' = st_size s ∧
      st_view s' = <[b := default (st_view s b) o]> (st_view s) ∧ st_held s' = st_held s ∖ {[b]};
  sync_all_ok s :
    st_wf s → st_held s = ∅ →
    ∃ s', sync_all s = Ret s' ∧ st_wf s' ∧ st_size s' = st_size s ∧ st_view s' = st_view s ∧ st_held s' = ∅;
}.

(** ** Views: blocks by number *)
Lemma insert_id_view (v : Z → Block) b : <[b := v b]> v = v.
Proof. apply functional_extensionality. intros x. unfold insert, fn_insert. by case_decide; subst. Qed.

Lemma insert_insert_view (v : Z → Block) b x y : <[b := x]> (<[b := y]> v) = <[b := x]> v.
Proof. apply functional_extensionality. intros c. unfold insert, fn_insert. by case_decide. Qed.

Lemma insert_comm_view (v : Z → Block) b c x y : b ≠ c → <[b := x]> (<[c := y]> v) = <[c := y]> (<[b := x]> v).
Proof.
  intros. apply functional_extensionality. intros z. unfold insert, fn_insert.
  repeat case_decide; congruence.
Qed.

Lemma lookup_insert_view (v : Z → Block) b x : <[b := x]> v b = x.
Proof. unfold insert, fn_insert. by rewrite decide_True. Qed.

Lemma lookup_insert_view_ne (v : Z → Block) b c x : c ≠ b → <[b := x]> v c = v c.
Proof. intros. unfold insert, fn_insert. by rewrite decide_False. Qed.

(** ** Access to a typed part of a block

    [BlockCache::read] and [BlockCache::modify] with a closure; [sz] is the
    size of the closure's type, its value the [sz] bytes at [off].  The entry
    stays locked while the closure runs. *)
Section Access.
Context {S : Type} `{!BlockStore S}.

Definition read {A} (b : Z) (off sz : nat) (f : Block → S → outcome (A * S)) (s : S) : outcome (A * S) :=
  '(data, s) ← acquire b s;
  _ ← rassert (off + sz <=? BLOCK_LEN)%nat;
  '(a, s) ← f (slice off sz data) s;
  s ← release b None s;
  Ret (a, s).

Definition modify {A} (b : Z) (off sz : nat) (f : Block → S → outcome (A * Block * S)) (s : S) : outcome (A * S) :=
  '(data, s) ← acquire b s;
  _ ← rassert (off + sz <=? BLOCK_LEN)%nat;
  '(a, part, s) ← f (slice off sz data) s;
  s ← release b (Some (splice off part data)) s;
  Ret (a, s).

Definition block_cache_sync_all (s : S) : outcome S := sync_all s.

Context `{!StoreLaws S}.

(** [s'] has the same size and locks as [s] and shows the blocks [v]. *)
Definition shows (s s' : S) (v : Z → Block) : Prop :=
  st_wf s' ∧ st_size s' = st_size s ∧ st_held s' = st_held s ∧ st_view s' = v.

(** [s1] is [s] with block [b] locked. *)
Definition locked (b : Z) (s s1 : S) : Prop :=
  st_wf s1 ∧ st_size s1 = st_size s ∧ st_view s1 = st_view s ∧ st_held s1 = {[b]} ∪ st_held s.

(** The block may be locked now. *)
Definition can_lock (b : Z) (s : S) : Prop :=
  st_wf s ∧ 0 ≤ b < st_size s ∧ b ∉ st_held s ∧ (size (st_held s) < 16)%nat.

Lemma shows_refl s : st_wf s → shows s s (st_view s).
Proof. done. Qed.

Lemma shows_trans s1 s2 s3 v2 v3 : shows s1 s2 v2 → shows s2 s3 v3 → shows s1 s3 v3.
Proof. unfold shows. intros (?&?&?&?) (?&?&?&?). split_and!; congruence. Qed.

(** The closure runs on the locked state; whatever it establishes of its
    result holds afterwards. *)
Lemma read_spec {A} b off sz (f : Block → S → outcome (A * S)) s (Q : A → (Z → Block) → Prop) :
  can_lock b s → (off + sz ≤ BLOCK_LEN)%nat →
  (∀ s1, locked b s s1 → ∃ a s2 v', f (slice off sz (st_view s b)) s1 = Ret (a, s2) ∧ shows s1 s2 v' ∧ Q a v') →
  ∃ a s' v', read b off sz f s = Ret (a, s') ∧ shows s s' v' ∧ Q a v'.
Proof.
  intros (Hwf & Hb & Hh & Hsz) Hoff Hf. unfold read.
  destruct (acquire_ok s b Hwf Hb Hh Hsz) as (s1 & -> & Hwf1 & Hs1 & Hv1 & Hh1). cbn [mbind outcome_bind].
  rewrite (proj2 (Nat.leb_le _ _) Hoff). cbn [rassert mbind outcome_bind].
  destruct (Hf s1) as (a & s2 & v' & -> & (Hwf2 & Hs2 & Hh2 & Hv2) & HQ); [done|]. cbn [mbind outcome_bind].
  destruct (release_ok s2 b None Hwf2) as (s3 & -> & Hwf3 & Hs3 & Hv3 & Hh3); [set_solver|done|].
  cbn [mbind outcome_bind]. exists a, s3, v'. split; [done|]. split; [|done]. split_and!; [done|congruence|rewrite Hh3, Hh2, Hh1; clear -Hh; set_solver|].
  rewrite Hv3. simpl. by rewrite insert_id_view.
Qed.

Lemma modify_spec {A} b off sz (f : Block → S → outcome (A * Block * S)) s (Q : A → Block → (Z → Block) → Prop) :
  can_lock b s → (off + sz ≤ BLOCK_LEN)%nat →
  (∀ s1, locked b s s1 → ∃ a part s2 v',
     f (slice off sz (st_view s b)) s1 = Ret (a, part, s2) ∧ length part = sz ∧ shows s1 s2 v' ∧ Q a part v') →
  ∃ a part s' v', modify b off sz f s = Ret (a, s') ∧ shows s s' (<[b := splice off part (st_view s b)]> v') ∧
    length part = sz ∧ Q a part v'.
Proof.
  intros (Hwf & Hb & Hh & Hsz) Hoff Hf. unfold modify. pose proof (st_view_length s b Hwf Hb) as Hl.
  destruct (acquire_ok s b Hwf Hb Hh Hsz) as (s1 & -> & Hwf1 & Hs1 & Hv1 & Hh1). cbn [mbind outcome_bind].
  rewrite (proj2 (Nat.leb_le _ _) Hoff). cbn [rassert mbind outcome_bind].
  destruct (Hf s1) as (a & part & s2 & v' & -> & Hp & (Hwf2 & Hs2 & Hh2 & Hv2) & HQ); [done|]. cbn [mbind outcome_bind].
  destruct (release_ok s2 b (Some (splice off part (st_view s b))) Hwf2) as (s3 & -> & Hwf3 & Hs3 & Hv3 & Hh3);
    [set_solver|intros d [= <-]; by rewrite length_splice by (rewrite Hl; lia)|].
  cbn [mbind outcome_bind]. exists a, part, s3, v'. split; [done|]. split; [|done].
  split_and!; [done|congruence|rewrite Hh3, Hh2, Hh1; clear -Hh; set_solver|]. by rewrite Hv3, Hv2.
Qed.

Lemma read_ok {A} b off sz (f : Block → S → outcome (A * S)) s (a : A) v' :
  can_lock b s → (off + sz ≤ BLOCK_LEN)%nat →
  (∀ s1, locked b s s1 → ∃ s2, f (slice off sz (st_view s b)) s1 = Ret (a, s2) ∧ shows s1 s2 v') →
  ∃ s', read b off sz f s = Ret (a, s') ∧ shows s s' v'.
Proof.
  intros Hc Hoff Hf. destruct (read_spec b off sz f s (λ a' v, a' = a ∧ v = v') Hc Hoff) as (a' & s' & v & E & Hs & -> & ->); [|eauto].
  intros s1 Hl. destruct (Hf s1 Hl) as (s2 & ? & ?). by exists a, s2, v'.
Qed.

Lemma modify_ok {A} b off sz (f : Block → S → outcome (A * Block * S)) s (a : A) part v' :
  can_lock b s → (off + sz ≤ BLOCK_LEN)%nat → length part = sz →
  (∀ s1, locked b s s1 → ∃ s2, f (slice off sz (st_view s b)) s1 = Ret (a, part, s2) ∧ shows s1 s2 v') →
  ∃ s', modify b off sz f s = Ret (a, s') ∧ shows s s' (<[b := splice off part (st_view s b)]> v').
Proof.
  intros Hc Hoff Hp Hf.
  destruct (modify_spec b off sz f s (λ a' p v, a' = a ∧ p = part ∧ v = v') Hc Hoff) as (a' & p & s' & v & E & Hs & _ & -> & -> & ->);
    [|eauto].
  intros s1 Hl. destruct (Hf s1 Hl) as (s2 & ? & ?). by exists a, part, s2, v'.
Qed.

(** A closure that does not use other blocks. *)
Lemma read_pure b off sz {A} (g : Block → A) s :
  can_lock b s → (off + sz ≤ BLOCK_LEN)%nat →
  ∃ s', read b off sz (λ p s, Ret (g p, s)) s = Ret (g (slice off sz (st_view s b)), s') ∧ shows s s' (st_view s).
Proof.
  intros Hc Ho. apply read_ok; [done|done|]. intros s1 (Hwf & ? & Hv & ?). exists s1. split; [done|].
  rewrite <-Hv. by apply shows_refl.
Qed.

Lemma modify_pure b off sz {A} (g : Block → A * Block) s :
  can_lock b s → (off + sz ≤ BLOCK_LEN)%nat → length (g (slice off sz (st_view s b))).2 = sz →
  ∃ s', modify b off sz (λ p s, Ret (g p, s)) s = Ret ((g (slice off sz (st_view s b))).1, s') ∧
    shows s s' (<[b := splice off (g (slice off sz (st_view s b))).2 (st_view s b)]> (st_view s)).
Proof.
  intros Hc Ho Hl. apply (modify_ok b off sz _ s _ _ (st_view s)); [done|done|done|].
  intros s1 (Hwf & ? & Hv & ?). exists s1. split; [by destruct (g _)|]. rewrite <-Hv. by apply shows_refl.
Qed.

(** Closures over a whole block. *)
Lemma slice_whole (blk : Block) : length blk = BLOCK_LEN → slice 0 BLOCK_LEN blk = blk.
Proof.
  intros H. unfold slice. rewrite drop_0. apply take_ge. lia.
Qed.

Lemma splice_whole (p blk : Block) : length p = BLOCK_LEN → length blk = BLOCK_LEN → splice 0 p blk = p.
Proof.
  intros Hp Hb. unfold splice. rewrite take_0, drop_ge by lia. by rewrite app_nil_l, app_nil_r.
Qed.

Lemma can_lock_length b s : can_lock b s → length (st_view s b) = BLOCK_LEN.
Proof. intros (? & ? & _). by apply st_view_length. Qed.

Lemma read_block_pure b {A} (g : Block → A) s :
  can_lock b s →
  ∃ s', read b 0 BLOCK_LEN (λ p s, Ret (g p, s)) s = Ret (g (st_view s b), s') ∧ shows s s' (st_view s).
Proof.
  intros Hc. destruct (read_pure b 0 BLOCK_LEN g s Hc ltac:(lia)) as (s' & E & Hs). exists s'. split; [|done].
  by rewrite slice_whole in E by (by apply can_lock_length).
Qed.

Lemma modify_block {A} b (f : Block → S → outcome (A * Block * S)) s (a : A) part v' :
  can_lock b s → length part = BLOCK_LEN →
  (∀ s1, locked b s s1 → ∃ s2, f (st_view s b) s1 = Ret (a, part, s2) ∧ shows s1 s2 v') →
  ∃ s', modify b 0 BLOCK_LEN f s = Ret (a, s') ∧ shows s s' (<[b := part]> v').
Proof.
  intros Hc Hp Hf. pose proof (can_lock_length b s Hc) as Hl.
  destruct (modify_ok b 0 BLOCK_LEN f s a part v' Hc ltac:(lia) Hp) as (s' & E & Hs).
  { by rewrite slice_whole. }
  exists s'. split; [done|]. by rewrite splice_whole in Hs.
Qed.

Lemma modify_block_pure b {A} (g : Block → A * Block) s :
  can_lock b s → length (g (st_view s b)).2 = BLOCK_LEN →
  ∃ s', modify b 0 BLOCK_LEN (λ p s, Ret (g p, s)) s = Ret ((g (st_view s b)).1, s') ∧
    shows s s' (<[b := (g (st_view s b)).2]> (st_view s)).
Proof.
  intros Hc Hp. apply modify_block; [done|done|]. intros s1 (Hwf & ? & Hv & ?). exists s1.
  split; [by destruct (g _)|]. rewrite <-Hv. by apply shows_refl.
Qed.

(** Two more blocks may be locked, one inside the other. *)
Definition ready (b : Z) (s : S) : Prop :=
  st_wf s ∧ 0 ≤ b < st_size s ∧ b ∉ st_held s ∧ (size (st_held s) < 14)%nat.

Lemma ready_can_lock b s : ready b s → can_lock b s.
Proof. intros (? & ? & ? & ?). split_and!; try done; lia. Qed.

Lemma ready_shows b s s' v : shows s s' v → ready b s → ready b s'.
Proof. unfold ready. intros (? & -> & -> & ?) (? & ? & ? & ?). tauto. Qed.

Lemma size_locked b s s1 : locked b s s1 → (size (st_held s1) ≤ Datatypes.S (size (st_held s)))%nat.
Proof.
  intros (_ & _ & _ & ->). destruct (decide (b ∈ st_held s)).
  - replace ({[b]} ∪ st_held s) with (st_held s) by set_solver. lia.
  - rewrite size_union by set_solver. by rewrite size_singleton.
Qed.

Lemma ready_locked b b' s s1 : locked b s s1 → ready b' s → b' ≠ b → can_lock b' s1.
Proof.
  intros Hl (Hwf & Hr & Hh & Hs) Hne. pose proof (size_locked _ _ _ Hl). destruct Hl as (Hwf1 & Hsz & _ & Hh1).
  split_and!; [done|lia|lia|rewrite Hh1; set_solver|lia].
Qed.

Lemma can_lock_shows b s s' v : shows s s' v → can_lock b s → can_lock b s'.
Proof. unfold can_lock. intros (? & -> & -> & ?) (? & ? & ? & ?). tauto. Qed.
End Access.
