(* ===== verification/Words.v ===== *)
(** * Integers inside a block

    The file system views a block as an array of little-endian integers:
    [[u64; 64]] in a bitmap, [[u32; 128]] in an indirect block. *)

From S2P Require Import Prelude.

(** [arr[i]] and [arr[i] = v] for an array of [k]-byte integers. *)
Definition get_word (k i : nat) (blk : list byte) : Z := from_le_bytes (slice (k * i) k blk).
Definition set_word (k i : nat) (v : Z) (blk : list byte) : list byte := splice (k * i) (to_le_bytes k v) blk.

Lemma length_set_word k i v blk : (k * i + k ≤ length blk)%nat → length (set_word k i v blk) = length blk.
Proof. intros. unfold set_word. apply length_splice. by rewrite length_to_le_bytes. Qed.

Lemma get_set_word k i v blk :
  (k * i + k ≤ length blk)%nat → get_word k i (set_word k i v blk) = v mod 2 ^ (8 * Z.of_nat k).
Proof.
  intros. unfold get_word, set_word. rewrite <-(length_to_le_bytes k v) at 2.
  rewrite slice_splice by (by rewrite length_to_le_bytes). apply from_to_le_bytes.
Qed.

Lemma get_set_word_other k i j v blk :
  (k * i + k ≤ length blk)%nat → i ≠ j → get_word k j (set_word k i v blk) = get_word k j blk.
Proof.
  intros. unfold get_word, set_word. rewrite slice_splice_disjoint; [done|by rewrite length_to_le_bytes|].
  rewrite length_to_le_bytes. nia.
Qed.

Lemma get_word_range k i blk : (k * i + k ≤ length blk)%nat → 0 ≤ get_word k i blk < 2 ^ (8 * Z.of_nat k).
Proof.
  intros. unfold get_word. pose proof (from_le_bytes_range (slice (k * i) k blk)) as H'.
  by rewrite length_slice in H' by done.
Qed.

(** Setting a word to the value it has changes nothing. *)
Lemma set_get_word k i blk : (k * i + k ≤ length blk)%nat → set_word k i (get_word k i blk) blk = blk.
Proof.
  intros. unfold set_word, get_word. rewrite to_from_le_bytes by (by apply length_slice).
  unfold splice. rewrite length_slice by done. unfold slice. by rewrite <-drop_drop, !take_drop.
Qed.

(** Positions: word and offset in it. *)
Lemma div_mod_add a b q : 0 ≤ b < q → (a * q + b) / q = a ∧ (a * q + b) mod q = b.
Proof.
  intros. split; [rewrite Z.div_add_l, Z.div_small by lia; lia|].
  rewrite Z.add_comm, Z.mod_add by lia. by apply Z.mod_small.
Qed.

Lemma div_bound n q k : 0 < q → 0 ≤ n < k * q → 0 ≤ n / q < k.
Proof. intros. split; [apply Z.div_pos; lia|apply Z.div_lt_upper_bound; lia]. Qed.
