(* ===== verification/BlockCache.v ===== *)
(** * The block cache ([easy-fs/src/block_cache.rs])

    The cache holds at most 16 blocks of the device.  A block is handed out as
    an [Arc] of a locked entry, and an entry whose [Arc] is held by running
    code is not evicted.  In this crate such an [Arc] lives exactly as long as
    the guard of the entry's lock, so one flag [held] stands for both: a held
    entry has [strong_count] 2, any other 1.  Taking a lock that is held spins
    for ever. *)

From Stdlib Require Import FunctionalExtensionality.
From stdpp Require Import functions gmap.
From S2P Require Import Prelude Blocks.

(** ** The cache *)
Record BlockCache : Type := mkBlockCache {
  cache : Block;
  block_id : Z;
  modified : bool;
  held : bool;
}.

Record Store (D : Type) : Type := mkStore { queue : list (Z * BlockCache); device : D }.
Arguments mkStore {D} queue device.
Arguments queue {D} s.
Arguments device {D} s.

Definition BLOCK_CACHE_SIZE : nat := 16.

Definition set_held (h : bool) (c : BlockCache) : BlockCache := mkBlockCache (cache c) (block_id c) (modified c) h.

(** [self.queue.iter().find(|pair| pair.0 == block_id)] *)
Fixpoint assoc {A} (b : Z) (q : list (Z * A)) : option A :=
  match q with
  | [] => None
  | (b', c) :: q => if b' =? b then Some c else assoc b q
  end.

Fixpoint update {A} (b : Z) (f : A → A) (q : list (Z * A)) : list (Z * A) :=
  match q with
  | [] => []
  | (b', c) :: q => if b' =? b then (b', f c) :: q else (b', c) :: update b f q
  end.

Section Cache.
Context {D : Type} `{!BlockDevice D}.

(** [BlockCache::new] *)
Definition BlockCache_new (b : Z) (d : D) : outcome BlockCache :=
  data ← read_block b d; Ret (mkBlockCache data b false false).

(** [BlockCache::sync], also run when an entry is dropped. *)
Definition sync (c : BlockCache) (d : D) : outcome (BlockCache * D) :=
  if modified c then
    d ← write_block (block_id c) (cache c) d;
    Ret (mkBlockCache (cache c) (block_id c) false (held c), d)
  else Ret (c, d).

Definition drop_cache (c : BlockCache) (d : D) : outcome D := '(_, d) ← sync c d; Ret d.

(** The substitution: the first entry that nobody holds is dropped. *)
Definition substitute (s : Store D) : outcome (Store D) :=
  if (length (queue s) =? BLOCK_CACHE_SIZE)%nat then
    match list_find (λ p, held p.2 = false) (queue s) with
    | Some (idx, p) => d ← drop_cache p.2 (device s); Ret (mkStore (delete idx (queue s)) d)
    | None => Panic
    end
  else Ret s.

(** [BlockCacheManager::get_block_cache]: the entry is in the queue afterwards. *)
Definition get_block_cache (b : Z) (s : Store D) : outcome (Store D) :=
  match assoc b (queue s) with
  | Some _ => Ret s
  | None =>
      s ← substitute s;
      c ← BlockCache_new b (device s);
      Ret (mkStore (queue s ++ [(b, c)]) (device s))
  end.

(** [Mutex::lock] on the entry. *)
Definition lock (b : Z) (s : Store D) : outcome (Block * Store D) :=
  c ← unwrap (assoc b (queue s));
  if held c : bool then NoFuel
  else Ret (cache c, mkStore (update b (set_held true) (queue s)) (device s)).

(** Giving the lock back, after [read] or [modify]. *)
Definition give_back (data : option Block) (c : BlockCache) : BlockCache :=
  match data with
  | Some d => mkBlockCache d (block_id c) true false
  | None => set_held false c
  end.
Definition unlock (b : Z) (data : option Block) (s : Store D) : outcome (Store D) :=
  Ret (mkStore (update b (give_back data) (queue s)) (device s)).

(** [block_cache_sync_all]: every entry is locked in turn. *)
Fixpoint sync_queue (q : list (Z * BlockCache)) (d : D) : outcome (list (Z * BlockCache) * D) :=
  match q with
  | [] => Ret ([], d)
  | (b, c) :: q =>
      if held c : bool then NoFuel else
      '(c, d) ← sync c d;
      '(q, d) ← sync_queue q d;
      Ret ((b, c) :: q, d)
  end.

#[export] Instance cache_store : BlockStore (Store D) := {
  acquire b s := s ← get_block_cache b s; lock b s;
  release := unlock;
  sync_all s := '(q, d) ← sync_queue (queue s) (device s); Ret (mkStore q d);
}.

Definition BlockCacheManager_new (d : D) : Store D := mkStore [] d.
End Cache.

(** ** Association lists *)
Section Assoc.
Context {A : Type}.
Implicit Types q : list (Z * A).

Lemma assoc_Some_in b q c : assoc b q = Some c → (b, c) ∈ q.
Proof.
  induction q as [|[b' c'] q IH]; simpl; [done|]. destruct (Z.eqb_spec b' b) as [->|]; [intros [= ->]; left|].
  right. by apply IH.
Qed.

Lemma assoc_in b q c : NoDup q.*1 → (b, c) ∈ q → assoc b q = Some c.
Proof.
  induction q as [|[b' c'] q IH]; simpl; intros Hn Hin; [by apply elem_of_nil in Hin|].
  apply NoDup_cons in Hn as [Hnin Hn]. apply elem_of_cons in Hin as [[= -> ->]|Hin]; [by rewrite Z.eqb_refl|].
  destruct (Z.eqb_spec b' b) as [->|]; [|by apply IH]. destruct Hnin. apply list_elem_of_fmap. by exists (b, c).
Qed.

Lemma assoc_None b q : assoc b q = None ↔ b ∉ q.*1.
Proof.
  induction q as [|[b' c'] q IH]; simpl; [by split; [intros _ ?%elem_of_nil|]|].
  destruct (Z.eqb_spec b' b); [set_solver|]. set_solver.
Qed.

Lemma assoc_app b q q' : assoc b (q ++ q') = match assoc b q with Some c => Some c | None => assoc b q' end.
Proof. induction q as [|[b' c'] q IH]; simpl; [done|]. by destruct (b' =? b). Qed.

Lemma assoc_update b f q b' :
  assoc b' (update b f q) = if b' =? b then f <$> assoc b q else assoc b' q.
Proof.
  induction q as [|[b1 c1] q IH]; simpl; [by destruct (_ =? _)|].
  destruct (Z.eqb_spec b1 b) as [->|Hne]; simpl.
  - rewrite (Z.eqb_sym b b'). by destruct (b' =? b).
  - rewrite IH. destruct (Z.eqb_spec b1 b') as [->|]; [|done]. by rewrite (proj2 (Z.eqb_neq _ _)) by done.
Qed.

Lemma keys_update b f q : (update b f q).*1 = q.*1.
Proof. induction q as [|[b1 c1] q IH]; [done|]. cbn [update]. destruct (_ =? _); [done|]. rewrite !fmap_cons. by rewrite IH. Qed.

Lemma keys_sublist q q' : q' `sublist_of` q → NoDup q.*1 → NoDup q'.*1.
Proof. intros Hs Hn. eapply sublist_NoDup; [|by apply sublist_fmap]. done. Qed.

Lemma Forall_update (P : Z * A → Prop) b f q :
  (∀ c, assoc b q = Some c → P (b, c) → P (b, f c)) → Forall P q → Forall P (update b f q).
Proof.
  induction q as [|[b1 c1] q IH]; simpl; intros Hf Hq; [done|]. inversion_clear Hq.
  destruct (Z.eqb_spec b1 b) as [->|]; constructor; auto.
Qed.
End Assoc.

(** ** The cache implements the interface *)
Section Laws.
Context {D : Type} `{!BlockDevice D, !DeviceLaws D}.
Implicit Types s : Store D.

Definition entry_ok (d : D) (p : Z * BlockCache) : Prop :=
  p.1 = block_id p.2 ∧ 0 ≤ p.1 < dev_size d ∧ length (cache p.2) = BLOCK_LEN ∧
  (modified p.2 = false → cache p.2 = dev_block d p.1).

Record cache_ok (s : Store D) : Prop := {
  co_nodup : NoDup (queue s).*1;
  co_length : (length (queue s) ≤ BLOCK_CACHE_SIZE)%nat;
  co_entry : Forall (entry_ok (device s)) (queue s);
}.

(** The content of a block: the cached one if there is one. *)
Definition view_of (q : list (Z * BlockCache)) (d : D) (b : Z) : Block :=
  match assoc b q with Some c => cache c | None => dev_block d b end.
Definition cache_view (s : Store D) : Z → Block := view_of (queue s) (device s).

Definition held_ids (s : Store D) : list Z := (filter (λ p, held p.2 = true) (queue s)).*1.
Definition held_set (s : Store D) : gset Z := list_to_set (held_ids s).

Lemma elem_of_held_set s b :
  NoDup (queue s).*1 → b ∈ held_set s ↔ ∃ c, assoc b (queue s) = Some c ∧ held c = true.
Proof.
  intros Hn. unfold held_set, held_ids. rewrite elem_of_list_to_set, list_elem_of_fmap. split.
  - intros ([b' c] & -> & [Hh Hin]%list_elem_of_filter). exists c. split; [by apply assoc_in|done].
  - intros (c & Hc%assoc_Some_in & Hh). exists (b, c). by rewrite list_elem_of_filter.
Qed.

Lemma size_held_set s : NoDup (queue s).*1 → size (held_set s) = length (held_ids s).
Proof.
  intros Hn. apply size_list_to_set. unfold held_ids. eapply keys_sublist; [|done]. apply sublist_filter.
Qed.

Lemma entry_of s b c : cache_ok s → assoc b (queue s) = Some c → entry_ok (device s) (b, c).
Proof. intros Hok Hc%assoc_Some_in. pose proof (co_entry s Hok) as Hf. rewrite Forall_forall in Hf. by apply Hf. Qed.

Lemma entry_ok_write d d' p b data :
  dev_size d' = dev_size d → dev_block d' = <[b := data]> (dev_block d) →
  (p.1 = b → cache p.2 = data) → entry_ok d p → entry_ok d' p.
Proof.
  unfold entry_ok. intros Hs Hb Hd (A & B & C & E). rewrite Hs, Hb. split_and!; try done; try lia. intros Hm.
  unfold insert, fn_insert. case_decide; [by apply Hd|by apply E].
Qed.

Lemma sync_ok d b c :
  entry_ok d (b, c) →
  ∃ d', sync c d = Ret (mkBlockCache (cache c) (block_id c) false (held c), d') ∧ dev_size d' = dev_size d ∧
    dev_block d' = <[b := cache c]> (dev_block d).
Proof.
  intros (Hid & Hr & Hl & Hm). simpl in *. unfold sync. destruct (modified c) eqn:E.
  - rewrite <-Hid. destruct (write_block_ok d b (cache c) Hr Hl) as (d' & -> & Hs & Hb). cbn [mbind outcome_bind]. eauto.
  - exists d. split_and!; [|done|].
    + destruct c as [ca i m h]. simpl in *. by subst.
    + rewrite Hm by done. symmetry. apply insert_id_view.
Qed.

Lemma view_delete q d idx b c :
  NoDup q.*1 → q !! idx = Some (b, c) → view_of (delete idx q) (d) = <[b := dev_block d b]> (view_of q d).
Proof.
  intros Hn Hi. apply functional_extensionality. intros x. unfold view_of, insert, fn_insert.
  rewrite delete_take_drop. apply take_drop_middle in Hi. set (q1 := take idx q) in *. set (q2 := drop (S idx) q) in *.
  clearbody q1 q2. subst q. rewrite !assoc_app. simpl.
  rewrite fmap_app, fmap_cons in Hn. simpl in Hn. apply NoDup_app in Hn as (_ & Hd & [Hb _]%NoDup_cons).
  destruct (decide (x = b)) as [->|Hx].
  - rewrite decide_True by done. rewrite (proj2 (assoc_None _ q1)), (proj2 (assoc_None _ q2)); [done|done|].
    intros Hin. apply (Hd b Hin). by left.
  - rewrite decide_False by done. by rewrite (proj2 (Z.eqb_neq b x)) by congruence.
Qed.

Lemma find_unheld s :
  cache_ok s → length (queue s) = BLOCK_CACHE_SIZE → (size (held_set s) < 16)%nat →
  ∃ i b c, list_find (λ p, held p.2 = false) (queue s) = Some (i, (b, c)).
Proof.
  intros Hok Hl Hs. destruct (list_find _ _) as [[i [b c]]|] eqn:E; [eauto|]. apply list_find_None in E.
  rewrite size_held_set in Hs by apply Hok. unfold held_ids in Hs. rewrite length_fmap, filter_keep_all in Hs.
  - unfold BLOCK_CACHE_SIZE in *. lia.
  - intros p Hp. rewrite Forall_forall in E. specialize (E p Hp). by destruct (held p.2).
Qed.

(** Making room keeps the view and whatever is held. *)
Lemma substitute_ok s :
  cache_ok s → (size (held_set s) < 16)%nat →
  ∃ s', substitute s = Ret s' ∧ cache_ok s' ∧ (length (queue s') < BLOCK_CACHE_SIZE)%nat ∧
    dev_size (device s') = dev_size (device s) ∧ cache_view s' = cache_view s ∧ held_set s' = held_set s ∧
    (queue s').*1 ⊆ (queue s).*1.
Proof.
  intros Hok Hs. unfold substitute. destruct (Nat.eqb_spec (length (queue s)) BLOCK_CACHE_SIZE) as [Hl|Hl].
  2: { exists s. pose proof (co_length s Hok). split_and!; try done; lia. }
  destruct (find_unheld s Hok Hl Hs) as (i & b & c & E). rewrite E. cbn [snd].
  apply list_find_Some in E as (Hi & Hh & _). simpl in Hh. pose proof (co_nodup s Hok) as Hn.
  assert (Hc : assoc b (queue s) = Some c) by (apply assoc_in; [done|by eapply list_elem_of_lookup_2]).
  destruct (sync_ok (device s) b c) as (d' & Es & Hsz & Hb); [by apply entry_of|].
  unfold drop_cache. rewrite Es. cbn [mbind outcome_bind]. eexists. split; [done|].
  assert (Hsub : delete i (queue s) `sublist_of` queue s) by apply sublist_delete.
  split_and!.
  - split; simpl.
    + by eapply keys_sublist.
    + apply sublist_length in Hsub. pose proof (co_length s Hok). lia.
    + apply Forall_forall. intros p Hp. apply (entry_ok_write (device s) d' p b (cache c)); [done|done| |].
      * intros Hpb. assert (Hp' : p ∈ queue s) by (by eapply sublist_subseteq).
        destruct p as [b' c']. simpl in *. subst b'. apply (assoc_in b _ c') in Hp'; [congruence|done].
      * pose proof (co_entry s Hok) as Hf. rewrite Forall_forall in Hf. apply Hf. by eapply sublist_subseteq.
  - simpl. rewrite length_delete by eauto. rewrite Hl. unfold BLOCK_CACHE_SIZE. lia.
  - done.
  - unfold cache_view. simpl. rewrite (view_delete _ _ _ b c Hn Hi), Hb.
    apply functional_extensionality. intros x. unfold view_of, insert, fn_insert. case_decide as Hx.
    + subst x. rewrite Hc. by destruct (decide (b = b)).
    + destruct (assoc x (queue s)); [done|]. rewrite Hb. unfold insert, fn_insert. by rewrite decide_False.
  - apply set_eq. intros x. rewrite !elem_of_held_set; simpl; [|done|by eapply keys_sublist].
    split; intros (c' & Hx & Hh'); exists c'; split; try done.
    + apply assoc_Some_in in Hx. apply assoc_in; [done|]. by eapply sublist_subseteq.
    + apply assoc_in; [by eapply keys_sublist|].
      apply assoc_Some_in in Hx. apply list_elem_of_lookup in Hx as [j Hj]. apply list_elem_of_lookup.
      destruct (decide (j = i)) as [->|]; [exfalso; simplify_eq; congruence|].
      destruct (decide (j < i)%nat); [exists j; by rewrite list_lookup_delete_lt|exists (pred j)].
      rewrite list_lookup_delete_ge by lia. by replace (S (pred j)) with j by lia.
  - simpl. intros x Hx. apply list_elem_of_fmap in Hx as (p & -> & Hp). apply list_elem_of_fmap. exists p. split; [done|].
    by eapply sublist_subseteq.
Qed.
Lemma get_block_cache_ok s b :
  cache_ok s → 0 ≤ b < dev_size (device s) → (size (held_set s) < 16)%nat →
  ∃ s' c, get_block_cache b s = Ret s' ∧ cache_ok s' ∧ dev_size (device s') = dev_size (device s) ∧
    cache_view s' = cache_view s ∧ held_set s' = held_set s ∧ assoc b (queue s') = Some c.
Proof.
  intros Hok Hb Hs. unfold get_block_cache. destruct (assoc b (queue s)) as [c|] eqn:Ec; [by exists s, c|].
  destruct (substitute_ok s Hok Hs) as (s1 & -> & Hok1 & Hl1 & Hd1 & Hv1 & Hh1 & Hk1). cbn [mbind outcome_bind].
  assert (Hnin : b ∉ (queue s1).*1) by (apply assoc_None in Ec; intros Hin; by apply Ec, Hk1).
  unfold BlockCache_new. rewrite read_block_ok by lia. cbn [mbind outcome_bind].
  set (c := mkBlockCache _ _ _ _). exists (mkStore (queue s1 ++ [(b, c)]) (device s1)), c.
  assert (Hn : NoDup (queue s1 ++ [(b, c)]).*1).
  { rewrite fmap_app. apply NoDup_app. split_and!; [apply Hok1|set_solver|apply NoDup_singleton]. }
  assert (Hc : assoc b (queue s1 ++ [(b, c)]) = Some c) by (apply assoc_in; set_solver).
  split_and!; try done.
  - split; simpl; [done|rewrite length_app; simpl; lia|]. apply Forall_app. split; [apply Hok1|].
    apply Forall_singleton. split_and!; simpl; try done; try lia. by rewrite dev_block_length by lia.
  - rewrite <-Hv1. apply functional_extensionality. intros x. unfold cache_view, view_of. simpl. rewrite assoc_app.
    destruct (assoc x (queue s1)); [done|]. simpl. destruct (Z.eqb_spec b x) as [->|]; done.
  - rewrite <-Hh1. unfold held_set, held_ids. simpl. rewrite filter_app. f_equal.
    rewrite filter_cons_False by done. by rewrite filter_nil, app_nil_r.
Qed.

(** Replacing one entry by one with the same block number. *)
Lemma update_ok s b c f :
  cache_ok s → assoc b (queue s) = Some c → entry_ok (device s) (b, f c) →
  cache_ok (mkStore (update b f (queue s)) (device s)) ∧
  cache_view (mkStore (update b f (queue s)) (device s)) = <[b := cache (f c)]> (cache_view s) ∧
  held_set (mkStore (update b f (queue s)) (device s)) =
    if held (f c) then {[b]} ∪ held_set s else held_set s ∖ {[b]}.
Proof.
  intros Hok Hc He. assert (Hn : NoDup (update b f (queue s)).*1) by (rewrite keys_update; apply Hok). split_and!.
  - split; simpl; [done| |].
    + rewrite <-(length_fmap fst), keys_update, length_fmap. apply Hok.
    + apply Forall_update; [|apply Hok]. intros c' Hc' _. by rewrite Hc in Hc'; injection Hc' as <-.
  - apply functional_extensionality. intros x. unfold cache_view, view_of, insert, fn_insert. simpl.
    rewrite assoc_update. destruct (Z.eqb_spec x b) as [->|Hx]; [by rewrite decide_True, Hc by done|].
    by rewrite decide_False by congruence.
  - apply set_eq. intros x. rewrite elem_of_held_set by done. simpl. rewrite assoc_update.
    destruct (Z.eqb_spec x b) as [->|Hx].
    + rewrite Hc. simpl. destruct (held (f c)) eqn:Hh; [set_solver|].
      split; [intros (? & [= <-] & ?); congruence|set_solver].
    + rewrite <-elem_of_held_set by apply Hok. destruct (held (f c)); set_solver.
Qed.

Lemma lock_ok s b c :
  cache_ok s → assoc b (queue s) = Some c → held c = false →
  ∃ s', lock b s = Ret (cache_view s b, s') ∧ cache_ok s' ∧ dev_size (device s') = dev_size (device s) ∧
    cache_view s' = cache_view s ∧ held_set s' = {[b]} ∪ held_set s.
Proof.
  intros Hok Hc Hh. unfold lock. rewrite Hc. cbn [unwrap mbind outcome_bind]. rewrite Hh.
  assert (Hv : cache_view s b = cache c) by (unfold cache_view, view_of; by rewrite Hc).
  destruct (update_ok s b c (set_held true) Hok Hc) as (A & B & C); [by apply (entry_of s b c)|].
  eexists. rewrite Hv. split_and!; [done|done|done| |done]. rewrite B. simpl. rewrite <-Hv. apply insert_id_view.
Qed.

Lemma unlock_ok s b o :
  cache_ok s → b ∈ held_set s → (∀ d, o = Some d → length d = BLOCK_LEN) →
  ∃ s', unlock b o s = Ret s' ∧ cache_ok s' ∧ dev_size (device s') = dev_size (device s) ∧
    cache_view s' = <[b := default (cache_view s b) o]> (cache_view s) ∧ held_set s' = held_set s ∖ {[b]}.
Proof.
  intros Hok Hb Ho. apply elem_of_held_set in Hb as (c & Hc & Hh); [|apply Hok].
  destruct (entry_of s b c Hok Hc) as (Hid & Hr & Hl & Hm). simpl in *. unfold unlock.
  destruct (update_ok s b c (give_back o) Hok Hc) as (A & B & C).
  { destruct o as [d|]; unfold entry_ok; simpl; split_and!; try done; try lia. by apply Ho. }
  assert (Hf : held (give_back o c) = false) by by destruct o. rewrite Hf in C.
  eexists. split_and!; [done|done|done| |done]. rewrite B. f_equal. unfold cache_view, view_of. rewrite Hc. by destruct o.
Qed.

Lemma sync_queue_ok q : ∀ d,
  NoDup q.*1 → Forall (entry_ok d) q → Forall (λ p, held p.2 = false) q →
  ∃ q' d', sync_queue q d = Ret (q', d') ∧ q'.*1 = q.*1 ∧ dev_size d' = dev_size d ∧ Forall (entry_ok d') q' ∧
    Forall (λ p, held p.2 = false) q' ∧ dev_block d' = view_of q d ∧ view_of q' d' = view_of q d.
Proof.
  induction q as [|[b c] q IH]; intros d Hn He Hh; simpl.
  { exists [], d. split_and!; done. }
  inversion_clear He as [|? ? Hc He']. inversion_clear Hh as [|? ? Hc' Hh']. simpl in Hc'. rewrite Hc'.
  rewrite fmap_cons in Hn. apply NoDup_cons in Hn as [Hb Hn].
  destruct (sync_ok d b c Hc) as (d1 & -> & Hs1 & Hb1). cbn [mbind outcome_bind].
  destruct (IH d1) as (q' & d' & -> & Hk & Hs & Hq & Hhq & Hdv & Hv); [done| |done|].
  { apply Forall_forall. intros p Hp. rewrite Forall_forall in He'. apply (entry_ok_write d d1 p b (cache c)); auto.
    intros <-. destruct Hb. apply list_elem_of_fmap. by exists p. }
  cbn [mbind outcome_bind].
  assert (Hvq : view_of q d1 = view_of ((b, c) :: q) d).
  { apply functional_extensionality. intros x. unfold view_of. simpl. rewrite Hb1. unfold insert, fn_insert.
    destruct (Z.eqb_spec b x) as [->|Hx].
    - simpl in Hb. rewrite (proj2 (assoc_None x q) Hb). by rewrite decide_True by done.
    - destruct (assoc x q); [done|]. by rewrite decide_False by congruence. }
  assert (Hbv : dev_block d' b = cache c) by (rewrite Hdv, Hvq; unfold view_of; simpl; by rewrite Z.eqb_refl).
  set (c' := mkBlockCache _ _ _ _). exists ((b, c') :: q'), d'. destruct Hc as (A & B & C & E). simpl in *.
  split_and!; [done|change (b :: q'.*1 = b :: q.*1); by rewrite Hk|congruence| | |congruence|].
  - constructor; [|done]. unfold entry_ok. simpl. split_and!; try done; lia.
  - by constructor.
  - apply functional_extensionality. intros x. rewrite <-Hvq, <-Hv. unfold view_of. simpl.
    destruct (Z.eqb_spec b x) as [<-|]; [|done]. rewrite (proj2 (assoc_None _ q')); [by rewrite Hbv|by rewrite Hk].
Qed.

Lemma held_none s : Forall (λ p, held p.2 = false) (queue s) → held_set s = ∅.
Proof.
  intros Hf. unfold held_set, held_ids. rewrite Forall_forall in Hf.
  destruct (filter _ _) as [|p l] eqn:E; [done|]. assert (Hp : p ∈ filter (λ p, held p.2 = true) (queue s)) by (rewrite E; by left).
  apply list_elem_of_filter in Hp as [Hh Hp]. specialize (Hf p Hp). simpl in Hf. congruence.
Qed.

Lemma none_held s : cache_ok s → held_set s = ∅ → Forall (λ p, held p.2 = false) (queue s).
Proof.
  intros Hok Hs. apply Forall_forall. intros [b c] Hp. simpl. destruct (held c) eqn:Hh; [|done].
  assert (b ∈ held_set s); [|set_solver]. apply elem_of_held_set; [apply Hok|]. exists c. split; [|done].
  apply assoc_in; [apply Hok|done].
Qed.

(** What the interface leaves out: after [sync_all] the device itself has every block. *)
Lemma sync_all_durable s :
  cache_ok s → held_set s = ∅ →
  ∃ s', sync_all s = Ret s' ∧ cache_ok s' ∧ dev_size (device s') = dev_size (device s) ∧
    cache_view s' = cache_view s ∧ held_set s' = ∅ ∧ dev_block (device s') = cache_view s.
Proof.
  intros Hok Hh. assert (Hf := none_held s Hok Hh).
  destruct (sync_queue_ok (queue s) (device s)) as (q' & d' & E & Hk & Hs & Hq & Hhq & Hdv & Hv); [apply Hok|apply Hok|done|].
  simpl. rewrite E. cbn [mbind outcome_bind]. eexists. split; [done|]. split_and!; try done.
  - split; simpl; [rewrite Hk; apply Hok| |done]. rewrite <-(length_fmap fst), Hk, length_fmap. apply Hok.
  - by apply held_none.
Qed.

#[export] Instance cache_laws : StoreLaws (Store D).
Proof.
  refine {| st_wf := cache_ok; st_size s := dev_size (device s); st_view := cache_view; st_held := held_set |}.
  - intros s b Hok Hb. unfold cache_view, view_of. destruct (assoc b (queue s)) as [c|] eqn:Hc; [|by apply dev_block_length].
    by destruct (entry_of s b c Hok Hc) as (_ & _ & ? & _).
  - intros s b Hok Hb Hnh Hsz. destruct (get_block_cache_ok s b Hok Hb Hsz) as (s1 & c & E & Hok1 & Hd1 & Hv1 & Hh1 & Hc).
    assert (Hhc : held c = false).
    { destruct (held c) eqn:Hhc; [|done]. destruct Hnh. rewrite <-Hh1. apply elem_of_held_set; [apply Hok1|]. eauto. }
    destruct (lock_ok s1 b c Hok1 Hc Hhc) as (s2 & E2 & Hok2 & Hd2 & Hv2 & Hh2).
    exists s2. simpl. rewrite E. cbn [mbind outcome_bind]. rewrite E2, Hv1. split_and!; try done; congruence.
  - apply unlock_ok.
  - intros s Hok Hh. destruct (sync_all_durable s Hok Hh) as (s' & ? & ? & ? & ? & ? & _). exists s'. by split_and!.
Defined.

Lemma BlockCacheManager_new_ok d :
  st_wf (BlockCacheManager_new d) ∧ st_held (BlockCacheManager_new d) = ∅ ∧ st_view (BlockCacheManager_new d) = dev_block d.
Proof.
  split_and!; [|done|done]. split; simpl; [apply NoDup_nil_2|unfold BLOCK_CACHE_SIZE; lia|constructor].
Qed.
End Laws.
