(* ===== verification/Bitmap.v ===== *)
(** * Bitmaps of the file system ([easy-fs/src/bitmap.rs])

    A bitmap is a run of blocks; bit [n] set means that inode or data block
    [n] is in use.  [alloc] takes the lowest clear bit. *)

From stdpp Require Import functions gmap.
From S2P Require Import Prelude Blocks Words.

Definition BLOCK_BITS : Z := BLOCK_SZ * 8.
Definition U64_MAX : Z := 2 ^ 64 - 1.

Record Bitmap : Type := mkBitmap { start_block_id : Z; blocks : Z }.

Definition decomposition (bit : Z) : Z * Z * Z :=
  let block_pos := bit / BLOCK_BITS in
  let bit := bit mod BLOCK_BITS in
  (block_pos, bit / 64, bit mod 64).

(** [u64::trailing_ones], the fuel being the width. *)
Fixpoint trailing_ones (width : nat) (w : Z) : Z :=
  match width with
  | O => 0
  | S width => if Z.odd w then 1 + trailing_ones width (w / 2) else 0
  end.

(** The block as [[u64; 64]]. *)
Definition words64 (blk : Block) : list Z := (λ i, get_word 8 i blk) <$> seq 0 64.

(** The closure of [alloc] on bitmap block [block_id]. *)
Definition alloc_in_block (block_id : Z) (blk : Block) : option Z * Block :=
  match list_find (λ w, w ≠ U64_MAX) (words64 blk) with
  | Some (bits64_pos, bits64) =>
      let inner_pos := trailing_ones 64 bits64 in
      (Some (block_id * BLOCK_BITS + Z.of_nat bits64_pos * 64 + inner_pos),
       set_word 8 bits64_pos (Z.lor bits64 (Z.shiftl 1 inner_pos)) blk)
  | None => (None, blk)
  end.

Section Bitmaps.
Context {S : Type} `{!BlockStore S}.

(** [for block_id in 0..self.blocks], [n] iterations left. *)
Fixpoint alloc_loop (n : nat) (block_id : Z) (bm : Bitmap) (s : S) : outcome (option Z * S) :=
  match n with
  | O => Ret (None, s)
  | Datatypes.S n =>
      '(pos, s) ← modify (block_id + start_block_id bm) 0 BLOCK_LEN
                    (λ blk s, Ret (alloc_in_block block_id blk, s)) s;
      match pos with
      | Some pos => Ret (Some pos, s)
      | None => alloc_loop n (block_id + 1) bm s
      end
  end.

Definition alloc (bm : Bitmap) (s : S) : outcome (option Z * S) := alloc_loop (Z.to_nat (blocks bm)) 0 bm s.

Definition dealloc (bm : Bitmap) (bit : Z) (s : S) : outcome S :=
  let '(block_pos, bits64_pos, inner_pos) := decomposition bit in
  '(_, s) ← modify (block_pos + start_block_id bm) 0 BLOCK_LEN
              (λ blk s,
                 let w := get_word 8 (Z.to_nat bits64_pos) blk in
                 _ ← rassert (0 <? Z.land w (Z.shiftl 1 inner_pos));
                 Ret (tt, set_word 8 (Z.to_nat bits64_pos) (u64 (w - Z.shiftl 1 inner_pos)) blk, s)) s;
  Ret s.
End Bitmaps.

Definition maximum (bm : Bitmap) : Z := blocks bm * BLOCK_BITS.

(** ** Bits of a bitmap *)
Definition bit_at (blk : Block) (n : Z) : bool := Z.testbit (get_word 8 (Z.to_nat (n / 64)) blk) (n mod 64).

Definition bit_of (bm : Bitmap) (v : Z → Block) (n : Z) : bool :=
  bit_at (v (start_block_id bm + n / BLOCK_BITS)) (n mod BLOCK_BITS).

(** The view after bit [n] was set to [b], as the bits show it. *)
Definition bit_set (bm : Bitmap) (n : Z) (b : bool) (v v' : Z → Block) : Prop :=
  (∃ blk, length blk = BLOCK_LEN ∧ v' = <[start_block_id bm + n / BLOCK_BITS := blk]> v) ∧
  ∀ m, 0 ≤ m < maximum bm → bit_of bm v' m = if m =? n then b else bit_of bm v m.

Lemma trailing_ones_spec k : ∀ w,
  0 ≤ w < 2 ^ Z.of_nat k → w ≠ 2 ^ Z.of_nat k - 1 →
  0 ≤ trailing_ones k w < Z.of_nat k ∧ Z.testbit w (trailing_ones k w) = false ∧
  ∀ j, 0 ≤ j < trailing_ones k w → Z.testbit w j = true.
Proof.
  induction k as [|k IH]; intros w Hw Hne; [simpl in *; lia|]. cbn [trailing_ones].
  rewrite Nat2Z.inj_succ, Z.pow_succ_r in * by lia. destruct (Z.odd w) eqn:Ho.
  - assert (Hw2 : w = 2 * (w / 2) + 1) by (rewrite (Z.div_mod w 2) at 1 by lia; rewrite Zmod_odd, Ho; lia).
    set (u := w / 2) in *. clearbody u. subst w. destruct (IH u) as (A & B & C); [lia|lia|].
    replace (1 + trailing_ones k u) with (Z.succ (trailing_ones k u)) by lia.
    split_and!; [lia|lia|by rewrite Z.testbit_odd_succ by lia|].
    intros j Hj. destruct (decide (j = 0)) as [->|]; [apply Z.testbit_odd_0|].
    replace j with (Z.succ (j - 1)) by lia. rewrite Z.testbit_odd_succ by lia. apply C. lia.
  - split_and!; [lia|lia| |lia]. by rewrite Z.bit0_odd.
Qed.

Lemma bit_at_set blk i w n :
  length blk = BLOCK_LEN → (i < 64)%nat → 0 ≤ w < 2 ^ 64 → 0 ≤ n < BLOCK_BITS →
  bit_at (set_word 8 i w blk) n = if n / 64 =? Z.of_nat i then Z.testbit w (n mod 64) else bit_at blk n.
Proof.
  intros Hl Hi Hw Hn. unfold bit_at, BLOCK_BITS, BLOCK_SZ in *. destruct (Z.eqb_spec (n / 64) (Z.of_nat i)) as [E|E].
  - rewrite E, Nat2Z.id, get_set_word by lia. by rewrite Z.mod_small.
  - rewrite get_set_word_other; [done|lia|]. intros ->. apply E. rewrite Z2Nat.id; [done|]. apply Z.div_pos; lia.
Qed.

(** One word whose bit [j] changes changes one bit of the block. *)
Lemma bit_at_word_bit blk i w j b n :
  length blk = BLOCK_LEN → (i < 64)%nat → 0 ≤ j < 64 → 0 ≤ w < 2 ^ 64 → 0 ≤ n < BLOCK_BITS →
  (∀ x, 0 ≤ x < 64 → Z.testbit w x = if x =? j then b else Z.testbit (get_word 8 i blk) x) →
  bit_at (set_word 8 i w blk) n = if n =? Z.of_nat i * 64 + j then b else bit_at blk n.
Proof.
  intros Hl Hi Hj Hw Hn Hb. rewrite bit_at_set by done.
  pose proof (Z.div_mod n 64 ltac:(lia)) as Hdm. pose proof (Z.mod_pos_bound n 64 ltac:(lia)).
  destruct (Z.eqb_spec (n / 64) (Z.of_nat i)) as [E|E].
  - rewrite Hb by (apply Z.mod_pos_bound; lia). unfold bit_at. rewrite E, Nat2Z.id.
    destruct (Z.eqb_spec (n mod 64) j), (Z.eqb_spec n (Z.of_nat i * 64 + j)); try done; exfalso; lia.
  - destruct (Z.eqb_spec n (Z.of_nat i * 64 + j)) as [->|]; [|done]. exfalso. apply E.
    rewrite Z.div_add_l, Z.div_small by lia. lia.
Qed.

Lemma words64_lookup blk i w : words64 blk !! i = Some w → (i < 64)%nat ∧ w = get_word 8 i blk.
Proof. unfold words64. intros H. apply list_lookup_fmap_Some in H as (j & -> & [-> Hj]%lookup_seq). simpl in *. by split. Qed.

Lemma words64_get blk i : (i < 64)%nat → words64 blk !! i = Some (get_word 8 i blk).
Proof. intros. unfold words64. by rewrite list_lookup_fmap, lookup_seq_lt by lia. Qed.

Lemma lor_bit_range w j : 0 ≤ w < 2 ^ 64 → 0 ≤ j < 64 → 0 ≤ Z.lor w (Z.shiftl 1 j) < 2 ^ 64.
Proof.
  intros Hw Hj. rewrite Z.shiftl_1_l. assert (0 < 2 ^ j) by (apply Z.pow_pos_nonneg; lia).
  assert (0 ≤ Z.lor w (2 ^ j)) by (apply Z.lor_nonneg; lia). split; [done|].
  destruct (decide (Z.lor w (2 ^ j) = 0)) as [->|]; [lia|].
  apply Z.log2_lt_pow2; [lia|]. rewrite Z.log2_lor, Z.log2_pow2 by lia. apply Z.max_lub_lt; [|lia].
  destruct (decide (w = 0)) as [->|]; [simpl; lia|apply Z.log2_lt_pow2; lia].
Qed.

Lemma alloc_in_block_ok id blk :
  length blk = BLOCK_LEN →
  match alloc_in_block id blk with
  | (Some pos, blk') => ∃ n, 0 ≤ n < BLOCK_BITS ∧ pos = id * BLOCK_BITS + n ∧ length blk' = BLOCK_LEN ∧
      bit_at blk n = false ∧ (∀ m, 0 ≤ m < n → bit_at blk m = true) ∧
      ∀ m, 0 ≤ m < BLOCK_BITS → bit_at blk' m = if m =? n then true else bit_at blk m
  | (None, blk') => blk' = blk ∧ ∀ m, 0 ≤ m < BLOCK_BITS → bit_at blk m = true
  end.
Proof.
  intros Hl. unfold alloc_in_block.
  assert (Hmax : ∀ i m, (i < 64)%nat → get_word 8 i blk = U64_MAX → m / 64 = Z.of_nat i → bit_at blk m = true).
  { intros i m Hi Hw Hm. unfold bit_at. rewrite Hm, Nat2Z.id, Hw. change U64_MAX with (Z.ones 64).
    apply Z.ones_spec_low. apply Z.mod_pos_bound. lia. }
  destruct (list_find _ _) as [[i w]|] eqn:E.
  - apply list_find_Some in E as (Hi & Hne & Hbefore). apply words64_lookup in Hi as [Hi ->].
    pose proof (get_word_range 8 i blk ltac:(lia)) as Hr. change (8 * Z.of_nat 8) with 64 in Hr.
    destruct (trailing_ones_spec 64 (get_word 8 i blk) Hr Hne) as (A & B & C). change (Z.of_nat 64) with 64 in A.
    set (t := trailing_ones 64 (get_word 8 i blk)) in *.
    assert (Hbit : ∀ x, 0 ≤ x < 64 → Z.testbit (Z.lor (get_word 8 i blk) (Z.shiftl 1 t)) x =
      if x =? t then true else Z.testbit (get_word 8 i blk) x).
    { intros x Hx. rewrite Z.lor_spec, Z.shiftl_1_l, Z.pow2_bits_eqb by lia.
      rewrite (Z.eqb_sym t x). by destruct (x =? t); rewrite ?orb_true_r, ?orb_false_r. }
    clearbody t. destruct (div_mod_add (Z.of_nat i) t 64 A) as [Hd Hm].
    exists (Z.of_nat i * 64 + t). unfold BLOCK_BITS, BLOCK_SZ. split_and!; try lia.
    + rewrite length_set_word; [done|lia].
    + unfold bit_at. by rewrite Hd, Hm, Nat2Z.id.
    + intros m Hlt. destruct (decide (m / 64 = Z.of_nat i)) as [Ei|Ei].
      * unfold bit_at. rewrite Ei, Nat2Z.id. apply C. pose proof (Z.div_mod m 64 ltac:(lia)).
        pose proof (Z.mod_pos_bound m 64 ltac:(lia)). lia.
      * assert (Hq : 0 ≤ m / 64 < Z.of_nat i).
        { pose proof (Z.div_mod m 64 ltac:(lia)). pose proof (Z.mod_pos_bound m 64 ltac:(lia)). lia. }
        apply (Hmax (Z.to_nat (m / 64))); [lia| |lia].
        apply dec_stable, (Hbefore (Z.to_nat (m / 64))); [|lia]. apply words64_get. lia.
    + intros m Hlt. apply (bit_at_word_bit blk i _ t true m); try done. by apply lor_bit_range.
  - split; [done|]. intros m Hm. apply list_find_None in E. rewrite Forall_lookup in E.
    apply (div_bound m 64 64) in Hm; [|lia]. apply (Hmax (Z.to_nat (m / 64))); [lia| |lia].
    apply dec_stable, (E (Z.to_nat (m / 64))), words64_get. lia.
Qed.

Lemma length_alloc_in_block id blk : length blk = BLOCK_LEN → length (alloc_in_block id blk).2 = BLOCK_LEN.
Proof.
  intros Hl. pose proof (alloc_in_block_ok id blk Hl) as H. destruct (alloc_in_block id blk) as [[pos|] blk']; simpl.
  - by destruct H as (n & _ & _ & H & _).
  - by destruct H as [-> _].
Qed.

(** ** Allocation and release in the store *)
Section Laws.
Context {S : Type} `{!BlockStore S, !StoreLaws S}.

(** The blocks of the bitmap may be locked. *)
Definition bm_ready (bm : Bitmap) (s : S) : Prop :=
  st_wf s ∧ 0 ≤ blocks bm ∧ ∀ b, start_block_id bm ≤ b < start_block_id bm + blocks bm → can_lock b s.

Lemma bm_ready_shows bm s s' v : shows s s' v → bm_ready bm s → bm_ready bm s'.
Proof. intros Hs (_ & ? & H). split_and!; [apply Hs|done|]. intros b Hb. by eapply can_lock_shows, H. Qed.

Lemma bit_of_split bm v id n :
  0 ≤ n < BLOCK_BITS → bit_of bm v (id * BLOCK_BITS + n) = bit_at (v (start_block_id bm + id)) n.
Proof. intros Hn. unfold bit_of. by destruct (div_mod_add id n BLOCK_BITS Hn) as [-> ->]. Qed.

(** Rewriting one bitmap block so that exactly one bit changes. *)
Lemma bit_set_block bm v id n b blk' :
  0 ≤ n < BLOCK_BITS → length blk' = BLOCK_LEN →
  (∀ m, 0 ≤ m < BLOCK_BITS → bit_at blk' m = if m =? n then b else bit_at (v (start_block_id bm + id)) m) →
  bit_set bm (id * BLOCK_BITS + n) b v (<[start_block_id bm + id := blk']> v).
Proof.
  intros Hn Hl Hb. destruct (div_mod_add id n BLOCK_BITS Hn) as [Hd Hm]. split; [exists blk'; by rewrite Hd|].
  intros m Hr. unfold bit_of, insert, fn_insert. assert (Hmr := Z.mod_pos_bound m BLOCK_BITS ltac:(done)).
  pose proof (Z.div_mod m BLOCK_BITS ltac:(done)) as Hdm.
  destruct (Z.eqb_spec m (id * BLOCK_BITS + n)) as [->|Hne].
  - rewrite Hd, Hm, decide_True, Hb by done. by rewrite Z.eqb_refl.
  - destruct (decide (m / BLOCK_BITS = id)) as [Hi|Hi].
    + rewrite decide_True by congruence. rewrite Hb by done.
      rewrite (proj2 (Z.eqb_neq (m mod BLOCK_BITS) n)) by (intros He; apply Hne; rewrite Hdm, Hi, He; lia). by rewrite Hi.
    + by rewrite decide_False by lia.
Qed.

Lemma alloc_loop_ok bm k : ∀ id s,
  bm_ready bm s → 0 ≤ id → id + Z.of_nat k = blocks bm →
  (∀ m, 0 ≤ m < id * BLOCK_BITS → bit_of bm (st_view s) m = true) →
  (∃ s', alloc_loop k id bm s = Ret (None, s') ∧ shows s s' (st_view s) ∧
     ∀ m, 0 ≤ m < maximum bm → bit_of bm (st_view s) m = true) ∨
  (∃ n s' v', alloc_loop k id bm s = Ret (Some n, s') ∧ shows s s' v' ∧ 0 ≤ n < maximum bm ∧
     bit_of bm (st_view s) n = false ∧ (∀ m, 0 ≤ m < n → bit_of bm (st_view s) m = true) ∧
     bit_set bm n true (st_view s) v').
Proof.
  induction k as [|k IH]; intros id s Hr Hid Hk Hlow; simpl.
  { left. exists s. split_and!; [done|by apply shows_refl, Hr|]. unfold maximum. by replace (blocks bm) with id by lia. }
  destruct Hr as (Hwf & Hbl & Hr). assert (Hb : can_lock (id + start_block_id bm) s) by (apply Hr; lia).
  pose proof (can_lock_length _ _ Hb) as Hlen. rewrite (Z.add_comm id (start_block_id bm)) in *.
  destruct (modify_block_pure _ (alloc_in_block id) s Hb) as (s1 & -> & Hs1); [by apply length_alloc_in_block|].
  cbn [mbind outcome_bind]. pose proof (alloc_in_block_ok id _ Hlen) as Ha.
  destruct (alloc_in_block id (st_view s (start_block_id bm + id))) as [[pos|] blk']; simpl in *.
  - right. destruct Ha as (n & Hn & -> & Hl' & Hclr & Hbelow & Hbits).
    exists (id * BLOCK_BITS + n), s1. eexists. split; [done|]. split; [done|].
    split_and!; [unfold BLOCK_BITS, BLOCK_SZ in *; lia|unfold maximum; unfold BLOCK_BITS, BLOCK_SZ in *; nia| | |by apply bit_set_block].
    + by rewrite bit_of_split.
    + intros m Hm. destruct (decide (m < id * BLOCK_BITS)); [apply Hlow; lia|].
      replace m with (id * BLOCK_BITS + (m - id * BLOCK_BITS)) by lia.
      rewrite bit_of_split by lia. apply Hbelow. lia.
  - destruct Ha as [-> Hall]. rewrite insert_id_view in Hs1. pose proof Hs1 as (_ & _ & _ & Hv1).
    destruct (IH (id + 1) s1) as [(s' & E & Hs' & Hf)|(n & s' & v' & E & Hs' & Hn & Hf & Hb' & Hset)];
      [by eapply bm_ready_shows; [|split_and!]|lia|lia| | |].
    2: { left. exists s'. rewrite Hv1 in *. split_and!; [done|by eapply shows_trans|done]. }
    2: { right. exists n, s', v'. rewrite Hv1 in *. split_and!; try done; try lia. by eapply shows_trans. }
    rewrite Hv1. intros m Hm.
    destruct (decide (m < id * BLOCK_BITS)); [apply Hlow; lia|].
    replace m with (id * BLOCK_BITS + (m - id * BLOCK_BITS)) by lia.
    rewrite bit_of_split by lia. apply Hall. lia.
Qed.

Lemma alloc_ok bm s :
  bm_ready bm s →
  (∃ s', alloc bm s = Ret (None, s') ∧ shows s s' (st_view s) ∧
     ∀ m, 0 ≤ m < maximum bm → bit_of bm (st_view s) m = true) ∨
  (∃ n s' v', alloc bm s = Ret (Some n, s') ∧ shows s s' v' ∧ 0 ≤ n < maximum bm ∧
     bit_of bm (st_view s) n = false ∧ (∀ m, 0 ≤ m < n → bit_of bm (st_view s) m = true) ∧
     bit_set bm n true (st_view s) v').
Proof. intros Hr. apply alloc_loop_ok; [done|lia| |lia]. destruct Hr as (_ & ? & _). lia. Qed.

Lemma land_bit w j : 0 ≤ w → 0 ≤ j → (0 <? Z.land w (Z.shiftl 1 j)) = Z.testbit w j.
Proof.
  intros Hw Hj. rewrite Z.shiftl_1_l. destruct (Z.testbit w j) eqn:E.
  - apply Z.ltb_lt. assert (Z.land w (2 ^ j) ≠ 0); [|pose proof (Z.land_nonneg w (2 ^ j)); lia].
    intros H0. apply (f_equal (λ z, Z.testbit z j)) in H0. rewrite Z.land_spec, E, Z.pow2_bits_true, Z.bits_0 in H0; done.
  - replace (Z.land w (2 ^ j)) with 0; [done|]. symmetry. apply Z.bits_inj'. intros n Hn.
    rewrite Z.land_spec, Z.bits_0, Z.pow2_bits_eqb by done. destruct (Z.eqb_spec j n) as [->|]; [by rewrite E|apply andb_false_r].
Qed.

(** Subtracting a set bit clears it. *)
Lemma sub_bit w j x :
  0 ≤ w < 2 ^ 64 → 0 ≤ j < 64 → Z.testbit w j = true → 0 ≤ x →
  0 ≤ w - Z.shiftl 1 j < 2 ^ 64 ∧ Z.testbit (w - Z.shiftl 1 j) x = if x =? j then false else Z.testbit w x.
Proof.
  intros Hw Hj Hb Hx. rewrite Z.shiftl_1_l.
  assert (Hl : Z.lxor w (2 ^ j) = w - 2 ^ j).
  { rewrite Z.sub_nocarry_ldiff.
    - apply Z.bits_inj'. intros n Hn. rewrite Z.lxor_spec, Z.ldiff_spec, Z.pow2_bits_eqb by lia.
      destruct (Z.eqb_spec j n) as [->|]; [by rewrite Hb|by rewrite xorb_false_r, andb_true_r].
    - apply Z.bits_inj'. intros n Hn. rewrite Z.ldiff_spec, Z.pow2_bits_eqb, Z.bits_0 by lia.
      destruct (Z.eqb_spec j n) as [->|]; [by rewrite Hb|done]. }
  assert (Hle : 2 ^ j ≤ w).
  { destruct (decide (2 ^ j ≤ w)); [done|]. exfalso.
    rewrite <-(Z.mod_small w (2 ^ j)) in Hb by lia. rewrite Z.mod_pow2_bits_high in Hb by lia. done. }
  assert (0 < 2 ^ j) by (apply Z.pow_pos_nonneg; lia). split; [lia|].
  rewrite <-Hl, Z.lxor_spec, Z.pow2_bits_eqb by lia. rewrite (Z.eqb_sym x j).
  destruct (Z.eqb_spec j x) as [->|]; [by rewrite Hb|by rewrite xorb_false_r].
Qed.

(** [dealloc] panics unless the bit is set, and clears exactly that bit. *)
Lemma dealloc_ok bm n s :
  bm_ready bm s → 0 ≤ n < maximum bm → bit_of bm (st_view s) n = true →
  ∃ s' v', dealloc bm n s = Ret s' ∧ shows s s' v' ∧ bit_set bm n false (st_view s) v'.
Proof.
  intros (Hwf0 & Hbl & Hr) Hn Hb. unfold maximum in Hn. pose proof (Z.div_mod n BLOCK_BITS ltac:(done)) as Hdm.
  set (id := n / BLOCK_BITS) in *. assert (Hmr := Z.mod_pos_bound n BLOCK_BITS ltac:(done)).
  set (k := n mod BLOCK_BITS) in *.
  assert (Hid : 0 ≤ id < blocks bm) by (apply div_bound; [done|lia]).
  assert (Hc : can_lock (id + start_block_id bm) s) by (apply Hr; lia). pose proof (can_lock_length _ _ Hc) as Hlen.
  cbv beta iota zeta delta [dealloc decomposition]. fold id k. rewrite (Z.add_comm id (start_block_id bm)) in *.
  set (blk := st_view s (start_block_id bm + id)) in *.
  assert (Hi : 0 ≤ k / 64 < 64) by (apply div_bound; [done|exact Hmr]). assert (Hj := Z.mod_pos_bound k 64 ltac:(done)).
  pose proof (Z.div_mod k 64 ltac:(done)) as Hkd.
  set (w := get_word 8 (Z.to_nat (k / 64)) blk).
  assert (Hw : 0 ≤ w < 2 ^ 64) by (apply (get_word_range 8); rewrite Hlen; lia).
  assert (Hwb : Z.testbit w (k mod 64) = true) by exact Hb.
  pose proof (sub_bit w (k mod 64) 0 Hw Hj Hwb ltac:(lia)) as [Hsr _].
  set (blk' := set_word 8 (Z.to_nat (k / 64)) (u64 (w - Z.shiftl 1 (k mod 64))) blk).
  assert (Hl' : length blk' = BLOCK_LEN) by (unfold blk'; by rewrite length_set_word by (rewrite Hlen; lia)).
  destruct (modify_block (start_block_id bm + id) (λ blk s,
      _ ← rassert (0 <? Z.land (get_word 8 (Z.to_nat (k / 64)) blk) (Z.shiftl 1 (k mod 64)));
      Ret (tt, set_word 8 (Z.to_nat (k / 64)) (u64 (get_word 8 (Z.to_nat (k / 64)) blk - Z.shiftl 1 (k mod 64))) blk, s)) s tt blk' (st_view s) Hc Hl')
    as (s' & E & Hs).
  { intros s1 (Hwf & ? & Hv & ?). exists s1. fold blk w. rewrite land_bit, Hwb by lia. split; [done|].
    rewrite <-Hv. by apply shows_refl. }
  exists s', (<[start_block_id bm + id := blk']> (st_view s)). rewrite E. split; [done|]. split; [done|].
  rewrite Hdm. rewrite (Z.mul_comm BLOCK_BITS). apply bit_set_block; [done|done|]. intros m Hm. fold blk. unfold blk'.
  rewrite (wrap_small 64) by lia.
  rewrite (bit_at_word_bit blk (Z.to_nat (k / 64)) _ (k mod 64) false m); try done; try lia.
  - replace (Z.of_nat (Z.to_nat (k / 64)) * 64 + k mod 64) with k by lia. done.
  - intros x Hx. apply (sub_bit w (k mod 64) x); try done. lia.
Qed.

Lemma dealloc_clear bm n s :
  bm_ready bm s → 0 ≤ n < maximum bm → bit_of bm (st_view s) n = false → dealloc bm n s = Panic.
Proof.
  intros (Hwf0 & Hbl & Hr) Hn Hb. unfold maximum in Hn.
  assert (Hid : 0 ≤ n / BLOCK_BITS < blocks bm) by (apply div_bound; [done|lia]).
  assert (Hc : can_lock (n / BLOCK_BITS + start_block_id bm) s) by (apply Hr; lia).
  unfold dealloc, decomposition, modify. destruct Hc as (Hwf & Hrg & Hh & Hsz).
  destruct (acquire_ok s _ Hwf Hrg Hh Hsz) as (s1 & -> & _). cbn [mbind outcome_bind].
  rewrite (proj2 (Nat.leb_le _ _)) by lia. cbn [rassert mbind outcome_bind].
  rewrite slice_whole by (by apply st_view_length). rewrite Z.add_comm.
  rewrite land_bit; [|apply (get_word_range 8)|apply Z.mod_pos_bound; done].
  - unfold bit_of, bit_at in Hb. by rewrite Hb.
  - rewrite Z.add_comm, st_view_length by done.
    assert (0 ≤ n mod BLOCK_BITS / 64 < 64) by (apply div_bound; [done|apply Z.mod_pos_bound; done]). lia.
Qed.
End Laws.
