(* ===== verification/Layout.v ===== *)
(** * The on-disk layout ([easy-fs/src/layout.rs])

    Super block, disk inodes with direct, indirect and doubly indirect
    blocks, and directory entries.  The code overlays these structs on the
    bytes of a block ([#[repr(C)]]); [inode_of] and [inode_put] are that
    overlay: they read the fields from the 128 bytes of an inode and store
    them, leaving the padding alone. *)

From S2P Require Import Prelude Blocks Words Utf8.

Definition EFS_MAGIC : Z := 0x3b800001.
Definition INODE_DIRECT_COUNT : Z := 28.
Definition NAME_LENGTH_LIMIT : Z := 27.
Definition INODE_INDIRECT1_COUNT : Z := BLOCK_SZ / 4.
Definition INODE_INDIRECT2_COUNT : Z := INODE_INDIRECT1_COUNT * INODE_INDIRECT1_COUNT.
Definition DIRECT_BOUND : Z := INODE_DIRECT_COUNT.
Definition INDIRECT1_BOUND : Z := DIRECT_BOUND + INODE_INDIRECT1_COUNT.
Definition INDIRECT2_BOUND : Z := INDIRECT1_BOUND + INODE_INDIRECT2_COUNT.

(** ** The super block *)
Record SuperBlock : Type := mkSuperBlock {
  magic : Z;
  sb_total_blocks : Z;
  sb_inode_bitmap_blocks : Z;
  sb_inode_area_blocks : Z;
  sb_data_bitmap_blocks : Z;
  sb_data_area_blocks : Z;
}.

Definition super_initialize (total inode_bitmap inode_area data_bitmap data_area : Z) : SuperBlock :=
  mkSuperBlock EFS_MAGIC total inode_bitmap inode_area data_bitmap data_area.
Definition super_is_valid (sb : SuperBlock) : bool := magic sb =? EFS_MAGIC.

Definition super_of (p : list byte) : SuperBlock :=
  mkSuperBlock (get_word 4 0 p) (get_word 4 1 p) (get_word 4 2 p) (get_word 4 3 p) (get_word 4 4 p) (get_word 4 5 p).
Definition super_bytes (sb : SuperBlock) : list byte :=
  [magic sb; sb_total_blocks sb; sb_inode_bitmap_blocks sb; sb_inode_area_blocks sb;
   sb_data_bitmap_blocks sb; sb_data_area_blocks sb] ≫= to_le_bytes 4.
Definition SUPER_SZ : nat := 24.

(** ** Disk inodes *)
Inductive DiskInodeType : Type := File | Directory.

Record DiskInode : Type := mkDiskInode {
  di_size : Z;
  direct : list Z;
  indirect1 : Z;
  indirect2 : Z;
  type_ : DiskInodeType;
}.
Definition INODE_SZ : nat := 128.

Definition type_code (t : DiskInodeType) : byte := match t with File => x00 | Directory => x01 end.

(** The discriminant is one byte; the file system stores only 0 and 1. *)
Definition inode_of (p : list byte) : DiskInode :=
  mkDiskInode (get_word 4 0 p) ((λ i, get_word 4 (S i) p) <$> seq 0 28) (get_word 4 29 p) (get_word 4 30 p)
    (match p !! 124%nat with Some x01 => Directory | _ => File end).
Definition inode_put (di : DiskInode) (p : list byte) : list byte :=
  to_le_bytes 4 (di_size di) ++ (direct di ≫= to_le_bytes 4) ++ to_le_bytes 4 (indirect1 di) ++
  to_le_bytes 4 (indirect2 di) ++ [type_code (type_ di)] ++ drop 125 p.

Definition inode_initialize (ty : DiskInodeType) (di : DiskInode) : DiskInode :=
  mkDiskInode 0 ((λ _, 0) <$> direct di) 0 0 ty.
Definition is_dir (di : DiskInode) : bool := match type_ di with Directory => true | File => false end.
Definition is_file (di : DiskInode) : bool := match type_ di with File => true | Directory => false end.

Definition _data_blocks (size : Z) : Z := u32 (u32 (size + BLOCK_SZ) - 1) / BLOCK_SZ.
Definition data_blocks (di : DiskInode) : Z := _data_blocks (di_size di).

Definition total_blocks (size : Z) : Z :=
  let data_blocks := _data_blocks size in
  let total := data_blocks in
  let total := if INODE_DIRECT_COUNT <? data_blocks then total + 1 else total in
  let total :=
    if INDIRECT1_BOUND <? data_blocks then
      total + 1 + (data_blocks - INDIRECT1_BOUND + INODE_INDIRECT1_COUNT - 1) / INODE_INDIRECT1_COUNT
    else total in
  u32 total.

Definition blocks_num_needed (new_size : Z) (di : DiskInode) : outcome Z :=
  _ ← rassert (di_size di <=? new_size);
  Ret (u32 (total_blocks new_size - total_blocks (di_size di))).

(** [block[i]] and [block[i] = v] on [[u32; 128]], with the bounds check. *)
Definition idx_u32 (i : Z) (blk : Block) : outcome Z :=
  _ ← rassert ((0 <=? i) && (i <? INODE_INDIRECT1_COUNT)); Ret (get_word 4 (Z.to_nat i) blk).
Definition put_u32 (i v : Z) (blk : Block) : outcome Block :=
  _ ← rassert ((0 <=? i) && (i <? INODE_INDIRECT1_COUNT)); Ret (set_word 4 (Z.to_nat i) v blk).

(** [Vec::into_iter().next().unwrap()] *)
Definition next (l : list Z) : outcome (Z * list Z) :=
  match l with [] => Panic | x :: l => Ret (x, l) end.

Section Inodes.
Context {S : Type} `{!BlockStore S}.

(** A read of one entry of an indirect block. *)
Definition read_entry (b i : Z) (s : S) : outcome (Z * S) :=
  read b 0 BLOCK_LEN (λ blk s, e ← idx_u32 i blk; Ret (e, s)) s.

Definition get_block_id (inner_id : Z) (di : DiskInode) (s : S) : outcome (Z * S) :=
  if inner_id <? INODE_DIRECT_COUNT then
    v ← unwrap (direct di !! Z.to_nat inner_id); Ret (v, s)
  else if inner_id <? INDIRECT1_BOUND then
    read_entry (indirect1 di) (inner_id - INODE_DIRECT_COUNT) s
  else
    let last := inner_id - INDIRECT1_BOUND in
    '(indirect1, s) ← read_entry (indirect2 di) (last / INODE_INDIRECT1_COUNT) s;
    read_entry indirect1 (last mod INODE_INDIRECT1_COUNT) s.

(** ** [increase_size] *)

(** The fill loops; [n] is the number of iterations left. *)
Fixpoint fill_direct (n : nat) (cur : Z) (l nb : list Z) : outcome (list Z * list Z) :=
  match n with
  | O => Ret (l, nb)
  | Datatypes.S n =>
      '(x, nb) ← next nb;
      _ ← rassert (cur <? Z.of_nat (length l));
      fill_direct n (cur + 1) (<[Z.to_nat cur := x]> l) nb
  end.

Fixpoint fill_indirect (n : nat) (cur : Z) (blk : Block) (nb : list Z) : outcome (Block * list Z) :=
  match n with
  | O => Ret (blk, nb)
  | Datatypes.S n =>
      '(x, nb) ← next nb;
      blk ← put_u32 cur x blk;
      fill_indirect n (cur + 1) blk nb
  end.

(** One turn of the doubly indirect loop, at position (a0, b0). *)
Definition fill_one (a0 b0 : Z) (blk2 : Block) (nb : list Z) (s : S) : outcome (Block * list Z * S) :=
  '(blk2, nb) ← (if b0 =? 0 then '(x, nb) ← next nb; blk2 ← put_u32 a0 x blk2; Ret (blk2, nb)
                 else Ret (blk2, nb));
  e ← idx_u32 a0 blk2;
  '(nb, s) ← modify e 0 BLOCK_LEN
               (λ blk1 s, '(x, nb) ← next nb; blk1 ← put_u32 b0 x blk1; Ret (nb, blk1, s)) s;
  Ret (blk2, nb, s).

Fixpoint fill_indirect2 (fuel : nat) (a0 b0 a1 b1 : Z) (blk2 : Block) (nb : list Z) (s : S)
    : outcome (Block * list Z * S) :=
  if (a0 <? a1) || ((a0 =? a1) && (b0 <? b1)) then
    match fuel with
    | O => NoFuel
    | Datatypes.S fuel =>
        '(blk2, nb, s) ← fill_one a0 b0 blk2 nb s;
        let b0 := b0 + 1 in
        if b0 =? INODE_INDIRECT1_COUNT then fill_indirect2 fuel (a0 + 1) 0 a1 b1 blk2 nb s
        else fill_indirect2 fuel a0 b0 a1 b1 blk2 nb s
    end
  else Ret (blk2, nb, s).

(** The direct blocks up to [total]: the new current block. *)
Definition grow_direct (current total : Z) (nb : list Z) (di : DiskInode) : outcome (Z * list Z * DiskInode) :=
  let bound := Z.min total INODE_DIRECT_COUNT in
  '(direct, nb) ← fill_direct (Z.to_nat (bound - current)) current (direct di) nb;
  Ret (Z.max current bound, nb, mkDiskInode (di_size di) direct (indirect1 di) (indirect2 di) (type_ di)).

(** The indirect block; [current] and [total] count from its first entry afterwards. *)
Definition grow_indirect1 (current total : Z) (nb : list Z) (di : DiskInode) (s : S)
    : outcome (Z * list Z * DiskInode * S) :=
  '(ind1, nb) ← (if current =? INODE_DIRECT_COUNT then next nb else Ret (indirect1 di, nb));
  let di := mkDiskInode (di_size di) (direct di) ind1 (indirect2 di) (type_ di) in
  let current := current - INODE_DIRECT_COUNT in
  let total := total - INODE_DIRECT_COUNT in
  let bound := Z.min total INODE_INDIRECT1_COUNT in
  '(nb, s) ← modify ind1 0 BLOCK_LEN
     (λ blk s, '(blk, nb) ← fill_indirect (Z.to_nat (bound - current)) current blk nb; Ret (nb, blk, s)) s;
  Ret (Z.max current bound, nb, di, s).

(** The doubly indirect block; [current] and [total] count from the indirect block's first entry. *)
Definition grow_indirect2 (current total : Z) (nb : list Z) (di : DiskInode) (s : S) : outcome (list Z * DiskInode * S) :=
  '(ind2, nb) ← (if current =? INODE_INDIRECT1_COUNT then next nb else Ret (indirect2 di, nb));
  let di := mkDiskInode (di_size di) (direct di) (indirect1 di) ind2 (type_ di) in
  let current := current - INODE_INDIRECT1_COUNT in
  let total := total - INODE_INDIRECT1_COUNT in
  let a0 := current / INODE_INDIRECT1_COUNT in
  let b0 := current mod INODE_INDIRECT1_COUNT in
  let a1 := total / INODE_INDIRECT1_COUNT in
  let b1 := total mod INODE_INDIRECT1_COUNT in
  '(nb, s) ← modify ind2 0 BLOCK_LEN
     (λ blk s, '(blk, nb, s) ← fill_indirect2 (Z.to_nat (total - current)) a0 b0 a1 b1 blk nb s;
               Ret (nb, blk, s)) s;
  Ret (nb, di, s).

Definition increase_size (new_size : Z) (new_blocks : list Z) (di : DiskInode) (s : S) : outcome (DiskInode * S) :=
  let current_blocks := data_blocks di in
  let total_blocks := _data_blocks new_size in
  let di := mkDiskInode new_size (direct di) (indirect1 di) (indirect2 di) (type_ di) in
  '(current_blocks, new_blocks, di) ← grow_direct current_blocks total_blocks new_blocks di;
  if total_blocks <=? INODE_DIRECT_COUNT then Ret (di, s) else
  '(current_blocks, new_blocks, di, s) ← grow_indirect1 current_blocks total_blocks new_blocks di s;
  let total_blocks := total_blocks - INODE_DIRECT_COUNT in
  if total_blocks <=? INODE_INDIRECT1_COUNT then Ret (di, s) else
  '(_, di, s) ← grow_indirect2 current_blocks total_blocks new_blocks di s;
  Ret (di, s).

(** ** [clear_size]: the blocks to deallocate *)

(** The first [n] entries of an indirect block. *)
Definition entries (n : nat) (blk : Block) : list Z := (λ i, get_word 4 i blk) <$> seq 0 n.

Definition push_entries (b : Z) (n : nat) (v : list Z) (s : S) : outcome (list Z * S) :=
  modify b 0 BLOCK_LEN (λ blk s, Ret (v ++ entries n blk, blk, s)) s.

(** [for entry in indirect2.iter_mut().take(a1)] *)
Fixpoint push_full (es : list Z) (v : list Z) (s : S) : outcome (list Z * S) :=
  match es with
  | [] => Ret (v, s)
  | e :: es =>
      '(v, s) ← push_entries e 128 (v ++ [e]) s;
      push_full es v s
  end.

(** What lies below the doubly indirect block: [a1] full indirect blocks and
    [b1] entries of the last one. *)
Definition list_indirect2 (a1 b1 : Z) (v : list Z) (blk : Block) (s : S) : outcome (list Z * Block * S) :=
  '(v, s) ← push_full (entries (Z.to_nat a1) blk) v s;
  if 0 <? b1 then
    e ← idx_u32 a1 blk;
    '(v, s) ← push_entries e (Z.to_nat b1) (v ++ [e]) s;
    Ret (v, blk, s)
  else Ret (v, blk, s).

Definition clear_size (di : DiskInode) (s : S) : outcome (list Z * DiskInode * S) :=
  let data_blocks := data_blocks di in
  let n := Z.to_nat (Z.min data_blocks INODE_DIRECT_COUNT) in
  let v := take n (direct di) in
  let direct := replicate n 0 ++ drop n (direct di) in
  if data_blocks <=? INODE_DIRECT_COUNT then
    Ret (v, mkDiskInode 0 direct (indirect1 di) (indirect2 di) (type_ di), s) else
  let v := v ++ [indirect1 di] in
  let data_blocks := data_blocks - INODE_DIRECT_COUNT in
  '(v, s) ← push_entries (indirect1 di) (Z.to_nat (Z.min data_blocks INODE_INDIRECT1_COUNT)) v s;
  if data_blocks <=? INODE_INDIRECT1_COUNT then
    Ret (v, mkDiskInode 0 direct 0 (indirect2 di) (type_ di), s) else
  let v := v ++ [indirect2 di] in
  let data_blocks := data_blocks - INODE_INDIRECT1_COUNT in
  _ ← rassert (data_blocks <=? INODE_INDIRECT2_COUNT);
  let a1 := data_blocks / INODE_INDIRECT1_COUNT in
  let b1 := data_blocks mod INODE_INDIRECT1_COUNT in
  '(v, s) ← modify (indirect2 di) 0 BLOCK_LEN (λ blk s, list_indirect2 a1 b1 v blk s) s;
  Ret (v, mkDiskInode 0 direct 0 0 (type_ di), s).

(** ** [read_at] and [write_at] *)

(** The end of the block that [start] is in, at most [end_]. *)
Definition block_end (start end_ : Z) : Z := Z.min ((start / BLOCK_SZ + 1) * BLOCK_SZ) end_.

Fixpoint read_loop (fuel : nat) (di : DiskInode) (start end_ start_block read_size : Z) (buf : list byte) (s : S)
    : outcome (Z * list byte * S) :=
  match fuel with
  | O => NoFuel
  | Datatypes.S fuel =>
      let end_current_block := block_end start end_ in
      let block_read_size := end_current_block - start in
      '(id, s) ← get_block_id (u32 start_block) di s;
      '(src, s) ← read id 0 BLOCK_LEN
        (λ data s, src ← slice_checked (Z.to_nat (start mod BLOCK_SZ)) (Z.to_nat block_read_size) data; Ret (src, s)) s;
      let buf := splice (Z.to_nat read_size) src buf in
      let read_size := read_size + block_read_size in
      if end_current_block =? end_ then Ret (read_size, buf, s)
      else read_loop fuel di end_current_block end_ (start_block + 1) read_size buf s
  end.

(** Enough turns: one per block touched. *)
Definition io_fuel (start end_ : Z) : nat := Z.to_nat (end_ / BLOCK_SZ - start / BLOCK_SZ + 1).

Definition read_at (offset : Z) (buf : list byte) (di : DiskInode) (s : S) : outcome (Z * list byte * S) :=
  let start := offset in
  let end_ := Z.min (usize (offset + Z.of_nat (length buf))) (di_size di) in
  if end_ <=? start then Ret (0, buf, s)
  else read_loop (io_fuel start end_) di start end_ (start / BLOCK_SZ) 0 buf s.

Fixpoint write_loop (fuel : nat) (di : DiskInode) (start end_ start_block write_size : Z) (buf : list byte) (s : S)
    : outcome (Z * S) :=
  match fuel with
  | O => NoFuel
  | Datatypes.S fuel =>
      let end_current_block := block_end start end_ in
      let block_write_size := end_current_block - start in
      '(id, s) ← get_block_id (u32 start_block) di s;
      '(_, s) ← modify id 0 BLOCK_LEN
        (λ data s,
           src ← slice_checked (Z.to_nat write_size) (Z.to_nat block_write_size) buf;
           _ ← slice_checked (Z.to_nat (start mod BLOCK_SZ)) (Z.to_nat block_write_size) data;
           Ret (tt, splice (Z.to_nat (start mod BLOCK_SZ)) src data, s)) s;
      let write_size := write_size + block_write_size in
      if end_current_block =? end_ then Ret (write_size, s)
      else write_loop fuel di end_current_block end_ (start_block + 1) write_size buf s
  end.

Definition write_at (offset : Z) (buf : list byte) (di : DiskInode) (s : S) : outcome (Z * S) :=
  let start := offset in
  let end_ := Z.min (usize (offset + Z.of_nat (length buf))) (di_size di) in
  _ ← rassert (start <=? end_);
  write_loop (io_fuel start end_) di start end_ (start / BLOCK_SZ) 0 buf s.
End Inodes.

(** ** Directory entries *)
Definition DIRENT_SZ : Z := 32.
Definition DIRENT_LEN : nat := 32.

Record DirEntry : Type := mkDirEntry { name_bytes : list byte; inode_number : Z }.

Definition DirEntry_empty : DirEntry := mkDirEntry (replicate 28 x00) 0.

(** [bytes[..name.len()].copy_from_slice(name)]: a longer name panics. *)
Definition DirEntry_new (name : list byte) (inode_number : Z) : outcome DirEntry :=
  _ ← rassert (Z.of_nat (length name) <=? NAME_LENGTH_LIMIT + 1);
  Ret (mkDirEntry (name ++ replicate (28 - length name) x00) inode_number).

Definition as_bytes (d : DirEntry) : list byte := name_bytes d ++ to_le_bytes 4 (inode_number d).
Definition dirent_of (p : list byte) : DirEntry := mkDirEntry (take 28 p) (get_word 4 7 p).

(** The name up to the first zero byte; without one the search runs off the
    array, and bytes that are not UTF-8 make [unwrap] panic. *)
Definition dirent_name (d : DirEntry) : outcome string :=
  match list_find (λ b, b = x00) (name_bytes d) with
  | Some (len, _) => unwrap (from_utf8 (take len (name_bytes d)))
  | None => Panic
  end.
