(* ===== verification/InodeMap.v ===== *)
(** * The block map of an inode

    [rep v di ds ms] says that on the blocks [v] the inode [di] maps its
    [length ds] data blocks to [ds], in order, using the index blocks [ms]:
    the indirect block, the doubly indirect block and the indirect blocks
    below it.  [get_block_id], [increase_size] and [clear_size] are specified
    by it. *)

From Stdlib Require Import FunctionalExtensionality.
From stdpp Require Import functions gmap.
From S2P Require Import Prelude Blocks Words Layout.

Local Ltac Zify.zify_post_hook ::= Z.to_euclidean_division_equations.

(** The number of index blocks for [n] data blocks. *)
Definition nmeta (n : nat) : nat :=
  if (n <=? 28)%nat then 0 else if (n <=? 156)%nat then 1 else 2 + Z.to_nat ((Z.of_nat n - 29) / 128).

(** The largest file: all of the doubly indirect block in use. *)
Definition MAX_BLOCKS : Z := 28 + 128 + 128 * 128.

Record rep (v : Z → Block) (di : DiskInode) (ds ms : list Z) : Prop := {
  r_len : (nmeta (length ds) ≤ length ms)%nat;
  r_max : Z.of_nat (length ds) ≤ MAX_BLOCKS;
  r_dir : length (direct di) = 28%nat;
  r_direct i d : ds !! i = Some d → (i < 28)%nat → direct di !! i = Some d;
  r_ind1 i d : ds !! (28 + i)%nat = Some d → (i < 128)%nat → get_word 4 i (v (indirect1 di)) = d;
  r_ind2 a b d m : ds !! (156 + 128 * a + b)%nat = Some d → (b < 128)%nat → ms !! (2 + a)%nat = Some m →
    get_word 4 b (v m) = d;
  r_m1 m : ms !! 0%nat = Some m → indirect1 di = m;
  r_m2 m : ms !! 1%nat = Some m → indirect2 di = m;
  r_m3 a m : ms !! (2 + a)%nat = Some m → get_word 4 a (v (indirect2 di)) = m;
}.

Lemma nmeta_ind1 n i : (28 + i < n)%nat → (0 < nmeta n)%nat.
Proof. intros. unfold nmeta. destruct (Nat.leb_spec n 28), (Nat.leb_spec n 156); lia. Qed.

Lemma nmeta_ind2 n a b : (156 + 128 * a + b < n)%nat → (2 + a < nmeta n)%nat.
Proof. intros. unfold nmeta. destruct (Nat.leb_spec n 28), (Nat.leb_spec n 156); lia. Qed.

Lemma nmeta_mono n k : (n ≤ k)%nat → (nmeta n ≤ nmeta k)%nat.
Proof.
  intros. unfold nmeta. destruct (Nat.leb_spec n 28), (Nat.leb_spec n 156), (Nat.leb_spec k 28), (Nat.leb_spec k 156); lia.
Qed.

Lemma data_blocks_eq size : 0 ≤ size ≤ 2 ^ 32 - BLOCK_SZ - 1 → _data_blocks size = (size + 511) / 512.
Proof.
  intros H. unfold _data_blocks, BLOCK_SZ in *. rewrite (wrap_small 32 (size + 512)) by lia.
  rewrite wrap_small by lia. f_equal. lia.
Qed.

Lemma total_blocks_eq size :
  0 ≤ size ≤ MAX_BLOCKS * BLOCK_SZ →
  total_blocks size = Z.of_nat (Z.to_nat (_data_blocks size) + nmeta (Z.to_nat (_data_blocks size))).
Proof.
  intros H. change MAX_BLOCKS with 16540 in H. unfold BLOCK_SZ in H. unfold total_blocks.
  rewrite data_blocks_eq by (unfold BLOCK_SZ; lia). set (n := (size + 511) / 512). assert (Hn : 0 ≤ n ≤ 16540) by lia.
  clearbody n. unfold INDIRECT1_BOUND, DIRECT_BOUND, INODE_DIRECT_COUNT, INODE_INDIRECT1_COUNT, nmeta.
  change (BLOCK_SZ / 4) with 128.
  destruct (Z.ltb_spec 28 n), (Z.ltb_spec (28 + 128) n), (Nat.leb_spec (Z.to_nat n) 28), (Nat.leb_spec (Z.to_nat n) 156);
    try lia; rewrite wrap_small; lia.
Qed.

Lemma nmeta_big n : (156 < n)%nat → nmeta n = (2 + Z.to_nat ((Z.of_nat n - 29) / 128))%nat.
Proof. intros. unfold nmeta. destruct (Nat.leb_spec n 28), (Nat.leb_spec n 156); lia. Qed.

Lemma put_u32_ok i x blk : 0 ≤ i < 128 → put_u32 i x blk = Ret (set_word 4 (Z.to_nat i) x blk).
Proof.
  intros. unfold put_u32. change INODE_INDIRECT1_COUNT with 128.
  by rewrite (proj2 (Z.leb_le 0 i)), (proj2 (Z.ltb_lt i 128)) by lia.
Qed.

Lemma idx_u32_ok i blk : 0 ≤ i < 128 → idx_u32 i blk = Ret (get_word 4 (Z.to_nat i) blk).
Proof.
  intros. unfold idx_u32. change INODE_INDIRECT1_COUNT with 128.
  by rewrite (proj2 (Z.leb_le 0 i)), (proj2 (Z.ltb_lt i 128)) by lia.
Qed.

(** The map of a longer prefix restricts to a shorter one. *)
Lemma rep_prefix v di ds ds' ms : rep v di (ds ++ ds') ms → rep v di ds ms.
Proof.
  intros [A B C D E F G H I].
  assert (Hl : ∀ i d, ds !! i = Some d → (ds ++ ds') !! i = Some d) by (intros; by apply lookup_app_l_Some).
  rewrite length_app in *. split; eauto; [|lia]. pose proof (nmeta_mono (length ds) (length ds + length ds')). lia.
Qed.

(** The map depends only on the index blocks. *)
Lemma rep_view v v' di ds ms : (∀ m, m ∈ ms → v' m = v m) → rep v di ds ms → rep v' di ds ms.
Proof.
  intros Hv [A B C D E F G H I].
  assert (Hm : ∀ i m, ms !! i = Some m → v' m = v m) by (intros i m Hi; by apply Hv, (list_elem_of_lookup_2 _ i)).
  split; try done.
  - intros i d Hi Hlt. assert (Hn := lookup_lt_Some _ _ _ Hi). apply nmeta_ind1 in Hn.
    destruct (lookup_lt_is_Some_2 ms 0) as [m Hms]; [lia|]. rewrite (G m Hms), (Hm 0%nat) by done.
    rewrite <-(G m Hms). by apply E.
  - intros a b d m Hi Hb Hms. rewrite (Hm _ _ Hms). by eapply F.
  - intros a m Hms. destruct (lookup_lt_is_Some_2 ms 1) as [m2 Hm2]; [apply lookup_lt_Some in Hms; lia|].
    rewrite (H m2 Hm2), (Hm 1%nat) by done. rewrite <-(H m2 Hm2). by apply I.
Qed.

(** ** One more block *)
Definition set_direct (l : list Z) (di : DiskInode) : DiskInode :=
  mkDiskInode (di_size di) l (indirect1 di) (indirect2 di) (type_ di).
Definition set_indirect1 (m : Z) (di : DiskInode) : DiskInode :=
  mkDiskInode (di_size di) (direct di) m (indirect2 di) (type_ di).
Definition set_indirect2 (m : Z) (di : DiskInode) : DiskInode :=
  mkDiskInode (di_size di) (direct di) (indirect1 di) m (type_ di).

Lemma rep_add_direct v di ds ms x :
  rep v di ds ms → (length ds < 28)%nat → rep v (set_direct (<[length ds := x]> (direct di)) di) (ds ++ [x]) ms.
Proof.
  intros [A B C D E F G H I] Hn. split; simpl; try done.
  - rewrite length_app. simpl. unfold nmeta. destruct (Nat.leb_spec (length ds + 1) 28); lia.
  - rewrite length_app. simpl. unfold MAX_BLOCKS in *. lia.
  - by rewrite length_insert.
  - intros i d [[Hlt Hi]|[-> <-]]%lookup_snoc_Some Hi28; [|apply list_lookup_insert_eq; lia].
    rewrite list_lookup_insert_ne by lia. by apply D.
  - intros i d Hi. apply lookup_lt_Some in Hi. rewrite length_app in Hi. simpl in Hi. lia.
  - intros a b d m Hi. apply lookup_lt_Some in Hi. rewrite length_app in Hi. simpl in Hi. lia.
Qed.

Lemma rep_set_ind1 v di ds x :
  rep v di ds [] → (length ds ≤ 28)%nat → rep v (set_indirect1 x di) ds [x].
Proof.
  intros [A B C D E F G H I] Hn. split; simpl; try done.
  - unfold nmeta. destruct (Nat.leb_spec (length ds) 28); lia.
  - intros i d Hi. apply lookup_lt_Some in Hi. lia.
  - intros m. by intros [= ->].
Qed.

Lemma rep_set_ind2 v di ds m1 x :
  rep v di ds [m1] → (length ds ≤ 156)%nat → rep v (set_indirect2 x di) ds [m1; x].
Proof.
  intros [A B C D E F G H I] Hn. split; simpl; try done.
  - simpl in A. lia.
  - intros m. by intros [= ->].
Qed.

(** Storing [x] as word [i] of an index block. *)
Definition put_entry (m : Z) (i : nat) (x : Z) (v : Z → Block) : Z → Block := <[m := set_word 4 i x (v m)]> v.

Lemma put_entry_other m i x v b : b ≠ m → put_entry m i x v b = v b.
Proof. intros. unfold put_entry, insert, fn_insert. by rewrite decide_False. Qed.

Lemma get_put_entry m i j x v :
  length (v m) = BLOCK_LEN → (i < 128)%nat → 0 ≤ x < 2 ^ 32 →
  get_word 4 j (put_entry m i x v m) = if decide (j = i) then x else get_word 4 j (v m).
Proof.
  intros Hl Hi Hx. unfold put_entry, insert, fn_insert. rewrite decide_True by done. case_decide as Hj.
  - subst j. rewrite get_set_word by lia. by apply Z.mod_small.
  - by rewrite get_set_word_other by lia.
Qed.

Lemma rep_add_ind1 v di ds ms m1 i x :
  rep v di ds ms → NoDup ms → ms !! 0%nat = Some m1 → length (v m1) = BLOCK_LEN →
  length ds = (28 + i)%nat → (i < 128)%nat → 0 ≤ x < 2 ^ 32 →
  rep (put_entry m1 i x v) di (ds ++ [x]) ms.
Proof.
  intros [A B C D E F G H I] Hnd Hm1 Hl Hn Hi Hx. assert (Hms := lookup_lt_Some _ _ _ Hm1). split; try done.
  - rewrite length_app. simpl. unfold nmeta.
    destruct (Nat.leb_spec (length ds + 1) 28), (Nat.leb_spec (length ds + 1) 156); lia.
  - rewrite length_app. simpl. unfold MAX_BLOCKS in *. lia.
  - intros j d [[Hlt Hj]|[-> <-]]%lookup_snoc_Some Hj28; [by apply D|lia].
  - intros j d Hj Hj128. rewrite (G m1 Hm1), get_put_entry by done.
    apply lookup_snoc_Some in Hj as [[Hlt Hj]|[Hj ->]]; [|by rewrite decide_True by lia].
    rewrite decide_False by lia. rewrite <-(G m1 Hm1). by apply E.
  - intros a b d m Hj. apply lookup_lt_Some in Hj. rewrite length_app in Hj. simpl in Hj. lia.
  - intros a m Hm. assert (Hlt := lookup_lt_Some _ _ _ Hm).
    destruct (lookup_lt_is_Some_2 ms 1) as [m2 Hm2]; [lia|]. rewrite put_entry_other; [by apply I|].
    rewrite (H m2 Hm2). intros ->. by pose proof (NoDup_lookup _ _ _ _ Hnd Hm1 Hm2).
Qed.

Lemma rep_add_sub v di ds ms m2 a y :
  rep v di ds ms → NoDup ms → ms !! 1%nat = Some m2 → length (v m2) = BLOCK_LEN →
  length ds = (156 + 128 * a)%nat → length ms = (2 + a)%nat → (a < 128)%nat → 0 ≤ y < 2 ^ 32 →
  rep (put_entry m2 a y v) di ds (ms ++ [y]).
Proof.
  intros [A B C D E F G H I] Hnd Hm2 Hl Hn Hlm Ha Hy. split; try done.
  - rewrite length_app. simpl. lia.
  - intros i d Hi Hi128. destruct (lookup_lt_is_Some_2 ms 0) as [m1 Hm1]; [lia|]. rewrite put_entry_other; [by apply E|].
    rewrite (G m1 Hm1). intros ->. by pose proof (NoDup_lookup _ _ _ _ Hnd Hm1 Hm2).
  - intros a' b d m Hi Hb Hm. assert (Hlt := lookup_lt_Some _ _ _ Hi).
    apply lookup_snoc_Some in Hm as [[Hlm' Hm]|[Hm _]]; [|lia]. rewrite put_entry_other; [by eapply F|].
    intros ->. pose proof (NoDup_lookup _ _ _ _ Hnd Hm Hm2). lia.
  - intros m. rewrite lookup_app_l by lia. apply G.
  - intros m. rewrite lookup_app_l by lia. apply H.
  - intros a' m Hm. rewrite (H m2 Hm2), get_put_entry by done.
    apply lookup_snoc_Some in Hm as [[Hlm' Hm]|[Hm ->]]; [|by rewrite decide_True by lia].
    rewrite decide_False by lia. rewrite <-(H m2 Hm2). by apply I.
Qed.

Lemma rep_add_ind2 v di ds ms m a b x :
  rep v di ds ms → NoDup ms → ms !! (2 + a)%nat = Some m → length (v m) = BLOCK_LEN →
  length ds = (156 + 128 * a + b)%nat → (b < 128)%nat → (a < 128)%nat → 0 ≤ x < 2 ^ 32 →
  rep (put_entry m b x v) di (ds ++ [x]) ms.
Proof.
  intros [A B C D E F G H I] Hnd Hm Hl Hn Hb Ha Hx. assert (Hlm := lookup_lt_Some _ _ _ Hm). split; try done.
  - rewrite length_app. simpl. unfold nmeta.
    destruct (Nat.leb_spec (length ds + 1) 28), (Nat.leb_spec (length ds + 1) 156); lia.
  - rewrite length_app. simpl. unfold MAX_BLOCKS in *. lia.
  - intros j d [[Hlt Hj]|[-> <-]]%lookup_snoc_Some Hj28; [by apply D|lia].
  - intros j d Hj Hj128. apply lookup_snoc_Some in Hj as [[Hlt Hj]|[Hj _]]; [|lia].
    destruct (lookup_lt_is_Some_2 ms 0) as [m1 Hm1]; [lia|]. rewrite put_entry_other; [by apply E|].
    rewrite (G m1 Hm1). intros ->. pose proof (NoDup_lookup _ _ _ _ Hnd Hm1 Hm). lia.
  - intros a' b' d m' Hj Hb' Hm'. apply lookup_snoc_Some in Hj as [[Hlt Hj]|[Hj <-]].
    + destruct (decide (m' = m)) as [->|Hne]; [|rewrite put_entry_other by done; by eapply F].
      pose proof (NoDup_lookup _ _ _ _ Hnd Hm' Hm) as Heq. assert (a' = a) as -> by lia.
      rewrite get_put_entry by done. rewrite decide_False by lia. by eapply F.
    + assert (a' = a ∧ b' = b) as [-> ->] by lia. rewrite Hm in Hm'. injection Hm' as <-.
      rewrite get_put_entry by done. by rewrite decide_True.
  - intros a' m' Hm'. destruct (lookup_lt_is_Some_2 ms 1) as [m2 Hm2]; [lia|]. rewrite put_entry_other; [by apply I|].
    rewrite (H m2 Hm2). intros ->. pose proof (NoDup_lookup _ _ _ _ Hnd Hm2 Hm). lia.
Qed.

Section Map.
Context {S : Type} `{!BlockStore S, !StoreLaws S}.
Implicit Types s : S.

(** ** Looking a block up *)
Lemma read_entry_ok b i s :
  can_lock b s → 0 ≤ i < 128 →
  ∃ s', read_entry b i s = Ret (get_word 4 (Z.to_nat i) (st_view s b), s') ∧ shows s s' (st_view s).
Proof.
  intros Hc Hi. apply read_ok; [done|lia|]. rewrite slice_whole by (by apply can_lock_length).
  intros s1 (? & ? & Hv & ?). exists s1. unfold idx_u32. change INODE_INDIRECT1_COUNT with 128.
  rewrite (proj2 (Z.leb_le 0 i)), (proj2 (Z.ltb_lt i 128)) by lia. split; [done|]. rewrite <-Hv. by apply shows_refl.
Qed.

Lemma get_block_id_ok di ds ms i d s :
  rep (st_view s) di ds ms → st_wf s → (∀ m, m ∈ ms → can_lock m s) → ds !! i = Some d →
  ∃ s', get_block_id (Z.of_nat i) di s = Ret (d, s') ∧ shows s s' (st_view s).
Proof.
  intros [A B C D E F G H I] Hwf Hlk Hi. assert (Hn := lookup_lt_Some _ _ _ Hi).
  change MAX_BLOCKS with 16540 in B.
  unfold get_block_id, INDIRECT1_BOUND, DIRECT_BOUND, INODE_DIRECT_COUNT. change INODE_INDIRECT1_COUNT with 128.
  destruct (Z.ltb_spec (Z.of_nat i) 28).
  { rewrite Nat2Z.id, (D i d) by (done || lia). exists s. split; [done|by apply shows_refl]. }
  destruct (Z.ltb_spec (Z.of_nat i) (28 + 128)).
  - replace i with (28 + (i - 28))%nat in Hi, Hn by lia. apply nmeta_ind1 in Hn.
    destruct (lookup_lt_is_Some_2 ms 0) as [m Hms]; [lia|]. rewrite (G m Hms).
    destruct (read_entry_ok m (Z.of_nat i - 28) s) as (s' & -> & Hs); [|lia|].
    { by apply Hlk, (list_elem_of_lookup_2 _ 0%nat). }
    exists s'. split; [|done]. do 2 f_equal. rewrite <-(G m Hms). apply E; [|lia].
    by replace (Z.to_nat (Z.of_nat i - 28)) with (i - 28)%nat by lia.
  - set (a := Z.to_nat ((Z.of_nat i - 156) / 128)). set (b := Z.to_nat ((Z.of_nat i - 156) mod 128)).
    assert (Hab : i = (156 + 128 * a + b)%nat ∧ (b < 128)%nat ∧ (Z.of_nat i - 156) / 128 = Z.of_nat a ∧
      (Z.of_nat i - 156) mod 128 = Z.of_nat b) by lia.
    clearbody a b. destruct Hab as (Hab & Hb & Ha' & Hb'). rewrite Hab in Hi, Hn. assert (Hn2 := nmeta_ind2 _ _ _ Hn).
    destruct (lookup_lt_is_Some_2 ms (2 + a)) as [m Hms]; [lia|]. destruct (lookup_lt_is_Some_2 ms 1) as [m2 Hm2]; [lia|].
    change (28 + 128) with 156. rewrite Ha', Hb'. clear Ha' Hb'.
    destruct (read_entry_ok (indirect2 di) (Z.of_nat a) s) as (s1 & -> & Hs1); [|lia|].
    { rewrite (H m2 Hm2). by apply Hlk, (list_elem_of_lookup_2 _ 1%nat). }
    cbn [mbind outcome_bind]. rewrite Nat2Z.id, (I a m Hms).
    destruct (read_entry_ok m (Z.of_nat b) s1) as (s2 & -> & Hs2); [|lia|].
    { eapply can_lock_shows; [done|]. by apply Hlk, (list_elem_of_lookup_2 _ (2 + a)%nat). }
    exists s2. assert (Hv : st_view s1 = st_view s) by apply Hs1. rewrite Hv in *.
    split; [|by eapply shows_trans]. rewrite Nat2Z.id. by rewrite (F a b d m).
Qed.
End Map.
