(* ===== verification/InodeGrow.v ===== *)
(** * Growing an inode: [increase_size]

    The direct blocks, the indirect block and the doubly indirect block are
    filled in turn from the list of new blocks; nothing is lost, nothing is
    used twice, and only index blocks are written. *)

From Stdlib Require Import FunctionalExtensionality.
From stdpp Require Import functions gmap.
From S2P Require Import Prelude Blocks Words Layout InodeMap.

Local Ltac Zify.zify_post_hook ::= Z.to_euclidean_division_equations.

Section Map.
Context {S : Type} `{!BlockStore S, !StoreLaws S}.
Implicit Types s : S.

(** ** The fill loops *)
Lemma fill_direct_ok v di ms : ∀ n ds nb,
  rep v di ds ms → (length ds + n ≤ 28)%nat → (n ≤ length nb)%nat →
  ∃ l, fill_direct n (Z.of_nat (length ds)) (direct di) nb = Ret (l, drop n nb) ∧
    rep v (set_direct l di) (ds ++ take n nb) ms.
Proof.
  intros n. revert di. induction n as [|n IH]; intros di ds nb Hr Hn Hnb.
  { exists (direct di). rewrite take_0, app_nil_r, drop_0. split; [done|]. by destruct di. }
  destruct nb as [|x nb]; [simpl in Hnb; lia|]. simpl in Hnb. cbn [fill_direct next mbind outcome_bind].
  pose proof (r_dir _ _ _ _ Hr). rewrite (proj2 (Z.ltb_lt _ _)) by lia. cbn [rassert mbind outcome_bind].
  apply (rep_add_direct _ _ _ _ x) in Hr; [|lia]. rewrite Nat2Z.id.
  destruct (IH _ _ nb Hr) as (l & E & Hr'); [rewrite length_app; simpl; lia|lia|].
  exists l. rewrite length_app in E. simpl in E. rewrite Nat2Z.inj_add in E. split; [exact E|].
  by rewrite <-app_assoc in Hr'.
Qed.

Definition u32s (l : list Z) : Prop := Forall (λ x, 0 ≤ x < 2 ^ 32) l.

Lemma fill_indirect_ok v di ms m1 : ∀ n ds blk nb,
  rep (<[m1 := blk]> v) di ds ms → NoDup ms → ms !! 0%nat = Some m1 → length blk = BLOCK_LEN → u32s nb →
  (28 ≤ length ds)%nat → (length ds + n ≤ 156)%nat → (n ≤ length nb)%nat →
  ∃ blk', fill_indirect n (Z.of_nat (length ds) - 28) blk nb = Ret (blk', drop n nb) ∧ length blk' = BLOCK_LEN ∧
    rep (<[m1 := blk']> v) di (ds ++ take n nb) ms.
Proof.
  induction n as [|n IH]; intros ds blk nb Hr Hnd Hm1 Hl Hu Hds Hn Hnb.
  { exists blk. by rewrite take_0, app_nil_r, drop_0. }
  destruct nb as [|x nb]; [simpl in Hnb; lia|]. simpl in Hnb. inversion_clear Hu as [|? ? Hx Hu'].
  cbn [fill_indirect next mbind outcome_bind].
  rewrite put_u32_ok by lia. cbn [mbind outcome_bind]. set (i := Z.to_nat (Z.of_nat (length ds) - 28)).
  apply (rep_add_ind1 _ _ _ _ m1 i x) in Hr; try done; [|by rewrite lookup_insert_view|lia|lia].
  unfold put_entry in Hr. rewrite lookup_insert_view, insert_insert_view in Hr.
  destruct (IH _ _ nb Hr) as (blk' & E & Hl' & Hr'); try done; try (rewrite length_app; simpl; lia).
  { by rewrite length_set_word by lia. }
  { lia. }
  exists blk'. rewrite length_app in E. simpl in E.
  replace (Z.of_nat (length ds + 1) - 28) with (Z.of_nat (length ds) - 28 + 1) in E by lia. split; [exact E|].
  split; [done|]. by rewrite <-app_assoc in Hr'.
Qed.

Lemma NoDup_consumed (ms ms1 nb : list Z) x : NoDup (ms ++ ms1 ++ x :: nb) → NoDup ((ms ++ ms1) ++ nb).
Proof.
  rewrite app_assoc. intros Hn. apply NoDup_app in Hn as (A & B & [C D]%NoDup_cons). apply NoDup_app.
  split_and!; [done| |done]. intros y Hy Hin. apply (B y Hy). by right.
Qed.

Lemma NoDup_app_mid (ms d nb : list Z) : NoDup (ms ++ d ++ nb) → NoDup (ms ++ nb).
Proof.
  intros (A & B & C)%NoDup_app. apply NoDup_app in C as (_ & _ & C). apply NoDup_app. split_and!; try done. set_solver.
Qed.

Lemma fill_one_ok di ds ms nb m2 blk2 a b s :
  rep (<[m2 := blk2]> (st_view s)) di ds ms → NoDup (ms ++ nb) → u32s nb → ms !! 1%nat = Some m2 →
  length blk2 = BLOCK_LEN → length ds = (156 + 128 * a + b)%nat → (b < 128)%nat → (a < 128)%nat →
  length ms = (if decide (b = 0) then 2 + a else 3 + a)%nat → ((if decide (b = 0) then 2 else 1) ≤ length nb)%nat →
  (∀ e, e ∈ ms ++ nb → e ≠ m2 → can_lock e s) →
  ∃ blk2' x ms1 nb' s' v', fill_one (Z.of_nat a) (Z.of_nat b) blk2 nb s = Ret (blk2', nb', s') ∧ shows s s' v' ∧
    length blk2' = BLOCK_LEN ∧ rep (<[m2 := blk2']> v') di (ds ++ [x]) (ms ++ ms1) ∧ nb = ms1 ++ x :: nb' ∧
    length ms1 = (if decide (b = 0) then 1 else 0)%nat ∧ ∀ c, c ∉ ms ++ ms1 → v' c = st_view s c.
Proof.
  intros Hr Hnd Hu Hm2 Hl Hds Hb Ha Hms Hnb Hlk. pose proof (lookup_lt_Some _ _ _ Hm2) as Hms2.
  (* the optional new indirect block *)
  assert (Hpre : ∃ blk2' ms1 nb1 e,
    (if Z.of_nat b =? 0 then '(x, nb) ← next nb; blk2 ← put_u32 (Z.of_nat a) x blk2; Ret (blk2, nb) else Ret (blk2, nb))
      = Ret (blk2', nb1) ∧ length blk2' = BLOCK_LEN ∧ rep (<[m2 := blk2']> (st_view s)) di ds (ms ++ ms1) ∧ nb = ms1 ++ nb1 ∧
    length ms1 = (if decide (b = 0) then 1 else 0)%nat ∧ (ms ++ ms1) !! (2 + a)%nat = Some e).
  { destruct (Z.eqb_spec (Z.of_nat b) 0) as [Hb0|Hb0].
    - rewrite !decide_True in * by lia. destruct nb as [|y nb]; [simpl in Hnb; lia|]. inversion_clear Hu as [|? ? Hy _].
      cbn [next mbind outcome_bind]. rewrite put_u32_ok by lia. rewrite Nat2Z.id. cbn [mbind outcome_bind].
      apply (rep_add_sub _ _ _ _ m2 a y) in Hr; try done; [|by apply NoDup_app in Hnd as (? & _)|by rewrite lookup_insert_view|lia].
      unfold put_entry in Hr. rewrite lookup_insert_view, insert_insert_view in Hr.
      exists (set_word 4 a y blk2), [y], nb, y. split_and!; try done.
      + by rewrite length_set_word by lia.
      + rewrite lookup_app_r by lia. by replace (2 + a - length ms)%nat with 0%nat by lia.
    - rewrite !decide_False in * by lia. destruct (lookup_lt_is_Some_2 ms (2 + a)) as [e He]; [lia|].
      exists blk2, [], nb, e. rewrite app_nil_r. by split_and!. }
  destruct Hpre as (blk2' & ms1 & nb1 & e & E & Hl' & Hr' & -> & Hms1 & He). unfold fill_one. rewrite E. clear E Hr.
  cbn [mbind outcome_bind].
  destruct nb1 as [|x nb']; [rewrite length_app in Hnb; simpl in Hnb; destruct (decide (b = 0%nat)); lia|].
  assert (Hx : 0 ≤ x < 2 ^ 32) by (unfold u32s in Hu; apply Forall_app in Hu as [_ Hu]; by inversion_clear Hu).
  rewrite app_assoc in Hnd. apply NoDup_app in Hnd as (Hnd & _ & _).
  assert (Hm2' : (ms ++ ms1) !! 1%nat = Some m2) by (by apply lookup_app_l_Some).
  assert (Hne : e ≠ m2) by (intros ->; pose proof (NoDup_lookup _ _ _ _ Hnd He Hm2'); lia).
  assert (Hce : can_lock e s).
  { apply Hlk; [|done]. rewrite app_assoc. apply elem_of_app. left. by eapply list_elem_of_lookup_2. }
  pose proof (can_lock_length _ _ Hce) as Hle.
  rewrite idx_u32_ok by lia. rewrite Nat2Z.id. cbn [mbind outcome_bind].
  assert (Hew : get_word 4 a blk2' = e).
  { pose proof (r_m3 _ _ _ _ Hr' a e He) as H3. rewrite (r_m2 _ _ _ _ Hr' m2 Hm2') in H3. by rewrite lookup_insert_view in H3. }
  rewrite Hew.
  destruct (modify_block e (λ blk1 s, '(x, nb) ← next (x :: nb'); blk1 ← put_u32 (Z.of_nat b) x blk1; Ret (nb, blk1, s))
    s nb' (set_word 4 b x (st_view s e)) (st_view s) Hce) as (s' & -> & Hs).
  { by rewrite length_set_word by lia. }
  { intros s1 (? & ? & Hv & ?). exists s1. cbn [next mbind outcome_bind]. rewrite put_u32_ok by lia. rewrite Nat2Z.id.
    split; [done|]. rewrite <-Hv. by apply shows_refl. }
  cbn [mbind outcome_bind]. exists blk2', x, ms1, nb', s'. eexists. split; [done|]. split; [exact Hs|].
  split_and!; try done.
  - rewrite insert_comm_view by congruence. rewrite <-(lookup_insert_view_ne (st_view s) m2 e blk2') by done.
    by apply (rep_add_ind2 _ _ _ _ e a b x) in Hr'; try done; rewrite lookup_insert_view_ne by done.
  - intros c Hc. apply lookup_insert_view_ne. intros ->. apply Hc. by eapply list_elem_of_lookup_2.
Qed.

Lemma fill_indirect2_ok di m2 a1 b1 : ∀ n ds ms nb blk2 a b s,
  rep (<[m2 := blk2]> (st_view s)) di ds ms → NoDup (ms ++ nb) → u32s nb → ms !! 1%nat = Some m2 →
  length blk2 = BLOCK_LEN → length ds = (156 + 128 * a + b)%nat → (b < 128)%nat →
  (length ds + n = 156 + 128 * a1 + b1)%nat → (b1 < 128)%nat → (156 < length ds + n)%nat → Z.of_nat (length ds + n) ≤ MAX_BLOCKS →
  length ms = (if decide (b = 0%nat) then 2 + a else 3 + a)%nat →
  (n + nmeta (length ds + n) ≤ length ms + length nb)%nat →
  (∀ e, e ∈ ms ++ nb → e ≠ m2 → can_lock e s) → st_wf s →
  ∃ blk2' nb' ds1 ms1 s' v',
    fill_indirect2 n (Z.of_nat a) (Z.of_nat b) (Z.of_nat a1) (Z.of_nat b1) blk2 nb s = Ret (blk2', nb', s') ∧
    shows s s' v' ∧ length blk2' = BLOCK_LEN ∧ rep (<[m2 := blk2']> v') di (ds ++ ds1) (ms ++ ms1) ∧ length ds1 = n ∧
    length (ms ++ ms1) = nmeta (length ds + n) ∧ ds1 ++ ms1 ++ nb' ≡ₚ nb ∧ ∀ c, c ∉ ms ++ ms1 → v' c = st_view s c.
Proof.
  induction n as [|n IH];
    intros ds ms nb blk2 a b s Hr Hnd Hu Hm2 Hl Hds Hb HT Hb1 Hbig Hmax Hms Hnb Hlk Hwf; cbn [fill_indirect2].
  { assert (a1 = a ∧ b1 = b) as [-> ->] by lia. rewrite !Z.ltb_irrefl, andb_false_r. cbn [orb].
    exists blk2, nb, [], [], s, (st_view s). rewrite !app_nil_r, Nat.add_0_r. cbn [app].
    split_and!; try done. rewrite nmeta_big by lia. case_decide; lia. }
  assert (Hcond : (Z.of_nat a <? Z.of_nat a1) || ((Z.of_nat a =? Z.of_nat a1) && (Z.of_nat b <? Z.of_nat b1)) = true).
  { destruct (Z.ltb_spec (Z.of_nat a) (Z.of_nat a1)), (Z.eqb_spec (Z.of_nat a) (Z.of_nat a1)),
      (Z.ltb_spec (Z.of_nat b) (Z.of_nat b1)); simpl; try done; lia. }
  rewrite Hcond. unfold MAX_BLOCKS in Hmax.
  assert (Hge : (3 + a ≤ nmeta (length ds + Datatypes.S n))%nat) by (rewrite nmeta_big by lia; lia).
  destruct (fill_one_ok di ds ms nb m2 blk2 a b s) as (blk2' & x & ms1 & nb' & s1 & v1 & -> & Hs1 & Hl1 & Hr1 & -> & Hlm1 & Hfr1);
    try done; try lia.
  { case_decide; lia. }
  cbn [mbind outcome_bind].
  assert (Hv1 : v1 = st_view s1) by (symmetry; apply Hs1). subst v1.
  set (a' := if decide (b = 127%nat) then Datatypes.S a else a). set (b' := if decide (b = 127%nat) then 0%nat else Datatypes.S b).
  assert (Hab : (156 + 128 * a + b + 1 = 156 + 128 * a' + b')%nat ∧ (b' < 128)%nat).
  { unfold a', b'. destruct (decide (b = 127%nat)); lia. }
  destruct (IH (ds ++ [x]) (ms ++ ms1) nb' blk2' a' b' s1) as (blk2'' & nb'' & ds2 & ms2 & s2 & v2 & E2 & Hs2 & Hl2 & Hr2 & Hn2 & Hlm2 & Hp2 & Hfr2).
  all: try done.
  - by eapply NoDup_consumed.
  - apply Forall_app in Hu as [_ Hu]. by inversion_clear Hu.
  - by apply lookup_app_l_Some.
  - rewrite length_app, Hds. change (length [x]) with 1%nat. destruct Hab; lia.
  - apply Hab.
  - rewrite length_app. simpl. lia.
  - rewrite length_app. simpl. lia.
  - rewrite length_app. simpl. unfold MAX_BLOCKS. lia.
  - rewrite length_app, Hms, Hlm1. unfold a', b'. destruct (decide (b = 127%nat)), (decide (b = 0%nat)); simpl; lia.
  - rewrite !length_app in *. simpl in *. replace (length ds + 1 + n)%nat with (length ds + Datatypes.S n)%nat by lia. lia.
  - intros e He Hne. eapply can_lock_shows; [done|]. apply Hlk; [|done]. set_solver.
  - apply Hs1.
  - exists blk2'', nb'', (x :: ds2), (ms1 ++ ms2), s2, v2. rewrite <-(app_assoc ms), <-(app_assoc ds) in Hr2.
    rewrite <-(app_assoc ms) in Hlm2, Hfr2. simpl in Hr2.
    split; [|split; [by eapply shows_trans|split; [done|split; [done|]]]].
    + rewrite <-E2. change INODE_INDIRECT1_COUNT with 128. unfold a', b'.
      destruct (Z.eqb_spec (Z.of_nat b + 1) 128), (decide (b = 127%nat)); try lia; f_equal; lia.
    + split; [by cbn [length]; rewrite Hn2|]. split_and!.
      * rewrite Hlm2, length_app. change (length [x]) with 1%nat. f_equal. lia.
      * simpl. rewrite <-Hp2. solve_Permutation.
      * intros c Hc. rewrite Hfr2 by set_solver. assert (Hv : st_view s1 c = st_view s c) by (apply Hfr1; set_solver). done.
Qed.

(** ** The three stages of [increase_size] *)

(** The size and the type stay. *)
Definition same_head (di di' : DiskInode) : Prop := di_size di' = di_size di ∧ type_ di' = type_ di.

Lemma rep_eta v di di' ds ms :
  direct di' = direct di → indirect1 di' = indirect1 di → indirect2 di' = indirect2 di → rep v di ds ms → rep v di' ds ms.
Proof. intros H1 H2 H3 [A B C D E F G H I]. split; rewrite ?H1, ?H2, ?H3; done. Qed.

Lemma grow_direct_ok v di ds ms nb T :
  rep v di ds ms → (length ds ≤ T)%nat → (T ≤ length ds + length nb)%nat →
  ∃ di' ds1 nb', grow_direct (Z.of_nat (length ds)) (Z.of_nat T) nb di = Ret (Z.of_nat (length (ds ++ ds1)), nb', di') ∧
    nb = ds1 ++ nb' ∧ rep v di' (ds ++ ds1) ms ∧ same_head di di' ∧
    length (ds ++ ds1) = Nat.max (length ds) (Nat.min T 28).
Proof.
  intros Hr HT Hnb. unfold grow_direct. change INODE_DIRECT_COUNT with 28.
  set (n := Z.to_nat (Z.min (Z.of_nat T) 28 - Z.of_nat (length ds))).
  destruct (decide (n = 0%nat)) as [Hn|Hn].
  - rewrite Hn. unfold n in Hn. clear n. cbn [fill_direct mbind outcome_bind]. eexists _, [], nb. rewrite app_nil_r.
    replace (Z.max (Z.of_nat (length ds)) (Z.min (Z.of_nat T) 28)) with (Z.of_nat (length ds)) by lia. split_and!; try done; [by apply (rep_eta _ di)|lia].
  - destruct (fill_direct_ok v di ms n ds nb Hr) as (l & E & Hr'); [lia|lia|]. rewrite E. cbn [mbind outcome_bind].
    assert (Hlen : length (ds ++ take n nb) = Nat.max (length ds) (Nat.min T 28)) by (rewrite length_app, length_take; lia).
    eexists _, (take n nb), (drop n nb). rewrite take_drop, Hlen.
    replace (Z.max (Z.of_nat (length ds)) (Z.min (Z.of_nat T) 28)) with (Z.of_nat (Nat.max (length ds) (Nat.min T 28))) by lia.
    split_and!; try done.
Qed.

(** The index block of a stage: a new one when the stage is entered, else the old one. *)
Lemma take_indirect1_ok v di ds ms nb :
  rep v di ds ms → (28 ≤ length ds)%nat → (length ds = 28%nat → ms = []) → (28 < length ds → ms ≠ [])%nat →
  (length ds = 28 → 0 < length nb)%nat →
  ∃ m1 ms1 nb1, (if Z.of_nat (length ds) =? 28 then next nb else Ret (indirect1 di, nb)) = Ret (m1, nb1) ∧
    rep v (set_indirect1 m1 di) ds (ms ++ ms1) ∧ (ms ++ ms1) !! 0%nat = Some m1 ∧ nb = ms1 ++ nb1 ∧
    length ms1 = (if decide (length ds = 28%nat) then 1 else 0)%nat.
Proof.
  intros Hr Hds Hms0 Hms1 Hnb. destruct (Z.eqb_spec (Z.of_nat (length ds)) 28).
  - rewrite decide_True by lia. rewrite Hms0 in * by lia. destruct nb as [|x nb]; [simpl in *; lia|].
    exists x, [x], nb. split_and!; try done. apply rep_set_ind1; [done|lia].
  - rewrite decide_False by lia. destruct ms as [|m1 ms']; [by destruct Hms1; [lia|]|].
    exists m1, [], nb. rewrite app_nil_r. pose proof (r_m1 _ _ _ _ Hr m1 eq_refl) as Hm1.
    split_and!; try done; [by rewrite Hm1|]. by apply (rep_eta _ di).
Qed.

Lemma take_indirect2_ok v di ds ms nb :
  rep v di ds ms → (156 ≤ length ds)%nat → length ms = nmeta (length ds) → (length ds = 156 → 0 < length nb)%nat →
  ∃ m2 ms1 nb1, (if Z.of_nat (length ds) - 28 =? 128 then next nb else Ret (indirect2 di, nb)) = Ret (m2, nb1) ∧
    rep v (set_indirect2 m2 di) ds (ms ++ ms1) ∧ (ms ++ ms1) !! 1%nat = Some m2 ∧ nb = ms1 ++ nb1 ∧
    length (ms ++ ms1) = Nat.max 2 (nmeta (length ds)).
Proof.
  intros Hr Hds Hms Hnb. destruct (Z.eqb_spec (Z.of_nat (length ds) - 28) 128).
  - assert (Hl : length ds = 156%nat) by lia. rewrite Hl in Hms. change (nmeta 156) with 1%nat in Hms.
    destruct ms as [|m1 [|]]; try done. destruct nb as [|x nb]; [simpl in *; lia|].
    exists x, [x], nb. rewrite Hl. split_and!; try done. apply rep_set_ind2; [done|lia].
  - rewrite (nmeta_big (length ds)) in * by lia. destruct ms as [|m1 [|m2 ms']]; [simpl in Hms; lia..|].
    exists m2, [], nb. rewrite app_nil_r. pose proof (r_m2 _ _ _ _ Hr m2 eq_refl) as Hm2.
    split_and!; try done; first [by rewrite Hm2|by apply (rep_eta _ di)|lia].
Qed.

Lemma grow_indirect1_ok di ds ms nb T s :
  rep (st_view s) di ds ms → NoDup (ms ++ nb) → u32s nb → (∀ b, b ∈ ms ++ nb → ready b s) → st_wf s →
  (28 ≤ length ds ≤ T)%nat → (28 < T)%nat → (length ds = 28%nat → ms = []) → (28 < length ds → ms ≠ [])%nat →
  ((if decide (length ds = 28%nat) then 1 else 0) + Nat.min T 156 ≤ length ds + length nb)%nat →
  ∃ di' ds1 ms1 nb' s' v', grow_indirect1 (Z.of_nat (length ds)) (Z.of_nat T) nb di s =
      Ret (Z.of_nat (length (ds ++ ds1)) - 28, nb', di', s') ∧ shows s s' v' ∧ same_head di di' ∧
    rep v' di' (ds ++ ds1) (ms ++ ms1) ∧ nb = ms1 ++ ds1 ++ nb' ∧
    length (ds ++ ds1) = Nat.max (length ds) (Nat.min T 156) ∧
    length ms1 = (if decide (length ds = 28%nat) then 1 else 0)%nat ∧ ∀ c, c ∉ ms ++ ms1 → v' c = st_view s c.
Proof.
  intros Hr Hnd Hu Hrd Hwf Hds HT Hms0 Hms1 Hnb.
  pose proof (take_indirect1_ok (st_view s) di ds ms nb Hr ltac:(lia) Hms0 Hms1 ltac:(lia)) as Hpre.
  destruct Hpre as (m1 & ms1 & nb1 & E & Hr1 & Hm1 & -> & Hl1). unfold grow_indirect1.
  change INODE_DIRECT_COUNT with 28. rewrite E. clear E Hr. cbn [mbind outcome_bind]. change INODE_INDIRECT1_COUNT with 128.
  set (n := Z.to_nat (Z.min (Z.of_nat T - 28) 128 - (Z.of_nat (length ds) - 28))).
  rewrite app_assoc in Hnd. assert (Hnd' := Hnd). apply NoDup_app in Hnd' as (Hnd1 & _ & _).
  assert (Hc : can_lock m1 s).
  { apply ready_can_lock, Hrd. rewrite app_assoc. apply elem_of_app. left. by eapply list_elem_of_lookup_2. }
  pose proof (can_lock_length _ _ Hc) as Hlm.
  rewrite length_app in Hnb.
  assert (Hf : ∃ blk', fill_indirect n (Z.of_nat (length ds) - 28) (st_view s m1) nb1 = Ret (blk', drop n nb1) ∧
    length blk' = BLOCK_LEN ∧ rep (<[m1 := blk']> (st_view s)) (set_indirect1 m1 di) (ds ++ take n nb1) (ms ++ ms1)).
  { destruct (decide (n = 0%nat)) as [->|Hn0].
    - exists (st_view s m1). rewrite take_0, app_nil_r, drop_0, insert_id_view. by split_and!.
    - apply fill_indirect_ok; try done; try lia. { by rewrite insert_id_view. }
      unfold u32s in *. by apply Forall_app in Hu as [_ Hu]. }
  destruct Hf as (blk' & E & Hl' & Hr').
  destruct (modify_block m1 (λ blk s, '(blk, nb) ← fill_indirect n (Z.of_nat (length ds) - 28) blk nb1; Ret (nb, blk, s))
    s (drop n nb1) blk' (st_view s) Hc Hl') as (s' & Em & Hs).
  { intros s1 (? & ? & Hv & ?). exists s1. rewrite E. split; [done|]. rewrite <-Hv. by apply shows_refl. }
  rewrite Em. cbn [mbind outcome_bind].
  assert (Hlen : length (ds ++ take n nb1) = Nat.max (length ds) (Nat.min T 156)) by (rewrite length_app, length_take; lia).
  eexists _, (take n nb1), ms1, (drop n nb1), s', _. rewrite take_drop, Hlen.
  replace (Z.max (Z.of_nat (length ds) - 28) (Z.min (Z.of_nat T - 28) 128))
    with (Z.of_nat (Nat.max (length ds) (Nat.min T 156)) - 28) by lia.
  split; [done|split; [exact Hs|]]. split_and!; try done.
  intros c Hcn. apply lookup_insert_view_ne. intros ->. apply Hcn. by eapply list_elem_of_lookup_2.
Qed.

(** [fill_indirect2] on the doubly indirect block, behind its lock. *)
Lemma fill_indirect2_modify di m2 a b a1 b1 n ds ms nb s :
  rep (st_view s) di ds ms → ms !! 1%nat = Some m2 → NoDup (ms ++ nb) → u32s nb →
  (∀ e, e ∈ ms ++ nb → ready e s) → st_wf s → can_lock m2 s →
  length ds = (156 + 128 * a + b)%nat → (b < 128)%nat → (length ds + n)%nat = (156 + 128 * a1 + b1)%nat → (b1 < 128)%nat →
  Z.of_nat (length ds + n) ≤ MAX_BLOCKS → length ms = Nat.max 2 (nmeta (length ds)) →
  (length ds + n + nmeta (length ds + n) ≤ length ds + length ms + length nb)%nat → (156 < length ds + n)%nat →
  ∃ nb' blk2' s' v', modify m2 0 BLOCK_LEN (λ blk s,
      '(blk, nb, s) ← fill_indirect2 n (Z.of_nat a) (Z.of_nat b) (Z.of_nat a1) (Z.of_nat b1) blk nb s; Ret (nb, blk, s)) s =
      Ret (nb', s') ∧ shows s s' (<[m2 := splice 0 blk2' (st_view s m2)]> v') ∧ length blk2' = BLOCK_LEN ∧
    ∃ ds1 ms2, rep (<[m2 := blk2']> v') di (ds ++ ds1) (ms ++ ms2) ∧
      length ds1 = n ∧ length (ms ++ ms2) = nmeta (length ds + n) ∧ ds1 ++ ms2 ++ nb' ≡ₚ nb ∧
      ∀ c, c ∉ ms ++ ms2 → v' c = st_view s c.
Proof.
  intros Hr Hm2 Hnd Hu Hrd Hwf Hc Hab Hb Hab1 Hb1 Hmax Hms Hnb Hbig. pose proof (can_lock_length _ _ Hc) as Hlm.
  apply (modify_spec m2 0 BLOCK_LEN _ s (λ nb' blk2' v', ∃ ds1 ms2, rep (<[m2 := blk2']> v') di (ds ++ ds1) (ms ++ ms2) ∧
    length ds1 = n ∧ length (ms ++ ms2) = nmeta (length ds + n) ∧ ds1 ++ ms2 ++ nb' ≡ₚ nb ∧
    ∀ c, c ∉ ms ++ ms2 → v' c = st_view s c) Hc ltac:(lia)).
  intros s1 Hlk. rewrite slice_whole by done. assert (Hv : st_view s1 = st_view s) by apply Hlk.
  destruct (fill_indirect2_ok di m2 a1 b1 n ds ms nb (st_view s m2) a b s1)
    as (blk2' & nb' & ds1 & ms2 & s2 & v2 & E & Hs2 & Hl2 & Hr2 & Hd1 & Hm & Hp & Hfr); try done; try lia.
  - by rewrite Hv, insert_id_view.
  - rewrite Hms, Hab. unfold nmeta. destruct (Nat.leb_spec (156 + 128 * a + b) 28), (Nat.leb_spec (156 + 128 * a + b) 156);
      case_decide; lia.
  - intros e He Hne. eapply ready_locked; [done| |done]. by apply Hrd.
  - apply Hlk.
  - exists nb', blk2', s2, v2. rewrite E. rewrite Hv in *. split_and!; try done. by exists ds1, ms2.
Qed.

Lemma grow_indirect2_ok di ds ms nb T s :
  rep (st_view s) di ds ms → NoDup (ms ++ nb) → u32s nb → (∀ b, b ∈ ms ++ nb → ready b s) → st_wf s →
  (156 ≤ length ds ≤ T)%nat → (156 < T)%nat → Z.of_nat T ≤ MAX_BLOCKS → length ms = nmeta (length ds) →
  (T + nmeta T ≤ length ds + length ms + length nb)%nat →
  ∃ di' ds1 ms1 nb' s' v', grow_indirect2 (Z.of_nat (length ds) - 28) (Z.of_nat T - 28) nb di s = Ret (nb', di', s') ∧
    shows s s' v' ∧ same_head di di' ∧ rep v' di' (ds ++ ds1) (ms ++ ms1) ∧ ds1 ++ ms1 ++ nb' ≡ₚ nb ∧
    length (ds ++ ds1) = T ∧ length (ms ++ ms1) = nmeta T ∧ ∀ c, c ∉ ms ++ ms1 → v' c = st_view s c.
Proof.
  intros Hr Hnd Hu Hrd Hwf Hds HT Hmax Hms Hnb.
  assert (Hn0 : (length ds = 156 → 0 < length nb)%nat).
  { intros Hl. pose proof (nmeta_big T HT). rewrite Hl in Hms. change (nmeta 156) with 1%nat in Hms. lia. }
  pose proof (take_indirect2_ok (st_view s) di ds ms nb Hr ltac:(lia) Hms Hn0) as Hpre.
  destruct Hpre as (m2 & ms1 & nb1 & E & Hr1 & Hm2 & -> & Hl1). unfold grow_indirect2. change INODE_INDIRECT1_COUNT with 128.
  rewrite E. clear E Hr. cbn [mbind outcome_bind].
  set (a := Z.to_nat ((Z.of_nat (length ds) - 156) / 128)). set (b := Z.to_nat ((Z.of_nat (length ds) - 156) mod 128)).
  set (a1 := Z.to_nat ((Z.of_nat T - 156) / 128)). set (b1 := Z.to_nat ((Z.of_nat T - 156) mod 128)).
  assert (Hab : length ds = (156 + 128 * a + b)%nat ∧ (b < 128)%nat ∧ (Z.of_nat (length ds) - 28 - 128) / 128 = Z.of_nat a ∧
    (Z.of_nat (length ds) - 28 - 128) mod 128 = Z.of_nat b) by lia.
  assert (Hab1 : T = (156 + 128 * a1 + b1)%nat ∧ (b1 < 128)%nat ∧ (Z.of_nat T - 28 - 128) / 128 = Z.of_nat a1 ∧
    (Z.of_nat T - 28 - 128) mod 128 = Z.of_nat b1) by lia.
  clearbody a b a1 b1. destruct Hab as (Hab & Hb & -> & ->). destruct Hab1 as (Hab1 & Hb1 & -> & ->).
  replace (Z.to_nat (Z.of_nat T - 28 - 128 - (Z.of_nat (length ds) - 28 - 128))) with (T - length ds)%nat by lia.
  assert (Hc : can_lock m2 s).
  { apply ready_can_lock, Hrd. rewrite app_assoc. apply elem_of_app. left. by eapply list_elem_of_lookup_2. }
  pose proof (can_lock_length _ _ Hc) as Hlm. rewrite app_assoc in Hnd.
  assert (HTl : (length ds + (T - length ds))%nat = T) by lia.
  destruct (fill_indirect2_modify (set_indirect2 m2 di) m2 a b a1 b1 (T - length ds) ds (ms ++ ms1) nb1 s)
    as (nb' & blk2' & s' & v' & Em & Hs & Hl2 & ds1 & ms2 & Hr2 & Hd1 & Hm & Hp & Hfr); rewrite ?HTl; try done; try lia.
  { unfold u32s in *. by apply Forall_app in Hu as [_ Hu]. }
  { intros e He. apply Hrd. by rewrite app_assoc. }
  { rewrite !length_app in *. lia. }
  rewrite HTl in Hm.
  rewrite Em. cbn [mbind outcome_bind]. rewrite splice_whole in Hs by done. rewrite <-app_assoc in Hr2, Hm, Hfr.
  exists (set_indirect2 m2 di), ds1, (ms1 ++ ms2), nb', s'. eexists. split; [done|]. split; [exact Hs|].
  split_and!; try done.
  - rewrite <-Hp. solve_Permutation.
  - rewrite length_app. lia.
  - intros c Hc'. rewrite lookup_insert_view_ne; [by apply Hfr|]. intros ->. apply Hc'.
    rewrite app_assoc. apply elem_of_app. left. by eapply list_elem_of_lookup_2.
Qed.

(** ** [increase_size] *)

(** The first two stages together, when the file outgrows the direct blocks. *)
Lemma grow_low_ok di ds ms nb T s :
  rep (st_view s) di ds ms → length ms = nmeta (length ds) → NoDup (ms ++ nb) → u32s nb →
  (∀ b, b ∈ ms ++ nb → ready b s) → st_wf s → (length ds ≤ T)%nat → (28 < T)%nat →
  (T + nmeta T = length ds + length ms + length nb)%nat →
  ∃ n1 nb1 di1 di2 d ms1 nb2 s2 v2, grow_direct (Z.of_nat (length ds)) (Z.of_nat T) nb di = Ret (n1, nb1, di1) ∧
    grow_indirect1 n1 (Z.of_nat T) nb1 di1 s = Ret (Z.of_nat (length (ds ++ d)) - 28, nb2, di2, s2) ∧
    shows s s2 v2 ∧ same_head di di2 ∧ rep v2 di2 (ds ++ d) (ms ++ ms1) ∧ d ++ ms1 ++ nb2 ≡ₚ nb ∧
    length (ds ++ d) = Nat.max (length ds) (Nat.min T 156) ∧ length (ms ++ ms1) = nmeta (length (ds ++ d)) ∧
    ∀ c, c ∉ ms ++ ms1 → v2 c = st_view s c.
Proof.
  intros Hr Hms Hnd Hu Hrd Hwf HdT HT Hcount. pose proof (nmeta_mono _ _ HdT) as Hmono.
  destruct (grow_direct_ok (st_view s) di ds ms nb T) as (di1 & d1 & nb1 & E1 & -> & Hr1 & [Hs1 Ht1] & Hl1); [done|done|lia|].
  assert (Hnd1 : NoDup (ms ++ nb1)) by (by eapply NoDup_app_mid).
  assert (Hu1 : u32s nb1) by (by apply Forall_app in Hu as [_ Hu]).
  assert (Hrd1 : ∀ b, b ∈ ms ++ nb1 → ready b s) by (intros b Hb; apply Hrd; set_solver).
  rewrite length_app in Hcount.
  destruct (grow_indirect1_ok di1 (ds ++ d1) ms nb1 T s) as (di2 & d2 & m1 & nb2 & s2 & v2 & E2 & Hv2 & [Hs2 Ht2] & Hr2 & -> & Hl2 & Hm1 & Hfr2);
    try done; try lia.
  { intros Hl. assert (Hn : nmeta (length ds) = 0%nat) by (unfold nmeta; destruct (Nat.leb_spec (length ds) 28); lia).
    apply nil_length_inv. lia. }
  { intros Hl ->. assert (Hn : nmeta (length ds) = 0%nat) by (simpl in Hms; lia).
    unfold nmeta in Hn. destruct (Nat.leb_spec (length ds) 28), (Nat.leb_spec (length ds) 156); lia. }
  { pose proof Hl1 as Hl1'. rewrite length_app in Hl1'. unfold nmeta in *.
    destruct (decide (length (ds ++ d1) = 28%nat)), (Nat.leb_spec T 28), (Nat.leb_spec T 156),
      (Nat.leb_spec (length ds) 28), (Nat.leb_spec (length ds) 156); lia. }
  rewrite <-app_assoc in Hl2, Hr2, E2.
  assert (Hl2' : length (ds ++ d1 ++ d2) = Nat.max (length ds) (Nat.min T 156)) by (rewrite Hl2; lia).
  exists (Z.of_nat (length (ds ++ d1))), (m1 ++ d2 ++ nb2), di1, di2, (d1 ++ d2), m1, nb2, s2, v2.
  split; [done|]. split; [done|]. split; [done|]. split; [by split; congruence|]. split_and!; [done|solve_Permutation|done| |done].
  rewrite Hl2', length_app, Hms, Hm1. destruct (decide (length ds ≤ 156)%nat) as [Hd|Hd].
  - unfold nmeta. destruct (decide (length (ds ++ d1) = 28%nat)), (Nat.leb_spec (length ds) 28), (Nat.leb_spec (length ds) 156),
      (Nat.leb_spec (Nat.max (length ds) (Nat.min T 156)) 28), (Nat.leb_spec (Nat.max (length ds) (Nat.min T 156)) 156); lia.
  - rewrite decide_False by lia. replace (Nat.max (length ds) (Nat.min T 156)) with (length ds) by lia. lia.
Qed.

Lemma increase_size_ok new_size di ds ms nb s :
  rep (st_view s) di ds ms → length ms = nmeta (length ds) → Z.of_nat (length ds) = data_blocks di →
  NoDup (ms ++ nb) → u32s nb → (∀ b, b ∈ ms ++ nb → ready b s) → st_wf s →
  0 ≤ di_size di ≤ new_size → new_size ≤ MAX_BLOCKS * BLOCK_SZ →
  Z.of_nat (length nb) = total_blocks new_size - total_blocks (di_size di) →
  ∃ di' ds1 ms1 s' v', increase_size new_size nb di s = Ret (di', s') ∧ shows s s' v' ∧
    rep v' di' (ds ++ ds1) (ms ++ ms1) ∧ di_size di' = new_size ∧ type_ di' = type_ di ∧
    Z.of_nat (length (ds ++ ds1)) = _data_blocks new_size ∧ length (ms ++ ms1) = nmeta (length (ds ++ ds1)) ∧
    ds1 ++ ms1 ≡ₚ nb ∧ ∀ c, c ∉ ms ++ ms1 → v' c = st_view s c.
Proof.
  intros Hr Hms Hds Hnd Hu Hrd Hwf Hsz Hmax Hnb. set (T := Z.to_nat (_data_blocks new_size)).
  assert (HT : Z.of_nat T = _data_blocks new_size ∧ (length ds ≤ T)%nat ∧ Z.of_nat T ≤ MAX_BLOCKS).
  { unfold T, data_blocks, MAX_BLOCKS, BLOCK_SZ in *. rewrite data_blocks_eq in * by (unfold BLOCK_SZ; lia). lia. }
  destruct HT as (HT & HdT & HTm). pose proof (nmeta_mono _ _ HdT) as Hmono.
  assert (Hcount : (T + nmeta T = length ds + length ms + length nb)%nat).
  { rewrite !total_blocks_eq in Hnb by lia. fold T in Hnb. fold (data_blocks di) in Hnb.
    rewrite <-Hds, Nat2Z.id, <-Hms in Hnb. lia. }
  unfold increase_size. rewrite <-Hds, <-HT. set (di0 := mkDiskInode new_size (direct di) (indirect1 di) (indirect2 di) (type_ di)).
  assert (Hr0 : rep (st_view s) di0 ds ms) by (by apply (rep_eta _ di)).
  change INODE_DIRECT_COUNT with 28. change INODE_INDIRECT1_COUNT with 128. destruct (Z.leb_spec (Z.of_nat T) 28) as [H28|H28].
  { destruct (grow_direct_ok (st_view s) di0 ds ms nb T) as (di1 & d1 & nb1 & -> & -> & Hr1 & [Hs1 Ht1] & Hl1); [done|done|lia|].
    assert (Hn : nmeta T = 0%nat) by (unfold nmeta; destruct (Nat.leb_spec T 28); lia).
    assert (HlT : length (ds ++ d1) = T) by lia.
    assert (Hnil : length nb1 = 0%nat ∧ length ms = 0%nat) by (rewrite !length_app in *; lia).
    destruct Hnil as [->%nil_length_inv ->%nil_length_inv]. cbn [mbind outcome_bind].
    exists di1, d1, [], s, (st_view s). rewrite HlT, Hn, !app_nil_r. split_and!; done. }
  destruct (grow_low_ok di0 ds ms nb T s Hr0 Hms Hnd Hu Hrd Hwf HdT ltac:(lia) Hcount)
    as (n1 & nb1 & di1 & di2 & d & m1 & nb2 & s2 & v2 & -> & E2 & Hv2 & [Hs2 Ht2] & Hr2 & Hp2 & Hl2 & Hm2 & Hfr2).
  cbn [mbind outcome_bind]. rewrite E2. cbn [mbind outcome_bind].
  pose proof (Permutation_length Hp2) as Hlen. rewrite !length_app in Hlen.
  destruct (Z.leb_spec (Z.of_nat T - 28) 128) as [H156|H156].
  { assert (HlT : length (ds ++ d) = T) by lia. rewrite HlT in Hm2.
    assert (Hnil : length nb2 = 0%nat) by (rewrite !length_app in *; lia). apply nil_length_inv in Hnil as ->.
    exists di2, d, m1, s2, v2. rewrite HlT. rewrite app_nil_r in Hp2. by split_and!. }
  assert (Hv : st_view s2 = v2) by apply Hv2. subst v2.
  assert (Hnd2 : NoDup ((ms ++ m1) ++ nb2)).
  { rewrite <-app_assoc. apply (NoDup_app_mid _ d). by rewrite Hp2. }
  destruct (grow_indirect2_ok di2 (ds ++ d) (ms ++ m1) nb2 T s2)
    as (di3 & d3 & m3 & nb3 & s3 & v3 & -> & Hv3 & [Hs3 Ht3] & Hr3 & Hp3 & Hl3 & Hm3 & Hfr3); try done; try lia.
  - unfold u32s in *. rewrite <-Hp2, !Forall_app in Hu. tauto.
  - intros b Hb. eapply ready_shows; [done|]. apply Hrd. rewrite <-Hp2. set_solver.
  - apply Hv2.
  - rewrite !length_app in *. lia.
  - rewrite <-(app_assoc ds) in Hr3, Hl3. rewrite <-(app_assoc ms) in Hr3, Hm3, Hfr3.
    assert (Hnil : length nb3 = 0%nat) by (apply Permutation_length in Hp3; rewrite !length_app in *; lia).
    apply nil_length_inv in Hnil as ->. rewrite app_nil_r in Hp3. cbn [mbind outcome_bind].
    exists di3, (d ++ d3), (m1 ++ m3), s3, v3. rewrite Hl3, Hm3.
    split_and!; try done; [by eapply shows_trans|by rewrite Hs3, Hs2|by rewrite Ht3, Ht2| |].
    + rewrite <-Hp2, <-Hp3. solve_Permutation.
    + intros c Hc. rewrite Hfr3, Hfr2 by set_solver. done.
Qed.
End Map.
