(* ===== verification/InodeClear.v ===== *)
(** * Emptying an inode: [clear_size]

    The blocks handed back are exactly the data and the index blocks. *)

From Stdlib Require Import FunctionalExtensionality.
From stdpp Require Import functions gmap.
From S2P Require Import Prelude Blocks Words Layout InodeMap.

Local Ltac Zify.zify_post_hook ::= Z.to_euclidean_division_equations.

Section Map.
Context {S : Type} `{!BlockStore S, !StoreLaws S}.
Implicit Types s : S.

(** ** [clear_size] *)
Lemma push_entries_ok b n v s :
  can_lock b s →
  ∃ s', push_entries b n v s = Ret (v ++ entries n (st_view s b), s') ∧ shows s s' (st_view s).
Proof.
  intros Hc. pose proof (can_lock_length _ _ Hc) as Hl.
  destruct (modify_block b (λ blk s, Ret (v ++ entries n blk, blk, s)) s (v ++ entries n (st_view s b)) (st_view s b)
    (st_view s) Hc Hl) as (s' & E & Hs).
  { intros s1 (? & ? & Hv & ?). exists s1. split; [done|]. rewrite <-Hv. by apply shows_refl. }
  exists s'. split; [exact E|]. by rewrite insert_id_view in Hs.
Qed.

Definition listed (V : Z → Block) (es : list Z) : list Z := es ≫= λ e, e :: entries 128 (V e).

Lemma push_full_ok es : ∀ v s,
  (∀ e, e ∈ es → can_lock e s) → st_wf s →
  ∃ s', push_full es v s = Ret (v ++ listed (st_view s) es, s') ∧ shows s s' (st_view s).
Proof.
  induction es as [|e es IH]; intros v s Hc Hwf; cbn [push_full].
  { exists s. unfold listed. cbn. by rewrite app_nil_r. }
  destruct (push_entries_ok e 128 (v ++ [e]) s) as (s1 & -> & Hs1); [apply Hc; by left|]. cbn [mbind outcome_bind].
  destruct (IH ((v ++ [e]) ++ entries 128 (st_view s e)) s1) as (s2 & -> & Hs2).
  { intros e' He'. eapply can_lock_shows; [done|]. apply Hc. by right. }
  { apply Hs1. }
  assert (Hv : st_view s1 = st_view s) by apply Hs1. rewrite Hv in *.
  exists s2. split; [|by eapply shows_trans]. do 2 f_equal. unfold listed. rewrite bind_cons. by rewrite <-!app_assoc.
Qed.

Lemma entries_eq n blk l :
  (n ≤ length l)%nat → (∀ i d, l !! i = Some d → (i < n)%nat → get_word 4 i blk = d) → entries n blk = take n l.
Proof.
  intros Hn Hw. apply list_eq. intros i. unfold entries. rewrite list_lookup_fmap.
  destruct (decide (i < n)%nat) as [Hi|Hi].
  - rewrite lookup_seq_lt, lookup_take_lt by lia. simpl. destruct (lookup_lt_is_Some_2 l i) as [d Hd]; [lia|].
    rewrite Hd. f_equal. by apply Hw.
  - rewrite lookup_seq_ge, lookup_take_ge by lia. done.
Qed.

Lemma listed_perm V es : ∀ dd,
  (128 * length es ≤ length dd)%nat →
  (∀ j e b d, es !! j = Some e → dd !! (128 * j + b)%nat = Some d → (b < 128)%nat → get_word 4 b (V e) = d) →
  listed V es ≡ₚ es ++ take (128 * length es) dd.
Proof.
  induction es as [|e es IH]; intros dd Hl Hw; [by rewrite Nat.mul_0_r, take_0|].
  unfold listed. rewrite bind_cons. fold (listed V es). cbn [length] in *.
  rewrite (entries_eq 128 (V e) dd); [|lia|].
  - rewrite (IH (drop 128 dd)).
    + replace (128 * Datatypes.S (length es))%nat with (128 + 128 * length es)%nat by lia.
      rewrite <-take_take_drop. cbn [app]. solve_Permutation.
    + rewrite length_drop. lia.
    + intros j e' b d He Hd Hb. rewrite lookup_drop in Hd. apply (Hw (Datatypes.S j) e' b d); [done| |done].
      rewrite <-Hd. f_equal. lia.
  - intros i d Hi Hlt. apply (Hw 0%nat e i d); [done| |done]. by rewrite Nat.mul_0_r.
Qed.

Lemma rep_entries1 v di ds ms n :
  rep v di ds ms → (n ≤ 128)%nat → (28 + n ≤ length ds)%nat → entries n (v (indirect1 di)) = take n (drop 28 ds).
Proof.
  intros Hr Hn Hl. apply entries_eq; [rewrite length_drop; lia|]. intros i d Hi Hlt. rewrite lookup_drop in Hi.
  apply (r_ind1 _ _ _ _ Hr); [done|lia].
Qed.

Lemma rep_entries2 v di ds ms n :
  rep v di ds ms → (2 + n ≤ length ms)%nat → entries n (v (indirect2 di)) = take n (drop 2 ms).
Proof.
  intros Hr Hl. apply entries_eq; [rewrite length_drop; lia|]. intros i d Hi Hlt. rewrite lookup_drop in Hi.
  by apply (r_m3 _ _ _ _ Hr).
Qed.

Lemma list_indirect2_ok di ds ms a b v s :
  rep (st_view s) di ds ms → length ds = (156 + 128 * a + b)%nat → (b < 128)%nat → (156 < length ds)%nat →
  length ms = nmeta (length ds) → (∀ e, e ∈ drop 2 ms → can_lock e s) → st_wf s →
  ∃ v' s', list_indirect2 (Z.of_nat a) (Z.of_nat b) v (st_view s (indirect2 di)) s = Ret (v ++ v', st_view s (indirect2 di), s') ∧
    v' ≡ₚ drop 156 ds ++ drop 2 ms ∧ shows s s' (st_view s).
Proof.
  intros Hr Hds Hb Hbig Hms Hc Hwf. pose proof (r_max _ _ _ _ Hr) as Hmax. unfold MAX_BLOCKS in Hmax.
  rewrite nmeta_big in Hms by done. unfold list_indirect2. rewrite !Nat2Z.id.
  set (dd := drop 156 ds). assert (Hdd : length dd = (128 * a + b)%nat) by (unfold dd; rewrite length_drop; lia).
  assert (Hww : ∀ j e b d, drop 2 ms !! j = Some e → dd !! (128 * j + b)%nat = Some d → (b < 128)%nat → get_word 4 b (st_view s e) = d).
  { intros j e b' d He Hd Hb'. unfold dd in Hd. rewrite lookup_drop in He, Hd.
    apply (r_ind2 _ _ _ _ Hr j b' d e); [|done|done]. rewrite <-Hd. f_equal; lia. }
  rewrite (rep_entries2 _ _ ds ms) by (done || lia).
  destruct (push_full_ok (take a (drop 2 ms)) v s) as (s1 & -> & Hs1); [|done|].
  { intros e He. apply Hc. by apply (subseteq_take a). }
  cbn [mbind outcome_bind].
  assert (Hp : listed (st_view s) (take a (drop 2 ms)) ≡ₚ take a (drop 2 ms) ++ take (128 * a) dd).
  { assert (Hla : length (take a (drop 2 ms)) = a) by (rewrite length_take, length_drop; lia).
    rewrite <-Hla at 3. apply listed_perm; [lia|].
    intros j e b' d He. apply Hww. by apply lookup_take_Some in He as [He _]. }
  destruct (Z.ltb_spec 0 (Z.of_nat b)) as [Hb0|Hb0].
  - destruct (lookup_lt_is_Some_2 ms (2 + a)) as [e He]; [lia|].
    rewrite idx_u32_ok by lia. rewrite Nat2Z.id, (r_m3 _ _ _ _ Hr a e He). cbn [mbind outcome_bind].
    assert (Hein : e ∈ drop 2 ms) by (apply (list_elem_of_lookup_2 _ a); by rewrite lookup_drop).
    destruct (push_entries_ok e b ((v ++ listed (st_view s) (take a (drop 2 ms))) ++ [e]) s1) as (s2 & -> & Hs2).
    { eapply can_lock_shows; [done|]. by apply Hc. }
    cbn [mbind outcome_bind]. assert (Hv : st_view s1 = st_view s) by apply Hs1. rewrite Hv in *.
    rewrite (entries_eq b _ (drop (128 * a) dd)).
    2: { rewrite length_drop. lia. }
    2: { intros i d Hi Hlt. rewrite lookup_drop in Hi. apply (Hww a e); [by rewrite lookup_drop|done|lia]. }
    rewrite <-!app_assoc. eexists _, s2. split; [done|]. split; [|by eapply shows_trans].
    rewrite Hp, (take_ge (drop (128 * a) dd)) by (rewrite length_drop; lia).
    assert (Hm : drop 2 ms = take a (drop 2 ms) ++ [e]).
    { rewrite <-(take_drop a (drop 2 ms)) at 1. f_equal. rewrite drop_drop.
      rewrite (drop_S ms e (2 + a)) by done. f_equal. apply drop_ge. lia. }
    rewrite Hm at 2. rewrite <-(take_drop (128 * a) dd) at 3. solve_Permutation.
  - assert (b = 0%nat) as -> by lia. eexists _, s1. split; [done|]. split; [|done].
    rewrite Hp, (take_ge (drop 2 ms)) by (rewrite length_drop; lia). rewrite (take_ge dd) by lia. solve_Permutation.
Qed.

Lemma rep_nil v di : length (direct di) = 28%nat → rep v di [] [].
Proof. intros H. split; try done. Qed.

Lemma rep_direct_take v di ds ms n :
  rep v di ds ms → (n ≤ 28)%nat → (n ≤ length ds)%nat → take n (direct di) = take n ds.
Proof.
  intros Hr Hn Hl. pose proof (r_dir _ _ _ _ Hr). apply list_eq_same_length with n; rewrite ?length_take; [lia|lia|].
  intros i x y Hi. rewrite !lookup_take_lt by done. intros Hx Hy. apply (r_direct _ _ _ _ Hr) in Hy; [congruence|lia].
Qed.

(** Listing the doubly indirect block, behind its lock. *)
Lemma list_indirect2_modify di ds ms m2 a b v0 s :
  rep (st_view s) di ds ms → length ms = nmeta (length ds) → NoDup ms → (∀ e, e ∈ ms → ready e s) → st_wf s →
  ms !! 1%nat = Some m2 → can_lock m2 s → length ds = (156 + 128 * a + b)%nat → (b < 128)%nat → (156 < length ds)%nat →
  ∃ v' s', modify m2 0 BLOCK_LEN (λ blk s, list_indirect2 (Z.of_nat a) (Z.of_nat b) v0 blk s) s = Ret (v0 ++ v', s') ∧
    v' ≡ₚ drop 156 ds ++ drop 2 ms ∧ shows s s' (st_view s).
Proof.
  intros Hr Hms Hnd Hrd Hwf Hm2 Hc Hab Hb Hbig. pose proof (r_m2 _ _ _ _ Hr m2 Hm2) as Hi2.
  destruct (modify_spec m2 0 BLOCK_LEN (λ blk s, list_indirect2 (Z.of_nat a) (Z.of_nat b) v0 blk s) s
    (λ v blk V, blk = st_view s m2 ∧ V = st_view s ∧ ∃ v', v = v0 ++ v' ∧ v' ≡ₚ drop 156 ds ++ drop 2 ms) Hc ltac:(lia))
    as (v & blk & s2 & V & E & Hs2 & Hl2 & -> & -> & v' & -> & Hp).
  - intros s1 Hlk. assert (Hv : st_view s1 = st_view s) by apply Hlk.
    rewrite slice_whole by (by apply can_lock_length). rewrite <-Hv, <-Hi2. rewrite <-Hv in Hr.
    destruct (list_indirect2_ok di ds ms a b v0 s1) as (v' & s3 & E & Hp & Hs3); try done; try lia.
    + intros e He. apply (ready_locked m2 e s s1); [done|by apply Hrd, (subseteq_drop 2)|].
      intros ->. apply list_elem_of_lookup in He as [i Hi]. rewrite lookup_drop in Hi. by pose proof (NoDup_lookup _ _ _ _ Hnd Hi Hm2).
    + apply Hlk.
    + exists (v0 ++ v'), (st_view s1 m2), s3, (st_view s1). rewrite Hi2 in *. split_and!; try done; [|eauto].
      rewrite Hv. by apply can_lock_length.
  - exists v', s2. split; [done|]. split; [done|]. by rewrite splice_whole, insert_id_view in Hs2.
Qed.

Lemma clear_size_ok di ds ms s :
  rep (st_view s) di ds ms → length ms = nmeta (length ds) → Z.of_nat (length ds) = data_blocks di → NoDup ms →
  (∀ b, b ∈ ms → ready b s) → st_wf s →
  ∃ v di' s', clear_size di s = Ret (v, di', s') ∧ v ≡ₚ ds ++ ms ∧ shows s s' (st_view s) ∧
    di_size di' = 0 ∧ type_ di' = type_ di ∧ length (direct di') = 28%nat.
Proof.
  intros Hr Hms Hds Hnd Hrd Hwf. pose proof (r_dir _ _ _ _ Hr) as Hdir. pose proof (r_max _ _ _ _ Hr) as Hmax.
  unfold MAX_BLOCKS in Hmax. unfold clear_size. rewrite <-Hds.
  change INODE_DIRECT_COUNT with 28. change INODE_INDIRECT1_COUNT with 128. change INODE_INDIRECT2_COUNT with 16384.
  set (n := Z.to_nat (Z.min (Z.of_nat (length ds)) 28)).
  rewrite (rep_direct_take (st_view s) di ds ms n) by (done || lia).
  assert (Hd' : length (replicate n 0 ++ drop n (direct di)) = 28%nat) by (rewrite length_app, length_replicate, length_drop; lia).
  destruct (Z.leb_spec (Z.of_nat (length ds)) 28) as [H28|H28].
  { assert (ms = []) as ->.
    { apply nil_length_inv. rewrite Hms. unfold nmeta. destruct (Nat.leb_spec (length ds) 28); lia. }
    eexists _, _, s. split; [done|]. rewrite app_nil_r, take_ge by lia. by split_and!. }
  assert (Hm0 : (0 < length ms)%nat) by (rewrite Hms; by apply (nmeta_ind1 _ (length ds - 29)); lia).
  destruct (lookup_lt_is_Some_2 ms 0 Hm0) as [m1 Hm1]. pose proof (r_m1 _ _ _ _ Hr m1 Hm1) as Hi1.
  assert (Hc1 : can_lock (indirect1 di) s) by (rewrite Hi1; by apply ready_can_lock, Hrd, (list_elem_of_lookup_2 _ 0%nat)).
  set (k := Z.to_nat (Z.min (Z.of_nat (length ds) - 28) 128)).
  destruct (push_entries_ok (indirect1 di) k (take n ds ++ [indirect1 di]) s Hc1) as (s1 & -> & Hs1).
  cbn [mbind outcome_bind]. rewrite (rep_entries1 _ _ ds ms) by (done || lia).
  destruct (Z.leb_spec (Z.of_nat (length ds) - 28) 128) as [H156|H156].
  { assert (ms = [m1]) as ->.
    { assert (Hl : length ms = 1%nat) by (rewrite Hms; unfold nmeta; destruct (Nat.leb_spec (length ds) 28), (Nat.leb_spec (length ds) 156); lia).
      destruct ms as [|? [|]]; simpl in *; try lia. by injection Hm1 as ->. }
    eexists _, _, s1. split; [done|]. split; [|by split_and!]. rewrite Hi1, (take_ge (drop 28 ds)) by (rewrite length_drop; lia).
    replace n with 28%nat by lia. rewrite <-(take_drop 28 ds) at 3. solve_Permutation. }
  rewrite (proj2 (Z.leb_le _ _)) by lia. cbn [rassert mbind outcome_bind].
  set (a := Z.to_nat ((Z.of_nat (length ds) - 156) / 128)). set (b := Z.to_nat ((Z.of_nat (length ds) - 156) mod 128)).
  assert (Hab : length ds = (156 + 128 * a + b)%nat ∧ (b < 128)%nat ∧ (Z.of_nat (length ds) - 28 - 128) / 128 = Z.of_nat a ∧
    (Z.of_nat (length ds) - 28 - 128) mod 128 = Z.of_nat b) by lia.
  clearbody a b. destruct Hab as (Hab & Hb & -> & ->).
  destruct (lookup_lt_is_Some_2 ms 1) as [m2 Hm2]; [rewrite Hms, nmeta_big; lia|]. pose proof (r_m2 _ _ _ _ Hr m2 Hm2) as Hi2.
  assert (Hrd2 : ready m2 s) by (by apply Hrd, (list_elem_of_lookup_2 _ 1%nat)).
  assert (Hc2 : can_lock m2 s1) by (eapply can_lock_shows; [done|by apply ready_can_lock]).
  assert (Hv1 : st_view s1 = st_view s) by apply Hs1.
  rewrite Hi2. set (v0 := _ ++ [m2]).
  destruct (list_indirect2_modify di ds ms m2 a b v0 s1) as (v' & s2 & E & Hp & Hs2); rewrite ?Hv1; try done; try lia.
  { intros e He. eapply ready_shows; [done|]. by apply Hrd. }
  { apply Hs1. }
  rewrite Hv1 in Hs2.
  rewrite E. cbn [mbind outcome_bind]. eexists _, _, s2. split; [done|]. split; [|split; [|done]].
  - rewrite Hp. unfold v0. rewrite Hi1. replace n with 28%nat by lia. replace k with 128%nat by lia.
    assert (Hm : ms = [m1; m2] ++ drop 2 ms) by (destruct ms as [|x [|y l]]; [done..|]; injection Hm1 as ->; by injection Hm2 as ->).
    rewrite Hm at 2. rewrite <-(take_drop 28 ds) at 4. rewrite <-(take_drop 128 (drop 28 ds)) at 2. rewrite drop_drop. change (28 + 128)%nat with 156%nat.
    solve_Permutation.
  - by eapply shows_trans.
Qed.
End Map.
