(* ===== verification/InodeIO.v ===== *)
(** * Reading and writing an inode: [read_at], [write_at]

    The bytes of a file are the concatenation of its data blocks.  Both loops
    go block by block; they are specified as one slice and one splice of that
    concatenation. *)

From Stdlib Require Import FunctionalExtensionality.
From stdpp Require Import functions gmap.
From S2P Require Import Prelude Blocks Words Layout InodeMap.

Local Ltac Zify.zify_post_hook ::= Z.to_euclidean_division_equations.

(** The bytes of the data blocks [ds]. *)
Definition content (v : Z → Block) (ds : list Z) : list byte := ds ≫= v.

(** ** Slices across concatenations *)
Lemma slice_app_mid {A} (l1 b l2 : list A) j n :
  (j + n ≤ length b)%nat → slice (length l1 + j) n (l1 ++ b ++ l2) = slice j n b.
Proof.
  intros. apply list_eq. intros i. rewrite !lookup_slice. case_decide; [|done].
  rewrite lookup_app_r, lookup_app_l by lia. f_equal. lia.
Qed.

Lemma splice_app_mid {A} (l1 b l2 src : list A) j :
  (j + length src ≤ length b)%nat → splice (length l1 + j) src (l1 ++ b ++ l2) = l1 ++ splice j src b ++ l2.
Proof.
  intros. unfold splice. rewrite take_app_add, take_app_le by lia. rewrite <-Nat.add_assoc, drop_app_add, drop_app_le by lia.
  by rewrite <-!app_assoc.
Qed.

Lemma slice_add {A} off a b (l : list A) :
  slice off (a + b) l = slice off a l ++ slice (off + a) b l.
Proof. unfold slice. rewrite <-drop_drop. symmetry. apply take_take_drop. Qed.

Lemma slice_nil {A} off (l : list A) : slice off 0 l = [].
Proof. unfold slice. by rewrite take_0. Qed.

Lemma splice_nil {A} off (l : list A) : splice off [] l = l.
Proof. unfold splice. simpl. rewrite Nat.add_0_r. apply take_drop. Qed.

Section IO.
Context {S : Type} `{!BlockStore S, !StoreLaws S}.
Implicit Types s : S.

Lemma length_content v ds : (∀ d, d ∈ ds → length (v d) = BLOCK_LEN) → length (content v ds) = (512 * length ds)%nat.
Proof.
  induction ds as [|d ds IH]; intros Hl; [done|]. unfold content in *. rewrite bind_cons, length_app, IH by set_solver.
  rewrite Hl by left. cbn [length]. lia.
Qed.

Lemma content_split v ds i d :
  ds !! i = Some d → content v ds = content v (take i ds) ++ v d ++ content v (drop (Datatypes.S i) ds).
Proof.
  intros Hi. rewrite <-(take_drop_middle ds i d Hi) at 1. unfold content. by rewrite bind_app, bind_cons.
Qed.

Lemma content_ext v v' ds : (∀ d, d ∈ ds → v' d = v d) → content v' ds = content v ds.
Proof.
  intros Hv. induction ds as [|d ds IH]; [done|]. unfold content in *. rewrite !bind_cons. rewrite Hv by left.
  f_equal. apply IH. set_solver.
Qed.

Definition blocks_ok (v : Z → Block) (ds : list Z) : Prop := ∀ d, d ∈ ds → length (v d) = BLOCK_LEN.

Lemma content_slice v ds i d j n :
  blocks_ok v ds → ds !! i = Some d → (j + n ≤ 512)%nat → slice (512 * i + j) n (content v ds) = slice j n (v d).
Proof.
  intros Hl Hi Hj. rewrite (content_split v ds i d Hi). assert (Hlt := lookup_lt_Some _ _ _ Hi).
  assert (Hc : length (content v (take i ds)) = (512 * i)%nat).
  { rewrite length_content, length_take; [f_equal; lia|]. intros x Hx. apply Hl. by apply (subseteq_take i). }
  rewrite <-Hc at 1. apply slice_app_mid. rewrite Hl by (by eapply list_elem_of_lookup_2). lia.
Qed.

Lemma content_splice v ds i d j src :
  blocks_ok v ds → NoDup ds → ds !! i = Some d → (j + length src ≤ 512)%nat →
  content (<[d := splice j src (v d)]> v) ds = splice (512 * i + j) src (content v ds).
Proof.
  intros Hl Hnd Hi Hj. rewrite !(content_split _ ds i d Hi). assert (Hlt := lookup_lt_Some _ _ _ Hi).
  assert (Hc : length (content v (take i ds)) = (512 * i)%nat).
  { rewrite length_content, length_take; [f_equal; lia|]. intros x Hx. apply Hl. by apply (subseteq_take i). }
  rewrite <-Hc. rewrite splice_app_mid by (rewrite Hl by (by eapply list_elem_of_lookup_2); lia).
  rewrite lookup_insert_view. rewrite <-(take_drop_middle ds i d Hi) in Hnd. apply NoDup_app in Hnd as (_ & Hd & [Hnin _]%NoDup_cons).
  f_equal; [|f_equal]; apply content_ext; intros x Hx; apply lookup_insert_view_ne; intros ->; [|done].
  apply (Hd d Hx). by left.
Qed.

(** ** The loops *)

(** The conditions under which the loops run: the map, and all blocks free. *)
Record io_ok (di : DiskInode) (ds ms : list Z) (s : S) : Prop := {
  io_rep : rep (st_view s) di ds ms;
  io_nodup : NoDup (ds ++ ms);
  io_lock : ∀ b, b ∈ ds ++ ms → can_lock b s;
  io_wf : st_wf s;
}.

Lemma io_blocks di ds ms s : io_ok di ds ms s → blocks_ok (st_view s) ds.
Proof. intros H d Hd. apply can_lock_length, (io_lock _ _ _ _ H). set_solver. Qed.

Lemma io_ok_shows di ds ms s s' v' :
  io_ok di ds ms s → shows s s' v' → (∀ m, m ∈ ms → v' m = st_view s m) → io_ok di ds ms s'.
Proof.
  intros [A B C D] Hs Hm. assert (Hv : st_view s' = v') by apply Hs. split; [|done| |apply Hs].
  - rewrite Hv. by eapply rep_view.
  - intros b Hb. by eapply can_lock_shows, C.
Qed.

(** The piece of the current turn. *)
Lemma block_end_ok start end_ :
  0 ≤ start < end_ → let e := block_end start end_ in
  start < e ≤ end_ ∧ start mod 512 + (e - start) ≤ 512 ∧ (e ≠ end_ → e mod 512 = 0 ∧ e / 512 = start / 512 + 1).
Proof. intros H e. unfold e, block_end. change BLOCK_SZ with 512. lia. Qed.

Lemma read_loop_ok di ds ms : ∀ fuel start end_ read_size buf s,
  io_ok di ds ms s → 0 ≤ start < end_ → end_ ≤ 512 * Z.of_nat (length ds) → end_ / 512 - start / 512 < Z.of_nat fuel →
  0 ≤ read_size → read_size + (end_ - start) ≤ Z.of_nat (length buf) →
  ∃ s', read_loop fuel di start end_ (start / 512) read_size buf s =
      Ret (read_size + (end_ - start),
           splice (Z.to_nat read_size) (slice (Z.to_nat start) (Z.to_nat (end_ - start)) (content (st_view s) ds)) buf, s') ∧
    shows s s' (st_view s).
Proof.
  induction fuel as [|fuel IH]; intros start end_ rs buf s Hio Hse Hend Hf Hrs Hbuf; [lia|]. cbn [read_loop].
  pose proof (r_max _ _ _ _ (io_rep _ _ _ _ Hio)) as Hmax. unfold MAX_BLOCKS in Hmax.
  destruct (block_end_ok start end_ Hse) as (He & Hfit & Hnext). set (e := block_end start end_) in *. clearbody e.
  set (i := Z.to_nat (start / 512)). destruct (lookup_lt_is_Some_2 ds i) as [d Hd]; [lia|].
  rewrite (wrap_small 32) by lia.
  destruct (get_block_id_ok di ds ms i d s) as (s1 & E1 & Hs1);
    [apply Hio|apply Hio|intros m Hm; apply (io_lock _ _ _ _ Hio); set_solver|done|].
  replace (Z.of_nat i) with (start / 512) in E1 by lia. rewrite E1. cbn [mbind outcome_bind]. change BLOCK_SZ with 512.
  assert (Hcd : can_lock d s1).
  { eapply can_lock_shows; [done|]. apply (io_lock _ _ _ _ Hio). apply elem_of_app. left. by eapply list_elem_of_lookup_2. }
  assert (Hv1 : st_view s1 = st_view s) by apply Hs1.
  set (j := Z.to_nat (start mod 512)). set (n := Z.to_nat (e - start)).
  destruct (read_ok d 0 BLOCK_LEN (λ data s, src ← slice_checked j n data; Ret (src, s)) s1 (slice j n (st_view s d)) (st_view s1) Hcd)
    as (s2 & E2 & Hs2); [lia| |].
  { intros s2 (? & ? & Hv & ?). exists s2. rewrite slice_whole by (by apply can_lock_length). unfold slice_checked.
    rewrite can_lock_length by done. rewrite (proj2 (Nat.leb_le _ _)) by lia. rewrite Hv1. split; [done|].
    rewrite <-Hv1, <-Hv. by apply shows_refl. }
  rewrite E2. cbn [mbind outcome_bind]. rewrite Hv1 in Hs2.
  assert (Hs12 : shows s s2 (st_view s)) by (by eapply shows_trans).
  assert (Hpiece : slice j n (st_view s d) = slice (Z.to_nat start) n (content (st_view s) ds)).
  { rewrite <-(content_slice (st_view s) ds i d j n); [f_equal; lia|by eapply io_blocks|done|lia]. }
  assert (Hlc : length (content (st_view s) ds) = (512 * length ds)%nat) by (by apply length_content, (io_blocks _ _ _ _ Hio)).
  rewrite Hpiece. destruct (Z.eqb_spec e end_) as [->|Hne].
  - exists s2. split; [|done]. by rewrite Z.add_comm.
  - destruct (Hnext Hne) as [Hem Hed]. assert (Hv2 : st_view s2 = st_view s) by apply Hs2.
    replace (start / 512 + 1) with (e / 512) by lia.
    destruct (IH e end_ (rs + (e - start)) (splice (Z.to_nat rs) (slice (Z.to_nat start) n (content (st_view s) ds)) buf) s2)
      as (s3 & E3 & Hs3).
    + eapply io_ok_shows; [done|done|done].
    + lia.
    + lia.
    + lia.
    + lia.
    + rewrite length_splice; [lia|]. rewrite length_slice by (rewrite Hlc; lia). lia.
    + exists s3. rewrite Hv2 in *. split; [|by eapply shows_trans]. rewrite E3. do 2 f_equal. f_equal; [lia|].
      assert (Hln : length (slice (Z.to_nat start) n (content (st_view s) ds)) = n) by (apply length_slice; rewrite Hlc; lia).
      replace (Z.to_nat (rs + (e - start))) with (Z.to_nat rs + length (slice (Z.to_nat start) n (content (st_view s) ds)))%nat
        by (rewrite Hln; lia).
      rewrite splice_app.
      * f_equal. replace (Z.to_nat (end_ - start)) with (n + Z.to_nat (end_ - e))%nat by lia.
        rewrite slice_add. do 2 f_equal. lia.
      * rewrite Hln, length_slice by (rewrite Hlc; lia). lia.
Qed.

(** [read_at] copies the bytes of the file from [offset], as many as there are
    and as fit the buffer. *)
Lemma read_at_ok di ds ms offset buf s :
  io_ok di ds ms s → 0 ≤ offset → offset + Z.of_nat (length buf) < 2 ^ 64 →
  0 ≤ di_size di ≤ 512 * Z.of_nat (length ds) →
  let n := Z.max 0 (Z.min (Z.of_nat (length buf)) (di_size di - offset)) in
  ∃ s', read_at offset buf di s =
      Ret (n, splice 0 (slice (Z.to_nat offset) (Z.to_nat n) (content (st_view s) ds)) buf, s') ∧ shows s s' (st_view s).
Proof.
  intros Hio Ho Hb Hsz n. unfold read_at. rewrite (wrap_small 64) by lia.
  destruct (Z.leb_spec (Z.min (offset + Z.of_nat (length buf)) (di_size di)) offset).
  - exists s. replace n with 0 by lia. rewrite slice_nil, splice_nil. split; [done|]. by apply shows_refl, Hio.
  - change BLOCK_SZ with 512.
    destruct (read_loop_ok di ds ms (io_fuel offset (Z.min (offset + Z.of_nat (length buf)) (di_size di))) offset
      (Z.min (offset + Z.of_nat (length buf)) (di_size di)) 0 buf s Hio) as (s' & E & Hs); try lia.
    { unfold io_fuel. change BLOCK_SZ with 512. lia. }
    exists s'. rewrite E. split; [|done].
    replace (Z.min (offset + Z.of_nat (length buf)) (di_size di) - offset) with n by lia. by rewrite Z.add_0_l.
Qed.

Lemma write_loop_ok di ds ms : ∀ fuel start end_ ws buf s,
  io_ok di ds ms s → 0 ≤ start < end_ → end_ ≤ 512 * Z.of_nat (length ds) → end_ / 512 - start / 512 < Z.of_nat fuel →
  0 ≤ ws → ws + (end_ - start) ≤ Z.of_nat (length buf) →
  ∃ s' v', write_loop fuel di start end_ (start / 512) ws buf s = Ret (ws + (end_ - start), s') ∧ shows s s' v' ∧
    content v' ds = splice (Z.to_nat start) (slice (Z.to_nat ws) (Z.to_nat (end_ - start)) buf) (content (st_view s) ds) ∧
    ∀ b, b ∉ ds → v' b = st_view s b.
Proof.
  induction fuel as [|fuel IH]; intros start end_ ws buf s Hio Hse Hend Hf Hws Hbuf; [lia|]. cbn [write_loop].
  pose proof (r_max _ _ _ _ (io_rep _ _ _ _ Hio)) as Hmax. unfold MAX_BLOCKS in Hmax.
  pose proof (io_nodup _ _ _ _ Hio) as (Hnd & Hdisj & _)%NoDup_app.
  destruct (block_end_ok start end_ Hse) as (He & Hfit & Hnext). set (e := block_end start end_) in *. clearbody e.
  set (i := Z.to_nat (start / 512)). destruct (lookup_lt_is_Some_2 ds i) as [d Hd]; [lia|].
  assert (Hdin : d ∈ ds) by (by eapply list_elem_of_lookup_2).
  rewrite (wrap_small 32) by lia.
  destruct (get_block_id_ok di ds ms i d s) as (s1 & E1 & Hs1);
    [apply Hio|apply Hio|intros m Hm; apply (io_lock _ _ _ _ Hio); set_solver|done|].
  replace (Z.of_nat i) with (start / 512) in E1 by lia. rewrite E1. cbn [mbind outcome_bind]. change BLOCK_SZ with 512.
  assert (Hcd : can_lock d s1) by (eapply can_lock_shows; [done|]; apply (io_lock _ _ _ _ Hio); set_solver).
  assert (Hv1 : st_view s1 = st_view s) by apply Hs1.
  assert (Hld : length (st_view s d) = BLOCK_LEN) by (by apply (io_blocks _ _ _ _ Hio)).
  set (j := Z.to_nat (start mod 512)). set (n := Z.to_nat (e - start)). set (src := slice (Z.to_nat ws) n buf).
  assert (Hsrc : length src = n) by (apply length_slice; lia).
  destruct (modify_block d (λ data s, src ← slice_checked (Z.to_nat ws) n buf; _ ← slice_checked j n data;
      Ret (tt, splice j src data, s)) s1 tt (splice j src (st_view s d)) (st_view s1) Hcd) as (s2 & E2 & Hs2).
  { rewrite length_splice; [done|]. lia. }
  { intros s2 (? & ? & Hv & ?). exists s2. unfold slice_checked. rewrite (proj2 (Nat.leb_le _ (length buf))) by lia.
    cbn [mbind outcome_bind]. rewrite can_lock_length by done. rewrite (proj2 (Nat.leb_le _ _)) by lia.
    rewrite Hv1. split; [done|]. rewrite <-Hv1, <-Hv. by apply shows_refl. }
  rewrite E2. cbn [mbind outcome_bind]. rewrite Hv1 in Hs2.
  set (v2 := <[d := splice j src (st_view s d)]> (st_view s)) in *.
  assert (Hs12 : shows s s2 v2) by (by eapply shows_trans).
  assert (Hc2 : content v2 ds = splice (Z.to_nat start) src (content (st_view s) ds)).
  { unfold v2. rewrite (content_splice (st_view s) ds i d j src); [f_equal; lia|by eapply io_blocks|done|done|lia]. }
  assert (Hfr2 : ∀ b, b ∉ ds → v2 b = st_view s b) by (intros b Hb; apply lookup_insert_view_ne; by intros ->).
  destruct (Z.eqb_spec e end_) as [->|Hne].
  - exists s2, v2. split_and!; [by rewrite Z.add_comm|done|done|done].
  - destruct (Hnext Hne) as [Hem Hed]. assert (Hv2 : st_view s2 = v2) by apply Hs2.
    replace (start / 512 + 1) with (e / 512) by lia.
    assert (Hlc : length (content (st_view s) ds) = (512 * length ds)%nat) by (by apply length_content, (io_blocks _ _ _ _ Hio)).
    destruct (IH e end_ (ws + (e - start)) buf s2) as (s3 & v3 & E3 & Hs3 & Hc3 & Hfr3); try lia.
    + eapply io_ok_shows; [done|exact Hs12|]. intros m Hm. apply Hfr2. intros Hin. by apply (Hdisj m Hin).
    + exists s3, v3. rewrite Hv2 in *. split_and!; [rewrite E3; do 2 f_equal; lia|by eapply shows_trans| |].
      * rewrite Hc3, Hc2. replace (Z.to_nat e) with (Z.to_nat start + length src)%nat by lia.
        replace (Z.to_nat (end_ - start)) with (n + Z.to_nat (end_ - e))%nat by lia. rewrite slice_add. fold src.
        replace (Z.to_nat (ws + (e - start))) with (Z.to_nat ws + n)%nat by lia.
        apply splice_app. rewrite Hlc, Hsrc, length_slice by lia. lia.
      * intros b Hb. rewrite Hfr3, Hfr2 by done. done.
Qed.

(** [write_at] overwrites the bytes from [offset] on; the file must have room. *)
Lemma write_at_ok di ds ms offset buf s :
  io_ok di ds ms s → 0 ≤ offset → buf ≠ [] → offset + Z.of_nat (length buf) ≤ di_size di →
  di_size di ≤ 512 * Z.of_nat (length ds) →
  ∃ s' v', write_at offset buf di s = Ret (Z.of_nat (length buf), s') ∧ shows s s' v' ∧
    content v' ds = splice (Z.to_nat offset) buf (content (st_view s) ds) ∧ ∀ b, b ∉ ds → v' b = st_view s b.
Proof.
  intros Hio Ho Hne Hfit Hsz. pose proof (r_max _ _ _ _ (io_rep _ _ _ _ Hio)) as Hmax. unfold MAX_BLOCKS in Hmax.
  assert (Hpos : (0 < length buf)%nat) by (destruct buf; [done|simpl; lia]).
  unfold write_at. rewrite (wrap_small 64), Z.min_l by lia.
  rewrite (proj2 (Z.leb_le _ _)) by lia. cbn [rassert mbind outcome_bind]. change BLOCK_SZ with 512.
  destruct (write_loop_ok di ds ms (io_fuel offset (offset + Z.of_nat (length buf))) offset (offset + Z.of_nat (length buf)) 0 buf s Hio)
    as (s' & v' & E & Hs & Hc & Hfr); try lia.
  { unfold io_fuel. change BLOCK_SZ with 512. lia. }
  exists s', v'. rewrite E. split_and!; [do 2 f_equal; lia|done| |done].
  rewrite Hc. f_equal. unfold slice. rewrite drop_0. apply take_ge. lia.
Qed.
End IO.
