(* ===== verification/LayoutLemmas.v ===== *)
(** * The structs of the file system and their bytes

    Storing an inode, a super block or a directory entry and reading it back
    gives it back; the name of an entry is the one it was made with. *)

From S2P Require Import Prelude Blocks Words Utf8 Layout.

Lemma get_word_bind ws i w rest :
  ws !! i = Some w → 0 ≤ w < 2 ^ 32 → get_word 4 i ((ws ≫= to_le_bytes 4) ++ rest) = w.
Proof.
  revert i. induction ws as [|w' ws IH]; intros i Hi Hw; [done|]. rewrite bind_cons, <-app_assoc.
  unfold get_word in *. destruct i as [|i].
  - injection Hi as ->. unfold slice. rewrite Nat.mul_0_r, drop_0, take_app_length' by (by rewrite length_to_le_bytes).
    apply from_to_le_bytes_small. exact Hw.
  - replace (4 * S i)%nat with (length (to_le_bytes 4 w') + 4 * i)%nat by (rewrite length_to_le_bytes; lia).
    unfold slice. rewrite drop_app_add. by apply IH.
Qed.

Lemma length_words (ws : list Z) : length (ws ≫= to_le_bytes 4) = (4 * length ws)%nat.
Proof.
  induction ws as [|w ws IH]; [done|]. rewrite bind_cons, length_app, IH, length_to_le_bytes. simpl. lia.
Qed.

(** ** Inodes *)
Record inode_ok (di : DiskInode) : Prop := {
  ino_size : 0 ≤ di_size di < 2 ^ 32;
  ino_length : length (direct di) = 28%nat;
  ino_direct : Forall (λ x, 0 ≤ x < 2 ^ 32) (direct di);
  ino_ind1 : 0 ≤ indirect1 di < 2 ^ 32;
  ino_ind2 : 0 ≤ indirect2 di < 2 ^ 32;
}.

Definition inode_words (di : DiskInode) : list Z := di_size di :: direct di ++ [indirect1 di; indirect2 di].

Lemma inode_put_words di p : inode_put di p = (inode_words di ≫= to_le_bytes 4) ++ [type_code (type_ di)] ++ drop 125 p.
Proof.
  unfold inode_put, inode_words. rewrite bind_cons, bind_app.
  change ([indirect1 di; indirect2 di] ≫= to_le_bytes 4) with (to_le_bytes 4 (indirect1 di) ++ to_le_bytes 4 (indirect2 di) ++ []).
  by rewrite app_nil_r, <-!app_assoc.
Qed.

Lemma length_inode_put di p : inode_ok di → length p = INODE_SZ → length (inode_put di p) = INODE_SZ.
Proof.
  intros Hok Hp. rewrite inode_put_words, !length_app, length_words, length_drop, Hp. unfold inode_words.
  simpl. rewrite length_app, (ino_length _ Hok). done.
Qed.

Lemma inode_of_put di p : inode_ok di → inode_of (inode_put di p) = di.
Proof.
  intros [A B C D E]. rewrite inode_put_words. unfold inode_of, inode_words.
  assert (Hw : ∀ i w, (di_size di :: direct di ++ [indirect1 di; indirect2 di]) !! i = Some w → 0 ≤ w < 2 ^ 32 →
    get_word 4 i (((di_size di :: direct di ++ [indirect1 di; indirect2 di]) ≫= to_le_bytes 4) ++ [type_code (type_ di)] ++ drop 125 p) = w)
    by (intros; by apply get_word_bind).
  rewrite (Hw 0%nat (di_size di)), (Hw 29%nat (indirect1 di)), (Hw 30%nat (indirect2 di)); try done.
  2: { change 30%nat with (S 29). rewrite lookup_cons, lookup_app_r, B by lia. done. }
  2: { change 29%nat with (S 28). rewrite lookup_cons, lookup_app_r, B by lia. done. }
  assert (Hd : (λ i, get_word 4 (S i) (((di_size di :: direct di ++ [indirect1 di; indirect2 di]) ≫= to_le_bytes 4) ++
      [type_code (type_ di)] ++ drop 125 p)) <$> seq 0 28 = direct di).
  { apply list_eq_same_length with 28%nat; [done|by rewrite length_fmap, length_seq|]. intros i x y Hi Hx Hy.
    rewrite list_lookup_fmap, lookup_seq_lt in Hx by done. simpl in Hx. injection Hx as <-. apply Hw.
    - rewrite lookup_cons. by apply lookup_app_l_Some.
    - rewrite Forall_lookup in C. by eapply C. }
  rewrite Hd. rewrite lookup_app_r by (rewrite length_words; simpl; rewrite length_app, B; simpl; lia).
  replace (124 - _)%nat with 0%nat by (rewrite length_words; simpl; rewrite length_app, B; simpl; lia).
  destruct di as [a b c d []]; done.
Qed.

Lemma inode_of_ok p : length p = INODE_SZ → inode_ok (inode_of p).
Proof.
  intros Hp. change INODE_SZ with 128%nat in Hp. split; simpl; try done; try (apply (get_word_range 4); lia).
  repeat (constructor; [apply (get_word_range 4); lia|]). constructor.
Qed.

(** ** The super block *)
Lemma super_of_bytes sb rest :
  Forall (λ x, 0 ≤ x < 2 ^ 32) [magic sb; sb_total_blocks sb; sb_inode_bitmap_blocks sb; sb_inode_area_blocks sb;
    sb_data_bitmap_blocks sb; sb_data_area_blocks sb] →
  super_of (super_bytes sb ++ rest) = sb.
Proof.
  intros H. unfold super_of, super_bytes. rewrite Forall_lookup in H.
  rewrite (get_word_bind _ 0 (magic sb)), (get_word_bind _ 1 (sb_total_blocks sb)), (get_word_bind _ 2 (sb_inode_bitmap_blocks sb)),
    (get_word_bind _ 3 (sb_inode_area_blocks sb)), (get_word_bind _ 4 (sb_data_bitmap_blocks sb)),
    (get_word_bind _ 5 (sb_data_area_blocks sb)); try done.
  - by destruct sb.
  - by apply (H 5%nat).
  - by apply (H 4%nat).
  - by apply (H 3%nat).
  - by apply (H 2%nat).
  - by apply (H 1%nat).
  - by apply (H 0%nat).
Qed.

(** ** Directory entries *)
Definition name_of (name : string) : list byte := String.list_byte_of_string name.

Lemma string_of_name name : String.string_of_list_byte (name_of name) = name.
Proof. apply String.string_of_list_byte_of_string. Qed.

(** A name that can be stored: at most 27 bytes, none of them zero, UTF-8. *)
Definition name_ok (name : string) : Prop :=
  (length (name_of name) ≤ 27)%nat ∧ x00 ∉ name_of name ∧ utf8_valid (name_of name) = true.

Definition dirent_ok (d : DirEntry) : Prop := length (name_bytes d) = 28%nat ∧ 0 ≤ inode_number d < 2 ^ 32.

Lemma length_as_bytes d : dirent_ok d → length (as_bytes d) = DIRENT_LEN.
Proof. intros [Hn _]. unfold as_bytes. by rewrite length_app, length_to_le_bytes, Hn. Qed.

Lemma dirent_of_bytes d : dirent_ok d → dirent_of (as_bytes d) = d.
Proof.
  intros [Hn Hi]. unfold dirent_of, as_bytes. rewrite take_app_length' by done.
  assert (Hg : get_word 4 7 (name_bytes d ++ to_le_bytes 4 (inode_number d)) = inode_number d).
  { unfold get_word, slice. rewrite drop_app_length' by done. rewrite take_ge by (by rewrite length_to_le_bytes).
    by apply from_to_le_bytes_small. }
  rewrite Hg. by destruct d.
Qed.

Lemma DirEntry_new_ok name ino :
  (length (name_of name) ≤ 28)%nat → 0 ≤ ino < 2 ^ 32 →
  ∃ d, DirEntry_new (name_of name) ino = Ret d ∧ dirent_ok d ∧ inode_number d = ino ∧
    name_bytes d = name_of name ++ replicate (28 - length (name_of name)) x00.
Proof.
  intros Hl Hi. unfold DirEntry_new, NAME_LENGTH_LIMIT. rewrite (proj2 (Z.leb_le _ _)) by lia.
  eexists. split; [done|]. split; [split; simpl; [rewrite length_app, length_replicate; lia|done]|done].
Qed.

Lemma dirent_name_ok name d :
  name_ok name → name_bytes d = name_of name ++ replicate (28 - length (name_of name)) x00 → dirent_name d = Ret name.
Proof.
  intros (Hl & Hz & Hu) Hn. unfold dirent_name. rewrite Hn.
  assert (Hf : list_find (λ b, b = x00) (name_of name ++ replicate (28 - length (name_of name)) x00) = Some (length (name_of name), x00)).
  { apply list_find_Some. split_and!; [|done|].
    - rewrite lookup_app_r by lia. rewrite Nat.sub_diag. destruct (28 - length (name_of name))%nat eqn:E; [lia|done].
    - intros j y Hj Hlt ->. rewrite lookup_app_l in Hj by done. apply Hz. by eapply list_elem_of_lookup_2. }
  rewrite Hf, take_app_length. unfold from_utf8. rewrite Hu. simpl. by rewrite string_of_name.
Qed.

(** A name of 28 bytes fills its field: reading it back runs off the array. *)
Lemma dirent_name_full name ino d :
  length (name_of name) = 28%nat → x00 ∉ name_of name → DirEntry_new (name_of name) ino = Ret d → dirent_name d = Panic.
Proof.
  intros Hl Hz. unfold DirEntry_new, NAME_LENGTH_LIMIT. rewrite Hl. cbn. intros [= <-]. unfold dirent_name. cbn [name_bytes].
  rewrite app_nil_r. destruct (list_find _ _) as [[i b]|] eqn:E; [|done].
  apply list_find_Some in E as (Hi & -> & _). destruct Hz. by eapply list_elem_of_lookup_2.
Qed.

Lemma DirEntry_new_long name ino : (28 < length (name_of name))%nat → DirEntry_new (name_of name) ino = Panic.
Proof. intros Hl. unfold DirEntry_new, NAME_LENGTH_LIMIT. by rewrite (proj2 (Z.leb_gt _ _)) by lia. Qed.
