(* ===== verification/Efs.v ===== *)
(** * The file system object ([easy-fs/src/efs.rs])

    Areas of the disk, allocation of inodes and data blocks.  The block device
    field is the store that every operation threads; after [create] and [open]
    the rest never changes. *)

From S2P Require Import Prelude Blocks Words Bitmap Layout.

Record EasyFileSystem : Type := mkEfs {
  inode_bitmap : Bitmap;
  data_bitmap : Bitmap;
  inode_area_start_block : Z;
  data_area_start_block : Z;
}.

Definition zero_block : Block := replicate BLOCK_LEN x00.

Section Efs.
Context {S : Type} `{!BlockStore S}.

Definition get_disk_inode_pos (efs : EasyFileSystem) (inode_id : Z) : Z * nat :=
  let inode_size := Z.of_nat INODE_SZ in
  let inodes_per_block := BLOCK_SZ / inode_size in
  let block_id := u32 (inode_area_start_block efs + inode_id / inodes_per_block) in
  (block_id, Z.to_nat (inode_id mod inodes_per_block * inode_size)).

Definition get_data_block_id (efs : EasyFileSystem) (data_block_id : Z) : Z :=
  u32 (data_area_start_block efs + data_block_id).

Definition alloc_inode (efs : EasyFileSystem) (s : S) : outcome (Z * S) :=
  '(r, s) ← alloc (inode_bitmap efs) s; n ← unwrap r; Ret (u32 n, s).

Definition alloc_data (efs : EasyFileSystem) (s : S) : outcome (Z * S) :=
  '(r, s) ← alloc (data_bitmap efs) s; n ← unwrap r; Ret (u32 (u32 n + data_area_start_block efs), s).

(** [modify(0, |data_block: &mut DataBlock| ... *byte = 0)] *)
Definition zero (b : Z) (s : S) : outcome S :=
  '(_, s) ← modify b 0 BLOCK_LEN (λ _ s, Ret (tt, zero_block, s)) s; Ret s.

Definition dealloc_data (efs : EasyFileSystem) (block_id : Z) (s : S) : outcome S :=
  s ← zero block_id s;
  dealloc (data_bitmap efs) (u32 (block_id - data_area_start_block efs)) s.

Fixpoint zero_all (n : nat) (i : Z) (s : S) : outcome S :=
  match n with
  | O => Ret s
  | Datatypes.S n => s ← zero i s; zero_all n (i + 1) s
  end.

(** The struct that [create] builds and the super block that describes it. *)
Definition layout_of (total_blocks inode_bitmap_blocks : Z) : EasyFileSystem * SuperBlock :=
  let ibm := mkBitmap 1 inode_bitmap_blocks in
  let inode_num := maximum ibm in
  let inode_area_blocks := u32 ((inode_num * Z.of_nat INODE_SZ + BLOCK_SZ - 1) / BLOCK_SZ) in
  let inode_total_blocks := u32 (inode_bitmap_blocks + inode_area_blocks) in
  let data_total_blocks := u32 (total_blocks - 1 - inode_total_blocks) in
  let data_bitmap_blocks := u32 (data_total_blocks + 4096) / 4097 in
  let data_area_blocks := u32 (data_total_blocks - data_bitmap_blocks) in
  (mkEfs ibm (mkBitmap (u32 (1 + inode_total_blocks)) data_bitmap_blocks) (u32 (1 + inode_bitmap_blocks))
     (u32 (1 + inode_total_blocks + data_bitmap_blocks)),
   super_initialize total_blocks inode_bitmap_blocks inode_area_blocks data_bitmap_blocks data_area_blocks).

Definition efs_create (total_blocks inode_bitmap_blocks : Z) (s : S) : outcome (EasyFileSystem * S) :=
  let '(efs, sb) := layout_of total_blocks inode_bitmap_blocks in
  s ← zero_all (Z.to_nat total_blocks) 0 s;
  '(_, s) ← modify 0 0 SUPER_SZ (λ _ s, Ret (tt, super_bytes sb, s)) s;
  '(n, s) ← alloc_inode efs s;
  _ ← rassert (n =? 0);
  let '(root_inode_block_id, root_inode_offset) := get_disk_inode_pos efs 0 in
  '(_, s) ← modify root_inode_block_id root_inode_offset INODE_SZ
              (λ p s, Ret (tt, inode_put (inode_initialize Directory (inode_of p)) p, s)) s;
  s ← block_cache_sync_all s;
  Ret (efs, s).

(** The struct that a super block describes. *)
Definition efs_of_super (sb : SuperBlock) : EasyFileSystem :=
  let inode_total_blocks := u32 (sb_inode_bitmap_blocks sb + sb_inode_area_blocks sb) in
  mkEfs (mkBitmap 1 (sb_inode_bitmap_blocks sb))
    (mkBitmap (u32 (1 + inode_total_blocks)) (sb_data_bitmap_blocks sb))
    (u32 (1 + sb_inode_bitmap_blocks sb))
    (u32 (1 + inode_total_blocks + sb_data_bitmap_blocks sb)).

Definition efs_open (s : S) : outcome (EasyFileSystem * S) :=
  read 0 0 SUPER_SZ (λ p s, _ ← rassert (super_is_valid (super_of p)); Ret (efs_of_super (super_of p), s)) s.
End Efs.
