(* ===== verification/Vfs.v ===== *)
(** * Files and the directory ([easy-fs/src/vfs.rs])

    An [Inode] names the place of a disk inode.  Its operations hold the lock
    of the file system for their whole run and never take it twice, so that
    lock is not part of the state. *)

From S2P Require Import Prelude Blocks Words Bitmap Layout LayoutLemmas Efs.

Record Inode : Type := mkInode { ino_block_id : Z; ino_block_offset : nat }.

Section Vfs.
Context {S : Type} `{!BlockStore S}.

Definition inode_at (efs : EasyFileSystem) (inode_id : Z) : Inode :=
  let '(block_id, block_offset) := get_disk_inode_pos efs inode_id in mkInode block_id block_offset.

Definition root_inode (efs : EasyFileSystem) : Inode := inode_at efs 0.

Definition read_disk_inode {A} (ino : Inode) (f : DiskInode → S → outcome (A * S)) (s : S) : outcome (A * S) :=
  read (ino_block_id ino) (ino_block_offset ino) INODE_SZ (λ p s, f (inode_of p) s) s.

Definition modify_disk_inode {A} (ino : Inode) (f : DiskInode → S → outcome (A * DiskInode * S)) (s : S)
    : outcome (A * S) :=
  modify (ino_block_id ino) (ino_block_offset ino) INODE_SZ
    (λ p s, '(a, di, s) ← f (inode_of p) s; Ret (a, inode_put di p, s)) s.

(** [read_at(DIRENT_SZ * i, dirent.as_bytes_mut())] and the [assert_eq!]. *)
Definition read_dirent (i : Z) (d : DirEntry) (di : DiskInode) (s : S) : outcome (DirEntry * S) :=
  '(n, p, s) ← read_at (DIRENT_SZ * i) (as_bytes d) di s;
  _ ← rassert (n =? DIRENT_SZ);
  Ret (dirent_of p, s).

Fixpoint find_loop (n : nat) (i : Z) (d : DirEntry) (name : string) (di : DiskInode) (s : S) : outcome (option Z * S) :=
  match n with
  | O => Ret (None, s)
  | Datatypes.S n =>
      '(d, s) ← read_dirent i d di s;
      nm ← dirent_name d;
      if bool_decide (nm = name) then Ret (Some (inode_number d), s)
      else find_loop n (i + 1) d name di s
  end.

Definition file_count (di : DiskInode) : Z := di_size di / DIRENT_SZ.

Definition find_inode_id (name : string) (di : DiskInode) (s : S) : outcome (option Z * S) :=
  _ ← rassert (is_dir di);
  find_loop (Z.to_nat (file_count di)) 0 DirEntry_empty name di s.

Definition find (efs : EasyFileSystem) (name : string) (self : Inode) (s : S) : outcome (option Inode * S) :=
  read_disk_inode self
    (λ di s, '(r, s) ← find_inode_id name di s; Ret (option_map (inode_at efs) r, s)) s.

(** [for _ in 0..blocks_needed { v.push(fs.alloc_data()) }] *)
Fixpoint alloc_blocks (n : nat) (efs : EasyFileSystem) (v : list Z) (s : S) : outcome (list Z * S) :=
  match n with
  | O => Ret (v, s)
  | Datatypes.S n => '(b, s) ← alloc_data efs s; alloc_blocks n efs (v ++ [b]) s
  end.

Definition vfs_increase_size (efs : EasyFileSystem) (new_size : Z) (di : DiskInode) (s : S) : outcome (DiskInode * S) :=
  if new_size <? di_size di then Ret (di, s) else
  needed ← blocks_num_needed new_size di;
  '(v, s) ← alloc_blocks (Z.to_nat needed) efs [] s;
  increase_size new_size v di s.

(** Appending an entry to the directory. *)
Definition append_dirent (efs : EasyFileSystem) (name : string) (ino : Z) (di : DiskInode) (s : S)
    : outcome (unit * DiskInode * S) :=
  let n := file_count di in
  let new_size := u32 ((n + 1) * DIRENT_SZ) in
  '(di, s) ← vfs_increase_size efs new_size di s;
  dirent ← DirEntry_new (name_of name) ino;
  '(_, s) ← write_at (n * DIRENT_SZ) (as_bytes dirent) di s;
  Ret (tt, di, s).

Definition create (efs : EasyFileSystem) (name : string) (self : Inode) (s : S) : outcome (option Inode * S) :=
  '(r, s) ← read_disk_inode self
    (λ di s, _ ← rassert (is_dir di); find_inode_id name di s) s;
  match r with
  | Some _ => Ret (None, s)
  | None =>
      '(new_inode_id, s) ← alloc_inode efs s;
      '(_, s) ← modify_disk_inode (inode_at efs new_inode_id)
                  (λ di s, Ret (tt, inode_initialize File di, s)) s;
      '(_, s) ← modify_disk_inode self (append_dirent efs name new_inode_id) s;
      s ← block_cache_sync_all s;
      Ret (Some (inode_at efs new_inode_id), s)
  end.

Fixpoint ls_loop (n : nat) (i : Z) (v : list string) (di : DiskInode) (s : S) : outcome (list string * S) :=
  match n with
  | O => Ret (v, s)
  | Datatypes.S n =>
      '(d, s) ← read_dirent i DirEntry_empty di s;
      nm ← dirent_name d;
      ls_loop n (i + 1) (v ++ [nm]) di s
  end.

Definition ls (self : Inode) (s : S) : outcome (list string * S) :=
  read_disk_inode self (λ di s, ls_loop (Z.to_nat (file_count di)) 0 [] di s) s.

Definition inode_read_at (offset : Z) (buf : list byte) (self : Inode) (s : S) : outcome (Z * list byte * S) :=
  '(r, s) ← read_disk_inode self (λ di s, '(n, buf, s) ← read_at offset buf di s; Ret ((n, buf), s)) s;
  Ret (r, s).

Definition inode_write_at (efs : EasyFileSystem) (offset : Z) (buf : list byte) (self : Inode) (s : S)
    : outcome (Z * S) :=
  '(size, s) ← modify_disk_inode self
    (λ di s,
       '(di, s) ← vfs_increase_size efs (u32 (usize (offset + Z.of_nat (length buf)))) di s;
       '(n, s) ← write_at offset buf di s;
       Ret (n, di, s)) s;
  s ← block_cache_sync_all s;
  Ret (size, s).

Fixpoint dealloc_all (efs : EasyFileSystem) (bs : list Z) (s : S) : outcome S :=
  match bs with
  | [] => Ret s
  | b :: bs => s ← dealloc_data efs b s; dealloc_all efs bs s
  end.

Definition inode_clear (efs : EasyFileSystem) (self : Inode) (s : S) : outcome S :=
  '(_, s) ← modify_disk_inode self
    (λ di s,
       let size := di_size di in
       '(bs, di, s) ← clear_size di s;
       _ ← rassert (Z.of_nat (length bs) =? total_blocks size);
       s ← dealloc_all efs bs s;
       Ret (tt, di, s)) s;
  block_cache_sync_all s.
End Vfs.
