(* ===== verification/MemDisk.v ===== *)
(** * A disk in memory

    The device used by concrete runs: a finite map of blocks, zero where
    nothing was written, with a number of blocks.  Access outside panics, as
    the real drivers do. *)

From Stdlib Require Import FunctionalExtensionality.
From stdpp Require Import functions gmap.
From S2P Require Import Prelude Blocks BlockCache Bitmap Efs.

Record MemDisk : Type := mkMemDisk { capacity : Z; stored : gmap Z Block }.

Definition mem_block (d : MemDisk) (b : Z) : Block :=
  match stored d !! b with
  | Some x => if (length x =? BLOCK_LEN)%nat then x else zero_block
  | None => zero_block
  end.

Definition mem_ok (b : Z) (d : MemDisk) : bool := (0 <=? b) && (b <? capacity d).

#[export] Instance mem_device : BlockDevice MemDisk := {
  read_block b d := _ ← rassert (mem_ok b d); Ret (mem_block d b);
  write_block b data d := _ ← rassert (mem_ok b d); Ret (mkMemDisk (capacity d) (<[b := data]> (stored d)));
}.

Lemma mem_ok_true b d : 0 ≤ b < capacity d → mem_ok b d = true.
Proof. intros. unfold mem_ok. by rewrite (proj2 (Z.leb_le _ _)), (proj2 (Z.ltb_lt _ _)) by lia. Qed.

#[export] Instance mem_laws : DeviceLaws MemDisk.
Proof.
  refine {| dev_size := capacity; dev_block := mem_block |}.
  - intros d b _. unfold mem_block. destruct (stored d !! b) as [x|]; [|done].
    destruct (Nat.eqb_spec (length x) BLOCK_LEN); done.
  - intros d b Hb. simpl. by rewrite mem_ok_true.
  - intros d b data Hb Hl. simpl. rewrite mem_ok_true by done. cbn [rassert mbind outcome_bind]. eexists. split; [done|].
    split; [done|]. apply functional_extensionality. intros x. unfold mem_block. simpl. destruct (decide (x = b)) as [->|Hx].
    + rewrite lookup_insert_eq, lookup_insert_view. by rewrite Hl.
    + by rewrite lookup_insert_ne, lookup_insert_view_ne by congruence.
Defined.
