(* ===== verification/FsInv.v ===== *)
(** * The invariant of the file system

    [fs_inv efs total v m]: on the blocks [v] of a disk with [total] blocks,
    the inodes in use are those of [m], each with its data and index blocks;
    no block belongs to two of them, the bitmaps mark exactly what is in use,
    and everything beyond the end of a file is zero.  The second half
    specifies allocation and release of data blocks and the access to one
    inode. *)

From Stdlib Require Import FunctionalExtensionality.
From stdpp Require Import functions gmap.
From S2P Require Import Prelude Blocks Words Bitmap Layout LayoutLemmas InodeMap InodeGrow InodeClear InodeIO Efs Vfs.

Local Ltac Zify.zify_post_hook ::= Z.to_euclidean_division_equations.

(** The areas follow each other: super block, inode bitmap, inodes, data bitmap, data. *)
Record geometry (efs : EasyFileSystem) (total : Z) : Prop := {
  ge_ibm : start_block_id (inode_bitmap efs) = 1 ∧ 0 < blocks (inode_bitmap efs);
  ge_inodes : inode_area_start_block efs = 1 + blocks (inode_bitmap efs);
  ge_dbm : start_block_id (data_bitmap efs) = inode_area_start_block efs + maximum (inode_bitmap efs) / 4;
  ge_blocks : 0 ≤ blocks (data_bitmap efs);
  ge_data : data_area_start_block efs = start_block_id (data_bitmap efs) + blocks (data_bitmap efs);
  ge_total : data_area_start_block efs ≤ total < 2 ^ 32;
  ge_bits : total - data_area_start_block efs ≤ maximum (data_bitmap efs);
}.

(** The place of an inode, and the inode there. *)
Definition iblk (efs : EasyFileSystem) (id : Z) : Z := inode_area_start_block efs + id / 4.
Definition ioff (id : Z) : nat := Z.to_nat (id mod 4 * 128).
Definition di_at (efs : EasyFileSystem) (v : Z → Block) (id : Z) : DiskInode :=
  inode_of (slice (ioff id) INODE_SZ (v (iblk efs id))).

Abbreviation inode_map := (gmap Z (list Z * list Z)).

(** Block [b] belongs to an inode of [m]. *)
Definition owned (m : inode_map) (b : Z) : Prop := ∃ id ds ms, m !! id = Some (ds, ms) ∧ b ∈ ds ++ ms.

(** The data bit of block [b]. *)
Definition in_use (efs : EasyFileSystem) (v : Z → Block) (b : Z) : bool :=
  bit_of (data_bitmap efs) v (b - data_area_start_block efs).

(** One inode: its map, and zero bytes after the end of the file. *)
Record inode_inv (v : Z → Block) (di : DiskInode) (ds ms : list Z) : Prop := {
  ii_rep : rep v di ds ms;
  ii_metas : length ms = nmeta (length ds);
  ii_blocks : Z.of_nat (length ds) = data_blocks di;
  ii_size : 0 ≤ di_size di ≤ MAX_BLOCKS * BLOCK_SZ;
  ii_nodup : NoDup (ds ++ ms);
  ii_tail : drop (Z.to_nat (di_size di)) (content v ds) =
    replicate (length (content v ds) - Z.to_nat (di_size di)) x00;
}.

(** The super block describes [efs]. *)
Definition super_shows (efs : EasyFileSystem) (blk : Block) : Prop :=
  super_is_valid (super_of (slice 0 SUPER_SZ blk)) = true ∧ efs_of_super (super_of (slice 0 SUPER_SZ blk)) = efs.

Record fs_inv (efs : EasyFileSystem) (total : Z) (v : Z → Block) (m : inode_map) : Prop := {
  fi_inode id ds ms : m !! id = Some (ds, ms) → inode_inv v (di_at efs v id) ds ms;
  fi_disjoint id id' ds ms ds' ms' b :
    m !! id = Some (ds, ms) → m !! id' = Some (ds', ms') → b ∈ ds ++ ms → b ∈ ds' ++ ms' → id = id';
  fi_area b : owned m b → data_area_start_block efs ≤ b < total;
  fi_bits b : data_area_start_block efs ≤ b < data_area_start_block efs + maximum (data_bitmap efs) →
    in_use efs v b = true ↔ owned m b;
  fi_range id : is_Some (m !! id) → 0 ≤ id < maximum (inode_bitmap efs);
  fi_ibits id : 0 ≤ id < maximum (inode_bitmap efs) →
    bit_of (inode_bitmap efs) v id = true ↔ is_Some (m !! id);
  fi_zero b : data_area_start_block efs ≤ b < total → ¬ owned m b → v b = zero_block;
  fi_super : super_shows efs (v 0);
}.

(** The free data blocks. *)
Definition free_blocks (efs : EasyFileSystem) (total : Z) (v : Z → Block) : list Z :=
  filter (λ b, in_use efs v b = false) (seqZ (data_area_start_block efs) (total - data_area_start_block efs)).

Lemma elem_of_free efs total v b :
  b ∈ free_blocks efs total v ↔ data_area_start_block efs ≤ b < total ∧ in_use efs v b = false.
Proof. unfold free_blocks. rewrite list_elem_of_filter, elem_of_seqZ. split; intros; split; try tauto; lia. Qed.

Lemma NoDup_free efs total v : NoDup (free_blocks efs total v).
Proof. apply NoDup_filter, NoDup_seqZ. Qed.

Section Geometry.
Context (efs : EasyFileSystem) (total : Z) (G : geometry efs total).

Lemma maximum_4 : maximum (inode_bitmap efs) / 4 * 4 = maximum (inode_bitmap efs).
Proof. unfold maximum, BLOCK_BITS, BLOCK_SZ. lia. Qed.

Lemma iblk_range id : 0 ≤ id < maximum (inode_bitmap efs) →
  inode_area_start_block efs ≤ iblk efs id < start_block_id (data_bitmap efs) ∧ (ioff id + INODE_SZ ≤ BLOCK_LEN)%nat.
Proof.
  intros H. destruct G as [A B C D E F I]. pose proof maximum_4 as Hm. unfold iblk, ioff. change INODE_SZ with 128%nat.
  set (M := maximum (inode_bitmap efs)) in *. clearbody M. lia.
Qed.

Lemma area_order : 0 < inode_area_start_block efs ∧ inode_area_start_block efs ≤ start_block_id (data_bitmap efs) ∧
  start_block_id (data_bitmap efs) ≤ data_area_start_block efs.
Proof.
  destruct G as [[A A'] B C D E F _]. pose proof maximum_4.
  assert (0 ≤ maximum (inode_bitmap efs)) by (unfold maximum, BLOCK_BITS, BLOCK_SZ; lia). lia.
Qed.

Lemma get_disk_inode_pos_eq id :
  0 ≤ id < maximum (inode_bitmap efs) → get_disk_inode_pos efs id = (iblk efs id, ioff id).
Proof.
  intros H. destruct (iblk_range id H) as [Hr _]. destruct G as [A B C D E F I].
  unfold get_disk_inode_pos, iblk, ioff in *. change (Z.of_nat INODE_SZ) with 128. change (BLOCK_SZ / 128) with 4.
  rewrite wrap_small; [done|]. lia.
Qed.

Lemma inode_at_eq id : 0 ≤ id < maximum (inode_bitmap efs) → inode_at efs id = mkInode (iblk efs id) (ioff id).
Proof. intros H. unfold inode_at. by rewrite get_disk_inode_pos_eq. Qed.

Lemma pos_inj id id' : iblk efs id = iblk efs id' → ioff id = ioff id' → id = id'.
Proof. unfold iblk, ioff. lia. Qed.

(** Two inodes of one block do not overlap. *)
Lemma ioff_disjoint id id' : iblk efs id = iblk efs id' → id ≠ id' → (ioff id + 128 ≤ ioff id' ∨ ioff id' + 128 ≤ ioff id)%nat.
Proof. intros Hb Hne. assert (ioff id ≠ ioff id') by (intros Ho; by apply Hne, pos_inj). unfold iblk, ioff in *. lia. Qed.
End Geometry.

(** ** Views that agree with the inode area changed in one inode *)

(** Storing inode [id]. *)
Definition put_inode (efs : EasyFileSystem) (id : Z) (di : DiskInode) (v0 v : Z → Block) : Z → Block :=
  <[iblk efs id := splice (ioff id) (inode_put di (slice (ioff id) INODE_SZ (v0 (iblk efs id)))) (v0 (iblk efs id))]> v.

Lemma di_at_put efs total id di v0 v :
  geometry efs total → 0 ≤ id < maximum (inode_bitmap efs) → inode_ok di → length (v0 (iblk efs id)) = BLOCK_LEN →
  di_at efs (put_inode efs id di v0 v) id = di.
Proof.
  intros G Hid Hok Hl. destruct (iblk_range efs total G id Hid) as [_ Ho]. unfold di_at, put_inode. rewrite lookup_insert_view.
  assert (Hp : length (slice (ioff id) INODE_SZ (v0 (iblk efs id))) = INODE_SZ) by (apply length_slice; lia).
  pose proof (length_inode_put di _ Hok Hp) as Hlp. rewrite <-Hlp at 1. rewrite slice_splice by lia. by apply inode_of_put.
Qed.

Lemma di_at_put_other efs total id id' di v0 v :
  geometry efs total → 0 ≤ id < maximum (inode_bitmap efs) → inode_ok di → length (v0 (iblk efs id)) = BLOCK_LEN →
  (iblk efs id' = iblk efs id → v (iblk efs id) = v0 (iblk efs id)) → id' ≠ id →
  di_at efs (put_inode efs id di v0 v) id' = di_at efs v id'.
Proof.
  intros G Hid Hok Hl Hv Hne. destruct (iblk_range efs total G id Hid) as [_ Ho]. unfold di_at, put_inode.
  destruct (decide (iblk efs id' = iblk efs id)) as [He|He]; [|by rewrite lookup_insert_view_ne].
  rewrite He, lookup_insert_view, Hv by done.
  assert (Hp : length (slice (ioff id) INODE_SZ (v0 (iblk efs id))) = INODE_SZ) by (apply length_slice; lia).
  pose proof (length_inode_put di _ Hok Hp) as Hlp. f_equal. change INODE_SZ with 128%nat in *.
  rewrite slice_splice_disjoint; [done|lia|]. rewrite Hlp.
  destruct (ioff_disjoint efs id id') as [H|H]; [done|congruence|lia|lia].
Qed.

(** ** Data blocks *)
Section Data.
Context {S : Type} `{!BlockStore S, !StoreLaws S}.
Context (efs : EasyFileSystem) (total : Z) (G : geometry efs total).
Implicit Types s : S.

(** The data bitmap and the data area can be used. *)
Definition data_ready (s : S) : Prop := st_wf s ∧ ∀ b, start_block_id (data_bitmap efs) ≤ b < total → ready b s.

Lemma data_ready_shows s s' v : shows s s' v → data_ready s → data_ready s'.
Proof. intros Hs [_ H]. split; [apply Hs|]. intros b Hb. by eapply ready_shows, H. Qed.

Lemma data_ready_bm s : data_ready s → bm_ready (data_bitmap efs) s.
Proof.
  intros [Hwf H]. split_and!; [done|apply G|]. intros b Hb. apply ready_can_lock, H.
  pose proof (ge_data _ _ G). pose proof (ge_total _ _ G). lia.
Qed.

(** Block [b] of the data area changes its bit; only the bitmap is written. *)
Definition use_set (b : Z) (u : bool) (v v' : Z → Block) : Prop :=
  (∀ c, data_area_start_block efs ≤ c < data_area_start_block efs + maximum (data_bitmap efs) →
     in_use efs v' c = if c =? b then u else in_use efs v c) ∧
  (∀ c, ¬ (start_block_id (data_bitmap efs) ≤ c < data_area_start_block efs) → v' c = v c).

Lemma bit_set_use n u v v' :
  0 ≤ n < maximum (data_bitmap efs) → bit_set (data_bitmap efs) n u v v' →
  use_set (data_area_start_block efs + n) u v v'.
Proof.
  intros Hn [(blk & _ & ->) Hb]. split.
  - intros c Hc. unfold in_use. rewrite Hb by lia.
    destruct (Z.eqb_spec (c - data_area_start_block efs) n), (Z.eqb_spec c (data_area_start_block efs + n)); try done; lia.
  - intros c Hc. apply lookup_insert_view_ne. intros ->. apply Hc. pose proof (ge_data _ _ G).
    assert (0 ≤ n / BLOCK_BITS < blocks (data_bitmap efs)) by (apply div_bound; [done|exact Hn]). lia.
Qed.

Lemma alloc_data_ok s :
  data_ready s → free_blocks efs total (st_view s) ≠ [] →
  ∃ b s' v', alloc_data efs s = Ret (b, s') ∧ shows s s' v' ∧ b ∈ free_blocks efs total (st_view s) ∧
    use_set b true (st_view s) v'.
Proof.
  intros Hr Hf. unfold alloc_data. pose proof (ge_total _ _ G) as Ht. pose proof (ge_bits _ _ G) as Hbt.
  assert (Hex : ∃ b, b ∈ free_blocks efs total (st_view s)) by (destruct (free_blocks _ _ _) as [|b]; [done|exists b; by left]).
  destruct Hex as (b0 & [Hb0 Hc0]%elem_of_free).
  destruct (alloc_ok (data_bitmap efs) s (data_ready_bm s Hr)) as [(s' & _ & _ & Hall)|(n & s' & v' & E & Hs & Hn & Hclr & Hlow & Hset)].
  - unfold in_use in Hc0. rewrite Hall in Hc0 by lia. done.
  - rewrite E. cbn [mbind outcome_bind unwrap]. unfold in_use in Hc0.
    assert (Hle : n ≤ b0 - data_area_start_block efs).
    { destruct (decide (n ≤ b0 - data_area_start_block efs)); [done|]. rewrite Hlow in Hc0 by lia. done. }
    destruct G as [A B C D F _ _]. pose proof (maximum_4 efs).
    assert (0 ≤ maximum (inode_bitmap efs)) by (unfold maximum, BLOCK_BITS, BLOCK_SZ; lia).
    rewrite (wrap_small 32 n), wrap_small by lia. rewrite (Z.add_comm n).
    exists (data_area_start_block efs + n), s', v'. split_and!; [done|done| |by apply bit_set_use].
    apply elem_of_free. unfold in_use. replace (data_area_start_block efs + n - data_area_start_block efs) with n by lia.
    split; [lia|done].
Qed.

(** What a run of allocations does to the bits. *)
Definition uses_set (bs : list Z) (u : bool) (v v' : Z → Block) : Prop :=
  (∀ c, data_area_start_block efs ≤ c < data_area_start_block efs + maximum (data_bitmap efs) →
     in_use efs v' c = if bool_decide (c ∈ bs) then u else in_use efs v c).

Definition same_off_bitmap (v v' : Z → Block) : Prop :=
  ∀ c, ¬ (start_block_id (data_bitmap efs) ≤ c < data_area_start_block efs) → v' c = v c.

Lemma free_use b v v' :
  b ∈ free_blocks efs total v → use_set b true v v' → free_blocks efs total v ≡ₚ b :: free_blocks efs total v'.
Proof.
  intros Hb [Hu _]. pose proof (ge_bits _ _ G). apply NoDup_Permutation; [apply NoDup_free| |].
  - apply NoDup_cons. split; [|apply NoDup_free]. intros [Hr Hc]%elem_of_free.
    rewrite Hu, Z.eqb_refl in Hc by lia. done.
  - intros c. rewrite elem_of_cons, !elem_of_free. split.
    + intros [Hr Hc]. destruct (decide (c = b)) as [->|Hne]; [by left|]. right. split; [done|].
      rewrite Hu by lia. by rewrite (proj2 (Z.eqb_neq c b)).
    + intros [->|[Hr Hc]]; [by apply elem_of_free in Hb|]. split; [done|]. rewrite Hu in Hc by lia.
      by destruct (Z.eqb_spec c b).
Qed.

Lemma alloc_blocks_ok : ∀ n acc s,
  data_ready s → (n ≤ length (free_blocks efs total (st_view s)))%nat →
  ∃ bs s' v', alloc_blocks n efs acc s = Ret (acc ++ bs, s') ∧ shows s s' v' ∧ length bs = n ∧
    free_blocks efs total (st_view s) ≡ₚ bs ++ free_blocks efs total v' ∧ uses_set bs true (st_view s) v' ∧
    same_off_bitmap (st_view s) v'.
Proof.
  induction n as [|n IH]; intros acc s Hr Hn; cbn [alloc_blocks].
  { exists [], s, (st_view s). rewrite app_nil_r. split; [done|]. split; [by apply shows_refl, Hr|]. split_and!; try done. }
  destruct (alloc_data_ok s Hr) as (b & s1 & v1 & -> & Hs1 & Hb & Hu); [intros Hnil; rewrite Hnil in Hn; simpl in Hn; lia|].
  cbn [mbind outcome_bind]. assert (Hv1 : st_view s1 = v1) by apply Hs1. subst v1.
  pose proof (free_use b _ _ Hb Hu) as Hp.
  destruct (IH (acc ++ [b]) s1) as (bs & s2 & v2 & -> & Hs2 & Hl & Hp2 & Hu2 & Hsame).
  { by eapply data_ready_shows. }
  { apply Permutation_length in Hp. simpl in Hp. lia. }
  exists (b :: bs), s2, v2. rewrite <-app_assoc. split_and!; try done.
  - by eapply shows_trans.
  - by rewrite <-Hl.
  - by rewrite Hp, Hp2.
  - intros c Hc. rewrite Hu2 by done. destruct Hu as [Hu _]. rewrite Hu by done.
    destruct (Z.eqb_spec c b) as [->|Hne].
    + rewrite (bool_decide_eq_true_2 (b ∈ b :: bs)) by left. by case_bool_decide.
    + destruct (decide (c ∈ bs)) as [Hin|Hin].
      * by rewrite !bool_decide_eq_true_2 by (done || by right).
      * rewrite !bool_decide_eq_false_2; [done|by intros [?|?]%elem_of_cons|done].
  - intros c Hc. rewrite Hsame by done. by apply Hu.
Qed.

(** ** Release *)
Lemma zero_ok b s :
  can_lock b s → ∃ s', zero b s = Ret s' ∧ shows s s' (<[b := zero_block]> (st_view s)).
Proof.
  intros Hc. unfold zero.
  destruct (modify_block_pure b (λ _, (tt, zero_block)) s Hc) as (s' & E & Hs); [done|]. rewrite E. by exists s'.
Qed.

Lemma dealloc_data_ok b s :
  data_ready s → data_area_start_block efs ≤ b < total → in_use efs (st_view s) b = true →
  ∃ s' v', dealloc_data efs b s = Ret s' ∧ shows s s' v' ∧ v' b = zero_block ∧
    (∀ c, data_area_start_block efs ≤ c < data_area_start_block efs + maximum (data_bitmap efs) →
       in_use efs v' c = if c =? b then false else in_use efs (st_view s) c) ∧
    (∀ c, ¬ (start_block_id (data_bitmap efs) ≤ c < data_area_start_block efs) → c ≠ b → v' c = st_view s c).
Proof.
  intros Hr Hb Hu. unfold dealloc_data. pose proof (ge_total _ _ G) as Ht. pose proof (ge_bits _ _ G) as Hbt.
  pose proof (ge_data _ _ G) as Hd. pose proof (ge_blocks _ _ G).
  destruct (zero_ok b s) as (s1 & -> & Hs1); [apply ready_can_lock, Hr; lia|]. cbn [mbind outcome_bind].
  set (v1 := <[b := zero_block]> (st_view s)) in *. assert (Hv1 : st_view s1 = v1) by apply Hs1.
  set (n := b - data_area_start_block efs) in *. assert (Hn : 0 ≤ n < maximum (data_bitmap efs)) by lia.
  assert (Hbits : ∀ m, 0 ≤ m < maximum (data_bitmap efs) → bit_of (data_bitmap efs) v1 m = bit_of (data_bitmap efs) (st_view s) m).
  { intros m Hm. unfold bit_of. f_equal. apply lookup_insert_view_ne.
    assert (0 ≤ m / BLOCK_BITS < blocks (data_bitmap efs)) by (apply div_bound; [done|exact Hm]). lia. }
  rewrite wrap_small by (destruct G as [A B C D F _ _]; pose proof (maximum_4 efs);
    assert (0 ≤ maximum (inode_bitmap efs)) by (unfold maximum, BLOCK_BITS, BLOCK_SZ; lia); lia).
  destruct (dealloc_ok (data_bitmap efs) n s1) as (s2 & v2 & -> & Hs2 & Hset).
  { eapply bm_ready_shows; [done|]. by apply data_ready_bm. }
  { done. }
  { rewrite Hv1, Hbits by done. exact Hu. }
  rewrite Hv1 in Hset. exists s2, v2. destruct (bit_set_use n false v1 v2 Hn Hset) as [Hu2 Hs].
  replace (data_area_start_block efs + n) with b in Hu2 by lia.
  split_and!; [done|by eapply shows_trans| | |].
  - rewrite Hs by lia. apply lookup_insert_view.
  - intros c Hc. rewrite Hu2 by done. destruct (c =? b); [done|]. unfold in_use. rewrite Hbits by lia. done.
  - intros c Hc Hne. rewrite Hs by done. by apply lookup_insert_view_ne.
Qed.

Lemma dealloc_all_ok : ∀ bs s,
  data_ready s → NoDup bs → (∀ b, b ∈ bs → data_area_start_block efs ≤ b < total ∧ in_use efs (st_view s) b = true) →
  ∃ s' v', dealloc_all efs bs s = Ret s' ∧ shows s s' v' ∧ (∀ b, b ∈ bs → v' b = zero_block) ∧
    uses_set bs false (st_view s) v' ∧
    (∀ c, ¬ (start_block_id (data_bitmap efs) ≤ c < data_area_start_block efs) → c ∉ bs → v' c = st_view s c).
Proof.
  induction bs as [|b bs IH]; intros s Hr Hnd Hbs; cbn [dealloc_all].
  { exists s, (st_view s). split; [done|]. split; [by apply shows_refl, Hr|]. split; [by intros b ?%elem_of_nil|]. by split. }
  apply NoDup_cons in Hnd as [Hnin Hnd]. destruct (Hbs b) as [Hb Hu]; [by left|].
  pose proof (ge_bits _ _ G). pose proof (ge_blocks _ _ G). pose proof (ge_data _ _ G).
  destruct (dealloc_data_ok b s Hr Hb Hu) as (s1 & v1 & -> & Hs1 & Hz1 & Hu1 & Hf1). cbn [mbind outcome_bind].
  assert (Hv1 : st_view s1 = v1) by apply Hs1. subst v1.
  destruct (IH s1) as (s2 & v2 & -> & Hs2 & Hz2 & Hu2 & Hf2).
  { by eapply data_ready_shows. }
  { done. }
  { intros c Hc. destruct (Hbs c) as [Hcr Hcu]; [by right|]. split; [done|]. rewrite Hu1 by lia.
    rewrite (proj2 (Z.eqb_neq c b)); [done|]. by intros ->. }
  exists s2, v2. split_and!; [done|by eapply shows_trans| | |].
  - intros c [->|Hc]%elem_of_cons; [|by apply Hz2]. rewrite Hf2; [done|lia|done].
  - intros c Hc. rewrite Hu2, Hu1 by done. destruct (Z.eqb_spec c b) as [->|Hne].
    + rewrite (bool_decide_eq_true_2 (b ∈ b :: bs)) by left. by case_bool_decide.
    + destruct (decide (c ∈ bs)) as [Hin|Hin].
      * by rewrite !bool_decide_eq_true_2 by (done || by right).
      * rewrite !bool_decide_eq_false_2; [done|by intros [?|?]%elem_of_cons|done].
  - intros c Hc Hnc. rewrite Hf2 by set_solver. apply Hf1; [done|]. set_solver.
Qed.
End Data.
