(* ===== verification/FsOps.v ===== *)
(** * Operations on one file

    Growing, writing, reading and emptying a file keep the invariant of the
    file system and change that file only. *)

From Stdlib Require Import FunctionalExtensionality.
From stdpp Require Import functions gmap.
From S2P Require Import Prelude Blocks Words Bitmap Layout LayoutLemmas InodeMap InodeGrow InodeClear InodeIO Efs Vfs FsInv.

Local Ltac Zify.zify_post_hook ::= Z.to_euclidean_division_equations.

(** ** The fields stay 32-bit numbers *)
Section Fields.
Context {S : Type} `{!BlockStore S}.

Lemma modify_inv {A} b off sz (f : Block → S → outcome (A * Block * S)) s (a : A) s' :
  modify b off sz f s = Ret (a, s') → ∃ p s1 part s2, f p s1 = Ret (a, part, s2).
Proof.
  unfold modify. intros H. apply bind_Ret in H as ([data s1] & _ & H). apply bind_Ret in H as (u & _ & H).
  apply bind_Ret in H as ([[a' part] s2] & E & H). apply bind_Ret in H as (s3 & _ & H). injection H as <- <-. eauto.
Qed.

Lemma next_u32 nb x nb' : next nb = Ret (x, nb') → u32s nb → 0 ≤ x < 2 ^ 32 ∧ u32s nb'.
Proof. destruct nb; [done|]. intros [= -> ->] H. by inversion_clear H. Qed.

Lemma fill_direct_u32 : ∀ n cur l nb l' nb',
  fill_direct n cur l nb = Ret (l', nb') → u32s l → u32s nb → u32s l' ∧ u32s nb' ∧ length l' = length l.
Proof.
  induction n as [|n IH]; intros cur l nb l' nb'; cbn [fill_direct]; [by intros [= <- <-]|].
  intros H Hl Hn. apply bind_Ret in H as ([x nb1] & E & H). destruct (next_u32 _ _ _ E Hn) as [Hx Hn1].
  apply bind_Ret in H as (u & _ & H). apply IH in H as (A & B & C); [by rewrite length_insert in C| |done].
  by apply Forall_insert.
Qed.

Lemma fill_indirect_u32 : ∀ n cur blk nb blk' nb', fill_indirect n cur blk nb = Ret (blk', nb') → u32s nb → u32s nb'.
Proof.
  induction n as [|n IH]; intros cur blk nb blk' nb'; cbn [fill_indirect]; [by intros [= <- <-]|].
  intros H Hn. apply bind_Ret in H as ([x nb1] & E & H). destruct (next_u32 _ _ _ E Hn) as [Hx Hn1].
  apply bind_Ret in H as (b & _ & H). by eapply IH.
Qed.

Lemma increase_size_fields new_size nb di s di' s' :
  increase_size new_size nb di s = Ret (di', s') → inode_ok di → u32s nb → 0 ≤ new_size < 2 ^ 32 → inode_ok di'.
Proof.
  intros H [Ha Hb Hc Hd He] Hn Hs. unfold increase_size in H.
  apply bind_Ret in H as ([[cur1 nb1] di1] & E1 & H).
  unfold grow_direct in E1. apply bind_Ret in E1 as ([l nb1'] & El & E1). injection E1 as <- <- <-. simpl in El.
  apply fill_direct_u32 in El as (Hl & Hn1 & Hlen); [|done|done].
  destruct (_ <=? _) in H; [injection H as <- <-; split; simpl; try done; congruence|].
  apply bind_Ret in H as ([[[cur2 nb2] di2] s2] & E2 & H). unfold grow_indirect1 in E2.
  apply bind_Ret in E2 as ([i1 nb2'] & Ei1 & E2). cbv zeta in E2. apply bind_Ret in E2 as ([nb2'' s2'] & Em & E2).
  injection E2 as <- <- <- <-. simpl in Ei1.
  assert (Hi1 : 0 ≤ i1 < 2 ^ 32 ∧ u32s nb2') by (destruct (_ =? _) in Ei1; [by eapply next_u32|by injection Ei1 as <- <-]).
  destruct Hi1 as [Hi1 Hn2']. apply modify_inv in Em as (p & s3 & part & s4 & Ef).
  apply bind_Ret in Ef as ([blk nb3] & Ef & E). injection E as <- <- <-. apply fill_indirect_u32 in Ef; [|done].
  destruct (_ <=? _) in H; [injection H as <- <-; split; simpl; try done; congruence|].
  apply bind_Ret in H as ([[nb4 di3] s5] & E3 & H). injection H as <- <-. unfold grow_indirect2 in E3.
  apply bind_Ret in E3 as ([i2 nb5] & Ei2 & E3). cbv zeta in E3. apply bind_Ret in E3 as ([nb6 s6] & _ & E3).
  injection E3 as <- <- <-. simpl in Ei2.
  assert (Hi2 : 0 ≤ i2 < 2 ^ 32) by (destruct (_ =? _) in Ei2; [by eapply next_u32|by injection Ei2 as <- <-]).
  split; simpl; try done; congruence.
Qed.

Lemma clear_size_fields di s v di' s' : clear_size di s = Ret (v, di', s') → inode_ok di → inode_ok di'.
Proof.
  intros H [Ha Hb Hc Hd He]. unfold clear_size in H. set (n := Z.to_nat _) in H. cbv zeta in H.
  assert (Hlen : length (replicate n 0 ++ drop n (direct di)) = 28%nat).
  { rewrite length_app, length_replicate, length_drop, Hb. unfold n, INODE_DIRECT_COUNT. lia. }
  assert (Hl : u32s (replicate n 0 ++ drop n (direct di))).
  { unfold u32s. apply Forall_app. split; [by apply Forall_replicate|by apply Forall_drop]. }
  destruct (_ <=? _) in H; [injection H as <- <- <-; by split|].
  apply bind_Ret in H as ([v1 s1] & _ & H). destruct (_ <=? _) in H; [injection H as <- <- <-; by split|].
  apply bind_Ret in H as (u & _ & H). apply bind_Ret in H as ([v2 s2] & _ & H). injection H as <- <- <-. by split.
Qed.

(** Fields of an inode beyond its blocks hold 0, as [initialize] leaves them. *)
Record inode_tidy (di : DiskInode) : Prop := {
  td_direct i x : direct di !! i = Some x → data_blocks di ≤ Z.of_nat i → x = 0;
  td_ind1 : data_blocks di ≤ 28 → indirect1 di = 0;
  td_ind2 : data_blocks di ≤ 156 → indirect2 di = 0;
}.

Lemma fill_direct_beyond : ∀ n cur l nb l' nb' i,
  fill_direct n cur l nb = Ret (l', nb') → 0 ≤ cur → cur + Z.of_nat n ≤ Z.of_nat i → l' !! i = l !! i.
Proof.
  induction n as [|n IH]; intros cur l nb l' nb' i; cbn [fill_direct]; [by intros [= <- <-]|]. intros H Hc Hi.
  apply bind_Ret in H as ([x nb1] & _ & H). apply bind_Ret in H as (u & _ & H).
  rewrite (IH _ _ _ _ _ i H) by lia. apply list_lookup_insert_ne. lia.
Qed.

Lemma grow_direct_keeps cur T nb di n1 nb1 di1 :
  grow_direct cur T nb di = Ret (n1, nb1, di1) → 0 ≤ cur ≤ T →
  indirect1 di1 = indirect1 di ∧ indirect2 di1 = indirect2 di ∧ di_size di1 = di_size di ∧
  ∀ i, T ≤ Z.of_nat i → direct di1 !! i = direct di !! i.
Proof.
  unfold grow_direct. intros E Hc. apply bind_Ret in E as ([l nb'] & El & E). injection E as <- <- <-.
  split_and!; try done. intros i Hi. change INODE_DIRECT_COUNT with 28 in El.
  eapply fill_direct_beyond; [exact El|lia|lia].
Qed.

Lemma grow_indirect1_keeps cur T nb di s n1 nb1 di1 s1 :
  grow_indirect1 cur T nb di s = Ret (n1, nb1, di1, s1) →
  direct di1 = direct di ∧ indirect2 di1 = indirect2 di ∧ di_size di1 = di_size di.
Proof.
  unfold grow_indirect1. intros E. apply bind_Ret in E as ([i1 nb'] & _ & E). cbv zeta in E.
  apply bind_Ret in E as ([? ?] & _ & E). by injection E as <- <- <- <-.
Qed.

Lemma grow_indirect2_keeps cur T nb di s nb1 di1 s1 :
  grow_indirect2 cur T nb di s = Ret (nb1, di1, s1) → direct di1 = direct di ∧ di_size di1 = di_size di.
Proof.
  unfold grow_indirect2. intros E. apply bind_Ret in E as ([i1 nb'] & _ & E). cbv zeta in E.
  apply bind_Ret in E as ([? ?] & _ & E). by injection E as <- <- <-.
Qed.

Lemma increase_size_tidy new_size nb di s di' s' :
  increase_size new_size nb di s = Ret (di', s') → 0 ≤ data_blocks di ≤ _data_blocks new_size →
  inode_tidy di → inode_tidy di'.
Proof.
  intros H Hle [Td T1 T2]. unfold increase_size in H.
  apply bind_Ret in H as ([[n1 nb1] di1] & E1 & H). apply grow_direct_keeps in E1 as (Hi1 & Hi2 & Hsz & Hbey); [|done].
  cbn [indirect1 indirect2 di_size direct] in *.
  assert (Hd : ∀ d, di_size d = new_size → direct d = direct di1 → ∀ i x, direct d !! i = Some x → data_blocks d ≤ Z.of_nat i → x = 0).
  { intros d E Ed i x Hx Hi. unfold data_blocks in Hi. rewrite E in Hi. rewrite Ed, Hbey in Hx by done. eapply Td; [exact Hx|lia]. }
  assert (Hbig : ∀ d k, di_size d = new_size → k < _data_blocks new_size → data_blocks d ≤ k → False).
  { intros d k E. unfold data_blocks. rewrite E. lia. }
  change INODE_DIRECT_COUNT with 28 in H. change INODE_INDIRECT1_COUNT with 128 in H.
  destruct (Z.leb_spec (_data_blocks new_size) 28).
  { injection H as <- <-. split; [by apply Hd|rewrite Hi1|rewrite Hi2]; intros _; [apply T1|apply T2]; lia. }
  apply bind_Ret in H as ([[[n2 nb2] di2] s2] & E2 & H). apply grow_indirect1_keeps in E2 as (Hdi & Hi2' & Hsz').
  destruct (Z.leb_spec (_data_blocks new_size - 28) 128).
  { injection H as <- <-. split; [apply Hd; congruence| |].
    - intros Hb. exfalso. eapply (Hbig di2 28); [congruence|lia|done].
    - intros _. rewrite Hi2', Hi2. apply T2. lia. }
  apply bind_Ret in H as ([[nb3 di3] s3] & E3 & H). injection H as <- <-. apply grow_indirect2_keeps in E3 as (Hdi' & Hsz'').
  split; [apply Hd; congruence| |]; intros Hb; exfalso; [eapply (Hbig di3 28)|eapply (Hbig di3 156)]; try exact Hb; try lia; congruence.
Qed.

(** Clearing a tidy inode makes it what [initialize] makes of it. *)
Lemma clear_size_tidy di s v di' s' :
  clear_size di s = Ret (v, di', s') → length (direct di) = 28%nat → 0 ≤ data_blocks di → inode_tidy di →
  di' = inode_initialize (type_ di) di.
Proof.
  intros H Hlen Hnn [Td T1 T2]. unfold clear_size in H. change INODE_DIRECT_COUNT with 28 in H. change INODE_INDIRECT1_COUNT with 128 in H.
  set (n := Z.to_nat (Z.min (data_blocks di) 28)) in H.
  assert (Hl : replicate n 0 ++ drop n (direct di) = (λ _, 0) <$> direct di).
  { apply list_eq_same_length with 28%nat; [by rewrite length_fmap|rewrite length_app, length_replicate, length_drop; lia|].
    intros i x y Hi Hx Hy. rewrite list_lookup_fmap in Hy. apply fmap_Some in Hy as (z & Hz & ->).
    destruct (decide (i < n)%nat) as [Hin|Hin].
    - rewrite lookup_app_l in Hx by (rewrite length_replicate; lia). by apply lookup_replicate in Hx as [-> _].
    - rewrite lookup_app_r, lookup_drop, length_replicate in Hx by (rewrite length_replicate; lia).
      replace (n + (i - n))%nat with i in Hx by lia. apply (Td i); [done|lia]. }
  unfold inode_initialize. rewrite <-Hl.
  destruct (Z.leb_spec (data_blocks di) 28) as [H28|H28].
  { injection H as <- <- <-. by rewrite T1, T2 by lia. }
  apply bind_Ret in H as ([v1 s1] & _ & H). destruct (Z.leb_spec (data_blocks di - 28) 128).
  { injection H as <- <- <-. by rewrite T2 by lia. }
  apply bind_Ret in H as (u & _ & H). apply bind_Ret in H as ([v2 s2] & _ & H). by injection H as <- <- <-.
Qed.
End Fields.

(** ** The invariant after a change of one inode *)
Lemma inode_inv_ext v v' di ds ms :
  (∀ b, b ∈ ds ++ ms → v' b = v b) → inode_inv v di ds ms → inode_inv v' di ds ms.
Proof.
  intros Hv [A B C D E F]. assert (Hc : content v' ds = content v ds) by (apply content_ext; set_solver).
  split; try done; [|by rewrite Hc]. eapply rep_view; [|done]. set_solver.
Qed.

(** Block [b] belongs to an inode other than [id]. *)
Definition other_owned (m : inode_map) (id b : Z) : Prop := ∃ id' ds ms, id' ≠ id ∧ m !! id' = Some (ds, ms) ∧ b ∈ ds ++ ms.

Section Update.
Context (efs : EasyFileSystem) (total : Z) (G : geometry efs total).

(** What an operation on inode [id] does to the data region. *)
Record region_step (m : inode_map) (id : Z) (ds' ms' : list Z) (v v1 : Z → Block) : Prop := {
  rs_outside c : ¬ (start_block_id (data_bitmap efs) ≤ c < total) → v1 c = v c;
  rs_others c : other_owned m id c → v1 c = v c;
  rs_bits c : data_area_start_block efs ≤ c < data_area_start_block efs + maximum (data_bitmap efs) →
    in_use efs v1 c = true ↔ c ∈ ds' ++ ms' ∨ other_owned m id c;
  rs_zero c : data_area_start_block efs ≤ c < total → c ∉ ds' ++ ms' → ¬ other_owned m id c → v1 c = zero_block;
  rs_area c : c ∈ ds' ++ ms' → data_area_start_block efs ≤ c < total;
  rs_fresh c : c ∈ ds' ++ ms' → ¬ other_owned m id c;
}.

Lemma owned_insert m id ds ms b : owned (<[id := (ds, ms)]> m) b ↔ b ∈ ds ++ ms ∨ other_owned m id b.
Proof.
  split.
  - intros (id' & ds' & ms' & H & Hb). destruct (decide (id' = id)) as [->|Hne].
    + rewrite lookup_insert_eq in H. injection H as <- <-. by left.
    + rewrite lookup_insert_ne in H by done. right. by exists id', ds', ms'.
  - intros [Hb|(id' & ds' & ms' & Hne & H & Hb)]; [exists id, ds, ms; by rewrite lookup_insert_eq|].
    exists id', ds', ms'. by rewrite lookup_insert_ne.
Qed.

Lemma other_owned_owned m id b : other_owned m id b → owned m b.
Proof. intros (id' & ds & ms & _ & ? & ?). by exists id', ds, ms. Qed.

Lemma fs_inv_update v v1 m id ds' ms' di' :
  fs_inv efs total v m → is_Some (m !! id) → length (v (iblk efs id)) = BLOCK_LEN →
  region_step m id ds' ms' v v1 → inode_ok di' → inode_inv v1 di' ds' ms' →
  fs_inv efs total (put_inode efs id di' v v1) (<[id := (ds', ms')]> m) ∧
  (∀ id' ds ms, id' ≠ id → m !! id' = Some (ds, ms) →
     di_at efs (put_inode efs id di' v v1) id' = di_at efs v id' ∧ content (put_inode efs id di' v v1) ds = content v ds) ∧
  di_at efs (put_inode efs id di' v v1) id = di' ∧ content (put_inode efs id di' v v1) ds' = content v1 ds' ∧
  ∀ b, data_area_start_block efs ≤ b < data_area_start_block efs + maximum (data_bitmap efs) →
    in_use efs (put_inode efs id di' v v1) b = in_use efs v1 b.
Proof.
  intros I Hm Hl R Hok Hi. pose proof (fi_range _ _ _ _ I id Hm) as Hid.
  destruct (iblk_range efs total G id Hid) as [Hblk _]. pose proof (ge_total _ _ G) as Ht. pose proof (ge_data _ _ G) as Hd.
  pose proof (ge_blocks _ _ G) as Hbl. set (v2 := put_inode efs id di' v v1).
  assert (Hv2 : ∀ c, c ≠ iblk efs id → v2 c = v1 c) by (intros c Hc; by apply lookup_insert_view_ne).
  assert (Hdat : ∀ c, start_block_id (data_bitmap efs) ≤ c → v2 c = v1 c) by (intros c Hc; apply Hv2; lia).
  assert (Hdi : ∀ id', id' ≠ id → 0 ≤ id' < maximum (inode_bitmap efs) → di_at efs v2 id' = di_at efs v id').
  { intros id' Hne Hid'. unfold v2. rewrite (di_at_put_other efs total) by (done || (intros _; apply (rs_outside _ _ _ _ _ _ R); lia)).
    unfold di_at. rewrite (rs_outside _ _ _ _ _ _ R); [done|]. destruct (iblk_range efs total G id' Hid'). lia. }
  assert (Hbit : ∀ b, data_area_start_block efs ≤ b < data_area_start_block efs + maximum (data_bitmap efs) →
    in_use efs v2 b = in_use efs v1 b).
  { intros b Hb. unfold in_use, bit_of. f_equal. apply Hdat.
    assert (0 ≤ (b - data_area_start_block efs) / BLOCK_BITS) by (apply Z.div_pos; [lia|done]). lia. }
  assert (Hcont : ∀ ds, (∀ d, d ∈ ds → data_area_start_block efs ≤ d) → content v2 ds = content v1 ds).
  { intros ds Hds. apply content_ext. intros d Hin. apply Hdat. specialize (Hds d Hin). lia. }
  assert (Hoth : ∀ id' ds ms b, id' ≠ id → m !! id' = Some (ds, ms) → b ∈ ds ++ ms → v2 b = v b).
  { intros id' ds ms b Hne Hm' Hb. assert (Ho : other_owned m id b) by (by exists id', ds, ms).
    rewrite Hdat; [by apply (rs_others _ _ _ _ _ _ R)|]. pose proof (fi_area _ _ _ _ I b (other_owned_owned _ _ _ Ho)). lia. }
  split; [|split; [|split; [|split; [|exact Hbit]]]].
  - split.
    + intros id' ds ms. destruct (decide (id' = id)) as [->|Hne].
      * rewrite lookup_insert_eq. intros [= <- <-]. unfold v2. rewrite (di_at_put efs total) by done.
        eapply inode_inv_ext; [|exact Hi]. intros b Hb. apply Hdat. pose proof (rs_area _ _ _ _ _ _ R b Hb). lia.
      * rewrite lookup_insert_ne by done. intros Hm'. rewrite Hdi by (done || by apply (fi_range _ _ _ _ I); rewrite Hm').
        eapply inode_inv_ext; [|by apply (fi_inode _ _ _ _ I)]. intros b Hb. by eapply Hoth.
    + intros id1 id2 ds1 ms1 ds2 ms2 b. rewrite !lookup_insert. case_decide as H1; case_decide as H2.
      * intros _ _ _ _. congruence.
      * intros [= <- <-] Hm2 Hb1 Hb2. destruct (rs_fresh _ _ _ _ _ _ R b Hb1). exists id2, ds2, ms2. split_and!; [congruence|done|done].
      * intros Hm1 [= <- <-] Hb1 Hb2. destruct (rs_fresh _ _ _ _ _ _ R b Hb2). exists id1, ds1, ms1. split_and!; [congruence|done|done].
      * intros Hm1 Hm2 Hb1 Hb2. by eapply (fi_disjoint _ _ _ _ I id1 id2).
    + intros b [Hb|Ho]%owned_insert; [by apply (rs_area _ _ _ _ _ _ R)|].
      by apply (fi_area _ _ _ _ I), (other_owned_owned _ id).
    + intros b Hb. rewrite Hbit, owned_insert by done. by apply (rs_bits _ _ _ _ _ _ R).
    + intros id' [->|[Hne Hs]]%lookup_insert_is_Some; [done|by apply (fi_range _ _ _ _ I)].
    + intros id' Hid'. rewrite lookup_insert_is_Some'.
      assert (Hb : bit_of (inode_bitmap efs) v2 id' = bit_of (inode_bitmap efs) v id').
      { unfold bit_of. f_equal. destruct G as [[A A'] B C D _ _ _].
        assert (0 ≤ id' / BLOCK_BITS < blocks (inode_bitmap efs)) by (apply div_bound; [done|exact Hid']).
        rewrite Hv2 by lia. apply (rs_outside _ _ _ _ _ _ R). pose proof (maximum_4 efs).
        assert (0 ≤ maximum (inode_bitmap efs)) by (unfold maximum, BLOCK_BITS, BLOCK_SZ; lia). lia. }
      rewrite Hb, (fi_ibits _ _ _ _ I id' Hid'). split; [by right|intros [<-|?]; done].
    + intros b Hb Hno. rewrite Hdat by lia. apply (rs_zero _ _ _ _ _ _ R); [done| |]; intros H; apply Hno, owned_insert; tauto.
    + destruct (area_order efs total G) as (Ha0 & Ha1 & _). rewrite Hv2, (rs_outside _ _ _ _ _ _ R) by lia. apply (fi_super _ _ _ _ I).
  - intros id' ds ms Hne Hm'. split; [apply Hdi; [done|by apply (fi_range _ _ _ _ I); rewrite Hm']|].
    apply content_ext. intros d Hin. eapply Hoth; [done|done|]. set_solver.
  - by apply (di_at_put efs total).
  - apply Hcont. intros d Hin. pose proof (rs_area _ _ _ _ _ _ R d). set_solver.
Qed.
End Update.

(** ** Growing a file *)
Section Ops.
Context {S : Type} `{!BlockStore S, !StoreLaws S}.
Context (efs : EasyFileSystem) (total : Z) (G : geometry efs total).
Implicit Types s : S.

Lemma area_u32 b : data_area_start_block efs ≤ b < total → 0 ≤ b < 2 ^ 32.
Proof.
  destruct G as [[A A'] B C D E F _]. pose proof (maximum_4 efs).
  assert (0 ≤ maximum (inode_bitmap efs)) by (unfold maximum, BLOCK_BITS, BLOCK_SZ; lia). lia.
Qed.

Lemma free_not_owned v m b : fs_inv efs total v m → b ∈ free_blocks efs total v → ¬ owned m b.
Proof.
  intros I [Hb Hu]%elem_of_free Ho. pose proof (ge_bits _ _ G). apply (fi_bits _ _ _ _ I) in Ho; [congruence|lia].
Qed.

Lemma content_app v ds ds' : content v (ds ++ ds') = content v ds ++ content v ds'.
Proof. unfold content. by rewrite bind_app. Qed.

Lemma content_zero v ds : (∀ d, d ∈ ds → v d = zero_block) → content v ds = replicate (512 * length ds) x00.
Proof.
  induction ds as [|d ds IH]; intros Hz; [by rewrite Nat.mul_0_r|]. unfold content in *. rewrite bind_cons, IH by set_solver.
  rewrite Hz by left. unfold zero_block. rewrite <-replicate_add. f_equal. cbn [length]. lia.
Qed.

(** Zeros after position [k] stay zeros when zeros are appended. *)
Lemma zero_tail_grow (l : list byte) k k' n :
  drop k l = replicate (length l - k) x00 → (k ≤ k')%nat → drop k' (l ++ replicate n x00) = replicate (length l + n - k') x00.
Proof.
  intros H Hk. replace k' with (k + (k' - k))%nat at 1 by lia. rewrite <-drop_drop, drop_app, H, drop_replicate.
  rewrite <-replicate_add, drop_replicate. f_equal. lia.
Qed.

(** The new blocks [nb] of inode [id] are fresh: the step on the data region. *)
Lemma grow_step v v1 m id ds ms ds1 ms1 nb :
  fs_inv efs total v m → m !! id = Some (ds, ms) → nb ⊆ free_blocks efs total v → ds1 ++ ms1 ≡ₚ nb →
  uses_set efs nb true v v1 → (∀ c, ¬ (start_block_id (data_bitmap efs) ≤ c < data_area_start_block efs) →
    c ∉ (ds ++ ds1) ++ (ms ++ ms1) → v1 c = v c) →
  region_step efs total m id (ds ++ ds1) (ms ++ ms1) v v1.
Proof.
  intros I Hm Hnb Hp Hu Hf. pose proof (ge_total _ _ G) as Ht. pose proof (ge_data _ _ G) as Hd. pose proof (ge_bits _ _ G) as Hbt.
  pose proof (ge_blocks _ _ G) as Hbl.
  assert (Hin : ∀ c, c ∈ (ds ++ ds1) ++ ms ++ ms1 ↔ c ∈ ds ++ ms ∨ c ∈ nb) by (intros c; rewrite <-Hp; set_solver).
  assert (Hfree : ∀ c, c ∈ nb → data_area_start_block efs ≤ c < total ∧ ¬ owned m c).
  { intros c Hc. apply Hnb in Hc. split; [by apply elem_of_free in Hc as [? _]|by eapply free_not_owned]. }
  assert (Hown : ∀ c, c ∈ ds ++ ms → owned m c) by (intros c Hc; by exists id, ds, ms).
  assert (Harea : ∀ c, c ∈ (ds ++ ds1) ++ ms ++ ms1 → data_area_start_block efs ≤ c < total).
  { intros c [Hc|Hc]%Hin; [by apply (fi_area _ _ _ _ I), Hown|by apply Hfree]. }
  assert (Hfresh : ∀ c, c ∈ (ds ++ ds1) ++ ms ++ ms1 → ¬ other_owned m id c).
  { intros c [Hc|Hc]%Hin Ho; [|by apply (Hfree c Hc), (other_owned_owned m id)].
    destruct Ho as (id' & ds' & ms' & Hne & Hm' & Hc'). by apply Hne, (fi_disjoint _ _ _ _ I id' id ds' ms' ds ms c). }
  split; try done.
  - intros c Hc. apply Hf; [lia|]. intros Hc'. specialize (Harea c Hc'). lia.
  - intros c Ho. apply Hf; [|by intros Hc; apply (Hfresh c)]. pose proof (fi_area _ _ _ _ I c (other_owned_owned _ _ _ Ho)). lia.
  - intros c Hc. rewrite Hu by done. case_bool_decide as Hcn; [split; [intros _; left; apply Hin; by right|done]|].
    rewrite (fi_bits _ _ _ _ I c Hc), Hin. split.
    + intros (id' & ds' & ms' & Hm' & Hc'). destruct (decide (id' = id)) as [->|Hne]; [|right; by exists id', ds', ms'].
      rewrite Hm in Hm'. injection Hm' as <- <-. by left; left.
    + intros [[Hc'|?]|Ho]; [by apply Hown|done|by apply (other_owned_owned m id)].
  - intros c Hc Hnc Hno. rewrite Hf; [|lia|done]. apply (fi_zero _ _ _ _ I); [done|]. intros (id' & ds' & ms' & Hm' & Hc').
    destruct (decide (id' = id)) as [->|Hne]; [|apply Hno; by exists id', ds', ms'].
    rewrite Hm in Hm'. injection Hm' as <- <-. apply Hnc, Hin. by left.
Qed.

(** The number of blocks the new size needs fits. *)
Lemma blocks_needed old_size new_size :
  0 ≤ old_size ≤ new_size → new_size ≤ MAX_BLOCKS * BLOCK_SZ →
  0 ≤ total_blocks new_size - total_blocks old_size < 2 ^ 32.
Proof.
  intros Ho Hn. pose proof (total_blocks_eq old_size ltac:(lia)) as Ht0. pose proof (total_blocks_eq new_size ltac:(lia)) as Ht1.
  set (T0 := Z.to_nat (_data_blocks old_size)) in *. set (T1 := Z.to_nat (_data_blocks new_size)) in *.
  assert (Hmono : (T0 ≤ T1)%nat ∧ Z.of_nat T1 ≤ 16540).
  { unfold T0, T1, MAX_BLOCKS, BLOCK_SZ in *. rewrite !data_blocks_eq by (unfold BLOCK_SZ; lia). lia. }
  destruct Hmono as [Hmono Hm1]. pose proof (nmeta_mono _ _ Hmono) as Hmm.
  assert (Hn1 : (nmeta T1 ≤ 131)%nat) by (unfold nmeta; destruct (Nat.leb_spec T1 28), (Nat.leb_spec T1 156); lia).
  lia.
Qed.

(** Fresh blocks are in the data area and in nobody's use. *)
Lemma fresh_blocks v m nb c :
  fs_inv efs total v m → nb ⊆ free_blocks efs total v → c ∈ nb → data_area_start_block efs ≤ c < total ∧ ¬ owned m c.
Proof. intros I Hnb Hc. apply Hnb in Hc. split; [by apply elem_of_free in Hc as [? _]|by eapply free_not_owned]. Qed.

Lemma fresh_nodup v m id ds ms nb ds1 ms1 :
  fs_inv efs total v m → m !! id = Some (ds, ms) → nb ⊆ free_blocks efs total v → NoDup nb → NoDup (ds ++ ms) →
  ds1 ++ ms1 ≡ₚ nb → NoDup ((ds ++ ds1) ++ ms ++ ms1).
Proof.
  intros I Hm Hnb Hnd Hold Hp. assert (Hperm : (ds ++ ds1) ++ ms ++ ms1 ≡ₚ (ds ++ ms) ++ nb) by (rewrite <-Hp; solve_Permutation).
  rewrite Hperm. apply NoDup_app. split_and!; [done| |done].
  intros c Hc Hc'. apply (fresh_blocks v m nb c I Hnb Hc'). by exists id, ds, ms.
Qed.

(** New data blocks read as zeros: they were never in use, and only index blocks are written. *)
Lemma fresh_content v v1 v2 m id ds ms nb ds1 ms1 :
  fs_inv efs total v m → m !! id = Some (ds, ms) → nb ⊆ free_blocks efs total v → ds1 ++ ms1 ≡ₚ nb →
  NoDup ((ds ++ ds1) ++ ms ++ ms1) → (∀ c, data_area_start_block efs ≤ c < total → v1 c = v c) →
  (∀ c, c ∉ ms ++ ms1 → v2 c = v1 c) → content v2 (ds ++ ds1) = content v ds ++ replicate (512 * length ds1) x00.
Proof.
  intros I Hm Hnb Hp Hdis Hsm Hf. apply NoDup_app in Hdis as (_ & Hd & _).
  assert (Hds1 : ∀ c, c ∈ ds1 → c ∈ nb) by (intros c Hc; rewrite <-Hp; set_solver).
  rewrite content_app. f_equal.
  - apply content_ext. intros c Hc. rewrite Hf, Hsm; [done| |apply Hd; set_solver].
    apply (fi_area _ _ _ _ I). exists id, ds, ms. split; [done|set_solver].
  - apply content_zero. intros c Hc. destruct (fresh_blocks v m nb c I Hnb (Hds1 c Hc)) as [Hr Hno].
    rewrite Hf, Hsm; [|done|apply Hd; set_solver]. by apply (fi_zero _ _ _ _ I).
Qed.

(** The bitmap of the data area is not among the blocks of a file. *)
Lemma bits_elsewhere v1 v2 (l : list Z) c :
  (∀ e, e ∈ l → data_area_start_block efs ≤ e) → (∀ e, e ∉ l → v2 e = v1 e) →
  data_area_start_block efs ≤ c < data_area_start_block efs + maximum (data_bitmap efs) → in_use efs v2 c = in_use efs v1 c.
Proof.
  intros Hl Hf Hc. pose proof (ge_data _ _ G). unfold in_use, bit_of. f_equal. apply Hf. intros Hin%Hl.
  assert ((c - data_area_start_block efs) / BLOCK_BITS < blocks (data_bitmap efs)); [|lia].
  apply div_bound; [done|]. unfold maximum in Hc. lia.
Qed.

Lemma grow_ok m id ds ms di new_size s :
  data_ready efs total s → fs_inv efs total (st_view s) m → m !! id = Some (ds, ms) →
  inode_inv (st_view s) di ds ms → inode_ok di → di_size di ≤ new_size ≤ MAX_BLOCKS * BLOCK_SZ →
  total_blocks new_size - total_blocks (di_size di) ≤ Z.of_nat (length (free_blocks efs total (st_view s))) →
  ∃ di' ds1 ms1 nb s' v', vfs_increase_size efs new_size di s = Ret (di', s') ∧ shows s s' v' ∧
    inode_inv v' di' (ds ++ ds1) (ms ++ ms1) ∧ inode_ok di' ∧ di_size di' = new_size ∧ type_ di' = type_ di ∧
    Z.of_nat (length nb) = total_blocks new_size - total_blocks (di_size di) ∧
    nb ⊆ free_blocks efs total (st_view s) ∧ ds1 ++ ms1 ≡ₚ nb ∧ uses_set efs nb true (st_view s) v' ∧
    (∀ c, ¬ (start_block_id (data_bitmap efs) ≤ c < data_area_start_block efs) → c ∉ ms ++ ms1 → v' c = st_view s c) ∧
    content v' (ds ++ ds1) = content (st_view s) ds ++ replicate (512 * length ds1) x00.
Proof.
  intros Hr I Hm [A B C D E F] Hok Hsz Hfree. unfold vfs_increase_size. rewrite (proj2 (Z.ltb_ge _ _)) by lia.
  unfold blocks_num_needed. rewrite (proj2 (Z.leb_le _ _)) by lia. cbn [rassert mbind outcome_bind].
  pose proof (blocks_needed (di_size di) new_size ltac:(lia) ltac:(lia)) as Hneed.
  rewrite wrap_small by done. set (need := total_blocks new_size - total_blocks (di_size di)) in *.
  destruct (alloc_blocks_ok efs total G (Z.to_nat need) [] s Hr) as (nb & s1 & v1 & -> & Hs1 & Hnb & Hp & Hu & Hsame); [lia|].
  cbn [mbind outcome_bind app]. assert (Hv1 : st_view s1 = v1) by apply Hs1. subst v1.
  assert (Hsub : nb ⊆ free_blocks efs total (st_view s)) by (intros c Hc; rewrite Hp; set_solver).
  assert (Hnbd : NoDup nb) by (pose proof (NoDup_free efs total (st_view s)) as Hn; rewrite Hp in Hn; by apply NoDup_app in Hn as (? & _)).
  pose proof (λ c, fresh_blocks (st_view s) m nb c I Hsub) as Hfr.
  assert (Hown : ∀ c, c ∈ ds ++ ms → data_area_start_block efs ≤ c < total ∧ owned m c).
  { intros c Hc. assert (Ho : owned m c) by (by exists id, ds, ms). split; [by apply (fi_area _ _ _ _ I)|done]. }
  assert (Hsm : ∀ c, data_area_start_block efs ≤ c < total → st_view s1 c = st_view s c) by (intros c Hc; apply Hsame; lia).
  assert (Hnbu : Forall (λ c, 0 ≤ c < 2 ^ 32) nb) by (apply Forall_forall; intros c Hc; apply area_u32; by apply Hfr).
  destruct (increase_size_ok new_size di ds ms nb s1) as (di' & ds1 & ms1 & s2 & v2 & E2 & Hs2 & Hr2 & Hsz2 & Hty & Hl2 & Hm2 & Hp2 & Hf2); try done.
  - eapply rep_view; [|exact A]. intros c Hc. apply Hsm, Hown. set_solver.
  - apply NoDup_app in E as (_ & _ & Em). apply NoDup_app. split_and!; [done| |done]. intros c Hc Hc'. apply (Hfr c Hc'), Hown. set_solver.
  - assert (Hdr : ∀ c, data_area_start_block efs ≤ c < total → ready c s1).
    { intros c Hc. eapply ready_shows; try done. apply Hr. pose proof (ge_data _ _ G). pose proof (ge_blocks _ _ G). lia. }
    intros c [Hc|Hc]%elem_of_app; apply Hdr; [apply Hown; set_solver|by apply Hfr].
  - apply Hs1.
  - lia.
  - lia.
  - unfold need in *. lia.
  - rewrite E2. exists di', ds1, ms1, nb, s2, v2.
    pose proof (fresh_nodup (st_view s) m id ds ms nb ds1 ms1 I Hm Hsub Hnbd E Hp2) as Hdis.
    pose proof (fresh_content _ _ _ m id ds ms nb ds1 ms1 I Hm Hsub Hp2 Hdis Hsm Hf2) as Hc2.
    split; [done|]. split; [by eapply shows_trans|]. split; [split; try done|].
    + unfold data_blocks. by rewrite Hsz2.
    + lia.
    + rewrite Hc2, Hsz2, length_app, length_replicate. apply (zero_tail_grow _ (Z.to_nat (di_size di))); [done|lia].
    + split; [by eapply increase_size_fields; [exact E2|done|done|unfold MAX_BLOCKS, BLOCK_SZ in *; lia]|].
      split_and!; try done; [lia| |].
      * intros c Hc. rewrite <-Hu by done. apply (bits_elsewhere _ _ (ms ++ ms1)); [|done|done].
        intros e [He|He]%elem_of_app; [apply Hown; set_solver|apply Hfr; rewrite <-Hp2; set_solver].
      * intros c Hc Hcm. rewrite Hf2 by done. by apply Hsame.
Qed.

Lemma free_uses v v' nb :
  NoDup nb → nb ⊆ free_blocks efs total v → uses_set efs nb true v v' →
  free_blocks efs total v ≡ₚ nb ++ free_blocks efs total v'.
Proof.
  intros Hnd Hsub Hu. pose proof (ge_bits _ _ G).
  assert (Hmem : ∀ c, c ∈ free_blocks efs total v' ↔ c ∈ free_blocks efs total v ∧ c ∉ nb).
  { intros c. rewrite !elem_of_free. split.
    - intros [Hc Hv']. rewrite Hu in Hv' by lia. by case_bool_decide.
    - intros [[Hc Hv] Hn]. split; [done|]. rewrite Hu by lia. by rewrite bool_decide_eq_false_2. }
  apply NoDup_Permutation; [apply NoDup_free| |].
  - apply NoDup_app. split_and!; [done| |apply NoDup_free]. intros c Hc [_ Hn]%Hmem. done.
  - intros c. rewrite elem_of_app, Hmem. destruct (decide (c ∈ nb)); [|tauto].
    split; [tauto|]. intros _. by apply Hsub.
Qed.

Lemma same_use v v' :
  (∀ c, data_area_start_block efs ≤ c < data_area_start_block efs + maximum (data_bitmap efs) → in_use efs v' c = in_use efs v c) →
  free_blocks efs total v' = free_blocks efs total v.
Proof.
  intros Hu. pose proof (ge_bits _ _ G). unfold free_blocks. apply list_filter_iff'. intros c [Hc1 Hc2]%elem_of_seqZ.
  by rewrite Hu by lia.
Qed.

(** ** Access to one inode *)

(** No block is locked, and the disk is large enough. *)
Definition fs_ready (s : S) : Prop := st_wf s ∧ total ≤ st_size s ∧ st_held s = ∅.

Lemma fs_ready_shows s s' v : shows s s' v → fs_ready s → fs_ready s'.
Proof. intros (? & Hz & Hh & _) (_ & ? & ?). split_and!; [done|lia|congruence]. Qed.

Lemma fs_ready_block b s : fs_ready s → 0 ≤ b < total → ready b s.
Proof. intros (? & ? & Hh) Hb. split_and!; [done|lia|lia|by rewrite Hh|rewrite Hh, size_empty; lia]. Qed.

Lemma fs_ready_data s : fs_ready s → data_ready efs total s.
Proof. intros Hr. split; [apply Hr|]. intros b Hb. apply fs_ready_block; [done|]. pose proof (area_order efs total G). lia. Qed.

(** With one block of the inode area locked the data region is still free. *)
Lemma locked_data b s s1 :
  fs_ready s → locked b s s1 → b < start_block_id (data_bitmap efs) → data_ready efs total s1.
Proof.
  intros (Hwf & Hz & Hh) (Hwf1 & Hz1 & _ & Hh1) Hb. pose proof (area_order efs total G). rewrite Hh in Hh1.
  split; [done|]. intros c Hc. split_and!; [done|lia|lia|rewrite Hh1, elem_of_union, elem_of_singleton; intros [?|[]%elem_of_empty]; lia|]. 

  replace (st_held s1) with ({[b]} : gset Z) by (by rewrite Hh1, (right_id_L ∅ (∪))). rewrite size_singleton. lia.
Qed.

Lemma inode_block_ready id s :
  fs_ready s → 0 ≤ id < maximum (inode_bitmap efs) →
  can_lock (iblk efs id) s ∧ (ioff id + INODE_SZ ≤ BLOCK_LEN)%nat ∧ iblk efs id < start_block_id (data_bitmap efs).
Proof.
  intros Hr Hid. destruct (iblk_range efs total G id Hid) as [Hb Ho]. pose proof (area_order efs total G). pose proof (ge_total _ _ G).
  split_and!; [|done|lia]. apply ready_can_lock, fs_ready_block; [done|lia].
Qed.

Lemma read_inode_ok {A} id (f : DiskInode → S → outcome (A * S)) s (a : A) v1 :
  fs_ready s → 0 ≤ id < maximum (inode_bitmap efs) →
  (∀ s1, st_view s1 = st_view s → data_ready efs total s1 →
     ∃ s2, f (di_at efs (st_view s) id) s1 = Ret (a, s2) ∧ shows s1 s2 v1) →
  ∃ s', read_disk_inode (inode_at efs id) f s = Ret (a, s') ∧ shows s s' v1.
Proof.
  intros Hr Hid Hf. destruct (inode_block_ready id s Hr Hid) as (Hc & Ho & Hb). unfold read_disk_inode.
  rewrite (inode_at_eq efs total) by done. cbn [ino_block_id ino_block_offset].
  apply read_ok; [done|done|]. intros s1 Hl. apply Hf; [apply Hl|by eapply locked_data].
Qed.

Lemma modify_inode_ok {A} id (f : DiskInode → S → outcome (A * DiskInode * S)) s
    (Q : A → DiskInode → (Z → Block) → Prop) :
  fs_ready s → 0 ≤ id < maximum (inode_bitmap efs) →
  (∀ s1, st_view s1 = st_view s → data_ready efs total s1 →
     ∃ a di' s2 v1, f (di_at efs (st_view s) id) s1 = Ret (a, di', s2) ∧ shows s1 s2 v1 ∧ inode_ok di' ∧ Q a di' v1) →
  ∃ a di' s' v1, modify_disk_inode (inode_at efs id) f s = Ret (a, s') ∧
    shows s s' (put_inode efs id di' (st_view s) v1) ∧ inode_ok di' ∧ Q a di' v1.
Proof.
  intros Hr Hid Hf. destruct (inode_block_ready id s Hr Hid) as (Hc & Ho & Hb). unfold modify_disk_inode.
  rewrite (inode_at_eq efs total) by done. cbn [ino_block_id ino_block_offset].
  set (p := slice (ioff id) INODE_SZ (st_view s (iblk efs id))).
  assert (Hp : length p = INODE_SZ) by (apply length_slice; rewrite (can_lock_length _ _ Hc); lia).
  destruct (modify_spec (iblk efs id) (ioff id) INODE_SZ (λ p s, '(a, di, s) ← f (inode_of p) s; Ret (a, inode_put di p, s)) s
    (λ a part v1, ∃ di', part = inode_put di' p ∧ inode_ok di' ∧ Q a di' v1) Hc Ho)
    as (a & part & s' & v1 & E & Hs & _ & di' & -> & Hok & HQ).
  { intros s1 Hl. destruct (Hf s1) as (a & di' & s2 & v1 & E & Hs & Hok & HQ); [apply Hl|by eapply locked_data|].
    exists a, (inode_put di' p), s2, v1. fold p. change (inode_of p) with (di_at efs (st_view s) id). rewrite E.
    split; [done|]. split; [by apply length_inode_put|]. split; [done|]. by exists di'. }
  by exists a, di', s', v1.
Qed.

(** ** The files of a disk *)
Definition file_data (v : Z → Block) (di : DiskInode) (ds : list Z) : list byte :=
  take (Z.to_nat (di_size di)) (content v ds).

Definition fs_rep (s : S) (F : gmap Z (DiskInodeType * list byte)) : Prop :=
  fs_ready s ∧ ∃ m, fs_inv efs total (st_view s) m ∧
    ∀ id, F !! id = (λ b, (type_ (di_at efs (st_view s) id), file_data (st_view s) (di_at efs (st_view s) id) b.1)) <$> m !! id.

Definition free_count (s : S) : Z := Z.of_nat (length (free_blocks efs total (st_view s))).

Lemma fs_rep_inode s F id ty data :
  fs_rep s F → F !! id = Some (ty, data) →
  ∃ m ds ms, fs_inv efs total (st_view s) m ∧ m !! id = Some (ds, ms) ∧
    inode_inv (st_view s) (di_at efs (st_view s) id) ds ms ∧ ty = type_ (di_at efs (st_view s) id) ∧
    data = file_data (st_view s) (di_at efs (st_view s) id) ds ∧
    Z.of_nat (length data) = di_size (di_at efs (st_view s) id) ∧
    length (content (st_view s) ds) = (512 * length ds)%nat ∧
    content (st_view s) ds = data ++ replicate (512 * length ds - length data) x00 ∧
    inode_ok (di_at efs (st_view s) id) ∧ 0 ≤ id < maximum (inode_bitmap efs) ∧
    ∀ id, F !! id = (λ b, (type_ (di_at efs (st_view s) id), file_data (st_view s) (di_at efs (st_view s) id) b.1)) <$> m !! id.
Proof.
  intros (Hr & m & I & HF) Hid. rewrite HF in Hid. destruct (m !! id) as [[ds ms]|] eqn:Hm; [|done].
  injection Hid as <- <-. exists m, ds, ms. pose proof (fi_inode _ _ _ _ I id ds ms Hm) as II.
  pose proof (fi_range _ _ _ _ I id ltac:(by rewrite Hm)) as Hrange.
  assert (Hlen : length (content (st_view s) ds) = (512 * length ds)%nat).
  { apply length_content. intros d Hd. apply can_lock_length, ready_can_lock, fs_ready_block; [done|].
    pose proof (area_order efs total G). assert (data_area_start_block efs ≤ d < total); [|lia].
    apply (fi_area _ _ _ _ I). exists id, ds, ms. split; [done|]. set_solver. }
  destruct (inode_block_ready id s Hr Hrange) as (Hc & Ho & _).
  pose proof (ii_blocks _ _ _ _ II) as Hbl. pose proof (ii_size _ _ _ _ II) as Hsz. unfold data_blocks, MAX_BLOCKS, BLOCK_SZ in *.
  rewrite data_blocks_eq in Hbl by (unfold BLOCK_SZ; lia).
  assert (Hld : length (file_data (st_view s) (di_at efs (st_view s) id) ds) = Z.to_nat (di_size (di_at efs (st_view s) id)))
    by (unfold file_data; rewrite length_take, Hlen; lia).
  split_and!; try done; try lia.
  - rewrite Hld, <-Hlen. rewrite <-(take_drop (Z.to_nat (di_size (di_at efs (st_view s) id))) (content (st_view s) ds)) at 1.
    by rewrite (ii_tail _ _ _ _ II).
  - apply inode_of_ok. apply length_slice. rewrite (can_lock_length _ _ Hc). lia.
Qed.
End Ops.
