(* ===== verification/FsFile.v ===== *)
(** * Reading, writing and emptying a file ([Inode::read_at], [write_at], [clear])

    [fs_rep s F] says that the disk shows the files [F]: a map from inode
    numbers to types and bytes.  Reading returns bytes of the file, writing
    and clearing change the bytes of that file in [F] and nothing else, and
    take or give back exactly the blocks that its size needs. *)

From Stdlib Require Import FunctionalExtensionality.
From stdpp Require Import functions gmap.
From S2P Require Import Prelude Blocks Words Bitmap Layout LayoutLemmas InodeMap InodeGrow InodeClear InodeIO Efs Vfs FsInv FsOps.

Local Ltac Zify.zify_post_hook ::= Z.to_euclidean_division_equations.

(** The bytes of a file after [buf] was written at [off]. *)
Definition write_data (off : nat) (buf data : list byte) : list byte :=
  splice off buf (data ++ replicate (off + length buf - length data) x00).

Lemma length_write_data off buf data : length (write_data off buf data) = Nat.max (length data) (off + length buf).
Proof. unfold write_data. rewrite length_splice; rewrite length_app, length_replicate; lia. Qed.

Lemma take_splice {A} off (src l : list A) n :
  (off + length src ≤ n)%nat → (n ≤ length l)%nat → take n (splice off src l) = splice off src (take n l).
Proof.
  intros H1 H2. apply list_eq. intros i. rewrite lookup_splice by (rewrite length_take; lia).
  destruct (decide (i < n)%nat).
  - rewrite !lookup_take_lt, lookup_splice by lia. done.
  - rewrite !lookup_take_ge by lia. by rewrite decide_False by lia.
Qed.

Lemma drop_splice_after {A} off (src l : list A) n :
  (off + length src ≤ n)%nat → (n ≤ length l)%nat → drop n (splice off src l) = drop n l.
Proof.
  intros H1 H2. apply list_eq. intros i. rewrite !lookup_drop, lookup_splice by lia. by rewrite decide_False by lia.
Qed.

Section File.
Context {S : Type} `{!BlockStore S, !StoreLaws S}.
Context (efs : EasyFileSystem) (total : Z) (G : geometry efs total).
Implicit Types s : S.

Lemma in_use_ext v v' b :
  (∀ c, start_block_id (data_bitmap efs) ≤ c < data_area_start_block efs → v' c = v c) →
  data_area_start_block efs ≤ b < data_area_start_block efs + maximum (data_bitmap efs) →
  in_use efs v' b = in_use efs v b.
Proof.
  intros Hv Hb. unfold in_use, bit_of. f_equal. apply Hv. pose proof (ge_data _ _ G).
  assert (0 ≤ (b - data_area_start_block efs) / BLOCK_BITS < blocks (data_bitmap efs)); [|lia].
  apply div_bound; [done|]. unfold maximum in Hb. lia.
Qed.

(** The loops run on the blocks of an inode of the disk. *)
Lemma inode_io_ok m id ds ms di s :
  data_ready efs total s → fs_inv efs total (st_view s) m → m !! id = Some (ds, ms) →
  inode_inv (st_view s) di ds ms → io_ok di ds ms s.
Proof.
  intros [Hwf Hr] I Hm [A _ _ _ E _]. split; try done. intros b Hb. apply ready_can_lock, Hr.
  pose proof area_order efs total G. assert (data_area_start_block efs ≤ b < total); [|lia].
  apply (fi_area _ _ _ _ I). by exists id, ds, ms.
Qed.

Lemma rep_io_ok (di : DiskInode) (ds ms : list Z) s :
  data_ready efs total s → (∀ b, b ∈ ds ++ ms → data_area_start_block efs ≤ b < total) →
  rep (st_view s) di ds ms → NoDup (ds ++ ms) → io_ok di ds ms s.
Proof.
  intros [Hwf Hr] Ha A E. split; try done. intros b Hb. apply ready_can_lock, Hr.
  pose proof area_order efs total G. specialize (Ha b Hb). lia.
Qed.

(** What a successful operation on inode [id] leaves. *)
Lemma fs_rep_update s s' F m id ds ms ds' ms' di' v1 :
  fs_ready total s → fs_inv efs total (st_view s) m → m !! id = Some (ds, ms) →
  (∀ id, F !! id = (λ b, (type_ (di_at efs (st_view s) id), file_data (st_view s) (di_at efs (st_view s) id) b.1)) <$> m !! id) →
  region_step efs total m id ds' ms' (st_view s) v1 → inode_ok di' → inode_inv v1 di' ds' ms' →
  shows s s' (put_inode efs id di' (st_view s) v1) →
  fs_rep efs total s' (<[id := (type_ di', file_data v1 di' ds')]> F) ∧
  free_count efs total s' = Z.of_nat (length (free_blocks efs total v1)).
Proof.
  intros Hr I Hm HF R Hok Hi Hs. pose proof (fi_range _ _ _ _ I id ltac:(by rewrite Hm)) as Hid.
  destruct (inode_block_ready efs total G id s Hr Hid) as (Hc & _ & _).
  destruct (fs_inv_update efs total G (st_view s) v1 m id ds' ms' di') as (I' & Hoth & Hdi & Hct & Hb); try done.
  { by apply can_lock_length. }
  assert (Hv : st_view s' = put_inode efs id di' (st_view s) v1) by apply Hs. split.
  - split; [by eapply fs_ready_shows|]. exists (<[id := (ds', ms')]> m). rewrite Hv. split; [done|].
    intros id'. destruct (decide (id' = id)) as [->|Hne].
    + rewrite !lookup_insert_eq. cbn [fmap option_fmap option_map fst]. unfold file_data. by rewrite Hdi, Hct.
    + rewrite !lookup_insert_ne, HF by done. destruct (m !! id') as [[ds1 ms1]|] eqn:Hm'; [|done]. cbn [fmap option_fmap option_map fst].
      unfold file_data. destruct (Hoth id' ds1 ms1 Hne Hm') as [-> ->]. done.
  - unfold free_count. rewrite Hv. f_equal. by rewrite (same_use efs total G v1).
Qed.

Lemma fs_rep_same s s' F : fs_rep efs total s F → shows s s' (st_view s) → fs_rep efs total s' F ∧ free_count efs total s' = free_count efs total s.
Proof.
  intros (Hr & m & I & HF) Hs. assert (Hv : st_view s' = st_view s) by apply Hs. unfold fs_rep, free_count.
  rewrite Hv. split; [|done]. split; [by eapply fs_ready_shows|]. by exists m.
Qed.

(** ** Reading *)

(** On the blocks [v], inode [di] reads as the bytes [data]. *)
Definition reads (v : Z → Block) (di : DiskInode) (data : list byte) : Prop :=
  ∀ s offset buf, st_view s = v → data_ready efs total s → 0 ≤ offset → offset + Z.of_nat (length buf) < 2 ^ 64 →
  let n := Z.max 0 (Z.min (Z.of_nat (length buf)) (Z.of_nat (length data) - offset)) in
  ∃ s', read_at offset buf di s = Ret (n, splice 0 (slice (Z.to_nat offset) (Z.to_nat n) data) buf, s') ∧ shows s s' v.

Lemma file_reads s F id ty data :
  fs_rep efs total s F → F !! id = Some (ty, data) → reads (st_view s) (di_at efs (st_view s) id) data.
Proof.
  intros HR HF s1 offset buf Hv Hr1 Ho Hb n. destruct (fs_rep_inode efs total G s F id ty data HR HF)
    as (m & ds & ms & I & Hm & II & _ & Hd & Hsz & Hlc & Hc & Hok & Hid & _).
  rewrite <-Hv in *. destruct (read_at_ok (di_at efs (st_view s1) id) ds ms offset buf s1) as (s2 & E & Hs2);
    [by eapply inode_io_ok|done|done| |].
  { pose proof (ii_size _ _ _ _ II). assert (length data ≤ 512 * length ds)%nat; [|lia].
    rewrite Hd. unfold file_data. rewrite length_take, Hlc. lia. }
  rewrite E. exists s2. split; [|done]. rewrite <-Hsz. fold n. do 3 f_equal.
  unfold slice. rewrite Hc, drop_app. destruct (decide (n = 0)) as [->|Hn]; [done|]. f_equal. rewrite take_app_le; [done|].
  rewrite length_drop. lia.
Qed.

Lemma inode_read_at_ok s F id ty data offset buf :
  fs_rep efs total s F → F !! id = Some (ty, data) → 0 ≤ offset → offset + Z.of_nat (length buf) < 2 ^ 64 →
  let n := Z.max 0 (Z.min (Z.of_nat (length buf)) (Z.of_nat (length data) - offset)) in
  ∃ s', inode_read_at offset buf (inode_at efs id) s =
      Ret (n, splice 0 (slice (Z.to_nat offset) (Z.to_nat n) data) buf, s') ∧ shows s s' (st_view s).
Proof.
  intros HR HF Ho Hb n. destruct (fs_rep_inode efs total G s F id ty data HR HF) as (_ & _ & _ & _ & _ & _ & _ & _ & _ & _ & _ & _ & Hid & _).
  destruct (read_inode_ok efs total G id (λ di s, '(n, buf, s) ← read_at offset buf di s; Ret ((n, buf), s)) s
    (n, splice 0 (slice (Z.to_nat offset) (Z.to_nat n) data) buf) (st_view s)) as (s' & E & Hs); [apply HR|done| |].
  - intros s1 Hv Hr1. destruct (file_reads s F id ty data HR HF s1 offset buf Hv Hr1 Ho Hb) as (s2 & E & Hs2).
    rewrite E. by exists s2.
  - exists s'. unfold inode_read_at. by rewrite E.
Qed.

(** ** Writing *)

(** The block count of a size never decreases. *)
Lemma blocks_mono a b :
  0 ≤ a ≤ b → b ≤ MAX_BLOCKS * BLOCK_SZ → total_blocks a ≤ total_blocks b.
Proof.
  intros Ha Hb. rewrite !total_blocks_eq by lia.
  assert (Hm : (Z.to_nat (_data_blocks a) ≤ Z.to_nat (_data_blocks b))%nat).
  { unfold MAX_BLOCKS, BLOCK_SZ in *. rewrite !data_blocks_eq by (unfold BLOCK_SZ; lia). lia. }
  pose proof (nmeta_mono _ _ Hm). lia.
Qed.

(** The file as a prefix of its blocks. *)
Lemma content_of_file v di ds :
  drop (Z.to_nat (di_size di)) (content v ds) = replicate (length (content v ds) - Z.to_nat (di_size di)) x00 →
  content v ds = file_data v di ds ++ replicate (length (content v ds) - Z.to_nat (di_size di)) x00.
Proof. intros H. rewrite <-H. unfold file_data. symmetry. apply take_drop. Qed.

Lemma take_app_replicate {A} (l : list A) x k n :
  (length l ≤ n)%nat → (n ≤ length l + k)%nat → take n (l ++ replicate k x) = l ++ replicate (n - length l) x.
Proof. intros. rewrite take_app_ge by lia. rewrite take_replicate. do 2 f_equal. lia. Qed.

(** The size that a write at [offset] asks for, and growing to it. *)
Lemma grow_for_write m id ds ms di new_size s :
  data_ready efs total s → fs_inv efs total (st_view s) m → m !! id = Some (ds, ms) →
  inode_inv (st_view s) di ds ms → inode_ok di → 0 ≤ new_size ≤ MAX_BLOCKS * BLOCK_SZ →
  let size := Z.max (di_size di) new_size in
  total_blocks size - total_blocks (di_size di) ≤ free_count efs total s →
  ∃ di' ds1 ms1 nb s' v', vfs_increase_size efs new_size di s = Ret (di', s') ∧ shows s s' v' ∧
    inode_inv v' di' (ds ++ ds1) (ms ++ ms1) ∧ inode_ok di' ∧ di_size di' = size ∧ type_ di' = type_ di ∧
    Z.of_nat (length nb) = total_blocks size - total_blocks (di_size di) ∧ NoDup nb ∧
    nb ⊆ free_blocks efs total (st_view s) ∧ ds1 ++ ms1 ≡ₚ nb ∧ uses_set efs nb true (st_view s) v' ∧
    (∀ c, ¬ (start_block_id (data_bitmap efs) ≤ c < data_area_start_block efs) → c ∉ ms ++ ms1 → v' c = st_view s c) ∧
    content v' (ds ++ ds1) = content (st_view s) ds ++ replicate (512 * length ds1) x00.
Proof.
  intros Hr I Hm II Hok Hn size Hfree. destruct (Z.ltb_spec new_size (di_size di)) as [Hlt|Hge].
  - unfold vfs_increase_size. rewrite (proj2 (Z.ltb_lt _ _)) by done. replace size with (di_size di) in * by lia.
    exists di, [], [], [], s, (st_view s). rewrite !app_nil_r. split; [done|]. split; [apply shows_refl, Hr|].
    split_and!; try done; [simpl; lia|apply NoDup_nil_2|set_solver].
  - replace size with new_size in * by lia. unfold free_count in Hfree.
    destruct (grow_ok efs total G m id ds ms di new_size s Hr I Hm II Hok ltac:(lia) Hfree)
      as (di' & ds1 & ms1 & nb & s' & v' & A & B & C & D & E & F & H1 & H2 & H3 & H4 & H5 & H6).
    exists di', ds1, ms1, nb, s', v'. split_and!; try done.
    assert (Hnd : NoDup (ds1 ++ ms1)); [|by rewrite <-H3].
    pose proof (ii_nodup _ _ _ _ C) as Hn'.
    assert (Hp : (ds ++ ds1) ++ ms ++ ms1 ≡ₚ (ds ++ ms) ++ ds1 ++ ms1) by solve_Permutation.
    rewrite Hp in Hn'. by apply NoDup_app in Hn' as (_ & _ & ?).
Qed.

(** The body of a write: grow, then copy the bytes. *)
Lemma grow_write_ok m id ds ms di new_size offset buf s :
  data_ready efs total s → fs_inv efs total (st_view s) m → m !! id = Some (ds, ms) →
  inode_inv (st_view s) di ds ms → inode_ok di → 0 ≤ offset → buf ≠ [] →
  new_size = offset + Z.of_nat (length buf) → new_size ≤ MAX_BLOCKS * BLOCK_SZ →
  let size := Z.max (di_size di) new_size in
  total_blocks size - total_blocks (di_size di) ≤ free_count efs total s →
  ∃ di' ds' ms' s1 s2 v2, vfs_increase_size efs new_size di s = Ret (di', s1) ∧
    write_at offset buf di' s1 = Ret (Z.of_nat (length buf), s2) ∧ shows s s2 v2 ∧
    region_step efs total m id ds' ms' (st_view s) v2 ∧ inode_ok di' ∧ inode_inv v2 di' ds' ms' ∧
    di_size di' = size ∧ type_ di' = type_ di ∧
    file_data v2 di' ds' = write_data (Z.to_nat offset) buf (file_data (st_view s) di ds) ∧
    Z.of_nat (length (free_blocks efs total v2)) = free_count efs total s - (total_blocks size - total_blocks (di_size di)).
Proof.
  intros Hr I Hm II Hok Ho Hbuf Hnew Hmax size Hfree.
  destruct (grow_for_write m id ds ms di new_size s Hr I Hm II Hok ltac:(lia) Hfree)
    as (di' & ds1 & ms1 & nb & s1 & v1 & E1 & Hs1 & II1 & Hok1 & Hsz & Hty & Hlen & Hnd & Hsub & Hp & Hu & Hf & Hct).
  pose proof (area_order efs total G) as Hord. assert (Hv1 : st_view s1 = v1) by apply Hs1. subst v1.
  assert (Harea : ∀ c, c ∈ (ds ++ ds1) ++ ms ++ ms1 → data_area_start_block efs ≤ c < total).
  { intros c Hc. assert (Hc' : c ∈ ds ++ ms ∨ c ∈ nb) by (rewrite <-Hp; set_solver). destruct Hc' as [Hc'|Hc'].
    - apply (fi_area _ _ _ _ I). by exists id, ds, ms.
    - apply Hsub in Hc'. by apply elem_of_free in Hc' as [? _]. }
  pose proof (ii_nodup _ _ _ _ II1) as Hnd1.
  assert (Hio : io_ok di' (ds ++ ds1) (ms ++ ms1) s1).
  { apply rep_io_ok; [by eapply data_ready_shows|exact Harea|apply II1|done]. }
  set (ds' := ds ++ ds1) in *. set (ms' := ms ++ ms1) in *.
  assert (Hlc : length (content (st_view s1) ds') = (512 * length ds')%nat) by (by apply length_content, (io_blocks _ _ _ _ Hio)).
  pose proof (ii_blocks _ _ _ _ II1) as Hbl. pose proof (ii_size _ _ _ _ II1) as Hsz1. unfold data_blocks, MAX_BLOCKS, BLOCK_SZ in *.
  rewrite data_blocks_eq in Hbl by (unfold BLOCK_SZ; lia).
  destruct (write_at_ok di' ds' ms' offset buf s1 Hio Ho Hbuf) as (s2 & v2 & E2 & Hs2 & Hc2 & Hf2); [lia|lia|].
  assert (Hmeta : ∀ c, c ∈ ms' → v2 c = st_view s1 c).
  { intros c Hc. apply Hf2. intros Hc'. apply NoDup_app in Hnd1 as (_ & Hd & _). by apply (Hd c). }
  assert (Hbit : ∀ c, start_block_id (data_bitmap efs) ≤ c < data_area_start_block efs → v2 c = st_view s1 c).
  { intros c Hc. apply Hf2. intros Hc'. specialize (Harea c ltac:(set_solver)). lia. }
  assert (Hu2 : uses_set efs nb true (st_view s) v2).
  { intros c Hc. rewrite <-Hu by done. by apply in_use_ext. }
  exists di', ds', ms', s1, s2, v2. split_and!; try done; [by eapply shows_trans| |split; try done| |].
  - apply (grow_step efs total G _ _ m id ds ms ds1 ms1 nb); try done.
    intros c Hc Hc'. rewrite Hf2 by set_solver. apply Hf; [done|set_solver].
  - eapply rep_view; [exact Hmeta|apply II1].
  - apply II1.
  - unfold data_blocks. rewrite data_blocks_eq by (unfold BLOCK_SZ; lia). lia.
  - rewrite Hc2, length_splice, drop_splice_after by lia. apply II1.
  - unfold file_data at 1. rewrite Hc2, Hsz, take_splice by lia. unfold write_data. f_equal.
    assert (Hl0 : length (content (st_view s) ds) = (512 * length ds)%nat).
    { apply length_content, (io_blocks di ds ms). by eapply inode_io_ok. }
    pose proof (ii_blocks _ _ _ _ II) as Hb0. pose proof (ii_size _ _ _ _ II) as Hz0. unfold data_blocks, MAX_BLOCKS, BLOCK_SZ in *.
    rewrite data_blocks_eq in Hb0 by (unfold BLOCK_SZ; lia).
    assert (Hfl : length (file_data (st_view s) di ds) = Z.to_nat (di_size di)) by (unfold file_data; rewrite length_take; lia).
    rewrite Hct, (content_of_file _ di ds) by apply II. rewrite <-app_assoc, <-replicate_add.
    assert (Hds' : length ds' = (length ds + length ds1)%nat) by (unfold ds'; by rewrite length_app).
    rewrite take_app_replicate by lia. do 2 f_equal. lia.
  - assert (Hf3 := free_uses efs total G (st_view s) v2 nb Hnd Hsub Hu2). apply Permutation_length in Hf3.
    rewrite length_app in Hf3. unfold free_count in *. fold size in Hlen. lia.
Qed.

Lemma sync_shows s s1 v : shows s s1 v → st_held s = ∅ → ∃ s2, block_cache_sync_all s1 = Ret s2 ∧ shows s s2 v.
Proof.
  intros (Hwf & Hz & Hh & Hv) H0. destruct (sync_all_ok s1 Hwf) as (s2 & E & Hwf2 & Hz2 & Hv2 & Hh2); [congruence|].
  exists s2. split; [done|]. split_and!; congruence.
Qed.

(** A change of one inode through [modify_disk_inode], followed by a flush. *)
Lemma modify_sync {A} s F id (f : DiskInode → S → outcome (A * DiskInode * S)) (a : A) m ds ms ty' data' cnt :
  fs_ready total s → fs_inv efs total (st_view s) m → m !! id = Some (ds, ms) →
  (∀ id, F !! id = (λ b, (type_ (di_at efs (st_view s) id), file_data (st_view s) (di_at efs (st_view s) id) b.1)) <$> m !! id) →
  0 ≤ id < maximum (inode_bitmap efs) →
  (∀ s1, st_view s1 = st_view s → data_ready efs total s1 →
     ∃ di' s2 v2 ds' ms', f (di_at efs (st_view s) id) s1 = Ret (a, di', s2) ∧ shows s1 s2 v2 ∧
       region_step efs total m id ds' ms' (st_view s) v2 ∧ inode_ok di' ∧ inode_inv v2 di' ds' ms' ∧
       type_ di' = ty' ∧ file_data v2 di' ds' = data' ∧ Z.of_nat (length (free_blocks efs total v2)) = cnt) →
  ∃ s1, modify_disk_inode (inode_at efs id) f s = Ret (a, s1) ∧
    fs_rep efs total s1 (<[id := (ty', data')]> F) ∧ free_count efs total s1 = cnt ∧
    ∃ s2, block_cache_sync_all s1 = Ret s2 ∧ fs_rep efs total s2 (<[id := (ty', data')]> F) ∧ free_count efs total s2 = cnt.
Proof.
  intros Hr I Hm HF Hid Hf.
  destruct (modify_inode_ok efs total G id f s
    (λ a' di' v, a' = a ∧ ∃ ds' ms', region_step efs total m id ds' ms' (st_view s) v ∧ inode_inv v di' ds' ms' ∧
       type_ di' = ty' ∧ file_data v di' ds' = data' ∧ Z.of_nat (length (free_blocks efs total v)) = cnt))
    as (a' & di' & s1 & v1 & E & Hs & Hok' & -> & ds' & ms' & R & Hi & Hty & Hfd & Hfree); [done|done| |].
  - intros s1 Hv Hr1. destruct (Hf s1 Hv Hr1) as (di' & s2 & v2 & ds' & ms' & E & Hs & R & Hok & Hi & ? & ? & ?).
    exists a, di', s2, v2. split_and!; try done. exists ds', ms'. by split_and!.
  - destruct (fs_rep_update s s1 F m id ds ms ds' ms' di' v1) as [HR' Hfc]; try done.
    rewrite Hfd, Hty in HR'. exists s1. split; [done|]. split; [done|]. split; [lia|].
    destruct (sync_shows s s1 _ Hs) as (s2 & E2 & Hs2); [apply Hr|].
    assert (Hs12 : shows s1 s2 (st_view s1)) by (destruct Hs as (? & ? & ? & ?), Hs2 as (? & ? & ? & ?); split_and!; congruence).
    destruct (fs_rep_same s1 s2 _ HR' Hs12) as [HR2 Hfc2]. exists s2. split_and!; try done; lia.
Qed.

Lemma inode_write_at_ok s F id ty data offset buf :
  fs_rep efs total s F → F !! id = Some (ty, data) → 0 ≤ offset → buf ≠ [] →
  offset + Z.of_nat (length buf) ≤ MAX_BLOCKS * BLOCK_SZ →
  let size := Z.max (Z.of_nat (length data)) (offset + Z.of_nat (length buf)) in
  let need := total_blocks size - total_blocks (Z.of_nat (length data)) in
  need ≤ free_count efs total s →
  ∃ s', inode_write_at efs offset buf (inode_at efs id) s = Ret (Z.of_nat (length buf), s') ∧
    fs_rep efs total s' (<[id := (ty, write_data (Z.to_nat offset) buf data)]> F) ∧
    free_count efs total s' = free_count efs total s - need.
Proof.
  intros HR HFid Ho Hbuf Hmax size need Hfree. destruct (fs_rep_inode efs total G s F id ty data HR HFid)
    as (m & ds & ms & I & Hm & II & -> & Hd & Hsz & _ & _ & Hok & Hid & HF).
  unfold need, size in *. rewrite Hsz in *. set (di := di_at efs (st_view s) id) in *.
  assert (Hmm : MAX_BLOCKS * BLOCK_SZ < 2 ^ 32) by done.
  destruct (modify_sync s F id (λ di s,
       '(di, s) ← vfs_increase_size efs (u32 (usize (offset + Z.of_nat (length buf)))) di s;
       '(n, s) ← write_at offset buf di s; Ret (n, di, s)) (Z.of_nat (length buf)) m ds ms (type_ di)
     (write_data (Z.to_nat offset) buf data) (free_count efs total s -
        (total_blocks (Z.max (di_size di) (offset + Z.of_nat (length buf))) - total_blocks (di_size di))))
    as (s1 & E & _ & _ & s2 & E2 & HR2 & Hc2); try done; [apply HR| |].
  - intros s1 Hv Hr1. fold di. rewrite (wrap_small 64), (wrap_small 32) by lia.
    destruct (grow_write_ok m id ds ms di (offset + Z.of_nat (length buf)) offset buf s1)
      as (di' & ds' & ms' & s2 & s3 & v3 & E1 & E2 & Hs3 & R & Hok' & Hi & Hsz' & Hty & Hfd & Hfree'); rewrite ?Hv; try done.
    { unfold free_count. by rewrite Hv. }
    rewrite E1. cbn [mbind outcome_bind]. rewrite E2. cbn [mbind outcome_bind].
    exists di', s3, v3, ds', ms'. rewrite Hv in *. split_and!; try done; [by rewrite Hd|].
    unfold free_count in *. by rewrite Hv in Hfree'.
  - exists s2. unfold inode_write_at. rewrite E. cbn [mbind outcome_bind]. rewrite E2. by split_and!.
Qed.

(** ** Emptying a file *)

(** Giving back all blocks of an inode: the step on the data region. *)
Lemma clear_step m id ds ms v v1 :
  fs_inv efs total v m → m !! id = Some (ds, ms) → (∀ b, b ∈ ds ++ ms → v1 b = zero_block) →
  uses_set efs (ds ++ ms) false v v1 →
  (∀ c, ¬ (start_block_id (data_bitmap efs) ≤ c < data_area_start_block efs) → c ∉ ds ++ ms → v1 c = v c) →
  region_step efs total m id [] [] v v1.
Proof.
  intros I Hm Hz Hu Hf. pose proof (area_order efs total G) as Hord. pose proof (ge_total _ _ G) as Ht.
  assert (Hown : ∀ c, c ∈ ds ++ ms → data_area_start_block efs ≤ c < total).
  { intros c Hc. apply (fi_area _ _ _ _ I). by exists id, ds, ms. }
  assert (Hdis : ∀ c, other_owned m id c → c ∉ ds ++ ms).
  { intros c (id' & ds' & ms' & Hne & Hm' & Hc') Hc. by apply Hne, (fi_disjoint _ _ _ _ I id' id ds' ms' ds ms c). }
  assert (Hoa : ∀ c, other_owned m id c → data_area_start_block efs ≤ c < total).
  { intros c Ho. by apply (fi_area _ _ _ _ I), (other_owned_owned m id). }
  split.
  - intros c Hc. apply Hf; [lia|]. intros Hc'. specialize (Hown c Hc'). lia.
  - intros c Ho. apply Hf; [specialize (Hoa c Ho); lia|by apply Hdis].
  - intros c Hc. rewrite Hu by done. case_bool_decide as Hin.
    + split; [done|]. intros [[]%elem_of_nil|Ho]. by destruct (Hdis c Ho).
    + rewrite (fi_bits _ _ _ _ I c Hc). split; [|intros [[]%elem_of_nil|Ho]; by apply (other_owned_owned m id)].
      intros (id' & ds' & ms' & Hm' & Hc'). right. destruct (decide (id' = id)) as [->|Hne]; [|by exists id', ds', ms'].
      rewrite Hm in Hm'. by injection Hm' as <- <-.
  - intros c Hc _ Hno. destruct (decide (c ∈ ds ++ ms)) as [Hin|Hin]; [by apply Hz|]. rewrite Hf by (done || lia).
    apply (fi_zero _ _ _ _ I); [done|]. intros (id' & ds' & ms' & Hm' & Hc'). apply Hno.
    destruct (decide (id' = id)) as [->|Hne]; [|by exists id', ds', ms']. rewrite Hm in Hm'. by injection Hm' as <- <-.
  - by intros c ?%elem_of_nil.
  - by intros c ?%elem_of_nil.
Qed.

Lemma free_gives v v' bs :
  NoDup bs → (∀ b, b ∈ bs → data_area_start_block efs ≤ b < total ∧ in_use efs v b = true) → uses_set efs bs false v v' →
  free_blocks efs total v' ≡ₚ bs ++ free_blocks efs total v.
Proof.
  intros Hnd Hb Hu. pose proof (ge_bits _ _ G). apply NoDup_Permutation; [apply NoDup_free| |].
  - apply NoDup_app. split; [done|]. split; [|apply NoDup_free]. intros c Hc [_ Hn]%elem_of_free. destruct (Hb c Hc). congruence.
  - intros c. rewrite elem_of_app, !elem_of_free. split.
    + intros [Hc Hv']. rewrite Hu in Hv' by lia. case_bool_decide; [by left|by right].
    + intros [Hc|[Hc Hv]].
      * destruct (Hb c Hc) as [? _]. split; [done|]. rewrite Hu by lia. by rewrite bool_decide_eq_true_2.
      * split; [done|]. rewrite Hu by lia. by case_bool_decide.
Qed.

(** The closure of [clear]. *)
Lemma clear_closure m id ds ms di s :
  data_ready efs total s → fs_inv efs total (st_view s) m → m !! id = Some (ds, ms) →
  inode_inv (st_view s) di ds ms → inode_ok di →
  ∃ bs di' s1 s2 v2, clear_size di s = Ret (bs, di', s1) ∧ Z.of_nat (length bs) = total_blocks (di_size di) ∧
    dealloc_all efs bs s1 = Ret s2 ∧ shows s s2 v2 ∧ region_step efs total m id [] [] (st_view s) v2 ∧
    inode_ok di' ∧ inode_inv v2 di' [] [] ∧ type_ di' = type_ di ∧
    Z.of_nat (length (free_blocks efs total v2)) = free_count efs total s + total_blocks (di_size di).
Proof.
  intros Hr I Hm II Hok. pose proof (ii_nodup _ _ _ _ II) as Hnd. pose proof (area_order efs total G) as Hord.
  assert (Hown : ∀ c, c ∈ ds ++ ms → data_area_start_block efs ≤ c < total ∧ in_use efs (st_view s) c = true).
  { intros c Hc. assert (Ho : owned m c) by (by exists id, ds, ms). pose proof (fi_area _ _ _ _ I c Ho). split; [done|].
    apply (fi_bits _ _ _ _ I); [|done]. pose proof (ge_bits _ _ G). lia. }
  destruct (clear_size_ok di ds ms s) as (bs & di' & s1 & E1 & Hp & Hs1 & Hz & Hty & Hl); try apply II.
  { by apply NoDup_app in Hnd as (_ & _ & ?). }
  { intros b Hb. apply Hr. assert (Hb' : b ∈ ds ++ ms) by set_solver. destruct (Hown b Hb'). lia. }
  { apply Hr. }
  assert (Hv1 : st_view s1 = st_view s) by apply Hs1.
  destruct (dealloc_all_ok efs total G bs s1) as (s2 & v2 & E2 & Hs2 & Hzero & Hu & Hf).
  { by eapply data_ready_shows. }
  { by rewrite Hp. }
  { intros b Hb. rewrite Hv1. apply Hown. by rewrite <-Hp. }
  rewrite Hv1 in *. assert (Hin : ∀ b, b ∈ bs ↔ b ∈ ds ++ ms) by (intros b; by rewrite Hp).
  assert (Hu' : uses_set efs (ds ++ ms) false (st_view s) v2).
  { intros c Hc. rewrite Hu by done. by rewrite (bool_decide_ext _ _ (Hin c)). }
  assert (Hlen : Z.of_nat (length bs) = total_blocks (di_size di)).
  { rewrite total_blocks_eq by apply II. fold (data_blocks di). rewrite <-(ii_blocks _ _ _ _ II), Nat2Z.id, <-(ii_metas _ _ _ _ II).
    rewrite Hp, length_app. done. }
  exists bs, di', s1, s2, v2. split_and!; try done.
  - by eapply shows_trans.
  - apply (clear_step m id ds ms); try done; [intros b Hb; by apply Hzero, Hin|].
    intros c Hc Hn. apply Hf; [done|by rewrite Hin].
  - eapply clear_size_fields; [exact E1|done].
  - split; [by apply rep_nil|done| |rewrite Hz; split; [done|by vm_compute]|apply NoDup_nil_2|].
    2: { change (content v2 []) with (@nil byte). by rewrite drop_nil. }
    unfold data_blocks. rewrite Hz. done.
  - pose proof (free_gives (st_view s) v2 (ds ++ ms) Hnd Hown Hu') as Hfp. apply Permutation_length in Hfp, Hp.
    rewrite length_app in Hfp. unfold free_count. lia.
Qed.

Lemma inode_clear_ok s F id ty data :
  fs_rep efs total s F → F !! id = Some (ty, data) →
  ∃ s', inode_clear efs (inode_at efs id) s = Ret s' ∧ fs_rep efs total s' (<[id := (ty, [])]> F) ∧
    free_count efs total s' = free_count efs total s + total_blocks (Z.of_nat (length data)).
Proof.
  intros HR HFid. destruct (fs_rep_inode efs total G s F id ty data HR HFid)
    as (m & ds & ms & I & Hm & II & -> & Hd & Hsz & _ & _ & Hok & Hid & HF).
  destruct (modify_sync s F id (λ di s,
       let size := di_size di in
       '(bs, di, s) ← clear_size di s;
       _ ← rassert (Z.of_nat (length bs) =? total_blocks size);
       s ← dealloc_all efs bs s;
       Ret (tt, di, s)) tt m ds ms (type_ (di_at efs (st_view s) id)) [] (free_count efs total s + total_blocks (Z.of_nat (length data))))
    as (s1 & E & HR1 & Hc1 & s2 & E2 & HR2 & Hc2); try done; [apply HR| |].
  - intros s1 Hv Hr1.
    destruct (clear_closure m id ds ms (di_at efs (st_view s) id) s1)
      as (bs & di' & s2 & s3 & v3 & E1 & Hl & E2 & Hs & R & Hok' & Hi & Hty & Hcnt); rewrite ?Hv; try done.
    exists di', s3, v3, [], []. cbv zeta. rewrite E1. cbn [mbind outcome_bind]. rewrite Hl, Z.eqb_refl. cbn [rassert mbind outcome_bind].
    rewrite E2. cbn [mbind outcome_bind]. rewrite Hv in *. split_and!; try done.
    + unfold file_data. change (content v3 []) with (@nil byte). by rewrite take_nil.
    + rewrite Hcnt, <-Hsz. unfold free_count. by rewrite Hv.
  - unfold inode_clear. cbv zeta in E |- *. rewrite E. cbn [mbind outcome_bind]. exists s2. by split_and!.
Qed.
End File.
