(* ===== verification/FsDir.v ===== *)
(** * The directory ([Inode::find], [ls], and the inode half of [create])

    A directory file is the concatenation of 32-byte entries.  Searching and
    listing it are specified as functions on the list of its entries; a new
    inode takes the lowest free number. *)

From Stdlib Require Import FunctionalExtensionality.
From stdpp Require Import functions gmap.
From S2P Require Import Prelude Utf8 Blocks Words Bitmap Layout LayoutLemmas InodeMap InodeGrow InodeClear InodeIO Efs Vfs FsInv FsOps FsFile.

Local Ltac Zify.zify_post_hook ::= Z.to_euclidean_division_equations.

Abbreviation entry := (string * Z)%type.

(** The stored form of an entry. *)
Definition dirent_entry (e : entry) : DirEntry :=
  mkDirEntry (name_of e.1 ++ replicate (28 - length (name_of e.1)) x00) e.2.
Definition dir_data (es : list entry) : list byte := es ≫= λ e, as_bytes (dirent_entry e).

Definition entry_ok (e : entry) : Prop := name_ok e.1 ∧ 0 ≤ e.2 < 2 ^ 32.

(** The first entry of a name. *)
Fixpoint dir_find (name : string) (es : list entry) : option Z :=
  match es with
  | [] => None
  | e :: es => if bool_decide (e.1 = name) then Some e.2 else dir_find name es
  end.

Lemma dirent_entry_ok e : entry_ok e → dirent_ok (dirent_entry e).
Proof. intros [(Hl & _) Hi]. split; [simpl; rewrite length_app, length_replicate; lia|done]. Qed.

Lemma DirEntry_new_entry e : entry_ok e → DirEntry_new (name_of e.1) e.2 = Ret (dirent_entry e).
Proof. intros [(Hl & _) _]. unfold DirEntry_new, NAME_LENGTH_LIMIT. by rewrite (proj2 (Z.leb_le _ _)) by lia. Qed.

Lemma dirent_name_entry e : entry_ok e → dirent_name (dirent_entry e) = Ret e.1.
Proof. intros [Hn _]. by apply dirent_name_ok. Qed.

Lemma length_dir_data es : Forall entry_ok es → length (dir_data es) = (32 * length es)%nat.
Proof.
  induction 1 as [|e es He _ IH]; [done|]. unfold dir_data in *. rewrite bind_cons, length_app, IH.
  rewrite length_as_bytes by (by apply dirent_entry_ok). unfold DIRENT_LEN. simpl. lia.
Qed.

Lemma dir_data_snoc es e : dir_data (es ++ [e]) = dir_data es ++ as_bytes (dirent_entry e).
Proof. unfold dir_data. rewrite bind_app, bind_cons. cbn [mbind list_bind]. by rewrite app_nil_r. Qed.

Lemma slice_dir_data es i e :
  Forall entry_ok es → es !! i = Some e → slice (32 * i) 32 (dir_data es) = as_bytes (dirent_entry e).
Proof.
  intros Hok Hi. rewrite <-(take_drop_middle es i e Hi). unfold dir_data. rewrite bind_app, bind_cons.
  assert (He : length (as_bytes (dirent_entry e)) = 32%nat).
  { apply length_as_bytes, dirent_entry_ok. rewrite Forall_lookup in Hok. by eapply Hok. }
  assert (Ht : length (take i es ≫= λ e, as_bytes (dirent_entry e)) = (32 * i)%nat).
  { fold (dir_data (take i es)). rewrite length_dir_data by (by apply Forall_take). rewrite length_take.
    apply lookup_lt_Some in Hi. lia. }
  rewrite <-Ht, <-(Nat.add_0_r (length _)), slice_app_mid by (rewrite He; lia).
  unfold slice. rewrite drop_0. apply take_ge. lia.
Qed.

Section Dir.
Context {S : Type} `{!BlockStore S, !StoreLaws S}.
Context (efs : EasyFileSystem) (total : Z) (G : geometry efs total).
Implicit Types s : S.

Lemma read_dirent_ok v di es i e d s :
  reads efs total v di (dir_data es) → Forall entry_ok es → es !! i = Some e → st_view s = v → data_ready efs total s →
  length (as_bytes d) = DIRENT_LEN → Z.of_nat (length es) < 2 ^ 32 →
  ∃ s', read_dirent (Z.of_nat i) d di s = Ret (dirent_entry e, s') ∧ shows s s' v.
Proof.
  intros Hrd Hok Hi Hv Hr Hd Hlen. assert (Hlt := lookup_lt_Some _ _ _ Hi). unfold read_dirent, DIRENT_SZ.
  destruct (Hrd s (32 * Z.of_nat i) (as_bytes d) Hv Hr) as (s' & E & Hs); [lia|rewrite Hd; unfold DIRENT_LEN; lia|].
  rewrite Hd, length_dir_data in E by done. replace (Z.max 0 _) with 32 in E by (unfold DIRENT_LEN; lia).
  rewrite E. cbn [mbind outcome_bind rassert Z.eqb]. replace (Z.to_nat (32 * Z.of_nat i)) with (32 * i)%nat by lia.
  change (Z.to_nat 32) with 32%nat. rewrite (slice_dir_data es i e) by done.
  assert (He : dirent_ok (dirent_entry e)) by (apply dirent_entry_ok; rewrite Forall_lookup in Hok; by eapply Hok).
  exists s'. split; [|done]. simpl. do 3 f_equal. rewrite <-(dirent_of_bytes (dirent_entry e)) at 2 by done. f_equal.
  unfold splice. rewrite take_0, drop_ge, app_nil_r; [done|]. rewrite Hd, length_as_bytes by done. done.
Qed.

(** Both loops, from entry [i] on. *)
Lemma find_loop_ok v di es name : ∀ n i d s,
  reads efs total v di (dir_data es) → Forall entry_ok es → (i + n = length es)%nat → st_view s = v → data_ready efs total s →
  length (as_bytes d) = DIRENT_LEN → Z.of_nat (length es) < 2 ^ 32 →
  ∃ s', find_loop n (Z.of_nat i) d name di s = Ret (dir_find name (drop i es), s') ∧ shows s s' v.
Proof.
  induction n as [|n IH]; intros i d s Hrd Hok Hn Hv Hr Hd Hlen; cbn [find_loop].
  - exists s. rewrite drop_ge by lia. split; [done|]. rewrite <-Hv. apply shows_refl, Hr.
  - destruct (lookup_lt_is_Some_2 es i) as [e He]; [lia|]. assert (Hoke : entry_ok e) by (rewrite Forall_lookup in Hok; by eapply Hok).
    destruct (read_dirent_ok v di es i e d s) as (s1 & -> & Hs1); try done. cbn [mbind outcome_bind].
    rewrite dirent_name_entry by done. cbn [mbind outcome_bind]. rewrite (drop_S _ _ _ He). cbn [dir_find].
    case_bool_decide; [by exists s1|].
    destruct (IH (Datatypes.S i) (dirent_entry e) s1) as (s2 & E & Hs2); try done; try lia; [apply Hs1|by eapply data_ready_shows| |].
    { by apply length_as_bytes, dirent_entry_ok. }
    replace (Z.of_nat i + 1) with (Z.of_nat (Datatypes.S i)) by lia. rewrite E. exists s2. split; [done|by eapply shows_trans].
Qed.

Lemma ls_loop_ok v di es : ∀ n i acc s,
  reads efs total v di (dir_data es) → Forall entry_ok es → (i + n = length es)%nat → st_view s = v → data_ready efs total s →
  Z.of_nat (length es) < 2 ^ 32 →
  ∃ s', ls_loop n (Z.of_nat i) acc di s = Ret (acc ++ (drop i es).*1, s') ∧ shows s s' v.
Proof.
  induction n as [|n IH]; intros i acc s Hrd Hok Hn Hv Hr Hlen; cbn [ls_loop].
  - exists s. rewrite drop_ge, app_nil_r by lia. split; [done|]. rewrite <-Hv. apply shows_refl, Hr.
  - destruct (lookup_lt_is_Some_2 es i) as [e He]; [lia|]. assert (Hoke : entry_ok e) by (rewrite Forall_lookup in Hok; by eapply Hok).
    destruct (read_dirent_ok v di es i e DirEntry_empty s) as (s1 & -> & Hs1); try done. cbn [mbind outcome_bind].
    rewrite dirent_name_entry by done. cbn [mbind outcome_bind]. rewrite (drop_S _ _ _ He). rewrite fmap_cons.
    destruct (IH (Datatypes.S i) (acc ++ [e.1]) s1) as (s2 & E & Hs2); try done; try lia; [apply Hs1|by eapply data_ready_shows|].
    replace (Z.of_nat i + 1) with (Z.of_nat (Datatypes.S i)) by lia. rewrite E. exists s2. rewrite <-app_assoc.
    split; [done|by eapply shows_trans].
Qed.

Lemma file_count_dir s F id es :
  fs_rep efs total s F → F !! id = Some (Directory, dir_data es) → Forall entry_ok es →
  let di := di_at efs (st_view s) id in
  di_size di = 32 * Z.of_nat (length es) ∧ file_count di = Z.of_nat (length es) ∧ is_dir di = true ∧
  Z.of_nat (length es) < 2 ^ 32 ∧ 0 ≤ id < maximum (inode_bitmap efs).
Proof.
  intros HR HF Hok di. destruct (fs_rep_inode efs total G s F id _ _ HR HF)
    as (m & ds & ms & I & Hm & II & Hty & Hd & Hsz & _ & _ & Hino & Hid & _). fold di in Hty, Hsz, Hino.
  rewrite length_dir_data in Hsz by done. pose proof (ino_size _ Hino). unfold file_count, DIRENT_SZ, is_dir. rewrite <-Hty.
  split_and!; try done; lia.
Qed.

Lemma find_inode_ok s F id es name s1 :
  fs_rep efs total s F → F !! id = Some (Directory, dir_data es) → Forall entry_ok es →
  st_view s1 = st_view s → data_ready efs total s1 →
  ∃ s2, find_inode_id name (di_at efs (st_view s) id) s1 = Ret (dir_find name es, s2) ∧ shows s1 s2 (st_view s).
Proof.
  intros HR HF Hok Hv Hr. destruct (file_count_dir s F id es HR HF Hok) as (_ & Hc & Hdir & Hlen & _).
  unfold find_inode_id. rewrite Hdir, Hc. cbn [rassert mbind outcome_bind].
  apply (find_loop_ok (st_view s) _ es name (Z.to_nat (Z.of_nat (length es))) 0); try done; [|lia].
  by eapply file_reads.
Qed.

(** [find] is the lookup in the list of entries. *)
Lemma find_ok s F id es name :
  fs_rep efs total s F → F !! id = Some (Directory, dir_data es) → Forall entry_ok es →
  ∃ s', find efs name (inode_at efs id) s = Ret (option_map (inode_at efs) (dir_find name es), s') ∧ shows s s' (st_view s).
Proof.
  intros HR HF Hok. destruct (file_count_dir s F id es HR HF Hok) as (_ & _ & _ & _ & Hid).
  apply (read_inode_ok efs total G); [apply HR|done|]. intros s1 Hv Hr.
  destruct (find_inode_ok s F id es name s1) as (s2 & E & Hs); try done. rewrite E. by exists s2.
Qed.

(** [ls] lists the names in the order of creation. *)
Lemma ls_ok s F id es :
  fs_rep efs total s F → F !! id = Some (Directory, dir_data es) → Forall entry_ok es →
  ∃ s', ls (inode_at efs id) s = Ret (es.*1, s') ∧ shows s s' (st_view s).
Proof.
  intros HR HF Hok. destruct (file_count_dir s F id es HR HF Hok) as (_ & Hc & _ & Hlen & Hid).
  apply (read_inode_ok efs total G); [apply HR|done|]. intros s1 Hv Hr. rewrite Hc.
  apply (ls_loop_ok (st_view s) _ es (Z.to_nat (Z.of_nat (length es))) 0 []); try done; [|lia].
  by eapply file_reads.
Qed.
End Dir.
