(* ===== verification/FsCreate.v ===== *)
(** * New inodes and new directory entries ([Inode::create])

    The new inode takes the lowest number not in use and starts empty; its
    entry is appended to the directory, which grows by a block when its last
    one is full. *)

From Stdlib Require Import FunctionalExtensionality.
From stdpp Require Import functions gmap.
From S2P Require Import Prelude Utf8 Blocks Words Bitmap Layout LayoutLemmas InodeMap InodeGrow InodeClear InodeIO Efs Vfs FsInv FsOps FsFile FsDir.

Local Ltac Zify.zify_post_hook ::= Z.to_euclidean_division_equations.

Section Create.
Context {S : Type} `{!BlockStore S, !StoreLaws S}.
Context (efs : EasyFileSystem) (total : Z) (G : geometry efs total).
Implicit Types s : S.

Lemma inode_maximum_pos : 0 < maximum (inode_bitmap efs).
Proof. destruct (ge_ibm _ _ G). unfold maximum, BLOCK_BITS, BLOCK_SZ. lia. Qed.

(** The inode bitmap lies before the inode area. *)
Lemma ibit_block id : 0 ≤ id < maximum (inode_bitmap efs) →
  1 ≤ start_block_id (inode_bitmap efs) + id / BLOCK_BITS < inode_area_start_block efs.
Proof.
  intros Hid. destruct (ge_ibm _ _ G) as [A A']. pose proof (ge_inodes _ _ G) as B.
  assert (0 ≤ id / BLOCK_BITS < blocks (inode_bitmap efs)) by (apply div_bound; [done|exact Hid]). lia.
Qed.

Lemma inode_inv_new v di : inode_ok di → di_size di = 0 → inode_inv v di [] [].
Proof.
  intros Hok Hz. split; try done.
  - apply rep_nil, (ino_length _ Hok).
  - unfold data_blocks. by rewrite Hz.
  - rewrite Hz. split; [done|by vm_compute].
  - apply NoDup_nil_2.
  - change (content v []) with (@nil byte). by rewrite drop_nil.
Qed.

(** An inode that is marked and initialised joins the map with no blocks. *)
Lemma fs_inv_new v v1 m id di' :
  fs_inv efs total v m → m !! id = None → 0 ≤ id < maximum (inode_bitmap efs) →
  bit_set (inode_bitmap efs) id true v v1 → length (v1 (iblk efs id)) = BLOCK_LEN → inode_ok di' → di_size di' = 0 →
  let v2 := put_inode efs id di' v1 v1 in
  fs_inv efs total v2 (<[id := ([], [])]> m) ∧ di_at efs v2 id = di' ∧
  (∀ id', id' ≠ id → 0 ≤ id' < maximum (inode_bitmap efs) → di_at efs v2 id' = di_at efs v id') ∧
  (∀ c, start_block_id (data_bitmap efs) ≤ c → v2 c = v c).
Proof.
  intros I Hm Hid [(blk & _ & Hv1) Hbits] Hl Hok Hz v2.
  destruct (iblk_range efs total G id Hid) as [Hblk _]. pose proof (ibit_block id Hid) as Hib.
  pose proof (area_order efs total G) as Hord.
  assert (Hfar : ∀ c, start_block_id (data_bitmap efs) ≤ c → v2 c = v c).
  { intros c Hc. unfold v2, put_inode. rewrite lookup_insert_view_ne by lia. rewrite Hv1. apply lookup_insert_view_ne. lia. }
  assert (Hself : di_at efs v2 id = di') by (by apply (di_at_put efs total)).
  assert (Hoth : ∀ id', id' ≠ id → 0 ≤ id' < maximum (inode_bitmap efs) → di_at efs v2 id' = di_at efs v id').
  { intros id' Hne Hr. unfold v2. rewrite (di_at_put_other efs total) by done. unfold di_at. do 2 f_equal.
    destruct (iblk_range efs total G id' Hr). rewrite Hv1. apply lookup_insert_view_ne. lia. }
  assert (Hown : ∀ b, owned (<[id := ([], [])]> m) b ↔ owned m b).
  { intros b. rewrite owned_insert, elem_of_nil. split.
    - intros [[]|Ho]. by apply (other_owned_owned m id).
    - intros (id' & ds & ms & Hm' & Hb). right. exists id', ds, ms. split_and!; [by intros ->; rewrite Hm in Hm'|done|done]. }
  split; [|done]. split.
  - intros id' ds ms. destruct (decide (id' = id)) as [->|Hne].
    + rewrite lookup_insert_eq. intros [= <- <-]. rewrite Hself. by apply inode_inv_new.
    + rewrite lookup_insert_ne by done. intros Hm'. rewrite Hoth by (done || by apply (fi_range _ _ _ _ I); rewrite Hm').
      eapply inode_inv_ext; [|by apply (fi_inode _ _ _ _ I)]. intros b Hb. apply Hfar.
      assert (data_area_start_block efs ≤ b < total) by (apply (fi_area _ _ _ _ I); by exists id', ds, ms). lia.
  - intros id1 id2 ds1 ms1 ds2 ms2 b. rewrite !lookup_insert. case_decide; case_decide; [congruence|..].
    + by intros [= <- <-] _ ?%elem_of_nil.
    + by intros _ [= <- <-] _ ?%elem_of_nil.
    + intros. by eapply (fi_disjoint _ _ _ _ I).
  - intros b Hb%Hown. by apply (fi_area _ _ _ _ I).
  - intros b Hb. rewrite Hown, <-(fi_bits _ _ _ _ I b Hb). rewrite (in_use_ext efs total G v v2); [done| |done].
    intros c Hc. apply Hfar. lia.
  - intros id' [->|[Hne Hs]]%lookup_insert_is_Some; [done|by apply (fi_range _ _ _ _ I)].
  - intros id' Hid'. rewrite lookup_insert_is_Some'. pose proof (ibit_block id' Hid').
    assert (Hb : bit_of (inode_bitmap efs) v2 id' = bit_of (inode_bitmap efs) v1 id').
    { unfold bit_of. f_equal. apply lookup_insert_view_ne. lia. }
    rewrite Hb, Hbits by done. destruct (Z.eqb_spec id' id) as [->|Hne]; [split; [intros _; by left|done]|].
    rewrite (fi_ibits _ _ _ _ I id' Hid'). split; [by right|by intros [?|?]].
  - intros b Hb Hno. rewrite Hfar by lia. apply (fi_zero _ _ _ _ I); [done|]. by rewrite <-Hown.
  - unfold v2, put_inode. rewrite lookup_insert_view_ne, Hv1 by lia. rewrite lookup_insert_view_ne by lia. apply (fi_super _ _ _ _ I).
Qed.

Lemma inode_initialize_ok ty di : inode_ok di → inode_ok (inode_initialize ty di).
Proof.
  intros [A B C D E]. split; simpl; try done; [by rewrite length_fmap|]. apply Forall_fmap, Forall_true. done.
Qed.

(** Allocation of the lowest free inode, and its initialisation. *)
Lemma new_inode_ok ty s F id :
  fs_rep efs total s F → 0 ≤ id < maximum (inode_bitmap efs) → id < 2 ^ 32 → F !! id = None → (∀ j, 0 ≤ j < id → is_Some (F !! j)) →
  ∃ s1 s2, alloc_inode efs s = Ret (id, s1) ∧
    modify_disk_inode (inode_at efs id) (λ di s, Ret (tt, inode_initialize ty di, s)) s1 = Ret (tt, s2) ∧
    fs_rep efs total s2 (<[id := (ty, [])]> F) ∧ free_count efs total s2 = free_count efs total s.
Proof.
  intros (Hr & m & I & HF) Hid Hid32 Hnone Hlow. pose proof (area_order efs total G) as Hord. pose proof (ge_total _ _ G) as Ht.
  assert (Hsome : ∀ j, is_Some (F !! j) ↔ is_Some (m !! j)) by (intros j; rewrite HF; apply fmap_is_Some).
  assert (Hm : m !! id = None) by (apply eq_None_not_Some; rewrite <-Hsome, Hnone; by intros [? ?]).
  assert (Hclr : bit_of (inode_bitmap efs) (st_view s) id = false).
  { apply not_true_iff_false. rewrite (fi_ibits _ _ _ _ I id Hid), Hm. by intros [? ?]. }
  assert (Hbm : bm_ready (inode_bitmap efs) s).
  { destruct (ge_ibm _ _ G) as [A A']. pose proof (ge_inodes _ _ G). split_and!; [apply Hr|lia|].
    intros b Hb. apply ready_can_lock, (fs_ready_block total); [done|lia]. }
  unfold alloc_inode. destruct (alloc_ok (inode_bitmap efs) s Hbm) as [(s' & _ & _ & Hall)|(n & s1 & v1 & -> & Hs1 & Hn & Hncl & Hbelow & Hset)].
  { rewrite Hall in Hclr; done. }
  assert (n = id) as ->.
  { destruct (Z.lt_total n id) as [Hlt|[He|Hlt]]; [|done|by rewrite Hbelow in Hclr by lia].
    destruct (Hlow n ltac:(lia)) as [x Hx]. assert (Hx' : is_Some (m !! n)) by (by rewrite <-Hsome, Hx).
    apply (fi_ibits _ _ _ _ I n Hn) in Hx'. congruence. }
  cbn [mbind outcome_bind unwrap]. rewrite wrap_small by lia. destruct (iblk_range efs total G id Hid) as [Hblk _].
  assert (Hv1 : st_view s1 = v1) by apply Hs1. subst v1. assert (Hr1 : fs_ready total s1) by (by eapply fs_ready_shows).
  destruct (modify_inode_ok efs total G id (λ di s, Ret (tt, inode_initialize ty di, s)) s1
    (λ _ di' v, di' = inode_initialize ty (di_at efs (st_view s1) id) ∧ v = st_view s1)) as (u & di' & s2 & v2 & E2 & Hs2 & Hok & -> & ->); [done|done| |].
  { intros s2 Hv [Hwf _]. eexists tt, _, s2, (st_view s1). split; [done|]. rewrite <-Hv. split; [by apply shows_refl|]. split; [|done].
    apply inode_initialize_ok, inode_of_ok, length_slice. destruct (inode_block_ready efs total G id s1 Hr1 Hid) as (Hc & Ho & _).
    rewrite Hv, (can_lock_length _ _ Hc). exact Ho. }
  exists s1, s2. destruct u. split; [done|]. split; [done|].
  destruct (inode_block_ready efs total G id s1 Hr1 Hid) as (Hc & _ & _).
  destruct (fs_inv_new (st_view s) (st_view s1) m id _ I Hm Hid Hset (can_lock_length _ _ Hc) Hok) as (I' & Hself & Hoth & Hfar); [done|].
  set (v2 := put_inode _ _ _ _ _) in *. assert (Hv2 : st_view s2 = v2) by apply Hs2. split.
  - split; [by eapply fs_ready_shows|]. exists (<[id := ([], [])]> m). rewrite Hv2. split; [done|]. intros id'.
    destruct (decide (id' = id)) as [->|Hne].
    + rewrite !lookup_insert_eq. cbn [fmap option_fmap option_map fst]. rewrite Hself. unfold file_data.
      change (content v2 []) with (@nil byte). by rewrite take_nil.
    + rewrite !lookup_insert_ne, HF by done. destruct (m !! id') as [[ds ms]|] eqn:Hm'; [|done].
      cbn [fmap option_fmap option_map fst]. unfold file_data. rewrite Hoth by (done || by apply (fi_range _ _ _ _ I); rewrite Hm').
      rewrite (content_ext (st_view s) v2); [done|]. intros d Hd. apply Hfar.
      assert (data_area_start_block efs ≤ d < total); [|lia]. apply (fi_area _ _ _ _ I). exists id', ds, ms. set_solver.
  - unfold free_count. rewrite Hv2. do 2 f_equal. apply same_use; [done|]. intros c Hc'. apply (in_use_ext efs total G); [|done].
    intros b Hb. apply Hfar. lia.
Qed.

(** ** The new entry *)
Lemma append_dirent_ok s F es name ino :
  fs_rep efs total s F → F !! 0 = Some (Directory, dir_data es) → Forall entry_ok es → entry_ok (name, ino) →
  let old := 32 * Z.of_nat (length es) in
  old + 32 ≤ MAX_BLOCKS * BLOCK_SZ → total_blocks (old + 32) - total_blocks old ≤ free_count efs total s →
  ∃ s1 s2, modify_disk_inode (inode_at efs 0) (append_dirent efs name ino) s = Ret (tt, s1) ∧ block_cache_sync_all s1 = Ret s2 ∧
    fs_rep efs total s2 (<[0 := (Directory, dir_data (es ++ [(name, ino)]))]> F) ∧
    free_count efs total s2 = free_count efs total s - (total_blocks (old + 32) - total_blocks old).
Proof.
  intros HR HF0 Hes Hen old Hmax Hfree.
  destruct (file_count_dir efs total G s F 0 es HR HF0 Hes) as (Hsz0 & Hc & _ & Hlen & Hid). fold old in Hsz0.
  destruct (fs_rep_inode efs total G s F 0 _ _ HR HF0) as (m & ds & ms & I & Hm & II & Hty & Hd & _ & _ & _ & Hok & _ & HF).
  set (di := di_at efs (st_view s) 0) in *. assert (Hmm : MAX_BLOCKS * BLOCK_SZ < 2 ^ 32) by done.
  assert (Hde : dirent_ok (dirent_entry (name, ino))) by (by apply dirent_entry_ok).
  assert (Hlb : length (as_bytes (dirent_entry (name, ino))) = 32%nat) by (by rewrite length_as_bytes).
  destruct (modify_sync efs total G s F 0 (append_dirent efs name ino) tt m ds ms Directory (dir_data (es ++ [(name, ino)]))
    (free_count efs total s - (total_blocks (old + 32) - total_blocks old)))
    as (s1 & E & _ & _ & s2 & E2 & HR2 & Hc2); try done; [apply HR| |by exists s1, s2].
  intros s1 Hv Hr1. fold di. unfold append_dirent. rewrite Hc. cbv zeta.
  replace ((Z.of_nat (length es) + 1) * DIRENT_SZ) with (old + 32) by (unfold DIRENT_SZ; lia).
  replace (Z.of_nat (length es) * DIRENT_SZ) with old by (unfold DIRENT_SZ; lia).
  rewrite wrap_small by lia.
  destruct (grow_write_ok efs total G m 0 ds ms di (old + 32) old (as_bytes (dirent_entry (name, ino))) s1)
    as (di' & ds' & ms' & s2 & s3 & v3 & E1 & E2 & Hs3 & R & Hok' & Hi & Hsz' & Hty' & Hfd & Hfree'); rewrite ?Hv, ?Hlb; try done; try lia.
  { intros Hnil. by rewrite Hnil in Hlb. }
  { rewrite Hsz0. replace (Z.max old (old + 32)) with (old + 32) by lia. unfold free_count. rewrite Hv. exact Hfree. }
  rewrite E1. cbn [mbind outcome_bind]. pose proof (DirEntry_new_entry (name, ino) Hen) as Hnew. cbn [fst snd] in Hnew. rewrite Hnew. cbn [mbind outcome_bind].
  rewrite E2. cbn [mbind outcome_bind]. exists di', s3, v3, ds', ms'. rewrite Hv in *.
  split; [done|]. split_and!; try done; [congruence| |].
  - rewrite Hfd, <-Hd, dir_data_snoc. unfold write_data. replace (Z.to_nat old) with (length (dir_data es)) by (rewrite length_dir_data by done; lia).
    rewrite Hlb. replace (_ + 32 - _)%nat with 32%nat by lia. unfold splice. rewrite take_app_length, Hlb.
    rewrite drop_ge by (rewrite length_app, length_replicate; lia). by rewrite app_nil_r.
  - rewrite Hfree', Hsz0. replace (Z.max old (old + 32)) with (old + 32) by lia. unfold free_count. by rewrite Hv.
Qed.
End Create.
