(* ===== verification/FsSpec.v ===== *)
(** * What the file system promises, and that it keeps it

    The abstract disk is the list of its files, name and bytes, in the order of
    their creation.  [spec_op] says what each operation of [Inode] does to it;
    [fs_refines]: the code on blocks does the same. *)

From Stdlib Require Import FunctionalExtensionality.
From stdpp Require Import functions gmap.
From S2P Require Import Prelude Utf8 Blocks Words Bitmap Layout LayoutLemmas InodeMap InodeGrow InodeClear InodeIO Efs Vfs FsInv FsOps FsFile FsDir FsCreate.

Local Ltac Zify.zify_post_hook ::= Z.to_euclidean_division_equations.

Abbreviation disk := (list (string * list byte)).

(** Files are never removed: file [i] has inode [i + 1]. *)
Definition file_inode (i : nat) : Z := Z.of_nat i + 1.
Definition entries (D : disk) : list entry := imap (λ i e, (e.1, file_inode i)) D.
Definition files_of (D : disk) : gmap Z (DiskInodeType * list byte) :=
  map_seqZ 0 ((Directory, dir_data (entries D)) :: ((λ e, (File, e.2)) <$> D)).

(** Blocks used by the files and by the directory. *)
Definition file_blocks (D : disk) : Z := foldr (λ e n, total_blocks (Z.of_nat (length e.2)) + n) 0 D.
Definition dir_size (D : disk) : Z := 32 * Z.of_nat (length D).
Definition disk_blocks (D : disk) : Z := total_blocks (dir_size D) + file_blocks D.

(** ** Operations *)
Inductive fs_op : Type :=
  | OpFind (name : string)
  | OpCreate (name : string)
  | OpLs
  | OpRead (i : nat) (offset : Z) (buf : list byte)
  | OpWrite (i : nat) (offset : Z) (buf : list byte)
  | OpClear (i : nat).

Inductive fs_result : Type :=
  | RInode (o : option Inode)
  | RNames (l : list string)
  | RRead (n : Z) (buf : list byte)
  | RWritten (n : Z)
  | RDone.

Definition run_op {S} `{!BlockStore S} (efs : EasyFileSystem) (op : fs_op) (s : S) : outcome (fs_result * S) :=
  match op with
  | OpFind name => '(o, s) ← find efs name (root_inode efs) s; Ret (RInode o, s)
  | OpCreate name => '(o, s) ← create efs name (root_inode efs) s; Ret (RInode o, s)
  | OpLs => '(l, s) ← ls (root_inode efs) s; Ret (RNames l, s)
  | OpRead i offset buf => '(n, buf, s) ← inode_read_at offset buf (inode_at efs (file_inode i)) s; Ret (RRead n buf, s)
  | OpWrite i offset buf => '(n, s) ← inode_write_at efs offset buf (inode_at efs (file_inode i)) s; Ret (RWritten n, s)
  | OpClear i => s ← inode_clear efs (inode_at efs (file_inode i)) s; Ret (RDone, s)
  end.

(** The space of a disk, and the disks that fit. *)
Definition space (efs : EasyFileSystem) (total : Z) : Z := total - data_area_start_block efs.

Record fits (efs : EasyFileSystem) (total : Z) (D : disk) : Prop := {
  fit_inodes : Z.of_nat (length D) < maximum (inode_bitmap efs);
  fit_dir : dir_size D ≤ MAX_BLOCKS * BLOCK_SZ;
  fit_blocks : disk_blocks D ≤ space efs total;
}.

#[export] Instance fits_dec efs total D : Decision (fits efs total D).
Proof.
  refine (cast_if (decide (Z.of_nat (length D) < maximum (inode_bitmap efs) ∧ dir_size D ≤ MAX_BLOCKS * BLOCK_SZ ∧
    disk_blocks D ≤ space efs total))); [by destruct a as (? & ? & ?)|abstract (by intros []; naive_solver)].
Defined.

#[export] Instance name_ok_dec name : Decision (name_ok name).
Proof. unfold name_ok. apply _. Defined.

(** [None] where the operation is not offered: the disk is full, the file
    would be too large, the name cannot be stored, or there is no such file. *)
Definition spec_op (efs : EasyFileSystem) (total : Z) (op : fs_op) (D : disk) : option (fs_result * disk) :=
  match op with
  | OpFind name => Some (RInode (option_map (inode_at efs) (dir_find name (entries D))), D)
  | OpLs => Some (RNames D.*1, D)
  | OpCreate name =>
      match dir_find name (entries D) with
      | Some _ => Some (RInode None, D)
      | None =>
          let D' := D ++ [(name, [])] in
          if decide (name_ok name ∧ fits efs total D') then
            Some (RInode (Some (inode_at efs (file_inode (length D)))), D')
          else None
      end
  | OpRead i offset buf =>
      e ← D !! i;
      if decide (0 ≤ offset ∧ offset + Z.of_nat (length buf) < 2 ^ 64) then
        let n := Z.max 0 (Z.min (Z.of_nat (length buf)) (Z.of_nat (length e.2) - offset)) in
        Some (RRead n (splice 0 (slice (Z.to_nat offset) (Z.to_nat n) e.2) buf), D)
      else None
  | OpWrite i offset buf =>
      e ← D !! i;
      if decide (0 ≤ offset ∧ buf ≠ [] ∧ offset + Z.of_nat (length buf) ≤ MAX_BLOCKS * BLOCK_SZ) then
        let D' := <[i := (e.1, write_data (Z.to_nat offset) buf e.2)]> D in
        if decide (fits efs total D') then Some (RWritten (Z.of_nat (length buf)), D') else None
      else None
  | OpClear i => e ← D !! i; Some (RDone, <[i := (e.1, [])]> D)
  end.

(** ** The correspondence *)
Section Spec.
Context {S : Type} `{!BlockStore S, !StoreLaws S}.
Context (efs : EasyFileSystem) (total : Z) (G : geometry efs total).
Implicit Types s : S.

Record disk_rep (s : S) (D : disk) : Prop := {
  dr_fs : fs_rep efs total s (files_of D);
  dr_names : Forall (λ e, name_ok e.1) D;
  dr_unique : NoDup D.*1;
  dr_fits : fits efs total D;
  dr_count : free_count efs total s + disk_blocks D = space efs total;
}.

Lemma lookup_files_root D : files_of D !! 0 = Some (Directory, dir_data (entries D)).
Proof. unfold files_of. by rewrite lookup_map_seqZ. Qed.

Lemma lookup_files D i : files_of D !! file_inode i = (λ e, (File, e.2)) <$> D !! i.
Proof.
  unfold files_of, file_inode. rewrite lookup_map_seqZ, option_guard_True by lia.
  replace (Z.to_nat (Z.of_nat i + 1 - 0)) with (Datatypes.S i) by lia. rewrite lookup_cons. apply list_lookup_fmap.
Qed.

Lemma lookup_files_neg D id : id < 0 → files_of D !! id = None.
Proof. intros. unfold files_of. rewrite lookup_map_seqZ. by rewrite option_guard_False by lia. Qed.

(** Every number is negative, the root or a file. *)
Lemma inode_cases id : id < 0 ∨ id = 0 ∨ ∃ i, id = file_inode i.
Proof.
  destruct (Z.lt_total id 0) as [?|[->|?]]; [by left|by right; left|]. right; right. exists (Z.to_nat (id - 1)). unfold file_inode. lia.
Qed.

Lemma file_inode_inj i j : file_inode i = file_inode j → i = j.
Proof. unfold file_inode. lia. Qed.

Lemma entries_insert D i e x : D !! i = Some e → x.1 = e.1 → entries (<[i := x]> D) = entries D.
Proof.
  intros Hi Hx. apply list_eq. intros j. unfold entries. rewrite !list_lookup_imap.
  destruct (decide (j = i)) as [->|Hne]; [|by rewrite list_lookup_insert_ne].
  rewrite list_lookup_insert_eq by (by eapply lookup_lt_Some). rewrite Hi. simpl. by rewrite Hx.
Qed.

Lemma entries_snoc D x : entries (D ++ [x]) = entries D ++ [(x.1, file_inode (length D))].
Proof. unfold entries. rewrite imap_app. simpl. by rewrite Nat.add_0_r. Qed.

Lemma entries_names D : (entries D).*1 = D.*1.
Proof.
  apply list_eq. intros i. unfold entries. rewrite !list_lookup_fmap, list_lookup_imap. by destruct (D !! i).
Qed.

(** A change of one file. *)
Lemma files_insert D i e x :
  D !! i = Some e → x.1 = e.1 → files_of (<[i := x]> D) = <[file_inode i := (File, x.2)]> (files_of D).
Proof.
  intros Hi Hx. apply map_eq. intros id. destruct (inode_cases id) as [Hn|[->|[j ->]]].
  - rewrite lookup_insert_ne, !lookup_files_neg by (unfold file_inode; lia). done.
  - rewrite lookup_insert_ne, !lookup_files_root by (unfold file_inode; lia). by erewrite entries_insert.
  - rewrite lookup_files. destruct (decide (j = i)) as [->|Hne].
    + rewrite lookup_insert_eq, list_lookup_insert_eq by (by eapply lookup_lt_Some). done.
    + rewrite lookup_insert_ne by (by intros ?%file_inode_inj). by rewrite list_lookup_insert_ne, lookup_files.
Qed.

(** A new file. *)
Lemma files_snoc D name :
  files_of (D ++ [(name, [])]) =
  <[0 := (Directory, dir_data (entries (D ++ [(name, [])])))]> (<[file_inode (length D) := (File, [])]> (files_of D)).
Proof.
  apply map_eq. intros id. destruct (inode_cases id) as [Hn|[->|[j ->]]].
  - rewrite !lookup_insert_ne, !lookup_files_neg by (unfold file_inode; lia). done.
  - by rewrite lookup_insert_eq, lookup_files_root.
  - rewrite lookup_insert_ne by (unfold file_inode; lia). rewrite lookup_files. destruct (decide (j = length D)) as [->|Hne].
    + by rewrite lookup_insert_eq, list_lookup_middle.
    + rewrite lookup_insert_ne by (by intros ?%file_inode_inj). rewrite lookup_files.
      destruct (decide (j < length D)%nat); [by rewrite lookup_app_l|].
      rewrite !(proj2 (lookup_ge_None _ _)); [done|lia|rewrite length_app; simpl; lia].
Qed.

Lemma file_blocks_insert D i e x :
  D !! i = Some e →
  file_blocks (<[i := x]> D) = file_blocks D + total_blocks (Z.of_nat (length x.2)) - total_blocks (Z.of_nat (length e.2)).
Proof.
  revert i. induction D as [|d D IH]; intros [|i]; [done|done|intros [= ->]; simpl; lia|]. intros Hi. simpl. rewrite (IH i Hi). lia.
Qed.

Lemma disk_blocks_insert D i e x :
  D !! i = Some e →
  disk_blocks (<[i := x]> D) = disk_blocks D + total_blocks (Z.of_nat (length x.2)) - total_blocks (Z.of_nat (length e.2)).
Proof. intros Hi. unfold disk_blocks, dir_size. rewrite length_insert, (file_blocks_insert D i e) by done. lia. Qed.

Lemma disk_blocks_snoc D name :
  disk_blocks (D ++ [(name, [])]) = disk_blocks D + (total_blocks (dir_size D + 32) - total_blocks (dir_size D)).
Proof.
  unfold disk_blocks. replace (dir_size (D ++ [(name, [])])) with (dir_size D + 32) by (unfold dir_size; rewrite length_app; simpl; lia).
  assert (Hs : ∀ D', file_blocks (D' ++ [(name, [])]) = file_blocks D'); [|rewrite Hs; lia].
  induction D' as [|d D' IH]; [done|]. simpl. by rewrite IH.
Qed.

Lemma dir_find_None name es : dir_find name es = None ↔ name ∉ es.*1.
Proof.
  induction es as [|e es IH]; simpl; [by split; [intros _ ?%elem_of_nil|]|]. rewrite not_elem_of_cons.
  case_bool_decide; [split; [done|]; intros [? _]; congruence|]. rewrite IH. split; [intros ?; split; [by intros ->|done]|tauto].
Qed.

Lemma disk_entries_ok s D : disk_rep s D → Forall entry_ok (entries D).
Proof.
  intros [_ Hn _ [_ Hd _] _]. apply Forall_lookup. intros i e He. unfold entries in He. rewrite list_lookup_imap in He.
  destruct (D !! i) as [x|] eqn:Hi; [|done]. injection He as <-. split; [by eapply (Forall_lookup_1 _ _ _ _ Hn)|].
  apply lookup_lt_Some in Hi. unfold dir_size, MAX_BLOCKS, BLOCK_SZ, file_inode in *. simpl. lia.
Qed.

Lemma disk_rep_same s s' D : disk_rep s D → shows s s' (st_view s) → disk_rep s' D.
Proof. intros [A B C E F] Hs. destruct (fs_rep_same efs total s s' _ A Hs) as [A' Hc]. split; try done. lia. Qed.

(** ** Each operation *)
Lemma find_refines s D name :
  disk_rep s D →
  ∃ s', find efs name (root_inode efs) s = Ret (option_map (inode_at efs) (dir_find name (entries D)), s') ∧ disk_rep s' D.
Proof.
  intros HD. destruct (find_ok efs total G s (files_of D) 0 (entries D) name) as (s' & E & Hs);
    [apply HD|apply lookup_files_root|by eapply disk_entries_ok|].
  exists s'. split; [exact E|by eapply disk_rep_same].
Qed.

Lemma ls_refines s D : disk_rep s D → ∃ s', ls (root_inode efs) s = Ret (D.*1, s') ∧ disk_rep s' D.
Proof.
  intros HD. destruct (ls_ok efs total G s (files_of D) 0 (entries D)) as (s' & E & Hs);
    [apply HD|apply lookup_files_root|by eapply disk_entries_ok|].
  exists s'. rewrite <-entries_names. split; [exact E|by eapply disk_rep_same].
Qed.

Lemma read_refines s D i e offset buf :
  disk_rep s D → D !! i = Some e → 0 ≤ offset → offset + Z.of_nat (length buf) < 2 ^ 64 →
  let n := Z.max 0 (Z.min (Z.of_nat (length buf)) (Z.of_nat (length e.2) - offset)) in
  ∃ s', inode_read_at offset buf (inode_at efs (file_inode i)) s =
      Ret (n, splice 0 (slice (Z.to_nat offset) (Z.to_nat n) e.2) buf, s') ∧ disk_rep s' D.
Proof.
  intros HD Hi Ho Hb n. destruct (inode_read_at_ok efs total G s (files_of D) (file_inode i) File e.2 offset buf) as (s' & E & Hs);
    [apply HD|by rewrite lookup_files, Hi|done|done|].
  exists s'. split; [exact E|by eapply disk_rep_same].
Qed.

(** The correspondence after a change of one file. *)
Lemma disk_rep_insert s s' D i e data :
  disk_rep s D → D !! i = Some e → fs_rep efs total s' (<[file_inode i := (File, data)]> (files_of D)) →
  free_count efs total s' = free_count efs total s - (total_blocks (Z.of_nat (length data)) - total_blocks (Z.of_nat (length e.2))) →
  disk_blocks (<[i := (e.1, data)]> D) ≤ space efs total → disk_rep s' (<[i := (e.1, data)]> D).
Proof.
  intros [A B C [F1 F2 F3] E] Hi HR Hc Hfit. assert (Hf : (<[i := (e.1, data)]> D).*1 = D.*1).
  { rewrite list_fmap_insert. apply list_insert_id. by rewrite list_lookup_fmap, Hi. }
  split.
  - by rewrite (files_insert D i e).
  - apply Forall_insert; [done|]. by eapply (Forall_lookup_1 _ _ _ _ B Hi).
  - by rewrite Hf.
  - unfold dir_size in *. split; [by rewrite length_insert|unfold dir_size; by rewrite length_insert|done].
  - rewrite (disk_blocks_insert D i e) in * by done. simpl in *. lia.
Qed.

Lemma write_refines s D i e offset buf :
  disk_rep s D → D !! i = Some e → 0 ≤ offset → buf ≠ [] → offset + Z.of_nat (length buf) ≤ MAX_BLOCKS * BLOCK_SZ →
  let D' := <[i := (e.1, write_data (Z.to_nat offset) buf e.2)]> D in
  fits efs total D' →
  ∃ s', inode_write_at efs offset buf (inode_at efs (file_inode i)) s = Ret (Z.of_nat (length buf), s') ∧ disk_rep s' D'.
Proof.
  intros HD Hi Ho Hb Hm D' [_ _ Hfit]. pose proof (dr_count _ _ HD) as Hcnt.
  assert (Hlen : Z.of_nat (length (write_data (Z.to_nat offset) buf e.2)) = Z.max (Z.of_nat (length e.2)) (offset + Z.of_nat (length buf)))
    by (rewrite length_write_data; lia).
  pose proof Hfit as Hfit'. unfold D' in Hfit'. rewrite (disk_blocks_insert D i e) in Hfit' by done. cbn [snd] in Hfit'.
  destruct (inode_write_at_ok efs total G s (files_of D) (file_inode i) File e.2 offset buf) as (s' & E & HR & Hc);
    [apply HD|by rewrite lookup_files, Hi|done|done|done|rewrite <-Hlen; lia|].
  exists s'. split; [exact E|]. apply (disk_rep_insert s); try done. by rewrite Hlen.
Qed.

Lemma clear_refines s D i e :
  disk_rep s D → D !! i = Some e →
  ∃ s', inode_clear efs (inode_at efs (file_inode i)) s = Ret s' ∧ disk_rep s' (<[i := (e.1, [])]> D).
Proof.
  intros HD Hi. destruct (inode_clear_ok efs total G s (files_of D) (file_inode i) File e.2) as (s' & E & HR & Hc);
    [apply HD|by rewrite lookup_files, Hi|].
  exists s'. split; [exact E|]. assert (Hz : total_blocks (Z.of_nat (length (@nil byte))) = 0) by done.
  apply (disk_rep_insert s); try done; [rewrite Hz; lia|].
  rewrite (disk_blocks_insert D i e) by done. cbn [snd]. rewrite Hz. pose proof (fit_blocks _ _ _ (dr_fits _ _ HD)).
  assert (0 ≤ total_blocks (Z.of_nat (length e.2))); [|lia]. unfold total_blocks, wrap. apply Z.mod_pos_bound. done.
Qed.

Lemma create_refines s D name :
  disk_rep s D → dir_find name (entries D) = None → name_ok name →
  let D' := D ++ [(name, [])] in fits efs total D' →
  ∃ s', create efs name (root_inode efs) s = Ret (Some (inode_at efs (file_inode (length D))), s') ∧ disk_rep s' D'.
Proof.
  intros HD Hnew Hname D' Hfits. pose proof Hfits as [F1 F2 F3]. unfold D', dir_size in F1, F2. rewrite length_app in F1, F2. simpl in F1, F2.
  pose proof (disk_entries_ok s D HD) as Hes. assert (Hlen : length (entries D) = length D) by apply length_imap.
  assert (HF0 := lookup_files_root D). pose proof HD as [A B C _ E].
  destruct (file_count_dir efs total G s _ 0 _ A HF0 Hes) as (_ & _ & Hdir & _ & Hid0). unfold create, root_inode.
  destruct (read_inode_ok efs total G 0 (λ di s, _ ← rassert (is_dir di); find_inode_id name di s) s None (st_view s)) as (s1 & E1 & Hs1);
    [apply A|done| |].
  { intros s1 Hv Hr. rewrite Hdir. cbn [rassert mbind outcome_bind]. rewrite <-Hnew. by eapply find_inode_ok. }
  rewrite E1. cbn [mbind outcome_bind]. destruct (fs_rep_same efs total s s1 _ A Hs1) as [A1 Hc1].
  assert (Hino : file_inode (length D) < 2 ^ 32) by (unfold file_inode, MAX_BLOCKS, BLOCK_SZ in *; lia).
  destruct (new_inode_ok efs total G File s1 (files_of D) (file_inode (length D))) as (s2 & s3 & E2 & E3 & A3 & Hc3); try done.
  { unfold file_inode. lia. }
  { rewrite lookup_files, lookup_ge_None_2; done. }
  { intros j Hj. destruct (inode_cases j) as [?|[->|[k ->]]]; [lia|by rewrite HF0|]. rewrite lookup_files.
    destruct (lookup_lt_is_Some_2 D k) as [x ->]; [unfold file_inode in Hj; lia|done]. }
  rewrite E2. cbn [mbind outcome_bind]. rewrite E3. cbn [mbind outcome_bind].
  assert (Hfree : total_blocks (dir_size D + 32) - total_blocks (dir_size D) ≤ free_count efs total s3).
  { unfold D' in F3. rewrite disk_blocks_snoc in F3. lia. }
  destruct (append_dirent_ok efs total G s3 _ (entries D) name (file_inode (length D)) A3) as (s4 & s5 & E4 & E5 & A5 & Hc5);
    rewrite ?Hlen; try done.
  { by rewrite lookup_insert_ne by (unfold file_inode; lia). }
  { split; [done|]. unfold file_inode. simpl. unfold file_inode in Hino. lia. }
  { unfold MAX_BLOCKS, BLOCK_SZ in *. lia. }
  rewrite Hlen in Hc5. fold (dir_size D) in Hc5. rewrite E4. cbn [mbind outcome_bind]. rewrite E5. cbn [mbind outcome_bind].
  exists s5. split; [done|]. split.
  - unfold D'. rewrite files_snoc, entries_snoc. exact A5.
  - apply Forall_app. split; [done|by constructor].
  - unfold D'. rewrite fmap_app. apply NoDup_app. split; [done|]. split; [|apply NoDup_singleton].
    intros x Hx ->%list_elem_of_singleton. rewrite dir_find_None, entries_names in Hnew. done.
  - exact Hfits.
  - unfold D'. rewrite disk_blocks_snoc. lia.
Qed.

Lemma create_exists s D name id :
  disk_rep s D → dir_find name (entries D) = Some id → ∃ s', create efs name (root_inode efs) s = Ret (None, s') ∧ disk_rep s' D.
Proof.
  intros HD Hold. pose proof (disk_entries_ok s D HD) as Hes. pose proof HD as [A _ _ _ _]. assert (HF0 := lookup_files_root D).
  destruct (file_count_dir efs total G s _ 0 _ A HF0 Hes) as (_ & _ & Hdir & _ & Hid0). unfold create, root_inode.
  destruct (read_inode_ok efs total G 0 (λ di s, _ ← rassert (is_dir di); find_inode_id name di s) s (Some id) (st_view s)) as (s1 & E1 & Hs1);
    [apply A|done| |].
  { intros s1 Hv Hr. rewrite Hdir. cbn [rassert mbind outcome_bind]. rewrite <-Hold. by eapply find_inode_ok. }
  rewrite E1. exists s1. split; [done|by eapply disk_rep_same].
Qed.

Lemma run_op_ok op s D r D' :
  disk_rep s D → spec_op efs total op D = Some (r, D') → ∃ s', run_op efs op s = Ret (r, s') ∧ disk_rep s' D'.
Proof.
  intros HD Hop. destruct op as [name|name| |i offset buf|i offset buf|i]; cbn [spec_op run_op] in *.
  - injection Hop as <- <-. destruct (find_refines s D name HD) as (s' & -> & H). by exists s'.
  - destruct (dir_find name (entries D)) as [id|] eqn:Hf.
    + injection Hop as <- <-. destruct (create_exists s D name id HD Hf) as (s' & -> & H). by exists s'.
    + case_decide as Hc; [|done]. destruct Hc as [Hn Hfits]. injection Hop as <- <-.
      destruct (create_refines s D name HD Hf Hn Hfits) as (s' & -> & H). by exists s'.
  - injection Hop as <- <-. destruct (ls_refines s D HD) as (s' & -> & H). by exists s'.
  - destruct (D !! i) as [e|] eqn:Hi; [|done]. cbn [mbind option_bind] in Hop. case_decide as Hc; [|done]. destruct Hc as [Ho Hb].
    injection Hop as <- <-. destruct (read_refines s D i e offset buf HD Hi Ho Hb) as (s' & -> & H). by exists s'.
  - destruct (D !! i) as [e|] eqn:Hi; [|done]. cbn [mbind option_bind] in Hop. case_decide as Hc; [|done]. destruct Hc as (Ho & Hb & Hm).
    case_decide as Hfits; [|done]. injection Hop as <- <-.
    destruct (write_refines s D i e offset buf HD Hi Ho Hb Hm Hfits) as (s' & -> & H). by exists s'.
  - destruct (D !! i) as [e|] eqn:Hi; [|done]. injection Hop as <- <-.
    destruct (clear_refines s D i e HD Hi) as (s' & -> & H). by exists s'.
Qed.
End Spec.

(** ** Sequences of operations *)
Fixpoint run_ops {S} `{!BlockStore S} (efs : EasyFileSystem) (ops : list fs_op) (s : S) : outcome (list fs_result * S) :=
  match ops with
  | [] => Ret ([], s)
  | op :: ops => '(r, s) ← run_op efs op s; '(rs, s) ← run_ops efs ops s; Ret (r :: rs, s)
  end.

Fixpoint spec_ops (efs : EasyFileSystem) (total : Z) (ops : list fs_op) (D : disk) : option (list fs_result * disk) :=
  match ops with
  | [] => Some ([], D)
  | op :: ops => '(r, D) ← spec_op efs total op D; '(rs, D) ← spec_ops efs total ops D; Some (r :: rs, D)
  end.

Section Runs.
Context {S : Type} `{!BlockStore S, !StoreLaws S}.
Context (efs : EasyFileSystem) (total : Z) (G : geometry efs total).

Lemma run_ops_ok ops : ∀ (s : S) D rs D',
  disk_rep efs total s D → spec_ops efs total ops D = Some (rs, D') →
  ∃ s', run_ops efs ops s = Ret (rs, s') ∧ disk_rep efs total s' D'.
Proof.
  induction ops as [|op ops IH]; intros s D rs D' HD; simpl; [intros [= <- <-]; by exists s|].
  destruct (spec_op efs total op D) as [[r D1]|] eqn:E1; [|done]. cbn [mbind option_bind].
  destruct (spec_ops efs total ops D1) as [[rs1 D2]|] eqn:E2; [|done]. intros [= <- <-].
  destruct (run_op_ok efs total G op s D r D1 HD E1) as (s1 & -> & HD1). cbn [mbind outcome_bind].
  destruct (IH s1 D1 rs1 D2 HD1 E2) as (s2 & -> & HD2). by exists s2.
Qed.
End Runs.
