(* ===== verification/FsBoot.v ===== *)
(** * Creating, opening and reopening a file system ([EasyFileSystem::create], [open])

    A new file system is the empty disk.  Whatever sequence of operations ran,
    after the cache is written back a fresh cache on the same device opens the
    same file system with the same files. *)

From Stdlib Require Import FunctionalExtensionality.
From stdpp Require Import functions gmap.
From S2P Require Import Prelude Utf8 Blocks BlockCache Words Bitmap Layout LayoutLemmas InodeMap InodeGrow InodeClear InodeIO Efs Vfs FsInv FsOps FsFile FsDir FsCreate FsSpec.

Local Ltac Zify.zify_post_hook ::= Z.to_euclidean_division_equations.

(** Sizes for which [create] lays out all areas without overflow. *)
Definition size_ok (total ib : Z) : Prop := 0 < ib ∧ 2 + ib * 1025 ≤ total ∧ total + 4096 < 2 ^ 32.

Lemma layout_ok total ib :
  size_ok total ib → geometry (layout_of total ib).1 total ∧
    efs_of_super (layout_of total ib).2 = (layout_of total ib).1 ∧ super_is_valid (layout_of total ib).2 = true ∧
    Forall (λ x, 0 ≤ x < 2 ^ 32) (let sb := (layout_of total ib).2 in [magic sb; sb_total_blocks sb; sb_inode_bitmap_blocks sb;
      sb_inode_area_blocks sb; sb_data_bitmap_blocks sb; sb_data_area_blocks sb]).
Proof.
  intros (Hib & Hfit & Hmax). unfold layout_of, maximum. cbn [blocks].
  change (Z.of_nat INODE_SZ) with 128. unfold BLOCK_BITS, BLOCK_SZ.
  assert (Ha : (ib * (512 * 8) * 128 + 512 - 1) / 512 = ib * 1024) by lia. rewrite Ha.
  repeat match goal with |- context [wrap 32 ?x] => rewrite (wrap_small 32 x) by lia end.
  cbn [fst snd]. set (t := total - 1 - (ib + ib * 1024)). set (db := (t + 4096) / 4097).
  assert (Hdb : 0 ≤ db ≤ t ∧ t - db ≤ db * 4096) by lia.
  split; [|split; [|split; [done|]]].
  - split; simpl; unfold maximum, BLOCK_BITS, BLOCK_SZ; simpl; lia.
  - unfold efs_of_super. simpl. repeat match goal with |- context [wrap 32 ?x] => rewrite (wrap_small 32 x) by lia end. done.
  - simpl. repeat (constructor; [first [lia|done]|]). constructor.
Qed.

Lemma get_word_zero_block i : get_word 8 i zero_block = 0.
Proof.
  unfold get_word, slice, zero_block. rewrite drop_replicate, take_replicate. unfold from_le_bytes.
  induction (_ `min` _)%nat as [|n IH]; [done|].
  change (Z.lor 0 (Z.shiftl (little_endian_to_Z 8 (Z_of_byte <$> replicate n x00)) 8) = 0). by rewrite IH.
Qed.

Lemma bit_at_zero_block n : bit_at zero_block n = false.
Proof. unfold bit_at. by rewrite get_word_zero_block, Z.bits_0. Qed.

Section Boot.
Context {S : Type} `{!BlockStore S, !StoreLaws S}.
Implicit Types s : S.

Lemma zero_all_ok : ∀ n i s,
  st_wf s → st_held s = ∅ → 0 ≤ i → i + Z.of_nat n ≤ st_size s →
  ∃ s' v', zero_all n i s = Ret s' ∧ shows s s' v' ∧
    ∀ c, v' c = if bool_decide (i ≤ c < i + Z.of_nat n) then zero_block else st_view s c.
Proof.
  induction n as [|n IH]; intros i s Hwf Hh Hi Hn; cbn [zero_all].
  - exists s, (st_view s). split; [done|]. split; [by apply shows_refl|]. intros c. by rewrite bool_decide_eq_false_2 by lia.
  - destruct (zero_ok i s) as (s1 & -> & Hs1); [split_and!; [done|lia|lia|by rewrite Hh|rewrite Hh, size_empty; lia]|].
    cbn [mbind outcome_bind]. pose proof Hs1 as (Hwf1 & Hz1 & Hh1 & Hv1).
    destruct (IH (i + 1) s1) as (s2 & v2 & -> & Hs2 & Hc); [done|congruence|lia|lia|].
    exists s2, v2. split; [done|]. split; [by eapply shows_trans|]. intros c. rewrite Hc, Hv1.
    destruct (decide (c = i)) as [->|Hne].
    + rewrite (bool_decide_eq_false_2 (_ ≤ i < _)), (bool_decide_eq_true_2 (_ ≤ i < _)) by lia. apply lookup_insert_view.
    + rewrite lookup_insert_view_ne by done. by rewrite (bool_decide_ext (i ≤ c < i + Z.of_nat (Datatypes.S n)) (i + 1 ≤ c < i + 1 + Z.of_nat n)) by lia.
Qed.

(** A disk that is blank up to its super block has no inodes. *)
Lemma blank_inv efs total v :
  geometry efs total → super_shows efs (v 0) → (∀ c, 0 < c < total → v c = zero_block) →
  fs_inv efs total v ∅ ∧ Z.of_nat (length (free_blocks efs total v)) = space efs total.
Proof.
  intros G Hsup Hz. pose proof (area_order efs total G) as Hord. pose proof (ge_total _ _ G) as Ht.
  assert (Hno : ∀ b, ¬ owned ∅ b) by (intros b (id & ds & ms & H & _); done).
  assert (Huse : ∀ b, data_area_start_block efs ≤ b < data_area_start_block efs + maximum (data_bitmap efs) → in_use efs v b = false).
  { intros b Hb. unfold in_use, bit_of. rewrite Hz; [apply bit_at_zero_block|]. pose proof (ge_data _ _ G).
    assert (0 ≤ (b - data_area_start_block efs) / BLOCK_BITS < blocks (data_bitmap efs)); [|lia].
    apply div_bound; [done|]. unfold maximum in Hb. lia. }
  split; [split|].
  - intros id ds ms H. done.
  - intros id id' ds ms ds' ms' b H. done.
  - intros b Hb. by destruct (Hno b).
  - intros b Hb. rewrite Huse by done. split; [done|]. intros Ho. by destruct (Hno b).
  - intros id [x H]. done.
  - intros id Hid. unfold bit_of. pose proof (ibit_block efs total G id Hid). rewrite Hz, bit_at_zero_block by lia. split; [done|by intros [x H']].
  - intros b Hb _. apply Hz. lia.
  - done.
  - unfold free_blocks, space. rewrite filter_keep_all; [rewrite length_seqZ; lia|]. intros b Hb%elem_of_seqZ.
    assert (Hs := ge_bits _ _ G). apply Huse. lia.
Qed.

Lemma files_of_nil : files_of [] = <[0 := (Directory, [])]> ∅.
Proof. unfold files_of, entries. simpl. done. Qed.

Lemma efs_create_ok total ib s :
  size_ok total ib → st_wf s → st_held s = ∅ → total ≤ st_size s →
  let efs := (layout_of total ib).1 in
  ∃ s', efs_create total ib s = Ret (efs, s') ∧ disk_rep efs total s' [].
Proof.
  intros Hsz Hwf Hh Ht efs. destruct (layout_ok total ib Hsz) as (G & Hes & Hval & Hu32). unfold efs_create.
  destruct (layout_of total ib) as [efs' sb] eqn:El. cbn [fst snd] in *. subst efs. rename efs' into efs.
  pose proof (area_order efs total G) as Hord. pose proof (ge_total _ _ G) as HtG. destruct Hsz as (Hib & Hfit & Hmax).
  destruct (zero_all_ok (Z.to_nat total) 0 s) as (s1 & v1 & -> & Hs1 & Hv1); [done|done|lia|lia|]. cbn [mbind outcome_bind].
  pose proof Hs1 as (Hwf1 & Hz1 & Hh1 & Hvs1).
  assert (Hready : fs_ready total s1) by (split_and!; [done|lia|congruence]).
  assert (Hlsb : length (super_bytes sb) = SUPER_SZ) by (unfold super_bytes; by rewrite length_words).
  assert (Hc0 : can_lock 0 s1) by (apply ready_can_lock, (fs_ready_block total); [done|lia]).
  destruct (modify_pure 0 0 SUPER_SZ (λ _, (tt, super_bytes sb)) s1 Hc0) as (s2 & E2 & Hs2); [unfold SUPER_SZ; lia|done|].
  rewrite E2. cbn [mbind outcome_bind snd] in *. set (v2 := <[0 := _]> _) in *.
  assert (Hblk0 : st_view s1 0 = zero_block) by (rewrite Hvs1, Hv1; by rewrite bool_decide_eq_true_2 by lia).
  destruct (blank_inv efs total v2 G) as [I Hfree].
  { unfold v2. rewrite lookup_insert_view. unfold super_shows. rewrite <-Hlsb at 1 2.
    rewrite slice_splice by (rewrite Hlsb, Hblk0; unfold SUPER_SZ, zero_block; rewrite length_replicate; lia).
    pose proof (super_of_bytes sb [] Hu32) as Hsb. rewrite app_nil_r in Hsb. by rewrite Hsb. }
  { intros c Hc. unfold v2. rewrite lookup_insert_view_ne, Hvs1, Hv1 by lia. by rewrite bool_decide_eq_true_2 by lia. }
  assert (Hv2 : st_view s2 = v2) by apply Hs2.
  assert (A2 : fs_rep efs total s2 ∅).
  { split; [by eapply fs_ready_shows|]. exists ∅. rewrite Hv2. split; [done|]. done. }
  destruct (new_inode_ok efs total G Directory s2 ∅ 0 A2) as (s3 & s4 & E3 & E4 & A4 & Hc4); [split; [lia|by apply (inode_maximum_pos efs total)]|done|done|lia|].
  rewrite E3. cbn [mbind outcome_bind]. rewrite Z.eqb_refl. cbn [rassert mbind outcome_bind].
  unfold modify_disk_inode, inode_at in E4. destruct (get_disk_inode_pos efs 0) as [blk off]. cbn [ino_block_id ino_block_offset] in E4.
  cbn [mbind outcome_bind] in E4. rewrite E4. cbn [mbind outcome_bind].
  destruct A4 as [Hr4 A4]. destruct (sync_shows s4 s4 _ (shows_refl s4 (proj1 Hr4))) as (s5 & E5 & Hs5); [apply Hr4|].
  rewrite E5. cbn [mbind outcome_bind]. exists s5. split; [done|].
  destruct (fs_rep_same efs total s4 s5 (<[0 := (Directory, [])]> ∅)) as [A5 Hc5]; [by split|done|].
  assert (Hcount : free_count efs total s5 = space efs total) by (rewrite Hc5, Hc4; unfold free_count; by rewrite Hv2).
  split; [by rewrite files_of_nil|constructor|apply NoDup_nil_2| |].
  - split; [by apply (inode_maximum_pos efs total)|done|]. unfold disk_blocks, space. simpl. change (total_blocks (dir_size [])) with 0. lia.
  - rewrite Hcount. unfold disk_blocks. simpl. change (total_blocks (dir_size [])) with 0. lia.
Qed.

Lemma efs_open_ok efs total s D :
  geometry efs total → disk_rep efs total s D → ∃ s', efs_open s = Ret (efs, s') ∧ disk_rep efs total s' D.
Proof.
  intros G HD. pose proof HD as [(Hr & m & I & _) _ _ _ _]. destruct (fi_super _ _ _ _ I) as [Hval Hefs].
  pose proof (area_order efs total G). pose proof (ge_total _ _ G).
  destruct (read_ok 0 0 SUPER_SZ (λ p s, _ ← rassert (super_is_valid (super_of p)); Ret (efs_of_super (super_of p), s)) s efs (st_view s))
    as (s' & E & Hs); [apply ready_can_lock, (fs_ready_block total); [done|lia]|unfold SUPER_SZ; lia| |].
  - intros s1 Hl. rewrite Hval, Hefs. exists s1. split; [done|]. destruct Hl as (? & _ & <- & _). by apply shows_refl.
  - exists s'. split; [exact E|by eapply disk_rep_same].
Qed.

(** Only the blocks matter, not what the cache holds of them. *)
Lemma disk_rep_view efs total s s' D : disk_rep efs total s D → st_view s' = st_view s → fs_ready total s' → disk_rep efs total s' D.
Proof.
  intros [(Hr & m & I & HF) B C E F] Hv Hr'. split; try done; [split; [done|]; exists m; by rewrite Hv|].
  unfold free_count in *. by rewrite Hv.
Qed.
End Boot.

(** ** Reopening *)
Section Reopen.
Context {Dev : Type} `{!BlockDevice Dev, !DeviceLaws Dev}.

Lemma reopen_ok efs total (s : Store Dev) D :
  geometry efs total → disk_rep efs total s D →
  ∃ s1 s2, block_cache_sync_all s = Ret s1 ∧ efs_open (BlockCacheManager_new (device s1)) = Ret (efs, s2) ∧ disk_rep efs total s2 D.
Proof.
  intros G HD. pose proof HD as [((Hwf & Hsz & Hh) & _) _ _ _ _].
  destruct (sync_all_durable s Hwf Hh) as (s1 & E & Hok & Hds & Hv & Hh1 & Hdev).
  destruct (BlockCacheManager_new_ok (device s1)) as (Hwf2 & Hh2 & Hv2).
  assert (HD2 : disk_rep efs total (BlockCacheManager_new (device s1)) D).
  { eapply disk_rep_view; [exact HD|by rewrite Hv2, Hdev|]. split; [done|]. split; [|done]. change (total ≤ dev_size (device s1)). rewrite Hds. exact Hsz. }
  destruct (efs_open_ok efs total _ D G HD2) as (s2 & E2 & HD3). by exists s1, s2.
Qed.
End Reopen.
