(* ===== verification/FsThms.v ===== *)
(** * What the file system guarantees

    The theorems of the file system as a whole, from the block cache up to
    sequences of file operations across a restart. *)

From Stdlib Require Import FunctionalExtensionality.
From stdpp Require Import functions gmap.
From S2P Require Import Prelude Utf8 Blocks BlockCache Words Bitmap Layout LayoutLemmas InodeMap InodeGrow InodeClear InodeIO Efs Vfs MemDisk FsInv FsOps FsFile FsDir FsCreate FsSpec FsBoot.

Local Ltac Zify.zify_post_hook ::= Z.to_euclidean_division_equations.

(** ** The whole file system *)
Section System.
Context {Dev : Type} `{!BlockDevice Dev, !DeviceLaws Dev}.

(** On any device that stores blocks, a new file system behaves like the
    abstract disk through any sequence of find, create, ls, read, write and
    clear that the abstract disk offers; after the cache is written back and
    dropped, [open] on the same device gives the same file system, and a
    second sequence continues from the same files. *)
Theorem file_system_correct (d : Dev) total ib ops ops' rs rs' D D' :
  size_ok total ib → total ≤ dev_size d →
  let efs := (layout_of total ib).1 in
  spec_ops efs total ops [] = Some (rs, D) → spec_ops efs total ops' D = Some (rs', D') →
  ∃ s1 s2 s3 s4 s5,
    efs_create total ib (BlockCacheManager_new d) = Ret (efs, s1) ∧
    run_ops efs ops s1 = Ret (rs, s2) ∧
    block_cache_sync_all s2 = Ret s3 ∧
    efs_open (BlockCacheManager_new (device s3)) = Ret (efs, s4) ∧
    run_ops efs ops' s4 = Ret (rs', s5).
Proof.
  intros Hsz Hd efs H1 H2. destruct (layout_ok total ib Hsz) as (G & _). fold efs in G.
  destruct (BlockCacheManager_new_ok d) as (Hwf & Hh & _).
  destruct (efs_create_ok total ib (BlockCacheManager_new d) Hsz Hwf Hh Hd) as (s1 & E1 & HD1). fold efs in E1, HD1.
  destruct (run_ops_ok efs total G ops s1 [] rs D HD1 H1) as (s2 & E2 & HD2).
  destruct (reopen_ok efs total s2 D G HD2) as (s3 & s4 & E3 & E4 & HD4).
  destruct (run_ops_ok efs total G ops' s4 D rs' D' HD4 H2) as (s5 & E5 & _). by exists s1, s2, s3, s4, s5.
Qed.

(** ** The cache as a whole *)

(** [get_block_cache(b).lock().modify(0, |block| *block = data)] for each pair. *)
Fixpoint write_blocks (ws : list (Z * Block)) (s : Store Dev) : outcome (Store Dev) :=
  match ws with
  | [] => Ret s
  | (b, data) :: ws => '(_, s) ← modify b 0 BLOCK_LEN (λ _ s, Ret (tt, data, s)) s; write_blocks ws s
  end.

(** C29: Whatever blocks are written through the 16-entry cache, in whatever
    order and number, evictions included: the writes succeed, and after
    [block_cache_sync_all] the device holds exactly the last data written to
    each block and its old content elsewhere. *)
Theorem cached_writes_reach_the_device (s : Store Dev) (ws : list (Z * Block)) :
  cache_ok s → held_set s = ∅ → Forall (λ w, 0 ≤ w.1 < dev_size (device s) ∧ length w.2 = BLOCK_LEN) ws →
  ∃ s1 s2, write_blocks ws s = Ret s1 ∧ block_cache_sync_all s1 = Ret s2 ∧ (length (queue s2) ≤ BLOCK_CACHE_SIZE)%nat ∧
    dev_block (device s2) = foldl (λ v w, <[w.1 := w.2]> v) (cache_view s) ws.
Proof.
  revert s. induction ws as [|[b data] ws IH]; intros s Hok Hh Hws.
  - destruct (sync_all_durable s Hok Hh) as (s2 & E & Hok2 & _ & _ & _ & Hdev). exists s, s2. split; [done|]. split; [exact E|].
    split; [apply (co_length _ Hok2)|exact Hdev].
  - apply Forall_cons in Hws as [[Hb Hl] Hws]. cbn [write_blocks].
    destruct (modify_block_pure b (λ _, (tt, data)) s) as (s1 & E & (Hok1 & Hz1 & Hh1 & Hv1)); [|done|].
    { split_and!; [exact Hok|apply Hb|apply Hb|by simpl; rewrite Hh|simpl; rewrite Hh, size_empty; lia]. }
    simpl in E. rewrite E. cbn [mbind outcome_bind].
    destruct (IH s1 Hok1) as (s2 & s3 & E2 & E3 & Hq & Hdev); [by rewrite <-Hh|by change (dev_size (device s1) = dev_size (device s)) in Hz1; rewrite Hz1|].
    exists s2, s3. split_and!; try done. rewrite Hdev. simpl. f_equal. exact Hv1.
Qed.
End System.

(** ** Blocks and inodes *)
Section Space.
Context {S : Type} `{!BlockStore S, !StoreLaws S}.

(** C30: Writing a file and then clearing it leaks nothing: the file is empty,
    every other file has its bytes, and the free blocks are those from before
    the write plus the blocks the file had then. *)
Theorem write_then_clear_leaks_nothing efs total (s : S) F id ty data offset buf :
  geometry efs total → fs_rep efs total s F → F !! id = Some (ty, data) → 0 ≤ offset → buf ≠ [] →
  offset + Z.of_nat (length buf) ≤ MAX_BLOCKS * BLOCK_SZ →
  total_blocks (Z.max (Z.of_nat (length data)) (offset + Z.of_nat (length buf))) - total_blocks (Z.of_nat (length data))
    ≤ free_count efs total s →
  ∃ s1 s2, inode_write_at efs offset buf (inode_at efs id) s = Ret (Z.of_nat (length buf), s1) ∧
    inode_clear efs (inode_at efs id) s1 = Ret s2 ∧ fs_rep efs total s2 (<[id := (ty, [])]> F) ∧
    free_count efs total s2 = free_count efs total s + total_blocks (Z.of_nat (length data)).
Proof.
  intros G HR HF Ho Hb Hm Hfree. destruct (inode_write_at_ok efs total G s F id ty data offset buf) as (s1 & E1 & HR1 & Hc1); try done.
  destruct (inode_clear_ok efs total G s1 _ id ty (write_data (Z.to_nat offset) buf data) HR1) as (s2 & E2 & HR2 & Hc2);
    [by rewrite lookup_insert_eq|].
  exists s1, s2. split_and!; try done; [by rewrite insert_insert_eq in HR2|]. rewrite Hc2, Hc1, length_write_data.
  replace (Z.of_nat (length data `max` (Z.to_nat offset + length buf))) with (Z.max (Z.of_nat (length data)) (offset + Z.of_nat (length buf))) by lia.
  lia.
Qed.

(** Allocation in a bitmap returns the lowest clear bit and sets it alone;
    releasing that bit restores every bit of the bitmap, and releasing it once
    more is caught by the assertion of [dealloc]. *)
Theorem bitmap_alloc_then_dealloc bm (s : S) n s1 :
  bm_ready bm s → alloc bm s = Ret (Some n, s1) →
  0 ≤ n < maximum bm ∧ (∀ m, 0 ≤ m < n → bit_of bm (st_view s) m = true) ∧
  (∀ m, 0 ≤ m < maximum bm → bit_of bm (st_view s1) m = if m =? n then true else bit_of bm (st_view s) m) ∧
  ∃ s2, dealloc bm n s1 = Ret s2 ∧
    (∀ m, 0 ≤ m < maximum bm → bit_of bm (st_view s2) m = bit_of bm (st_view s) m) ∧ dealloc bm n s2 = Panic.
Proof.
  intros Hr E. destruct (alloc_ok bm s Hr) as [(s' & E' & _)|(n' & s' & v' & E' & Hs1 & Hn & Hcl & Hlow & [_ Hset])]; [congruence|].
  rewrite E in E'. injection E' as <- <-. assert (Hv1 : st_view s1 = v') by apply Hs1. subst v'.
  assert (Hr1 : bm_ready bm s1) by (by eapply bm_ready_shows).
  destruct (dealloc_ok bm n s1 Hr1 Hn) as (s2 & v2 & E2 & Hs2 & [_ Hset2]); [by rewrite Hset, Z.eqb_refl|].
  assert (Hv2 : st_view s2 = v2) by apply Hs2. subst v2. split_and!; [apply Hn|apply Hn|done|done|].
  exists s2. split; [done|]. split.
  - intros m Hm. rewrite Hset2, Hset by done. destruct (Z.eqb_spec m n) as [->|]; [by rewrite Hcl|done].
  - apply dealloc_clear; [by eapply bm_ready_shows|done|]. by rewrite Hset2, Z.eqb_refl.
Qed.

(** C32: The block map of an inode. Growing an inode by the blocks that
    [blocks_num_needed] asks for never panics: its old data blocks keep their
    places and their bytes, the new ones follow, [get_block_id] finds each of
    them at its place, every given block is used once, as a data block or as
    an index block, and nothing but index blocks is written. The fields stay
    32-bit numbers, zero beyond the blocks in use, so the inode is the same
    after it is stored and loaded. Clearing it then returns every block it
    had, data and index blocks, each once, writes nothing, and leaves the
    inode [initialize] makes: all fields zero. *)
Theorem inode_grows_and_clears new_size nb di ds ms (s : S) p :
  inode_ok di → inode_tidy di → st_wf s → rep (st_view s) di ds ms → length ms = nmeta (length ds) →
  Z.of_nat (length ds) = data_blocks di → NoDup (ds ++ ms ++ nb) → (∀ b, b ∈ ds ++ ms ++ nb → ready b s) →
  Forall (λ x, 0 ≤ x < 2 ^ 32) nb → new_size ≤ MAX_BLOCKS * BLOCK_SZ →
  blocks_num_needed new_size di = Ret (Z.of_nat (length nb)) →
  ∃ di' s' ds1 ms1, increase_size new_size nb di s = Ret (di', s') ∧
    di_size di' = new_size ∧ type_ di' = type_ di ∧ inode_ok di' ∧ inode_tidy di' ∧ inode_of (inode_put di' p) = di' ∧
    Z.of_nat (length (ds ++ ds1)) = data_blocks di' ∧ ds1 ++ ms1 ≡ₚ nb ∧
    (∀ i d, (ds ++ ds1) !! i = Some d →
       ∃ s1, get_block_id (Z.of_nat i) di' s' = Ret (d, s1) ∧ st_view s1 = st_view s') ∧
    (∀ b, b ∉ ms ++ ms1 → st_view s' b = st_view s b) ∧
    ∃ v s2, clear_size di' s' = Ret (v, inode_initialize (type_ di) di', s2) ∧ v ≡ₚ ds ++ ms ++ nb ∧ st_view s2 = st_view s'.
Proof.
  intros Hok Ht Hwf Hr Hms Hds Hnd Hrd Hu Hmax Hneed. pose proof (ino_size _ Hok) as Hsz.
  unfold blocks_num_needed in Hneed. destruct (Z.leb_spec (di_size di) new_size) as [Hle|]; [|done]. injection Hneed as Hneed.
  assert (Hb : 0 ≤ data_blocks di ≤ _data_blocks new_size).
  { unfold data_blocks, MAX_BLOCKS, BLOCK_SZ in *. rewrite !data_blocks_eq by (unfold BLOCK_SZ; lia). lia. }
  pose proof (blocks_mono (di_size di) new_size ltac:(lia) Hmax) as Hmono.
  assert (Hbnd : ∀ z, 0 ≤ total_blocks z < 2 ^ 32) by (intros z; by apply Z.mod_pos_bound).
  pose proof (Hbnd new_size). pose proof (Hbnd (di_size di)). rewrite wrap_small in Hneed by lia.
  destruct (increase_size_ok new_size di ds ms nb s) as (di' & ds1 & ms1 & s' & v' & E & Hs & Hr' & Hsz' & Hty & Hl & Hm & Hp & Hfr);
    try done; try lia; [by apply NoDup_app in Hnd as (_ & _ & ?)|intros b Hin; apply Hrd; set_solver|].
  assert (Hv' : st_view s' = v') by apply Hs. subst v'.
  assert (Hall : (ds ++ ds1) ++ ms ++ ms1 ≡ₚ ds ++ ms ++ nb) by (rewrite <-Hp; solve_Permutation).
  assert (Hrd' : ∀ b, b ∈ (ds ++ ds1) ++ ms ++ ms1 → ready b s').
  { intros b Hin. eapply ready_shows; [exact Hs|]. apply Hrd. by rewrite <-Hall. }
  assert (Hok' : inode_ok di') by (eapply increase_size_fields; try done; unfold MAX_BLOCKS, BLOCK_SZ in *; lia).
  assert (Hl' : Z.of_nat (length (ds ++ ds1)) = data_blocks di') by (unfold data_blocks; by rewrite Hsz').
  assert (Ht' : inode_tidy di') by by eapply increase_size_tidy.
  destruct (clear_size_ok di' (ds ++ ds1) (ms ++ ms1) s') as (v & di2 & s2 & E2 & Hp2 & Hs2 & _); try done.
  { assert (Hnd' : NoDup ((ds ++ ds1) ++ ms ++ ms1)) by (by rewrite Hall). by apply NoDup_app in Hnd' as (_ & _ & ?). }
  { intros b Hin. apply Hrd'. set_solver. }
  { apply Hs. }
  pose proof (clear_size_tidy _ _ _ _ _ E2 (ino_length _ Hok') ltac:(lia) Ht') as ->. rewrite Hty in E2.
  exists di', s', ds1, ms1. split_and!; try done; [by apply inode_of_put| |].
  - intros i d Hi. destruct (get_block_id_ok di' (ds ++ ds1) (ms ++ ms1) i d s') as (s1 & E1 & Hs1); try done; [apply Hs| |].
    + intros m Hin. apply ready_can_lock, Hrd'. set_solver.
    + exists s1. split; [done|apply Hs1].
  - exists v, s2. split; [done|]. split; [by rewrite Hp2|apply Hs2].
Qed.
End Space.

(** ** Names of 28 bytes *)

(** C33: A directory entry accepts a name of 28 bytes, which fills the field and
    leaves no terminating zero; reading the name back indexes past the array
    and panics.  A name of at most 27 bytes is read back unchanged. *)
Theorem directory_name_limit name ino :
  x00 ∉ name_of name → utf8_valid (name_of name) = true → 0 ≤ ino < 2 ^ 32 →
  (length (name_of name) ≤ 28)%nat →
  ∃ d, DirEntry_new (name_of name) ino = Ret d ∧ inode_number (dirent_of (as_bytes d)) = ino ∧
    dirent_name (dirent_of (as_bytes d)) = if decide (length (name_of name) = 28%nat) then Panic else Ret name.
Proof.
  intros Hz Hu Hi Hl. destruct (DirEntry_new_ok name ino Hl Hi) as (d & E & Hd & Hino & Hn). exists d.
  rewrite dirent_of_bytes by done. split; [done|]. split; [done|]. case_decide as Hc; [by eapply dirent_name_full|].
  apply dirent_name_ok; [|done]. split_and!; [lia|done|done].
Qed.

(** ** The theorems at work: a disk of 1040 blocks in memory *)
Module Sample.
Definition disk0 : MemDisk := mkMemDisk 1040 ∅.
Definition efs0 : EasyFileSystem := (layout_of 1040 1).1.
Definition store0 : Store MemDisk := BlockCacheManager_new disk0.
Definition text : list byte := [x68; x65; x6c; x6c; x6f].
Definition zeros (n : nat) : list byte := replicate n x00.

Definition session : list fs_op :=
  [OpCreate "a"; OpCreate "b"; OpWrite 0 0 text; OpWrite 0 3 text; OpRead 0 1 (zeros 4); OpCreate "a"; OpFind "b"; OpLs].
Definition session_results : list fs_result :=
  [RInode (Some (inode_at efs0 1)); RInode (Some (inode_at efs0 2)); RWritten 5; RWritten 5; RRead 4 [x65; x6c; x68; x65];
   RInode None; RInode (Some (inode_at efs0 2)); RNames ["a"; "b"]%string].
Definition session' : list fs_op := [OpLs; OpRead 0 6 (zeros 4); OpClear 0; OpRead 0 0 (zeros 2); OpFind "c"].
Definition session_results' : list fs_result :=
  [RNames ["a"; "b"]%string; RRead 2 [x6c; x6f; x00; x00]; RDone; RRead 0 [x00; x00]; RInode None].

Lemma size0 : size_ok 1040 1.
Proof. unfold size_ok. lia. Qed.

Lemma geometry0 : geometry efs0 1040.
Proof. exact (proj1 (layout_ok 1040 1 size0)). Qed.

Lemma store0_ok : st_wf store0 ∧ st_held store0 = ∅ ∧ st_size store0 = 1040.
Proof. destruct (BlockCacheManager_new_ok disk0) as (? & ? & _). by split_and!. Qed.

(** An empty file system on it. *)
Lemma empty0 : ∃ s : Store MemDisk, disk_rep efs0 1040 s [].
Proof.
  destruct store0_ok as (Hwf & Hh & Hz).
  destruct (efs_create_ok 1040 1 store0 size0 Hwf Hh) as (s & _ & HD); [by rewrite Hz|]. by exists s.
Qed.
End Sample.

Lemma file_system_correct_witness :
  ∃ s1 s2 s3 s4 s5, efs_create 1040 1 Sample.store0 = Ret (Sample.efs0, s1) ∧
    run_ops Sample.efs0 Sample.session s1 = Ret (Sample.session_results, s2) ∧ block_cache_sync_all s2 = Ret s3 ∧
    efs_open (BlockCacheManager_new (device s3)) = Ret (Sample.efs0, s4) ∧
    run_ops Sample.efs0 Sample.session' s4 = Ret (Sample.session_results', s5).
Proof.
  eapply (file_system_correct Sample.disk0 1040 1 Sample.session Sample.session' Sample.session_results Sample.session_results');
    [apply Sample.size0|done|vm_compute; reflexivity|vm_compute; reflexivity].
Defined.

Lemma cached_writes_reach_the_device_witness :
  let ws := (λ i, (Z.of_nat i, replicate BLOCK_LEN x01)) <$> seq 0 20 in
  ∃ s1 s2, write_blocks ws Sample.store0 = Ret s1 ∧ block_cache_sync_all s1 = Ret s2 ∧
    (length (queue s2) ≤ BLOCK_CACHE_SIZE)%nat ∧
    dev_block (device s2) = foldl (λ v w, <[w.1 := w.2]> v) (cache_view Sample.store0) ws.
Proof.
  intros ws. apply (cached_writes_reach_the_device Sample.store0 ws); [apply Sample.store0_ok|done|].
  apply Forall_fmap, Forall_forall. intros i Hi%elem_of_seq. split; [simpl; lia|done].
Defined.

Lemma write_then_clear_leaks_nothing_witness :
  ∃ (s : Store MemDisk) s1 s2, inode_write_at Sample.efs0 600 Sample.text (inode_at Sample.efs0 0) s = Ret (5, s1) ∧
    inode_clear Sample.efs0 (inode_at Sample.efs0 0) s1 = Ret s2 ∧
    fs_rep Sample.efs0 1040 s2 (<[0 := (Directory, [])]> (files_of [])) ∧
    free_count Sample.efs0 1040 s2 = free_count Sample.efs0 1040 s + 0.
Proof.
  destruct Sample.empty0 as (s & HD). exists s.
  apply (write_then_clear_leaks_nothing Sample.efs0 1040 s (files_of []) 0 Directory [] 600 Sample.text).
  - apply Sample.geometry0.
  - apply HD.
  - apply lookup_files_root.
  - done.
  - done.
  - done.
  - pose proof (dr_count _ _ _ _ HD) as Hc. change (disk_blocks []) with 0 in Hc.
    assert (Hs : space Sample.efs0 1040 = 13) by (vm_compute; reflexivity).
    set (need := total_blocks _ - total_blocks _). assert (Hn : need = 2) by (vm_compute; reflexivity). lia.
Defined.

Lemma bitmap_alloc_then_dealloc_witness :
  ∃ s1 s2, alloc (mkBitmap 1 1) Sample.store0 = Ret (Some 0, s1) ∧ dealloc (mkBitmap 1 1) 0 s1 = Ret s2 ∧
    dealloc (mkBitmap 1 1) 0 s2 = Panic.
Proof.
  assert (Hr : bm_ready (mkBitmap 1 1) Sample.store0).
  { destruct Sample.store0_ok as (Hwf & Hh & Hz). split_and!; [done|done|]. intros b Hb. simpl in Hb.
    split_and!; [done|lia|rewrite Hz; lia|by rewrite Hh|rewrite Hh, size_empty; lia]. }
  assert (Ha : ∃ s1, alloc (mkBitmap 1 1) Sample.store0 = Ret (Some 0, s1)) by (eexists; vm_compute; reflexivity).
  destruct Ha as [s1 Ha]. exists s1.
  destruct (bitmap_alloc_then_dealloc (mkBitmap 1 1) Sample.store0 0 s1 Hr Ha) as (_ & _ & _ & s2 & E & _ & E2). by exists s2.
Defined.

Lemma inode_grows_and_clears_witness :
  ∃ di' (s' : Store MemDisk) ds1 ms1,
    increase_size 600 [20; 21] (inode_initialize File (inode_of (Sample.zeros 128))) Sample.store0 = Ret (di', s') ∧
    length ds1 = 2%nat ∧ ds1 ++ ms1 ≡ₚ [20; 21] ∧
    ∃ v s2, clear_size di' s' = Ret (v, inode_initialize File di', s2) ∧ v ≡ₚ [20; 21].
Proof.
  destruct Sample.store0_ok as (Hwf & Hh & Hz).
  destruct (inode_grows_and_clears 600 [20; 21] (inode_initialize File (inode_of (Sample.zeros 128))) [] [] Sample.store0 (Sample.zeros 128))
    as (di' & s' & ds1 & ms1 & E & Hsz & _ & _ & _ & _ & Hl & Hp & _ & _ & v & s2 & Ec & Hv & _).
  - apply inode_initialize_ok, inode_of_ok. done.
  - split; [|done..]. intros i x Hx _. cbn [direct inode_initialize] in Hx. rewrite list_lookup_fmap in Hx.
    by apply fmap_Some in Hx as (z & _ & ->).
  - done.
  - by apply rep_nil.
  - done.
  - done.
  - refine (bool_decide_unpack _ _). vm_compute. exact I.
  - intros b Hb. assert (b = 20 ∨ b = 21) by (cbn [app] in Hb; set_solver). split_and!; [done|lia|rewrite Hz; lia|by rewrite Hh|rewrite Hh, size_empty; lia].
  - repeat (constructor; [lia|]). constructor.
  - done.
  - done.
  - exists di', s', ds1, ms1. split_and!; [exact E| |exact Hp|by exists v, s2].
    unfold data_blocks in Hl. rewrite Hsz in Hl. apply Nat2Z.inj. exact Hl.
Defined.

Lemma directory_name_limit_witness :
  ∃ d, DirEntry_new (name_of "abcdefghijklmnopqrstuvwxyz12") 3 = Ret d ∧ dirent_name (dirent_of (as_bytes d)) = Panic.
Proof.
  destruct (directory_name_limit "abcdefghijklmnopqrstuvwxyz12" 3) as (d & E & _ & H).
  - refine (bool_decide_unpack _ _). vm_compute. exact I.
  - vm_compute. reflexivity.
  - lia.
  - vm_compute. lia.
  - exists d. split; [exact E|]. exact H.
Defined.
