(* ===== verification/Durable.v ===== *)
(** * Every completed operation is on the device

    [Inode::create], [write_at] and [clear], and [EasyFileSystem::create], end
    with [block_cache_sync_all]; the other operations modify nothing.  So
    between operations no entry of the block cache is dirty, and the device
    alone holds the file system: stopping the machine there loses nothing. *)

From stdpp Require Import functions gmap.
From S2P Require Import Prelude Utf8 Blocks BlockCache Words Bitmap Layout LayoutLemmas InodeMap InodeIO Efs Vfs FsInv FsOps FsFile FsDir FsCreate MemDisk FsSpec FsBoot FsThms.

Section Clean.
Context {D : Type} `{!BlockDevice D}.
Implicit Types s : Store D.

(** No entry of the cache is dirty. *)
Definition clean s : Prop := Forall (λ p, modified p.2 = false) (queue s).

(** A piece of code that modifies no block. *)
Definition keeps_clean {A} (f : Store D → outcome (A * Store D)) : Prop := ∀ s a s', clean s → f s = Ret (a, s') → clean s'.

Lemma sync_clean c d c' d' : sync c d = Ret (c', d') → modified c' = false.
Proof.
  unfold sync. destruct (modified c) eqn:Hm; [|by intros [= <- <-]].
  intros H. apply bind_Ret in H as (d1 & _ & H). by injection H as <- <-.
Qed.

Lemma acquire_clean s b blk s' : clean s → acquire b s = Ret (blk, s') → clean s'.
Proof.
  intros Hc H. cbn [acquire cache_store] in H. apply bind_Ret in H as (s1 & Hg & Hl).
  assert (Hc1 : clean s1).
  { unfold get_block_cache in Hg. destruct (assoc b (queue s)); [by injection Hg as <-|].
    apply bind_Ret in Hg as (s2 & Hs & Hg). apply bind_Ret in Hg as (c & Hn & Hg). injection Hg as <-.
    apply bind_Ret in Hn as (data & _ & Hn). injection Hn as <-. apply Forall_app. split; [|by repeat constructor].
    unfold substitute in Hs. destruct (_ =? _)%nat; [|by injection Hs as <-].
    destruct (list_find _ _) as [[i p]|]; [|done]. apply bind_Ret in Hs as (d & _ & Hs). injection Hs as <-. by apply Forall_delete. }
  unfold lock in Hl. apply bind_Ret in Hl as (c & _ & Hl). destruct (held c); [done|]. injection Hl as _ <-.
  by apply Forall_update; [intros ? _|].
Qed.

Lemma release_clean s b s' : clean s → release b None s = Ret s' → clean s'.
Proof. intros Hc [= <-]. by apply Forall_update; [intros ? _|]. Qed.

(** Whatever the cache held, it is clean after [block_cache_sync_all]. *)
Lemma sync_all_clean s s' : block_cache_sync_all s = Ret s' → clean s'.
Proof.
  unfold block_cache_sync_all. cbn [sync_all cache_store]. intros H. apply bind_Ret in H as ([q d] & H & [= <-]). unfold clean. cbn [queue].
  revert q d H. generalize (device s). induction (queue s) as [|[b c] q IH]; intros d0 q' d H; simpl in H; [injection H as <- <-; constructor|].
  destruct (held c); [done|]. apply bind_Ret in H as ([c1 d1] & Hc & H). apply bind_Ret in H as ([q1 d2] & Hq & H).
  injection H as <- <-. constructor; [by eapply sync_clean|by eapply IH].
Qed.

(** ** Code that only reads *)
Lemma read_clean {A} b off sz (f : Block → Store D → outcome (A * Store D)) :
  (∀ blk, keeps_clean (f blk)) → keeps_clean (read b off sz f).
Proof.
  intros Hf s a s' Hc H. unfold read in H. apply bind_Ret in H as ([blk s1] & Ha & H). apply bind_Ret in H as (u & _ & H).
  apply bind_Ret in H as ([a1 s2] & Hr & H). apply bind_Ret in H as (s3 & Hrel & H). injection H as _ <-.
  eapply release_clean; [|exact Hrel]. eapply Hf; [|exact Hr]. by eapply acquire_clean.
Qed.

Lemma keeps_clean_ret {A} (a : A) : keeps_clean (λ s, Ret (a, s)).
Proof. by intros s a' s' Hc [= _ <-]. Qed.

Lemma keeps_clean_bind {A B} (f : Store D → outcome (A * Store D)) (g : A → Store D → outcome (B * Store D)) :
  keeps_clean f → (∀ a, keeps_clean (g a)) → keeps_clean (λ s, '(a, s) ← f s; g a s).
Proof. intros Hf Hg s b s' Hc H. apply bind_Ret in H as ([a s1] & Ef & H). eapply Hg; [|exact H]. by eapply Hf. Qed.

(** A computation without the store, then the rest. *)
Lemma keeps_clean_pure {A B} (m : outcome A) (g : A → Store D → outcome (B * Store D)) :
  (∀ a, keeps_clean (g a)) → keeps_clean (λ s, a ← m; g a s).
Proof. intros Hg s b s' Hc H. apply bind_Ret in H as (a & _ & H). by eapply Hg. Qed.

Lemma get_block_id_clean i di : keeps_clean (get_block_id i di).
Proof.
  assert (He : ∀ b k, keeps_clean (read_entry b k)).
  { intros b k. apply read_clean. intros blk. apply keeps_clean_pure. intros e. apply keeps_clean_ret. }
  intros s a s' Hc H. unfold get_block_id in H. destruct (_ <? _).
  { apply bind_Ret in H as (v & _ & H). by injection H as _ <-. }
  destruct (_ <? _); [by eapply He|]. apply bind_Ret in H as ([b s1] & H1 & H). eapply He; [|exact H]. by eapply He.
Qed.

Lemma read_loop_clean fuel di : ∀ start end_ blk n buf s x s',
  clean s → read_loop fuel di start end_ blk n buf s = Ret (x, s') → clean s'.
Proof.
  induction fuel as [|fuel IH]; intros start end_ blk n buf s x s' Hc H; simpl in H; [done|].
  apply bind_Ret in H as ([id s1] & H1 & H). apply bind_Ret in H as ([src s2] & H2 & H).
  assert (Hc2 : clean s2).
  { eapply read_clean; [|by eapply get_block_id_clean|exact H2]. intros data. apply keeps_clean_pure. intros d. apply keeps_clean_ret. }
  destruct (_ =? _); [by injection H as _ <-|by eapply IH].
Qed.

Lemma read_at_clean off buf di s x s' : clean s → read_at off buf di s = Ret (x, s') → clean s'.
Proof. intros Hc H. unfold read_at in H. destruct (_ <=? _); [by injection H as _ <-|by eapply read_loop_clean]. Qed.

Lemma read_dirent_clean i d di : keeps_clean (read_dirent i d di).
Proof.
  intros s a s' Hc H. unfold read_dirent in H. apply bind_Ret in H as ([[n p] s1] & H1 & H). apply bind_Ret in H as (u & _ & H).
  injection H as _ <-. by eapply read_at_clean.
Qed.

Lemma find_loop_clean n name di : ∀ i d, keeps_clean (find_loop n i d name di).
Proof.
  induction n as [|n IH]; intros i d; cbn [find_loop]; [apply keeps_clean_ret|].
  apply keeps_clean_bind; [apply read_dirent_clean|]. intros e. apply keeps_clean_pure. intros nm.
  destruct (bool_decide _); [apply keeps_clean_ret|apply IH].
Qed.

Lemma find_inode_id_clean name di : keeps_clean (find_inode_id name di).
Proof. apply keeps_clean_pure. intros _. apply find_loop_clean. Qed.

Lemma ls_loop_clean n di : ∀ i v, keeps_clean (ls_loop n i v di).
Proof.
  induction n as [|n IH]; intros i v; cbn [ls_loop]; [apply keeps_clean_ret|].
  apply keeps_clean_bind; [apply read_dirent_clean|]. intros e. apply keeps_clean_pure. intros nm. apply IH.
Qed.

(** ** The operations *)
Lemma find_clean efs name ino : keeps_clean (find efs name ino).
Proof. apply read_clean. intros p. apply keeps_clean_bind; [apply find_inode_id_clean|]. intros r. apply keeps_clean_ret. Qed.

Lemma ls_clean ino : keeps_clean (ls ino).
Proof. apply read_clean. intros p. apply ls_loop_clean. Qed.

Lemma inode_read_clean off buf ino s x s' : clean s → inode_read_at off buf ino s = Ret (x, s') → clean s'.
Proof.
  intros Hc H. unfold inode_read_at in H. apply bind_Ret in H as ([[n b] s1] & H1 & H). injection H as _ <-.
  eapply read_clean; [|exact Hc|exact H1]. intros p s2 a s3 Hc2 H2. apply bind_Ret in H2 as ([[n' b'] s4] & H4 & H2).
  injection H2 as _ <-. by eapply read_at_clean.
Qed.

Lemma create_clean efs name ino : keeps_clean (create efs name ino).
Proof.
  intros s a s' Hc H. unfold create in H. apply bind_Ret in H as ([r s1] & H1 & H). destruct r as [id|].
  - injection H as _ <-. eapply read_clean; [|exact Hc|exact H1]. intros p. apply keeps_clean_pure. intros _. apply find_inode_id_clean.
  - apply bind_Ret in H as ([n s2] & _ & H). apply bind_Ret in H as ([u s3] & _ & H). apply bind_Ret in H as ([u' s4] & _ & H).
    apply bind_Ret in H as (s5 & H5 & H). injection H as _ <-. by eapply sync_all_clean.
Qed.

Lemma inode_write_clean efs off buf ino s n s' : inode_write_at efs off buf ino s = Ret (n, s') → clean s'.
Proof.
  intros H. unfold inode_write_at in H. apply bind_Ret in H as ([k s1] & _ & H). apply bind_Ret in H as (s2 & H2 & H).
  injection H as _ <-. by eapply sync_all_clean.
Qed.

Lemma inode_clear_clean efs ino s s' : inode_clear efs ino s = Ret s' → clean s'.
Proof. intros H. unfold inode_clear in H. apply bind_Ret in H as ([u s1] & _ & H). by eapply sync_all_clean. Qed.

Lemma efs_create_clean total ib s efs s' : efs_create total ib s = Ret (efs, s') → clean s'.
Proof.
  intros H. unfold efs_create in H. destruct (layout_of total ib) as [efs0 sb]. apply bind_Ret in H as (s1 & _ & H).
  apply bind_Ret in H as ([u s2] & _ & H). apply bind_Ret in H as ([n s3] & _ & H). apply bind_Ret in H as (u' & _ & H).
  destruct (get_disk_inode_pos _ _). apply bind_Ret in H as ([u'' s4] & _ & H). apply bind_Ret in H as (s5 & H5 & H).
  injection H as _ <-. by eapply sync_all_clean.
Qed.

Lemma efs_open_clean : keeps_clean efs_open.
Proof. apply read_clean. intros p. apply keeps_clean_pure. intros _. apply keeps_clean_ret. Qed.

Lemma new_clean (d : D) : clean (BlockCacheManager_new d).
Proof. constructor. Qed.

Lemma run_op_clean efs op : keeps_clean (run_op efs op).
Proof.
  intros s r s' Hc H. destruct op; cbn [run_op] in H.
  - apply bind_Ret in H as ([o s1] & H1 & [= _ <-]). by eapply find_clean.
  - apply bind_Ret in H as ([o s1] & H1 & [= _ <-]). by eapply create_clean.
  - apply bind_Ret in H as ([o s1] & H1 & [= _ <-]). by eapply ls_clean.
  - apply bind_Ret in H as ([[n b] s1] & H1 & [= _ <-]). by eapply inode_read_clean.
  - apply bind_Ret in H as ([n s1] & H1 & [= _ <-]). by eapply inode_write_clean.
  - apply bind_Ret in H as (s1 & H1 & [= _ <-]). by eapply inode_clear_clean.
Qed.

Lemma run_ops_clean efs ops : keeps_clean (run_ops efs ops).
Proof.
  induction ops as [|op ops IH]; cbn [run_ops]; [apply keeps_clean_ret|]. apply keeps_clean_bind; [apply run_op_clean|].
  intros r. apply keeps_clean_bind; [apply IH|]. intros rs. apply keeps_clean_ret.
Qed.

(** ** The device alone *)
Context `{!DeviceLaws D}.

Lemma clean_device s : cache_ok s → clean s → dev_block (device s) = cache_view s.
Proof.
  intros Hok Hc. apply FunctionalExtensionality.functional_extensionality. intros b. unfold cache_view, view_of.
  destruct (assoc b (queue s)) as [c|] eqn:Ha; [|done]. destruct (entry_of s b c Hok Ha) as (_ & _ & _ & He).
  symmetry. apply He. apply assoc_Some_in in Ha. unfold clean in Hc. rewrite Forall_forall in Hc. exact (Hc _ Ha).
Qed.

Lemma reopen_clean efs total s F :
  geometry efs total → disk_rep efs total s F → clean s →
  ∃ s', efs_open (BlockCacheManager_new (device s)) = Ret (efs, s') ∧ disk_rep efs total s' F ∧ clean s'.
Proof.
  intros G HD Hc. pose proof HD as [((Hwf & Hsz & Hh) & _) _ _ _ _].
  destruct (BlockCacheManager_new_ok (device s)) as (Hwf2 & Hh2 & Hv2).
  assert (HD2 : disk_rep efs total (BlockCacheManager_new (device s)) F).
  { eapply disk_rep_view; [exact HD|by rewrite Hv2, clean_device|]. split; [done|]. by split. }
  destruct (efs_open_ok efs total _ F G HD2) as (s2 & E2 & HD3). exists s2. split_and!; [done|done|].
  eapply efs_open_clean; [apply new_clean|exact E2].
Qed.
End Clean.

(** ** Power loss *)
Inductive fs_event : Type :=
  | Op (op : fs_op)
  | PowerLoss.

(** The cache is gone; [open] reads the device again. *)
Definition restart {D} `{!BlockDevice D} (s : Store D) : outcome (EasyFileSystem * Store D) :=
  efs_open (BlockCacheManager_new (device s)).

Fixpoint run_events {D} `{!BlockDevice D} (efs : EasyFileSystem) (evs : list fs_event) (s : Store D) : outcome (list fs_result * Store D) :=
  match evs with
  | [] => Ret ([], s)
  | Op op :: evs => '(r, s) ← run_op efs op s; '(rs, s) ← run_events efs evs s; Ret (r :: rs, s)
  | PowerLoss :: evs => '(efs, s) ← restart s; run_events efs evs s
  end.

(** The operations alone. *)
Definition ops_of (evs : list fs_event) : list fs_op := omap (λ e, match e with Op op => Some op | PowerLoss => None end) evs.

Section Events.
Context {D : Type} `{!BlockDevice D, !DeviceLaws D}.

Lemma run_events_ok efs total (G : geometry efs total) evs : ∀ (s : Store D) F rs F',
  disk_rep efs total s F → clean s → spec_ops efs total (ops_of evs) F = Some (rs, F') →
  ∃ s', run_events efs evs s = Ret (rs, s') ∧ disk_rep efs total s' F' ∧ clean s'.
Proof.
  induction evs as [|[op|] evs IH]; intros s F rs F' HD Hc H; cbn [run_events].
  - injection H as <- <-. by exists s.
  - change (ops_of (Op op :: evs)) with (op :: ops_of evs) in H. cbn [spec_ops] in H.
    destruct (spec_op efs total op F) as [[r F1]|] eqn:E1; [|done]. cbn [mbind option_bind] in H.
    destruct (spec_ops efs total (ops_of evs) F1) as [[rs1 F2]|] eqn:E2; [|done]. injection H as <- <-.
    destruct (run_op_ok efs total G op s F r F1 HD E1) as (s1 & Er & HD1). rewrite Er. cbn [mbind outcome_bind].
    destruct (IH s1 F1 rs1 F2 HD1 (run_op_clean _ _ _ _ _ Hc Er) E2) as (s2 & -> & HD2 & Hc2). by exists s2.
  - destruct (reopen_clean efs total s F G HD Hc) as (s1 & E1 & HD1 & Hc1). unfold restart. rewrite E1. cbn [mbind outcome_bind].
    by apply (IH s1 F).
Qed.

(** C23: Power loss between operations is invisible. On any device that
    stores blocks, a new file system behaves like the abstract disk through
    any sequence of find, create, ls, read, write and clear that the abstract
    disk offers, even when the machine loses power, and with it the block
    cache, any number of times between operations: [open] finds the same file
    system on the device, with every completed operation in it. *)
Theorem power_loss_between_operations_is_invisible (d : D) total ib evs rs F :
  size_ok total ib → total ≤ dev_size d →
  let efs := (layout_of total ib).1 in
  spec_ops efs total (ops_of evs) [] = Some (rs, F) →
  ∃ s1 s2, efs_create total ib (BlockCacheManager_new d) = Ret (efs, s1) ∧ run_events efs evs s1 = Ret (rs, s2).
Proof.
  intros Hsz Hd efs H. destruct (layout_ok total ib Hsz) as (G & _). fold efs in G.
  destruct (BlockCacheManager_new_ok d) as (Hwf & Hh & _).
  destruct (efs_create_ok total ib (BlockCacheManager_new d) Hsz Hwf Hh Hd) as (s1 & E1 & HD1). fold efs in E1, HD1.
  destruct (run_events_ok efs total G evs s1 [] rs F HD1 (efs_create_clean _ _ _ _ _ E1) H) as (s2 & E2 & _). by exists s1, s2.
Qed.
End Events.

(** ** Witness *)
Section DurableWitness.
Import FsThms.Sample.
Definition outages : list fs_event :=
  [Op (OpCreate "a"); PowerLoss; Op (OpCreate "b"); Op (OpWrite 0 0 text); PowerLoss; PowerLoss; Op (OpWrite 0 3 text); Op (OpRead 0 1 (zeros 4));
   Op (OpCreate "a"); Op (OpFind "b"); PowerLoss; Op OpLs].

Lemma power_loss_between_operations_is_invisible_witness :
  ∃ s1 s2, efs_create 1040 1 store0 = Ret (efs0, s1) ∧ run_events efs0 outages s1 = Ret (session_results, s2).
Proof.
  eapply (power_loss_between_operations_is_invisible disk0 1040 1 outages session_results); [apply size0|done|vm_compute; reflexivity].
Defined.
End DurableWitness.
