(* ===== verification/Proto.v ===== *)
(** * The tool-call wire protocol ([agent_proto/src/lib.rs])

    Data types shared by kernel and user space, the frame header, and the
    request/response framing around the [postcard] body.  [postcard] and
    [serde] are third-party crates: the body codec is the class
    [PostcardCodec], and what their documentation promises is
    [PostcardLaws]. *)

From S2P Require Import Prelude.

(** ** Constants *)
Definition PROTO_MAGIC : Z := 0xA9E47F00.
Definition PROTO_VERSION : Z := 0x0001.
Definition FRAME_HEADER_SIZE : nat := 6.

(** ** Data types *)
Inductive FrameError : Type :=
  | TooShort
  | BadMagic
  | UnsupportedVersion (v : Z).

Inductive ToolName : Type :=
  | TNSystemStatus | TNQueryProcess | TNReadContext | TNSendMessage | TNQueryFile.

Inductive ProcStatus : Type := PSRunning | PSReady | PSZombie | PSBlocked.

Inductive AgentTypeFilter : Type := FilterAny | FilterNormal | FilterAgent.

Inductive ContextTargetType : Type := CTProcess | CTFile | CTAgent.

Inductive ToolParams : Type :=
  | PSystemStatus
  | PQueryProcess (status : option ProcStatus) (ty : AgentTypeFilter)
  | PReadContext (target_type : ContextTargetType) (target_id : Z)
  | PSendMessage (target_pid : Z) (payload : list byte)
  | PQueryFile (tag owner keyword : option string) (use_index : bool).

Record ToolRequest : Type := mkToolRequest {
  req_id : Z;
  tool : ToolName;
  params : ToolParams;
}.

Inductive ToolStatus : Type :=
  | TSOk | TSToolNotFound | TSBadParams | TSPermissionDenied
  | TSQuotaExceeded | TSInternalError | TSNotImplemented.

Record ToolResponse : Type := mkToolResponse {
  resp_req_id : Z;
  resp_status : ToolStatus;
  result_offset : Z;
  result_len : Z;
}.

Record ProcessInfo : Type := mkProcessInfo {
  pi_pid : Z;
  pi_name : string;
  pi_status : ProcStatus;
  pi_is_agent : bool;
}.

Record FileInfo : Type := mkFileInfo {
  fi_inode_id : Z;
  fi_name : string;
  fi_size : Z;
  fi_tags : list string;
  fi_owner : option string;
  fi_digest_preview : string;
}.

Record SystemStatusInfo : Type := mkSystemStatusInfo {
  total_procs : Z;
  agent_procs : Z;
  running_procs : Z;
  memory_used_bytes : Z;
  uptime_ticks : Z;
}.

Record QueryResult (T : Type) : Type := mkQueryResult { items : list T }.
Arguments mkQueryResult {T} items.
Arguments items {T} q.

Record ToolDescriptor : Type := mkToolDescriptor {
  td_name : string;
  td_doc : string;
}.

#[global] Instance ProcStatus_eq_dec : EqDecision ProcStatus.
Proof. solve_decision. Defined.
#[global] Instance ToolName_eq_dec : EqDecision ToolName.
Proof. solve_decision. Defined.
#[global] Instance ContextTargetType_eq_dec : EqDecision ContextTargetType.
Proof. solve_decision. Defined.
#[global] Instance ToolStatus_eq_dec : EqDecision ToolStatus.
Proof. solve_decision. Defined.

(** [ToolName::ALL] and [ToolName::as_str]. *)
Definition ALL : list ToolName :=
  [TNSystemStatus; TNQueryProcess; TNReadContext; TNSendMessage; TNQueryFile].

Definition as_str (t : ToolName) : string :=
  match t with
  | TNSystemStatus => "system_status"
  | TNQueryProcess => "query_process"
  | TNReadContext => "read_context"
  | TNSendMessage => "send_message"
  | TNQueryFile => "query_file"
  end.

(** ** Frame header *)

(** [write_frame_header]: asserts the room, writes magic and version at the
    front of the buffer, returns the header length and the new buffer. *)
Definition write_frame_header (buf : list byte) : outcome (nat * list byte) :=
  _ ← rassert (FRAME_HEADER_SIZE <=? length buf)%nat;
  let buf := splice 0 (to_le_bytes 4 PROTO_MAGIC) buf in
  let buf := splice 4 (to_le_bytes 2 PROTO_VERSION) buf in
  Ret (FRAME_HEADER_SIZE, buf).

(** [check_frame_header]. *)
Definition check_frame_header (buf : list byte) : FrameError + nat :=
  if (length buf <? FRAME_HEADER_SIZE)%nat then inl TooShort else
  let magic := from_le_bytes (slice 0 4 buf) in
  if negb (magic =? PROTO_MAGIC) then inl BadMagic else
  let version := from_le_bytes (slice 4 2 buf) in
  if negb (version =? PROTO_VERSION) then inl (UnsupportedVersion version) else
  inr FRAME_HEADER_SIZE.

(** ** The third-party body codec *)

(** [to_slice v cap] is [postcard::to_slice] on a buffer of [cap] bytes: the
    bytes it wrote at its front, or its error.  [from_bytes] is
    [postcard::from_bytes]. *)
Class PostcardCodec (E T : Type) : Type := {
  to_slice : T → nat → E + list byte;
  from_bytes : list byte → E + T;
}.

(** Documented behaviour: what was serialised fits the buffer it was given,
    and is read back, whatever unused bytes follow it. *)
Class PostcardLaws (E T : Type) `{PostcardCodec E T} : Prop := {
  to_slice_fits v cap bs : to_slice v cap = inr bs → (length bs ≤ cap)%nat;
  from_to_slice v cap bs rest : to_slice v cap = inr bs → from_bytes (bs ++ rest) = inr v;
}.

Inductive DecodeError (E : Type) : Type :=
  | DEFrame (e : FrameError)
  | DEPostcard (e : E).
Arguments DEFrame {E} e.
Arguments DEPostcard {E} e.

Section Framing.
Context {E : Type} (SerializeBufferFull : E).
Context `{!PostcardCodec E ToolRequest, !PostcardCodec E ToolResponse}.

(** [encode_request]: number of bytes written and the buffer afterwards. *)
Definition encode_request (req : ToolRequest) (out : list byte)
    : outcome (E + (nat * list byte)) :=
  if (length out <? FRAME_HEADER_SIZE)%nat then Ret (inl SerializeBufferFull) else
  '(_, out) ← write_frame_header out;
  match to_slice req (length out - FRAME_HEADER_SIZE) with
  | inl e => Ret (inl e)
  | inr body =>
      Ret (inr ((FRAME_HEADER_SIZE + length body)%nat, splice FRAME_HEADER_SIZE body out))
  end.

(** [encode_response]. *)
Definition encode_response (resp : ToolResponse) (out : list byte)
    : outcome (E + (nat * list byte)) :=
  if (length out <? FRAME_HEADER_SIZE)%nat then Ret (inl SerializeBufferFull) else
  '(_, out) ← write_frame_header out;
  match to_slice resp (length out - FRAME_HEADER_SIZE) with
  | inl e => Ret (inl e)
  | inr body =>
      Ret (inr ((FRAME_HEADER_SIZE + length body)%nat, splice FRAME_HEADER_SIZE body out))
  end.

(** [decode_request]: the two [?] conversions go through [DecodeError]. *)
Definition decode_request (buf : list byte) : DecodeError E + ToolRequest :=
  match check_frame_header buf with
  | inl e => inl (DEFrame e)
  | inr body_off =>
      match from_bytes (drop body_off buf) with
      | inl e => inl (DEPostcard e)
      | inr req => inr req
      end
  end.

(** [decode_response]. *)
Definition decode_response (buf : list byte) : DecodeError E + ToolResponse :=
  match check_frame_header buf with
  | inl e => inl (DEFrame e)
  | inr body_off =>
      match from_bytes (drop body_off buf) with
      | inl e => inl (DEPostcard e)
      | inr resp => inr resp
      end
  end.
End Framing.

(** ** Properties of the frame header *)
Module Header.

Lemma write_frame_header_Ret buf :
  (FRAME_HEADER_SIZE ≤ length buf)%nat →
  write_frame_header buf =
    Ret (FRAME_HEADER_SIZE,
         to_le_bytes 4 PROTO_MAGIC ++ to_le_bytes 2 PROTO_VERSION ++ drop 6 buf).
Proof.
  intros H. unfold write_frame_header.
  rewrite (proj2 (Nat.leb_le _ _) H). cbn [rassert mbind outcome_bind].
  unfold FRAME_HEADER_SIZE in H.
  do 6 (destruct buf as [|? buf]; [simpl in H; lia|]). reflexivity.
Qed.

Lemma check_frame_header_prefix tl :
  check_frame_header (to_le_bytes 4 PROTO_MAGIC ++ to_le_bytes 2 PROTO_VERSION ++ tl)
  = inr FRAME_HEADER_SIZE.
Proof. reflexivity. Qed.

(** A header accepted by the check is exactly the six header bytes. *)
Lemma check_frame_header_inr buf off :
  check_frame_header buf = inr off →
  off = FRAME_HEADER_SIZE ∧
  buf = to_le_bytes 4 PROTO_MAGIC ++ to_le_bytes 2 PROTO_VERSION ++ drop 6 buf.
Proof.
  unfold check_frame_header. intros H.
  destruct (Nat.ltb_spec (length buf) FRAME_HEADER_SIZE) as [|Hlen]; [done|].
  destruct (from_le_bytes (slice 0 4 buf) =? PROTO_MAGIC) eqn:Hm; [|done].
  destruct (from_le_bytes (slice 4 2 buf) =? PROTO_VERSION) eqn:Hv; [|done].
  simpl in H. injection H as <-. split; [done|]. zify_bool.
  rewrite <-Hm, <-Hv. unfold FRAME_HEADER_SIZE in Hlen.
  rewrite !to_from_le_bytes by (rewrite length_slice; lia).
  unfold slice. rewrite drop_0, app_assoc.
  rewrite take_take_drop. simpl. by rewrite take_drop.
Qed.

End Header.

(** [check_frame_header] rejects a buffer shorter than the header, a wrong
    magic and a wrong version, in that order and with the version it read;
    it accepts exactly the buffers on which rewriting the header would change
    nothing. *)
Theorem check_frame_header_spec buf :
  match check_frame_header buf with
  | inl TooShort => (length buf < FRAME_HEADER_SIZE)%nat
  | inl BadMagic =>
      (FRAME_HEADER_SIZE ≤ length buf)%nat ∧ slice 0 4 buf ≠ to_le_bytes 4 PROTO_MAGIC
  | inl (UnsupportedVersion v) =>
      slice 0 4 buf = to_le_bytes 4 PROTO_MAGIC ∧
      slice 4 2 buf = to_le_bytes 2 v ∧ v ≠ PROTO_VERSION ∧ 0 ≤ v < 2 ^ 16
  | inr off =>
      off = FRAME_HEADER_SIZE ∧
      write_frame_header buf = Ret (FRAME_HEADER_SIZE, buf)
  end.
Proof.
  destruct (check_frame_header buf) as [e|off] eqn:E.
  - unfold check_frame_header in E.
    destruct (Nat.ltb_spec (length buf) FRAME_HEADER_SIZE) as [|Hlen]; [by injection E as <-|].
    unfold FRAME_HEADER_SIZE in *.
    assert (Hm4 : length (slice 0 4 buf) = 4%nat) by (apply length_slice; lia).
    assert (Hm2 : length (slice 4 2 buf) = 2%nat) by (apply length_slice; lia).
    destruct (from_le_bytes (slice 0 4 buf) =? PROTO_MAGIC) eqn:Hm; simpl in E; zify_bool.
    + destruct (from_le_bytes (slice 4 2 buf) =? PROTO_VERSION) eqn:Hv; simpl in E; [done|].
      injection E as <-. zify_bool.
      rewrite <-Hm, !to_from_le_bytes by done.
      pose proof (from_le_bytes_range (slice 4 2 buf)) as Hr. rewrite Hm2 in Hr.
      repeat split; [done|apply Hr|apply Hr].
    + injection E as <-. split; [done|]. intros Heq. apply Hm. rewrite Heq. reflexivity.
  - apply Header.check_frame_header_inr in E as [-> Heq]. split; [done|].
    rewrite Header.write_frame_header_Ret by (rewrite Heq; unfold FRAME_HEADER_SIZE; rewrite !length_app, !length_to_le_bytes; lia).
    by rewrite <-Heq.
Qed.

Section FramingProofs.
Context {E : Type} (SerializeBufferFull : E).
Context `{PostcardLaws E ToolRequest, PostcardLaws E ToolResponse}.

(** The frame written by either encoder: header, body, untouched tail. *)
Lemma frame_splice (out body : list byte) hdr :
  (FRAME_HEADER_SIZE ≤ length out)%nat →
  (length body ≤ length out - FRAME_HEADER_SIZE)%nat →
  length hdr = FRAME_HEADER_SIZE →
  splice FRAME_HEADER_SIZE body (hdr ++ drop 6 out) =
    hdr ++ body ++ drop (6 + length body) out.
Proof.
  intros Ho Hb Hh. unfold splice, FRAME_HEADER_SIZE in *.
  rewrite take_app_length' by done. f_equal. f_equal.
  rewrite drop_app_ge by lia. rewrite drop_drop. f_equal. lia.
Qed.

Lemma encode_request_frame req out n out' :
  encode_request SerializeBufferFull req out = Ret (inr (n, out')) →
  ∃ body, to_slice req (length out - 6) = inr body ∧
    (n = FRAME_HEADER_SIZE + length body)%nat ∧ (n ≤ length out)%nat ∧
    out' = to_le_bytes 4 PROTO_MAGIC ++ to_le_bytes 2 PROTO_VERSION ++ body ++ drop n out.
Proof.
  unfold encode_request. intros Henc.
  destruct (Nat.ltb_spec (length out) FRAME_HEADER_SIZE) as [|Hlen]; [done|].
  rewrite Header.write_frame_header_Ret in Henc by done. cbn [mbind outcome_bind] in Henc.
  set (hdr := to_le_bytes 4 PROTO_MAGIC ++ to_le_bytes 2 PROTO_VERSION) in *.
  rewrite (app_assoc (to_le_bytes 4 _)) in Henc. fold hdr in Henc.
  assert (Hhdr : length hdr = FRAME_HEADER_SIZE) by reflexivity.
  rewrite length_app, length_drop, Hhdr in Henc. unfold FRAME_HEADER_SIZE in *.
  replace (6 + (length out - 6) - 6)%nat with (length out - 6)%nat in Henc by lia.
  destruct (to_slice req _) as [e|body] eqn:Hs; [done|].
  pose proof (to_slice_fits _ _ _ Hs) as Hfit.
  injection Henc as <- <-. exists body. split_and!; [done|done|lia|].
  rewrite (app_assoc (to_le_bytes 4 _)). fold hdr.
  by apply (frame_splice out body hdr).
Qed.
End FramingProofs.

(** Decoding what was written, whatever follows it. *)
Lemma decode_request_frame {E} `{PostcardLaws E ToolRequest} req cap body rest :
  to_slice req cap = inr body →
  decode_request (to_le_bytes 4 PROTO_MAGIC ++ to_le_bytes 2 PROTO_VERSION ++ body ++ rest) = inr req.
Proof.
  intros Hs. unfold decode_request. rewrite Header.check_frame_header_prefix.
  change (drop _ _) with (body ++ rest). by rewrite (from_to_slice _ _ _ rest Hs).
Qed.

(** C39: a request encoded into a buffer stays within it, and decoding the
    written prefix (whatever follows it) gives the request back. *)
Theorem decode_encode_request {E} (full : E) `{PostcardLaws E ToolRequest}
    req out n out' rest :
  encode_request full req out = Ret (inr (n, out')) →
  length out' = length out ∧ (n ≤ length out)%nat ∧
  decode_request (take n out' ++ rest) = inr req.
Proof.
  intros Henc.
  destruct (encode_request_frame full req out n out' Henc) as (body & Hs & -> & Hn & ->).
  split; [|split; [done|]].
  - unfold FRAME_HEADER_SIZE in *. rewrite !length_app, length_drop, !length_to_le_bytes. lia.
  - set (tl := drop _ out).
    replace (take _ _) with (to_le_bytes 4 PROTO_MAGIC ++ to_le_bytes 2 PROTO_VERSION ++ body).
    + rewrite <-!app_assoc. by eapply decode_request_frame.
    + rewrite !(app_assoc _ _ tl), take_app_length'; [done|].
      rewrite !length_app, !length_to_le_bytes. done.
Qed.

(** A concrete codec for the witnesses: it serialises only the parameterless
    [system_status] request with a small id, as one byte. *)
Module OneByteCodec.
Definition to_slice1 (r : ToolRequest) (cap : nat) : unit + list byte :=
  match tool r, params r with
  | TNSystemStatus, PSystemStatus =>
      if (1 <=? cap)%nat && (0 <=? req_id r) && (req_id r <? 256)
      then inr [byte_of_Z (req_id r)] else inl tt
  | _, _ => inl tt
  end.

Definition from_bytes1 (bs : list byte) : unit + ToolRequest :=
  match bs with
  | b :: _ => inr (mkToolRequest (Z_of_byte b) TNSystemStatus PSystemStatus)
  | [] => inl tt
  end.

#[global] Instance codec : PostcardCodec unit ToolRequest :=
  {| to_slice := to_slice1; from_bytes := from_bytes1 |}.

Lemma to_slice1_inr r cap bs :
  to_slice1 r cap = inr bs →
  (1 ≤ cap)%nat ∧ bs = [byte_of_Z (req_id r)] ∧ 0 ≤ req_id r < 256 ∧
  r = mkToolRequest (req_id r) TNSystemStatus PSystemStatus.
Proof.
  unfold to_slice1. destruct r as [i t p]; cbn [tool params req_id].
  destruct t, p; try (intros; discriminate).
  destruct (Nat.leb_spec 1 cap); [|discriminate]; cbn [andb].
  destruct (Z.leb_spec 0 i); [|discriminate]; cbn [andb].
  destruct (Z.ltb_spec i 256); [|discriminate]. intros [= <-]. by split_and!.
Qed.

#[global] Instance laws : PostcardLaws unit ToolRequest.
Proof.
  constructor.
  - intros v cap bs (?&->&?)%to_slice1_inr. simpl. lia.
  - intros v cap bs rest (Hc&->&Hr&->)%to_slice1_inr. simpl.
    rewrite Z_of_byte_of_Z, Z.mod_small by done. done.
Qed.
End OneByteCodec.

Lemma decode_encode_request_witness :
  decode_request (E:=unit)
    (take 7 (to_le_bytes 4 PROTO_MAGIC ++ to_le_bytes 2 PROTO_VERSION ++ [x07; x00]) ++ [xff])
  = inr (mkToolRequest 7 TNSystemStatus PSystemStatus).
Proof.
  apply (decode_encode_request tt (mkToolRequest 7 TNSystemStatus PSystemStatus)
           (replicate 8 x00)).
  vm_compute. reflexivity.
Defined.
