(* ===== verification/FileAttr.v ===== *)
(** * The file-attribute store ([os/src/agent/file_attr.rs])

    A side table from file names to attributes, with two inverted indexes.
    [BTreeMap]s are finite maps; where the code iterates one, it does so in
    key order ([btree_iter], [btree_keys]). *)

From stdpp Require Import pretty.
From S2P Require Import Prelude.

(** ** Ordered maps *)

(** [String]'s byte-wise lexicographic order. *)
Definition str_le (a b : string) : Prop := String.compare a b ≠ Gt.
#[global] Instance str_le_dec a b : Decision (str_le a b).
Proof. unfold str_le. destruct (String.compare a b); [left|left|right]; congruence. Defined.

(** [BTreeMap::iter] and [BTreeMap::keys]. *)
Definition btree_iter {A} (m : gmap string A) : list (string * A) :=
  merge_sort (λ p q, str_le p.1 q.1) (map_to_list m).
Definition btree_keys {A} (m : gmap string A) : list string := (btree_iter m).*1.

(** ** State *)
Record FileAttrs : Type := mkFileAttrs {
  kv : gmap string string;
  tags : list string;
  digest : list byte;
}.

Definition FileAttrs_default : FileAttrs := mkFileAttrs ∅ [] [].

Record FileAttrStore : Type := mkFileAttrStore {
  by_name : gmap string FileAttrs;
  index_kv : gmap (string * string) (list string);
  index_tag : gmap string (list string);
}.

Definition new : FileAttrStore := mkFileAttrStore ∅ ∅ ∅.

(** [Vec::retain(|f| f != name)], and [if !v.any(== name) { v.push(name) }]. *)
Definition retain_ne (name : string) (v : list string) : list string :=
  filter (λ f, f ≠ name) v.
Definition push_new (name : string) (v : list string) : list string :=
  if bool_decide (name ∈ v) then v else v ++ [name].

(** [if let Some(v) = m.get_mut(key) { v.retain(..); if v.is_empty() { m.remove(key) } }] *)
Definition unindex `{Countable K} (key : K) (name : string) (m : gmap K (list string))
    : gmap K (list string) :=
  match m !! key with
  | None => m
  | Some v =>
      let v := retain_ne name v in
      if bool_decide (v = []) then delete key m else <[key := v]> m
  end.

(** ** Operations *)

Definition set_kv (name key value : string) (s : FileAttrStore) : FileAttrStore :=
  let attrs := default FileAttrs_default (by_name s !! name) in
  let old := kv attrs !! key in
  let attrs := mkFileAttrs (<[key := value]> (kv attrs)) (tags attrs) (digest attrs) in
  let ikv :=
    match old with
    | None => index_kv s
    | Some old =>
        match index_kv s !! (key, old) with
        | None => index_kv s
        | Some v => <[(key, old) := retain_ne name v]> (index_kv s)
        end
    end in
  let entry := default [] (ikv !! (key, value)) in
  mkFileAttrStore (<[name := attrs]> (by_name s))
    (<[(key, value) := push_new name entry]> ikv) (index_tag s).

Definition add_tag (name tag : string) (s : FileAttrStore) : FileAttrStore :=
  let attrs := default FileAttrs_default (by_name s !! name) in
  let attrs := mkFileAttrs (kv attrs) (push_new tag (tags attrs)) (digest attrs) in
  let entry := default [] (index_tag s !! tag) in
  mkFileAttrStore (<[name := attrs]> (by_name s)) (index_kv s)
    (<[tag := push_new name entry]> (index_tag s)).

Definition set_owner (name owner : string) (s : FileAttrStore) : FileAttrStore :=
  set_kv name "owner" owner s.

Definition set_digest (name : string) (d : list byte) (s : FileAttrStore) : FileAttrStore :=
  let attrs := default FileAttrs_default (by_name s !! name) in
  mkFileAttrStore (<[name := mkFileAttrs (kv attrs) (tags attrs) d]> (by_name s))
    (index_kv s) (index_tag s).

Definition remove_tag (name tag : string) (s : FileAttrStore) : bool * FileAttrStore :=
  let '(removed, bn) :=
    match by_name s !! name with
    | None => (false, by_name s)
    | Some attrs =>
        let before := length (tags attrs) in
        let ts := retain_ne tag (tags attrs) in
        (negb (length ts =? before)%nat,
         <[name := mkFileAttrs (kv attrs) ts (digest attrs)]> (by_name s))
    end in
  (removed, mkFileAttrStore bn (index_kv s) (unindex tag name (index_tag s))).

Definition remove_kv (name key : string) (s : FileAttrStore) : bool * FileAttrStore :=
  match by_name s !! name with
  | None => (false, s)
  | Some attrs =>
      let removed_value := kv attrs !! key in
      let bn := <[name := mkFileAttrs (delete key (kv attrs)) (tags attrs) (digest attrs)]>
                  (by_name s) in
      match removed_value with
      | Some old =>
          (true, mkFileAttrStore bn (unindex (key, old) name (index_kv s)) (index_tag s))
      | None => (false, mkFileAttrStore bn (index_kv s) (index_tag s))
      end
  end.

Definition remove_file (name : string) (s : FileAttrStore) : bool * FileAttrStore :=
  match by_name s !! name with
  | None => (false, s)
  | Some attrs =>
      let ikv := foldl (λ m p, unindex p name m) (index_kv s) (btree_iter (kv attrs)) in
      let itag := foldl (λ m t, unindex t name m) (index_tag s) (tags attrs) in
      (true, mkFileAttrStore (delete name (by_name s)) ikv itag)
  end.

(** [memmem]: [hay.windows(n).any(|w| w == needle)]. *)
Definition windows {A} (n : nat) (l : list A) : list (list A) :=
  (λ i, slice i n l) <$> seq 0 (S (length l) - n).

Definition memmem (hay needle : list byte) : bool :=
  if bool_decide (needle = []) then true
  else if (length hay <? length needle)%nat then false
  else existsb (λ w, bool_decide (w = needle)) (windows (length needle) hay).

Definition intersect (a : option (list string)) (b : list string) : list string :=
  match a with
  | None => b
  | Some prev => filter (λ x, x ∈ b) prev
  end.

(** [str::as_bytes]. *)
Definition as_bytes (s : string) : list byte := String.list_byte_of_string s.

(** The body of the keyword loop: the file exists and its digest contains [k]. *)
Definition digest_hit (s : FileAttrStore) (k n : string) : bool :=
  match by_name s !! n with
  | Some a => memmem (digest a) (as_bytes k)
  | None => false
  end.

Definition query_indexed (s : FileAttrStore) (tag owner keyword : option string)
    : list string :=
  let candidates : option (list string) := None in
  let candidates :=
    match tag with
    | None => candidates
    | Some t => Some (intersect candidates (default [] (index_tag s !! t)))
    end in
  let candidates :=
    match owner with
    | None => candidates
    | Some o => Some (intersect candidates (default [] (index_kv s !! ("owner", o))))
    end in
  let candidates :=
    match keyword with
    | None => candidates
    | Some k =>
        let names := match candidates with Some c => c | None => btree_keys (by_name s) end in
        Some (filter (λ n, digest_hit s k n = true) names)
    end in
  default [] candidates.

(** The filter of [query_full_scan]'s loop body. *)
Definition scan_match (tag owner keyword : option string) (a : FileAttrs) : bool :=
  (match tag with None => true | Some t => bool_decide (t ∈ tags a) end) &&
  (match owner with None => true | Some o => bool_decide (kv a !! "owner" = Some o) end) &&
  (match keyword with None => true | Some k => memmem (digest a) (as_bytes k) end).

Definition query_full_scan (s : FileAttrStore) (tag owner keyword : option string)
    : list string :=
  (filter (λ p, scan_match tag owner keyword p.2 = true) (btree_iter (by_name s))).*1.

Definition get (s : FileAttrStore) (name : string) : option FileAttrs := by_name s !! name.

(** ** Boot-time contents *)
Definition bytes_of (s : string) : list byte := as_bytes s.

Definition init_demo_attrs (s : FileAttrStore) : FileAttrStore :=
  let s := add_tag "agent_demo_create" "demo" s in
  let s := add_tag "agent_demo_create" "task-1" s in
  let s := set_owner "agent_demo_create" "Agent-A" s in
  let s := set_digest "agent_demo_create" (bytes_of "demonstrates agent process creation") s in
  let s := add_tag "agent_demo_tool" "demo" s in
  let s := add_tag "agent_demo_tool" "task-2" s in
  let s := set_owner "agent_demo_tool" "Agent-A" s in
  let s := set_digest "agent_demo_tool" (bytes_of "shows structured tool calling protocol") s in
  let s := add_tag "agent_demo_path" "demo" s in
  let s := add_tag "agent_demo_path" "task-3" s in
  let s := set_owner "agent_demo_path" "Agent-B" s in
  let s := set_digest "agent_demo_path" (bytes_of "context path push/query/rollback") s in
  let s := add_tag "agent_demo_file" "demo" s in
  let s := add_tag "agent_demo_file" "task-4" s in
  let s := set_owner "agent_demo_file" "Agent-B" s in
  let s := set_digest "agent_demo_file" (bytes_of "queries files by tag and content keyword") s in
  let s := add_tag "user_shell" "system" s in
  let s := set_owner "user_shell" "Kernel" s in
  set_digest "user_shell" (bytes_of "interactive shell entry") s.

(** ** The in-kernel benchmark *)
Definition CLOCK_FREQ : Z := 12500000.

Definition bench_name (i : nat) : string := "bench_file_" +:+ pretty i.
Definition bench_hits (n : nat) : nat := if (8 <=? n)%nat then 4 else Nat.min n 1.

(** Attributes of the [i]-th file. *)
Definition bench_attrs (hits i : nat) : FileAttrs :=
  if (i <? hits)%nat
  then mkFileAttrs {["owner" := "Agent-Hit"]} ["needle"] []
  else mkFileAttrs {["owner" := "Agent-Bg"]} ["bg"] [].

(** The local store [run_benchmark] builds, bypassing [add_tag]/[set_owner]. *)
Definition bench_store (n : nat) : FileAttrStore :=
  let hits := bench_hits n in
  let names := bench_name <$> seq 0 n in
  let needle_names := take hits names in
  let bg_names := drop hits names in
  mkFileAttrStore
    (foldl (λ m i, <[bench_name i := bench_attrs hits i]> m) ∅ (seq 0 n))
    (<[("owner", "Agent-Hit") := needle_names]> {[("owner", "Agent-Bg") := bg_names]})
    (<["needle" := needle_names]> {["bg" := bg_names]}).

(** [run_benchmark]: the accumulated result count (kept alive by [black_box])
    and the elapsed nanoseconds between the two clock readings. *)
Definition run_benchmark (n iters : nat) (use_index : bool) (start finish : Z) : Z * Z :=
  let s := bench_store n in
  let query :=
    if use_index then query_indexed s (Some "needle") (Some "Agent-Hit") None
    else query_full_scan s (Some "needle") (Some "Agent-Hit") None in
  let acc := Nat.iter iters (λ acc, usize (acc + Z.of_nat (length query))) 0 in
  let elapsed_ticks := usize (finish - start) in
  (acc, usize (elapsed_ticks * 1000000000) / CLOCK_FREQ).

(** ** The index invariant *)

(** What an index lists under a key, and what a file carries. *)
Definition idx `{Countable K} (m : gmap K (list string)) (k : K) : list string :=
  default [] (m !! k).
Definition tags_of (s : FileAttrStore) (n : string) : list string :=
  default [] (tags <$> by_name s !! n).
Definition kv_of (s : FileAttrStore) (n : string) : gmap string string :=
  default ∅ (kv <$> by_name s !! n).

Record index_inv (s : FileAttrStore) : Prop := {
  inv_tag t n : n ∈ idx (index_tag s) t ↔ t ∈ tags_of s n;
  inv_kv k v n : n ∈ idx (index_kv s) (k, v) ↔ kv_of s n !! k = Some v;
  inv_nodup_tag t : NoDup (idx (index_tag s) t);
  inv_nodup_kv kv : NoDup (idx (index_kv s) kv);
}.

(** One call on the store. *)
Inductive attr_step : FileAttrStore → FileAttrStore → Prop :=
  | step_set_kv s n k v : attr_step s (set_kv n k v s)
  | step_add_tag s n t : attr_step s (add_tag n t s)
  | step_set_owner s n o : attr_step s (set_owner n o s)
  | step_set_digest s n d : attr_step s (set_digest n d s)
  | step_remove_tag s n t : attr_step s (remove_tag n t s).2
  | step_remove_kv s n k : attr_step s (remove_kv n k s).2
  | step_remove_file s n : attr_step s (remove_file n s).2.

(** ** Library: index lists *)
Section Index.
Implicit Types (v : list string) (n x : string).

Lemma elem_of_retain_ne x n v : x ∈ retain_ne n v ↔ x ≠ n ∧ x ∈ v.
Proof. unfold retain_ne. by rewrite list_elem_of_filter. Qed.

Lemma elem_of_push_new x n v : x ∈ push_new n v ↔ x = n ∨ x ∈ v.
Proof. unfold push_new. case_bool_decide; set_solver. Qed.

Lemma NoDup_retain_ne n v : NoDup v → NoDup (retain_ne n v).
Proof. apply NoDup_filter. Qed.

Lemma NoDup_push_new n v : NoDup v → NoDup (push_new n v).
Proof.
  unfold push_new. case_bool_decide; [done|]. intros. apply NoDup_app.
  split_and!; [done|set_solver|apply NoDup_singleton].
Qed.

Lemma retain_ne_idem n v : retain_ne n (retain_ne n v) = retain_ne n v.
Proof. unfold retain_ne. apply list_filter_filter_l. done. Qed.

Context `{Countable K}.
Implicit Types (m : gmap K (list string)) (k : K).

Lemma idx_insert m k k' v : idx (<[k := v]> m) k' = if decide (k = k') then v else idx m k'.
Proof. unfold idx. rewrite lookup_insert. by case_decide. Qed.

Lemma idx_unindex m k n k' :
  idx (unindex k n m) k' = if decide (k = k') then retain_ne n (idx m k') else idx m k'.
Proof.
  unfold unindex. destruct (m !! k) as [v|] eqn:E.
  - case_bool_decide as Hv.
    + unfold idx. rewrite lookup_delete. case_decide as Hk; [|done].
      subst. by rewrite E.
    + rewrite idx_insert. case_decide as Hk; [|done]. subst. unfold idx. by rewrite E.
  - case_decide as Hk; [|done]. subst. unfold idx. by rewrite E.
Qed.

Lemma idx_unindex_all m ks n k :
  idx (foldl (λ m k, unindex k n m) m ks) k =
    if decide (k ∈ ks) then retain_ne n (idx m k) else idx m k.
Proof.
  revert m. induction ks as [|k' ks IH]; intros m; simpl.
  - done.
  - rewrite IH, idx_unindex. destruct (decide (k' = k)) as [->|];
      destruct (decide (k ∈ ks)); rewrite ?retain_ne_idem;
      first [rewrite decide_True by set_solver | rewrite decide_False by set_solver]; done.
Qed.
End Index.

Create HintDb attr.
#[export] Hint Rewrite @elem_of_retain_ne @elem_of_push_new : attr.
#[export] Hint Resolve NoDup_retain_ne NoDup_push_new : attr.

Lemma tags_of_insert s n a i1 i2 x :
  tags_of (mkFileAttrStore (<[n := a]> (by_name s)) i1 i2) x =
    if decide (n = x) then tags a else tags_of s x.
Proof. unfold tags_of. simpl. rewrite lookup_insert. by case_decide. Qed.

Lemma kv_of_insert s n a i1 i2 x :
  kv_of (mkFileAttrStore (<[n := a]> (by_name s)) i1 i2) x =
    if decide (n = x) then kv a else kv_of s x.
Proof. unfold kv_of. simpl. rewrite lookup_insert. by case_decide. Qed.

Lemma kv_default s n : kv (default FileAttrs_default (by_name s !! n)) = kv_of s n.
Proof. unfold kv_of. by destruct (by_name s !! n). Qed.
Lemma tags_default s n : tags (default FileAttrs_default (by_name s !! n)) = tags_of s n.
Proof. unfold tags_of. by destruct (by_name s !! n). Qed.

(** Case analysis on every [decide] and membership of an invariant goal. *)
Ltac attr_solve :=
  repeat case_decide; simplify_eq; autorewrite with attr; try done; try naive_solver;
  eauto with attr.

(** The two halves of the invariant, over a store with a given [by_name]. *)
Section Preservation.
Implicit Types (s : FileAttrStore) (n t k v : string).

Lemma index_inv_new : index_inv new.
Proof.
  split; intros; unfold idx, tags_of, kv_of; simpl; rewrite ?lookup_empty; simpl;
    [| |apply NoDup_nil_2|apply NoDup_nil_2]; split; intros Hx; set_solver.
Qed.

Lemma index_inv_set_kv s n k v : index_inv s → index_inv (set_kv n k v s).
Proof.
  intros [Ht Hk Hnt Hnk]. unfold set_kv. rewrite !kv_default, !tags_default.
  set (ikv := match kv_of s n !! k with None => _ | _ => _ end).
  assert (Hikv : ∀ key, idx ikv key =
    match kv_of s n !! k with
    | Some old => if decide ((k, old) = key) then retain_ne n (idx (index_kv s) key)
                  else idx (index_kv s) key
    | None => idx (index_kv s) key end).
  { intros key. unfold ikv. destruct (kv_of s n !! k) as [old|]; [|done].
    unfold idx at 1. destruct (index_kv s !! (k, old)) as [l|] eqn:El.
    - rewrite lookup_insert. case_decide; [subst; unfold idx; by rewrite El | done].
    - case_decide; [subst; unfold idx; by rewrite El | done]. }
  clearbody ikv. split; simpl.
  - intros t x. rewrite Ht, tags_of_insert. simpl. case_decide; by subst.
  - intros k' v' x. rewrite idx_insert, kv_of_insert. simpl. fold (idx ikv (k, v)).
    destruct (decide (n = x)) as [->|Hne].
    + rewrite lookup_insert.
      destruct (decide ((k, v) = (k', v'))) as [[= <- <-]|Hkv].
      * rewrite decide_True by done. rewrite elem_of_push_new. naive_solver.
      * rewrite Hikv. destruct (decide (k = k')) as [->|].
        -- split; [|congruence]. intros Hx. exfalso.
           destruct (kv_of s x !! k') as [old|] eqn:Eo.
           ++ case_decide as Ho; [rewrite elem_of_retain_ne in Hx; naive_solver|].
              apply Hk in Hx. rewrite Eo in Hx. congruence.
           ++ apply Hk in Hx. congruence.
        -- destruct (kv_of s x !! k) as [old|]; [rewrite decide_False by congruence|]; apply Hk.
    + assert (Hx : ∀ key, x ∈ idx ikv key ↔ x ∈ idx (index_kv s) key).
      { intros key. rewrite Hikv. destruct (kv_of s n !! k); [|done].
        case_decide; [|done]. rewrite elem_of_retain_ne. naive_solver. }
      destruct (decide ((k, v) = (k', v'))) as [[= <- <-]|]; rewrite ?elem_of_push_new, Hx, Hk;
        naive_solver.
  - done.
  - intros key. rewrite idx_insert. fold (idx ikv (k, v)).
    assert (Hnd : ∀ key, NoDup (idx ikv key)).
    { intros key'. rewrite Hikv. destruct (kv_of s n !! k); [case_decide|]; auto with attr. }
    case_decide; auto with attr.
Qed.

Lemma index_inv_add_tag s n t : index_inv s → index_inv (add_tag n t s).
Proof.
  intros [Ht Hk Hnt Hnk]. unfold add_tag. rewrite kv_default, tags_default.
  split; simpl.
  - intros t' x. rewrite idx_insert, tags_of_insert. simpl. fold (idx (index_tag s) t).
    destruct (decide (t = t')) as [->|]; destruct (decide (n = x)) as [->|];
      rewrite ?elem_of_push_new, Ht; naive_solver.
  - intros k' v' x. rewrite Hk, kv_of_insert. simpl. case_decide; by subst.
  - intros t'. rewrite idx_insert. fold (idx (index_tag s) t). case_decide; auto with attr.
  - done.
Qed.

Lemma index_inv_set_digest s n d : index_inv s → index_inv (set_digest n d s).
Proof.
  intros [Ht Hk Hnt Hnk]. unfold set_digest. rewrite kv_default, tags_default.
  split; simpl; [|  |done|done].
  - intros t' x. rewrite Ht, tags_of_insert. simpl. case_decide; by subst.
  - intros k' v' x. rewrite Hk, kv_of_insert. simpl. case_decide; by subst.
Qed.

(** [remove_tag] as one update of the tag list. *)
Lemma tags_of_remove_tag s n t x :
  tags_of (remove_tag n t s).2 x = if decide (n = x) then retain_ne t (tags_of s x) else tags_of s x.
Proof.
  unfold remove_tag. destruct (by_name s !! n) as [a|] eqn:E; simpl.
  - rewrite tags_of_insert. simpl. case_decide; [|done]. subst. unfold tags_of. by rewrite E.
  - case_decide; [|done]. subst. unfold tags_of. simpl. by rewrite E.
Qed.

Lemma kv_of_remove_tag s n t x : kv_of (remove_tag n t s).2 x = kv_of s x.
Proof.
  unfold remove_tag. destruct (by_name s !! n) as [a|] eqn:E; simpl; [|done].
  rewrite kv_of_insert. simpl. case_decide; [|done]. subst. unfold kv_of. by rewrite E.
Qed.

Lemma index_inv_remove_tag s n t : index_inv s → index_inv (remove_tag n t s).2.
Proof.
  intros [Ht Hk Hnt Hnk]. split.
  - intros t' x. rewrite tags_of_remove_tag.
    replace (index_tag (remove_tag n t s).2) with (unindex t n (index_tag s))
      by (unfold remove_tag; by destruct (by_name s !! n)).
    rewrite idx_unindex. destruct (decide (t = t')) as [->|]; destruct (decide (n = x)) as [->|];
      rewrite ?elem_of_retain_ne, Ht; naive_solver.
  - intros k v x. rewrite kv_of_remove_tag, <-Hk.
    unfold remove_tag. by destruct (by_name s !! n).
  - intros t'. replace (index_tag (remove_tag n t s).2) with (unindex t n (index_tag s))
      by (unfold remove_tag; by destruct (by_name s !! n)).
    rewrite idx_unindex. case_decide; auto with attr.
  - intros key. unfold remove_tag. by destruct (by_name s !! n).
Qed.

Lemma index_inv_remove_kv s n k : index_inv s → index_inv (remove_kv n k s).2.
Proof.
  intros [Ht Hk Hnt Hnk]. unfold remove_kv.
  destruct (by_name s !! n) as [a|] eqn:E; [|by split].
  assert (Ea : kv_of s n = kv a) by (unfold kv_of; by rewrite E).
  assert (Et : tags_of s n = tags a) by (unfold tags_of; by rewrite E).
  destruct (kv a !! k) as [old|] eqn:Eo; simpl; split; simpl; try done.
  - intros t x. rewrite Ht, tags_of_insert. simpl. case_decide; [subst; by rewrite Et|done].
  - intros k' v' x. rewrite idx_unindex, kv_of_insert. simpl.
    destruct (decide (n = x)) as [->|Hne].
    + destruct (decide (k = k')) as [->|Hkk].
      * rewrite lookup_delete_eq. case_decide; rewrite ?elem_of_retain_ne, Hk, Ea; naive_solver.
      * rewrite decide_False by congruence. by rewrite lookup_delete_ne, Hk, Ea.
    + case_decide; rewrite ?elem_of_retain_ne, Hk; naive_solver.
  - intros key. rewrite idx_unindex. case_decide; auto with attr.
  - intros t x. rewrite Ht, tags_of_insert. simpl. case_decide; [subst; by rewrite Et|done].
  - intros k' v' x. rewrite Hk, kv_of_insert. simpl. case_decide; [|done]. subst.
    rewrite Ea, lookup_delete. case_decide; [|done]. naive_solver.
Qed.

Lemma btree_iter_perm {A} (m : gmap string A) : btree_iter m ≡ₚ map_to_list m.
Proof. apply merge_sort_Permutation. Qed.

Lemma elem_of_btree_iter {A} (m : gmap string A) k (a : A) :
  (k, a) ∈ btree_iter m ↔ m !! k = Some a.
Proof. by rewrite btree_iter_perm, elem_of_map_to_list. Qed.

Lemma index_inv_remove_file s n : index_inv s → index_inv (remove_file n s).2.
Proof.
  intros [Ht Hk Hnt Hnk]. unfold remove_file.
  destruct (by_name s !! n) as [a|] eqn:E; [|by split].
  assert (Ea : kv_of s n = kv a) by (unfold kv_of; by rewrite E).
  assert (Et : tags_of s n = tags a) by (unfold tags_of; by rewrite E).
  simpl. set (s' := mkFileAttrStore _ _ _).
  assert (Ht' : ∀ x, tags_of s' x = if decide (n = x) then [] else tags_of s x).
  { intros x. unfold tags_of. simpl. rewrite lookup_delete. by case_decide. }
  assert (Hk' : ∀ x, kv_of s' x = if decide (n = x) then ∅ else kv_of s x).
  { intros x. unfold kv_of. simpl. rewrite lookup_delete. by case_decide. }
  split.
  - intros t x. rewrite Ht'. simpl. rewrite idx_unindex_all.
    destruct (decide (n = x)) as [<-|Hne].
    + rewrite elem_of_nil. case_decide; rewrite ?elem_of_retain_ne, Ht, ?Et; tauto.
    + case_decide; rewrite ?elem_of_retain_ne, Ht; intuition congruence.
  - intros k v x. rewrite Hk'. simpl. rewrite idx_unindex_all.
    destruct (decide (n = x)) as [<-|Hne].
    + rewrite lookup_empty. case_decide as Hin; rewrite elem_of_btree_iter in Hin;
        rewrite ?elem_of_retain_ne, Hk, ?Ea; intuition congruence.
    + case_decide; rewrite ?elem_of_retain_ne, Hk; intuition congruence.
  - intros t. simpl. rewrite idx_unindex_all. case_decide; auto with attr.
  - intros key. simpl. rewrite idx_unindex_all. case_decide; auto with attr.
Qed.
End Preservation.

#[export] Hint Resolve index_inv_set_kv index_inv_add_tag index_inv_set_digest
  index_inv_remove_tag index_inv_remove_kv index_inv_remove_file : attr.

(** C38: the invariant tying both inverted indexes to the files' tags and
    key/value attributes (each index lists exactly the files that carry the
    entry, without duplicates) holds in every store reachable from the empty
    one by any sequence of calls. *)
Theorem attr_reachable_inv s : rtc attr_step new s → index_inv s.
Proof.
  intros Hr. remember new as s0 eqn:H0. assert (index_inv s0) as Hinv.
  { rewrite H0. apply index_inv_new. }
  clear H0. induction Hr as [|s1 s2 s3 Hstep _ IH]; [done|]. apply IH.
  destruct Hstep; unfold set_owner; auto with attr.
Qed.

(** ** Queries *)
Section Queries.
Implicit Types (s : FileAttrStore) (n : string) (t o k : option string).

Lemma NoDup_btree_keys {A} (m : gmap string A) : NoDup (btree_keys m).
Proof.
  unfold btree_keys. rewrite (fmap_Permutation fst _ _ (btree_iter_perm m)).
  apply NoDup_fst_map_to_list.
Qed.

Lemma elem_of_btree_keys {A} (m : gmap string A) n : n ∈ btree_keys m ↔ is_Some (m !! n).
Proof.
  unfold btree_keys. rewrite list_elem_of_fmap. split.
  - intros ([n' a] & -> & Hin). apply elem_of_btree_iter in Hin. eauto.
  - intros [a Ha]. exists (n, a). by rewrite elem_of_btree_iter.
Qed.

Lemma elem_of_query_full_scan s t o k n :
  n ∈ query_full_scan s t o k ↔
  ∃ a, by_name s !! n = Some a ∧ scan_match t o k a = true.
Proof.
  unfold query_full_scan. rewrite list_elem_of_fmap. split.
  - intros ([n' a] & -> & Hin). apply list_elem_of_filter in Hin as [Hm Hin].
    apply elem_of_btree_iter in Hin. eauto.
  - intros (a & Ha & Hm). exists (n, a). split; [done|].
    apply list_elem_of_filter. by rewrite elem_of_btree_iter.
Qed.

Lemma NoDup_query_full_scan s t o k : NoDup (query_full_scan s t o k).
Proof.
  unfold query_full_scan. eapply sublist_NoDup; [apply (NoDup_btree_keys (by_name s))|].
  apply sublist_fmap. apply sublist_filter.
Qed.

(** One stage of [query_indexed]: the candidates kept so far are exactly the
    files that satisfy [P]. *)
Definition stage (c : option (list string)) (P : string → Prop) : Prop :=
  match c with
  | None => True
  | Some l => NoDup l ∧ ∀ n, n ∈ l ↔ P n
  end.

Lemma intersect_stage c P (l : list string) (Q : string → Prop) :
  stage c P → NoDup l → (∀ n, n ∈ l ↔ Q n) →
  stage (Some (intersect c l)) (λ n, (c = None ∨ P n) ∧ Q n).
Proof.
  intros Hc Hl HQ. unfold intersect. destruct c as [prev|]; simpl in *.
  - destruct Hc as [Hnd Hp]. split; [by apply NoDup_filter|].
    intros n. rewrite list_elem_of_filter, HQ, Hp. naive_solver.
  - split; [done|]. naive_solver.
Qed.

Lemma tags_of_spec s n (t : string) : t ∈ tags_of s n ↔ ∃ a, by_name s !! n = Some a ∧ t ∈ tags a.
Proof. unfold tags_of. destruct (by_name s !! n); simpl; set_solver. Qed.

Lemma kv_of_spec s n (k v : string) :
  kv_of s n !! k = Some v ↔ ∃ a, by_name s !! n = Some a ∧ kv a !! k = Some v.
Proof. unfold kv_of. destruct (by_name s !! n); simpl; [naive_solver|]. rewrite lookup_empty. naive_solver. Qed.

Lemma digest_hit_spec s (k : string) n :
  digest_hit s k n = true ↔
  ∃ a, by_name s !! n = Some a ∧ memmem (digest a) (as_bytes k) = true.
Proof. unfold digest_hit. destruct (by_name s !! n); naive_solver. Qed.

Lemma scan_match_spec t o k a :
  scan_match t o k a = true ↔
  (∀ x, t = Some x → x ∈ tags a) ∧ (∀ x, o = Some x → kv a !! "owner" = Some x) ∧
  (∀ x, k = Some x → memmem (digest a) (as_bytes x) = true).
Proof.
  unfold scan_match. rewrite !andb_true_iff.
  destruct t, o, k; rewrite ?bool_decide_eq_true; naive_solver.
Qed.

(** A scan hit, filter by filter. *)
Lemma elem_of_scan_by_parts s t o k n :
  n ∈ query_full_scan s t o k ↔ is_Some (by_name s !! n) ∧
    (∀ x, t = Some x → x ∈ tags_of s n) ∧ (∀ x, o = Some x → kv_of s n !! "owner" = Some x) ∧
    (∀ x, k = Some x → digest_hit s x n = true).
Proof.
  rewrite elem_of_query_full_scan. setoid_rewrite scan_match_spec.
  setoid_rewrite tags_of_spec. setoid_rewrite kv_of_spec. setoid_rewrite digest_hit_spec.
  split; [|intros ([a Ha] & ?)]; naive_solver.
Qed.

Lemma query_indexed_stage s t o k :
  index_inv s → t ≠ None ∨ o ≠ None ∨ k ≠ None →
  stage (Some (query_indexed s t o k)) (λ n, n ∈ query_full_scan s t o k).
Proof.
  intros [Ht Hk Hnt Hnk] Hsome. unfold query_indexed.
  set (c1 := match t with None => None | _ => _ end).
  assert (H1 : stage c1 (λ n, ∀ x, t = Some x → x ∈ tags_of s n) ∧ (c1 = None ↔ t = None)).
  { unfold c1. destruct t as [x|]; simpl; [|done]. split; [split; [apply Hnt|]|done].
    intros n. specialize (Ht x n). unfold idx in Ht. naive_solver. }
  clearbody c1. destruct H1 as [H1 Hc1].
  set (c2 := match o with None => c1 | _ => _ end).
  assert (H2 : stage c2 (λ n, (∀ x, t = Some x → x ∈ tags_of s n) ∧
      (∀ x, o = Some x → kv_of s n !! "owner" = Some x)) ∧ (c2 = None ↔ t = None ∧ o = None)).
  { unfold c2. destruct o as [x|].
    - split; [|naive_solver].
      destruct (intersect_stage c1 _ (idx (index_kv s) ("owner", x)) _ H1 (Hnk _) (Hk "owner" x))
        as [Hnd Hin].
      split; [done|]. intros n. rewrite Hin. destruct c1; naive_solver.
    - split; [|naive_solver]. destruct c1; simpl in *; [|done]. naive_solver. }
  clearbody c2. destruct H2 as [H2 Hc2].
  pose proof (elem_of_scan_by_parts s t o k) as Hscan.
  destruct k as [x|]; simpl.
  - split.
    + apply NoDup_filter. destruct c2; [apply H2|apply NoDup_btree_keys].
    + intros n. rewrite Hscan, list_elem_of_filter.
      assert (Hds : digest_hit s x n = true → is_Some (by_name s !! n))
        by (rewrite digest_hit_spec; naive_solver).
      destruct c2 as [l|]; simpl.
      * destruct H2 as [_ ->]. naive_solver.
      * rewrite elem_of_btree_keys. naive_solver.
  - destruct c2 as [l|]; [|naive_solver]. simpl. destruct H2 as [Hnd Hin]. split; [done|].
    intros n. rewrite Hscan, Hin. split; [|naive_solver]. intros [Ha Hb].
    split; [|naive_solver].
    destruct t as [x|]; [specialize (Ha x eq_refl); apply tags_of_spec in Ha; naive_solver|].
    destruct o as [x|]; [specialize (Hb x eq_refl); apply kv_of_spec in Hb; naive_solver|].
    naive_solver.
Qed.
End Queries.

(** C37: on a consistent store the index query returns, up to order, exactly
    the files the exhaustive scan returns, as soon as one filter is given;
    with no filter at all the two paths differ: the index path answers with
    nothing, the scan with every file. *)
Theorem query_indexed_full_scan s t o k :
  index_inv s →
  if bool_decide (t = None ∧ o = None ∧ k = None)
  then query_indexed s t o k = [] ∧ query_full_scan s t o k ≡ₚ btree_keys (by_name s)
  else query_indexed s t o k ≡ₚ query_full_scan s t o k.
Proof.
  intros Hinv. case_bool_decide as Hd.
  - destruct Hd as (-> & -> & ->). split; [done|].
    apply NoDup_Permutation; [apply NoDup_query_full_scan|apply NoDup_btree_keys|].
    intros n. rewrite elem_of_query_full_scan, elem_of_btree_keys. unfold is_Some. naive_solver.
  - destruct (query_indexed_stage s t o k Hinv) as [Hnd Hin].
    { destruct t, o, k; naive_solver. }
    apply NoDup_Permutation; [done|apply NoDup_query_full_scan|done].
Qed.

Lemma query_indexed_full_scan_witness :
  query_indexed (add_tag "f" "t" new) (Some "t") None None ≡ₚ
  query_full_scan (add_tag "f" "t" new) (Some "t") None None.
Proof.
  apply (query_indexed_full_scan (add_tag "f" "t" new) (Some "t") None None).
  apply index_inv_add_tag, index_inv_new.
Defined.

(** ** The benchmark's data set *)
Module Bench.

#[local] Instance bench_name_inj : Inj (=) (=) bench_name.
Proof. intros i j H. unfold bench_name in H. by apply (inj _), (inj pretty) in H. Qed.

Definition bench_map (hits n : nat) : gmap string FileAttrs :=
  foldl (λ m i, <[bench_name i := bench_attrs hits i]> m) ∅ (seq 0 n).

Lemma lookup_bench_map hits n x a :
  bench_map hits n !! x = Some a ↔ ∃ i, (i < n)%nat ∧ x = bench_name i ∧ a = bench_attrs hits i.
Proof.
  unfold bench_map. induction n as [|n IH].
  - simpl. rewrite lookup_empty. naive_solver lia.
  - rewrite seq_S, foldl_app. simpl. rewrite lookup_insert_Some, IH. split.
    + intros [[<- <-]|(_ & i & ? & ?)]; [by exists n; auto|exists i; auto with lia].
    + intros (i & Hi & -> & ->). destruct (decide (i = n)) as [->|]; [by left|right].
      split; [intros Heq%(inj bench_name); lia|exists i; auto with lia].
Qed.

Lemma elem_of_names hits n x :
  (x ∈ take hits (bench_name <$> seq 0 n) ↔ ∃ i, (i < n)%nat ∧ (i < hits)%nat ∧ x = bench_name i) ∧
  (x ∈ drop hits (bench_name <$> seq 0 n) ↔ ∃ i, (i < n)%nat ∧ (hits ≤ i)%nat ∧ x = bench_name i).
Proof.
  rewrite !list_elem_of_lookup. split; split.
  - intros [i Hi]. apply lookup_take_Some in Hi as [Hi Hh].
    apply list_lookup_fmap_Some in Hi as (j & -> & Hj). apply lookup_seq in Hj as [-> ?]. eauto.
  - intros (i & Hn & Hh & ->). exists i. rewrite lookup_take_lt by done.
    rewrite list_lookup_fmap, lookup_seq_lt by done. done.
  - intros [i Hi]. rewrite lookup_drop in Hi.
    apply list_lookup_fmap_Some in Hi as (j & -> & Hj). apply lookup_seq in Hj as [-> ?].
    exists (hits + i)%nat. auto with lia.
  - intros (i & Hn & Hh & ->). exists (i - hits)%nat. rewrite lookup_drop.
    replace (hits + (i - hits))%nat with i by lia.
    rewrite list_lookup_fmap, lookup_seq_lt by done. done.
Qed.

Lemma NoDup_names n : NoDup (bench_name <$> seq 0 n).
Proof. apply NoDup_fmap_2; [apply _|apply NoDup_seq]. Qed.

Lemma NoDup_needles hits n : NoDup (take hits (bench_name <$> seq 0 n)) ∧
  NoDup (drop hits (bench_name <$> seq 0 n)).
Proof.
  pose proof (NoDup_names n) as H. rewrite <-(take_drop hits) in H.
  apply NoDup_app in H. tauto.
Qed.

(** The attributes found under a name, by the name's number. *)
Lemma bench_of n x :
  (∃ i, (i < n)%nat ∧ x = bench_name i ∧
    by_name (bench_store n) !! x = Some (bench_attrs (bench_hits n) i)) ∨
  ((∀ i, (i < n)%nat → x ≠ bench_name i) ∧ by_name (bench_store n) !! x = None).
Proof.
  change (by_name (bench_store n)) with (bench_map (bench_hits n) n).
  destruct (bench_map (bench_hits n) n !! x) as [a|] eqn:E.
  - apply lookup_bench_map in E as (i & Hi & -> & ->). left. eauto.
  - right. split; [|done]. intros i Hi ->.
    assert (bench_map (bench_hits n) n !! bench_name i = Some (bench_attrs (bench_hits n) i))
      by (apply lookup_bench_map; eauto). congruence.
Qed.

Lemma bench_store_inv n : index_inv (bench_store n).
Proof.
  pose proof (elem_of_names (bench_hits n) n) as Hn.
  pose proof (NoDup_needles (bench_hits n) n) as [Hnd1 Hnd2].
  split; unfold idx; simpl.
  - intros t x. unfold tags_of. destruct (Hn x) as [H1 H2].
    destruct (bench_of n x) as [(i & Hi & -> & ->)|[Hx ->]]; simpl;
      rewrite lookup_insert, lookup_singleton; repeat case_decide; subst; simpl;
      rewrite ?H1, ?H2, ?elem_of_nil; unfold bench_attrs;
      try destruct (Nat.ltb_spec i (bench_hits n)); simpl; rewrite ?list_elem_of_singleton;
      naive_solver (try lia).
  - intros k v x. unfold kv_of. destruct (Hn x) as [H1 H2].
    destruct (bench_of n x) as [(i & Hi & -> & ->)|[Hx ->]]; simpl;
      rewrite lookup_insert, lookup_singleton; repeat case_decide; simplify_eq; simpl;
      rewrite ?H1, ?H2, ?elem_of_nil; unfold bench_attrs;
      try destruct (Nat.ltb_spec i (bench_hits n)); simpl;
      rewrite ?lookup_singleton, ?lookup_empty; repeat case_decide; naive_solver (try lia).
  - intros t. rewrite lookup_insert, lookup_singleton.
    repeat case_decide; simpl; [done|done|apply NoDup_nil_2].
  - intros key. rewrite lookup_insert, lookup_singleton.
    repeat case_decide; simpl; [done|done|apply NoDup_nil_2].
Qed.
End Bench.

Lemma query_indexed_bench n :
  query_indexed (bench_store n) (Some "needle") (Some "Agent-Hit") None =
  take (bench_hits n) (bench_name <$> seq 0 n).
Proof.
  unfold query_indexed. simpl. rewrite !lookup_insert_eq. simpl.
  apply filter_keep_all. auto.
Qed.

Lemma bench_hits_le n : (bench_hits n ≤ n)%nat.
Proof. unfold bench_hits. destruct (Nat.leb_spec 8 n); lia. Qed.

Lemma iter_add_mod iters c :
  Nat.iter iters (λ acc, usize (acc + c)) 0 = usize (Z.of_nat iters * c).
Proof.
  induction iters as [|iters IH]; [done|]. cbn [Nat.iter nat_rect]. unfold Nat.iter in IH.
  rewrite IH. unfold wrap. rewrite Zplus_mod_idemp_l. f_equal. lia.
Qed.

(** The benchmark measures the same work on both paths: its store is
    consistent, the index path and the scan path find the same files, so both
    runs accumulate [iters] times the number of planted files. *)
Theorem run_benchmark_fair n iters use_index start finish :
  index_inv (bench_store n) ∧
  query_indexed (bench_store n) (Some "needle") (Some "Agent-Hit") None ≡ₚ
    query_full_scan (bench_store n) (Some "needle") (Some "Agent-Hit") None ∧
  (run_benchmark n iters use_index start finish).1 =
    usize (Z.of_nat iters * Z.of_nat (bench_hits n)).
Proof.
  assert (Hinv := Bench.bench_store_inv n).
  destruct (query_indexed_stage (bench_store n) (Some "needle") (Some "Agent-Hit") None Hinv)
    as [Hnd Hin]; [by left|].
  assert (Hperm := NoDup_Permutation _ _ Hnd (NoDup_query_full_scan _ _ _ _) Hin).
  split_and!; [done|done|].
  assert (Hlen : length (query_indexed (bench_store n) (Some "needle") (Some "Agent-Hit") None)
                 = bench_hits n).
  { rewrite query_indexed_bench, length_take, length_fmap, length_seq.
    pose proof (bench_hits_le n). lia. }
  unfold run_benchmark. simpl. destruct use_index; rewrite iter_add_mod, <-Hlen; [done|].
  by rewrite Hperm.
Qed.

Lemma attr_reachable_inv_witness :
  index_inv (remove_file "f" (add_tag "f" "t" new)).2.
Proof.
  apply attr_reachable_inv.
  eapply rtc_l; [apply step_add_tag|]. eapply rtc_l; [apply step_remove_file|]. apply rtc_refl.
Defined.
