(* ===== verification/Address.v ===== *)
(** * Addresses and page numbers ([os/src/mm/address.rs], [os/src/config.rs])

    [PhysAddr], [VirtAddr], [PhysPageNum] and [VirtPageNum] are one-field
    wrappers of a [usize]; they are integers here, and the [From] conversions
    between them are functions. *)

From S2P Require Import Prelude.

(** ** Constants ([config.rs], [boards/qemu.rs]) *)
Definition PAGE_SIZE : Z := 0x1000.
Definition PAGE_SIZE_BITS : Z := 0xc.
Definition USER_STACK_SIZE : Z := 4096 * 2.
Definition KERNEL_STACK_SIZE : Z := 4096 * 2.
Definition TRAMPOLINE : Z := usize (2 ^ 64 - 1 - PAGE_SIZE + 1).
Definition TRAP_CONTEXT : Z := TRAMPOLINE - PAGE_SIZE.
Definition MEMORY_END : Z := 0x88000000.

Definition PA_WIDTH_SV39 : Z := 56.
Definition VA_WIDTH_SV39 : Z := 39.
Definition PPN_WIDTH_SV39 : Z := PA_WIDTH_SV39 - PAGE_SIZE_BITS.
Definition VPN_WIDTH_SV39 : Z := VA_WIDTH_SV39 - PAGE_SIZE_BITS.

(** ** Conversions *)
Definition mask (w : Z) : Z := Z.shiftl 1 w - 1.

Definition PhysAddr_from (v : Z) : Z := Z.land v (mask PA_WIDTH_SV39).
Definition PhysPageNum_from (v : Z) : Z := Z.land v (mask PPN_WIDTH_SV39).
Definition VirtAddr_from (v : Z) : Z := Z.land v (mask VA_WIDTH_SV39).
Definition VirtPageNum_from (v : Z) : Z := Z.land v (mask VPN_WIDTH_SV39).

(** [!x] on a [usize]. *)
Definition not64 (x : Z) : Z := 2 ^ 64 - 1 - x.

(** [impl From<VirtAddr> for usize]: sign extension from bit 38. *)
Definition usize_from_VirtAddr (v : Z) : Z :=
  if Z.shiftl 1 (VA_WIDTH_SV39 - 1) <=? v
  then Z.lor v (not64 (mask VA_WIDTH_SV39)) else v.

(** [floor], [ceil], [page_offset] and [aligned], identical for [VirtAddr]
    and [PhysAddr]. *)
Definition va_floor (v : Z) : Z := v / PAGE_SIZE.
Definition va_ceil (v : Z) : Z := if v =? 0 then 0 else (v - 1 + PAGE_SIZE) / PAGE_SIZE.
Definition page_offset (v : Z) : Z := Z.land v (PAGE_SIZE - 1).
Definition aligned (v : Z) : bool := page_offset v =? 0.

(** [impl From<VirtAddr> for VirtPageNum] (and its physical twin): asserts
    alignment. *)
Definition VirtPageNum_of_VirtAddr (v : Z) : outcome Z :=
  _ ← rassert (page_offset v =? 0); Ret (va_floor v).
Definition PhysPageNum_of_PhysAddr (v : Z) : outcome Z :=
  _ ← rassert (page_offset v =? 0); Ret (va_floor v).

(** [impl From<VirtPageNum> for VirtAddr] and its physical twin. *)
Definition VirtAddr_of_VirtPageNum (vpn : Z) : Z := usize (Z.shiftl vpn PAGE_SIZE_BITS).
Definition PhysAddr_of_PhysPageNum (ppn : Z) : Z := usize (Z.shiftl ppn PAGE_SIZE_BITS).

(** [VirtPageNum::indexes]: the loop fills [idx[2]], [idx[1]], [idx[0]]. *)
Definition indexes (vpn : Z) : Z * Z * Z :=
  let idx2 := Z.land vpn 511 in
  let vpn := Z.shiftr vpn 9 in
  let idx1 := Z.land vpn 511 in
  let vpn := Z.shiftr vpn 9 in
  let idx0 := Z.land vpn 511 in
  (idx0, idx1, idx2).

(** ** Page ranges *)

(** [StepByOne::step]. *)
Definition step (n : Z) : Z := usize (n + 1).

Record SimpleRange : Type := mkSimpleRange { range_l : Z; range_r : Z }.

(** [SimpleRange::new] asserts [start <= end]. *)
Definition SimpleRange_new (l r : Z) : outcome SimpleRange :=
  _ ← rassert (l <=? r); Ret (mkSimpleRange l r).

(** [SimpleRangeIterator::next] on the pair (current, end). *)
Definition range_next (cur fin : Z) : option (Z * Z) :=
  if cur =? fin then None else Some (cur, step cur).

(** A [for] loop over the range: repeated [next]. *)
Fixpoint range_run (fuel : nat) (cur fin : Z) : outcome (list Z) :=
  match range_next cur fin with
  | None => Ret []
  | Some (t, cur') =>
      match fuel with
      | O => NoFuel
      | S fuel => rest ← range_run fuel cur' fin; Ret (t :: rest)
      end
  end.

(** The page numbers a range iterates over. *)
Definition range_list (rg : SimpleRange) : list Z := seqZ (range_l rg) (range_r rg - range_l rg).

(** ** Lemmas *)
Lemma mask_ones w : mask w = Z.ones w.
Proof. unfold mask, Z.ones. lia. Qed.

Lemma land_mask v w : 0 ≤ w → Z.land v (mask w) = v mod 2 ^ w.
Proof. intros. rewrite mask_ones. by apply Z.land_ones. Qed.

Lemma page_offset_mod v : page_offset v = v mod PAGE_SIZE.
Proof. apply (Z.land_ones v 12). lia. Qed.

Lemma VirtAddr_from_mod v : VirtAddr_from v = v mod 2 ^ 39.
Proof. by apply land_mask. Qed.

Lemma VirtAddr_from_small v : 0 ≤ v < 2 ^ 39 → VirtAddr_from v = v.
Proof. rewrite VirtAddr_from_mod. apply Z.mod_small. Qed.

Lemma PhysPageNum_from_mod v : PhysPageNum_from v = v mod 2 ^ 44.
Proof. by apply land_mask. Qed.

Lemma usize_from_VirtAddr_low v : v < 2 ^ 38 → usize_from_VirtAddr v = v.
Proof.
  intros. unfold usize_from_VirtAddr. change (Z.shiftl 1 (VA_WIDTH_SV39 - 1)) with (2 ^ 38).
  destruct (Z.leb_spec (2 ^ 38) v); [lia|done].
Qed.

Lemma lor_high v : 0 ≤ v < 2 ^ 39 → Z.lor v (not64 (mask 39)) = v + (2 ^ 64 - 2 ^ 39).
Proof.
  intros Hv. change (not64 (mask 39)) with (Z.shiftl (Z.ones 25) 39).
  rewrite <-Z.add_nocarry_lor.
  - rewrite Z.shiftl_mul_pow2 by lia. rewrite Z.ones_equiv. lia.
  - apply Z.bits_inj'. intros n Hn. rewrite Z.land_spec, Z.bits_0.
    destruct (Z.lt_ge_cases n 39).
    + rewrite Z.shiftl_spec_low by lia. apply andb_false_r.
    + rewrite <-(Z.mod_small v (2 ^ 39)) by done.
      by rewrite Z.mod_pow2_bits_high by lia.
Qed.

Lemma indexes_spec vpn i0 i1 i2 :
  0 ≤ vpn → indexes vpn = (i0, i1, i2) →
  i2 = vpn mod 512 ∧ i1 = (vpn / 512) mod 512 ∧ i0 = (vpn / 262144) mod 512.
Proof.
  intros Hv. unfold indexes. intros [= <- <- <-].
  change 511 with (Z.ones 9). rewrite !Z.land_ones, !Z.shiftr_div_pow2 by lia.
  rewrite Z.div_div by lia. done.
Qed.

Lemma indexes_range vpn i0 i1 i2 :
  0 ≤ vpn → indexes vpn = (i0, i1, i2) →
  0 ≤ i0 < 512 ∧ 0 ≤ i1 < 512 ∧ 0 ≤ i2 < 512.
Proof.
  intros Hv (->&->&->)%indexes_spec; [|done].
  split_and!; apply Z.mod_pos_bound; lia.
Qed.

Lemma indexes_inj vpn vpn' :
  0 ≤ vpn < 2 ^ 27 → 0 ≤ vpn' < 2 ^ 27 → indexes vpn = indexes vpn' → vpn = vpn'.
Proof.
  intros H H' Heq. destruct (indexes vpn) as [[i0 i1] i2] eqn:E. symmetry in Heq.
  apply indexes_spec in E as (E2&E1&E0); [|lia].
  apply indexes_spec in Heq as (F2&F1&F0); [|lia].
  assert (0 ≤ vpn / 262144 < 512) by (split; [apply Z.div_pos|apply Z.div_lt_upper_bound]; lia).
  assert (0 ≤ vpn' / 262144 < 512) by (split; [apply Z.div_pos|apply Z.div_lt_upper_bound]; lia).
  rewrite Z.mod_small in E0, F0 by lia.
  change 262144 with (512 * 512) in *. rewrite <-Z.div_div in E0, F0 by lia.
  pose proof (Z.div_mod vpn 512 ltac:(lia)). pose proof (Z.div_mod vpn' 512 ltac:(lia)).
  pose proof (Z.div_mod (vpn / 512) 512 ltac:(lia)).
  pose proof (Z.div_mod (vpn' / 512) 512 ltac:(lia)). lia.
Qed.

(** Converting a [usize] to a [VirtAddr] and back keeps exactly the
    canonical Sv39 addresses: it sign-extends bit 38, so it is the identity
    on an address iff its top 26 bits are all equal. *)
Theorem VirtAddr_roundtrip v :
  0 ≤ v < 2 ^ 64 →
  usize_from_VirtAddr (VirtAddr_from v) = v ↔ v < 2 ^ 38 ∨ 2 ^ 64 - 2 ^ 38 ≤ v.
Proof.
  intros Hv. rewrite VirtAddr_from_mod. unfold usize_from_VirtAddr.
  change (Z.shiftl 1 (VA_WIDTH_SV39 - 1)) with (2 ^ 38).
  pose proof (Z.mod_pos_bound v (2 ^ 39) ltac:(lia)) as Hm.
  pose proof (Z.div_mod v (2 ^ 39) ltac:(lia)) as Hdm.
  destruct (Z.leb_spec (2 ^ 38) (v mod 2 ^ 39)).
  - unfold VA_WIDTH_SV39. rewrite lor_high by done. split; [lia|].
    intros [|]; [rewrite Z.mod_small in *; lia|].
    assert (v / 2 ^ 39 = 2 ^ 25 - 1); [|lia].
    symmetry. apply Z.div_unique with (v - (2 ^ 39 * (2 ^ 25 - 1))); lia.
  - split; [lia|]. intros [|]; [by apply Z.mod_small; lia|].
    assert (v / 2 ^ 39 = 2 ^ 25 - 1); [|lia].
    symmetry. apply Z.div_unique with (v - (2 ^ 39 * (2 ^ 25 - 1))); lia.
Qed.

(** Every page range accepted by [SimpleRange::new] is iterated to its
    end in [end - start] steps, yielding each page number once, in order. *)
Theorem range_run_spec l r rg fuel :
  0 ≤ l → r < 2 ^ 64 → SimpleRange_new l r = Ret rg →
  (Z.to_nat (r - l) ≤ fuel)%nat →
  range_run fuel (range_l rg) (range_r rg) = Ret (range_list rg) ∧
  range_list rg = seqZ l (r - l).
Proof.
  intros Hl Hr Hnew. unfold SimpleRange_new in Hnew. inv_ret. zify_bool.
  rename select (l ≤ r) into Hlr. clear dependent x.
  unfold range_list. simpl. intros Hf. split; [|done].
  revert l Hl Hlr Hf. induction fuel as [|fuel IH]; intros l Hl Hlr Hf; simpl;
    unfold range_next; destruct (Z.eqb_spec l r) as [->|Hne].
  - by rewrite Z.sub_diag.
  - lia.
  - by rewrite Z.sub_diag.
  - unfold step. rewrite (wrap_small 64) by lia. rewrite IH by lia. simpl.
    rewrite (seqZ_cons l) by lia. do 3 f_equal; lia.
Qed.

(** ** Witnesses *)
Lemma VirtAddr_roundtrip_witness :
  usize_from_VirtAddr (VirtAddr_from TRAMPOLINE) = TRAMPOLINE ↔
  TRAMPOLINE < 2 ^ 38 ∨ 2 ^ 64 - 2 ^ 38 ≤ TRAMPOLINE.
Proof. apply (VirtAddr_roundtrip TRAMPOLINE). by vm_compute. Defined.

Lemma range_run_spec_witness :
  range_run 4 (range_l (mkSimpleRange 16 20)) (range_r (mkSimpleRange 16 20)) =
    Ret (range_list (mkSimpleRange 16 20)) ∧
  range_list (mkSimpleRange 16 20) = seqZ 16 (20 - 16).
Proof. apply (range_run_spec 16 20 (mkSimpleRange 16 20) 4); [lia|lia|done|simpl; lia]. Defined.
