(* ===== verification/PhysMem.v ===== *)
(** * Physical memory as the kernel sees it

    The kernel runs with its sections and all physical memory mapped
    one-to-one ([MemorySet::new_kernel]): a raw pointer to a physical address
    works when the address lies in a mapped section and, for a store, in a
    writable one; any other access faults in kernel mode, which
    [trap_from_kernel] turns into a panic. Accesses are made through
    [PhysPageNum::get_bytes_array] and [get_pte_array], hence per page. *)

From S2P Require Import Prelude Address.

(** ** Linker symbols: addresses fixed when the kernel image is linked. *)
Class Platform : Type := {
  stext : Z; etext : Z; srodata : Z; erodata : Z; sdata : Z; edata : Z;
  sbss_with_stack : Z; ebss : Z; ekernel : Z;
  strampoline : Z;
  trap_handler_addr : Z;
  trap_return_addr : Z;
}.

(** The linker script lays the sections out in order, page aligned, inside
    the RAM the kernel uses; the trampoline starts a page of its own. *)
Class PlatformLaws `{!Platform} : Prop := {
  sections_ordered :
    0 < stext ∧ stext ≤ sdata ∧ sdata ≤ ekernel ∧ ekernel < MEMORY_END;
  strampoline_aligned : 0 ≤ strampoline < MEMORY_END ∧ strampoline mod PAGE_SIZE = 0;
}.

(** ** Byte memory *)
Abbreviation Mem := (Z → byte).

Definition mem_read (m : Mem) (a : Z) (n : nat) : list byte := m <$> seqZ a (Z.of_nat n).

Definition mem_write (m : Mem) (a : Z) (bs : list byte) : Mem := λ x,
  if (a <=? x) && (x <? a + Z.of_nat (length bs))
  then nth (Z.to_nat (x - a)) bs x00 else m x.

Definition mem_fill (m : Mem) (a n : Z) (b : byte) : Mem := λ x,
  if (a <=? x) && (x <? a + n) then b else m x.

(** ** Page access *)
Section Access.
Context {PF : Platform}.

Definition page_readable (ppn : Z) : bool :=
  (stext <=? ppn * PAGE_SIZE) && ((ppn + 1) * PAGE_SIZE <=? MEMORY_END).
Definition page_writable (ppn : Z) : bool :=
  (sdata <=? ppn * PAGE_SIZE) && ((ppn + 1) * PAGE_SIZE <=? MEMORY_END).

(** [&ppn.get_bytes_array()[off..][..n]], read and written. *)
Definition get_bytes (m : Mem) (ppn off : Z) (n : nat) : outcome (list byte) :=
  _ ← rassert (page_readable ppn);
  Ret (mem_read m (PhysAddr_of_PhysPageNum ppn + off) n).
Definition set_bytes (m : Mem) (ppn off : Z) (bs : list byte) : outcome Mem :=
  _ ← rassert (page_writable ppn);
  Ret (mem_write m (PhysAddr_of_PhysPageNum ppn + off) bs).

(** [ppn.get_pte_array()[idx]]: 512 little-endian 64-bit words per page. *)
Definition get_pte (m : Mem) (ppn idx : Z) : outcome Z :=
  bs ← get_bytes m ppn (8 * idx) 8; Ret (from_le_bytes bs).
Definition set_pte (m : Mem) (ppn idx pte : Z) : outcome Mem :=
  set_bytes m ppn (8 * idx) (to_le_bytes 8 pte).

(** [FrameTracker::new]'s page cleaning. *)
Definition clear_page (m : Mem) (ppn : Z) : outcome Mem :=
  _ ← rassert (page_writable ppn);
  Ret (mem_fill m (PhysAddr_of_PhysPageNum ppn) PAGE_SIZE x00).
End Access.

(** ** Lemmas *)
Lemma length_mem_read m a n : length (mem_read m a n) = n.
Proof. unfold mem_read. rewrite length_fmap, length_seqZ. lia. Qed.

Lemma lookup_mem_read m a n i :
  (i < n)%nat → mem_read m a n !! i = Some (m (a + Z.of_nat i)).
Proof.
  intros. unfold mem_read. rewrite list_lookup_fmap, lookup_seqZ_lt by lia. done.
Qed.

Lemma mem_read_ext m m' a n :
  (∀ x, a ≤ x < a + Z.of_nat n → m x = m' x) → mem_read m a n = mem_read m' a n.
Proof.
  intros H. apply list_eq_same_length with n; rewrite ?length_mem_read; [done|done|].
  intros i x y Hi. rewrite !lookup_mem_read by done. rewrite H by lia. congruence.
Qed.

Lemma mem_write_in m a bs x :
  a ≤ x < a + Z.of_nat (length bs) →
  bs !! Z.to_nat (x - a) = Some (mem_write m a bs x).
Proof.
  intros Hx. unfold mem_write.
  rewrite (proj2 (Z.leb_le _ _)), (proj2 (Z.ltb_lt _ _)) by lia. simpl.
  destruct (lookup_lt_is_Some_2 bs (Z.to_nat (x - a))) as [b Hb]; [lia|].
  rewrite Hb. f_equal. symmetry. apply nth_lookup_Some. done.
Qed.

Lemma mem_write_out m a bs x :
  ¬ (a ≤ x < a + Z.of_nat (length bs)) → mem_write m a bs x = m x.
Proof.
  intros Hx. unfold mem_write.
  destruct (Z.leb_spec a x), (Z.ltb_spec x (a + Z.of_nat (length bs))); simpl; try done. lia.
Qed.

Lemma mem_fill_in m a n b x : a ≤ x < a + n → mem_fill m a n b x = b.
Proof.
  intros. unfold mem_fill. rewrite (proj2 (Z.leb_le _ _)), (proj2 (Z.ltb_lt _ _)) by lia. done.
Qed.

Lemma mem_fill_out m a n b x : ¬ (a ≤ x < a + n) → mem_fill m a n b x = m x.
Proof.
  intros. unfold mem_fill.
  destruct (Z.leb_spec a x), (Z.ltb_spec x (a + n)); simpl; try done. lia.
Qed.

Lemma mem_read_write_same m a bs : mem_read (mem_write m a bs) a (length bs) = bs.
Proof.
  apply list_eq_same_length with (length bs); rewrite ?length_mem_read; [done|done|].
  intros i x y Hi. rewrite lookup_mem_read by done. intros [= <-] Hy.
  pose proof (mem_write_in m a bs (a + Z.of_nat i) ltac:(lia)) as Hw.
  replace (Z.to_nat (a + Z.of_nat i - a)) with i in Hw by lia. congruence.
Qed.

Lemma PhysAddr_of_PhysPageNum_small ppn :
  0 ≤ ppn < 2 ^ 44 → PhysAddr_of_PhysPageNum ppn = ppn * PAGE_SIZE.
Proof.
  intros. unfold PhysAddr_of_PhysPageNum, PAGE_SIZE_BITS, PAGE_SIZE.
  rewrite Z.shiftl_mul_pow2 by lia. apply wrap_small. lia.
Qed.

Section AccessLemmas.
Context {PF : Platform} {PFL : PlatformLaws}.

(** A page that can be written: inside RAM, above the read-only sections. *)
Lemma page_writable_spec ppn :
  page_writable ppn = true →
  page_readable ppn = true ∧ 0 ≤ ppn < 2 ^ 44 ∧
  PhysAddr_of_PhysPageNum ppn = ppn * PAGE_SIZE.
Proof.
  intros H. pose proof sections_ordered as (?&?&?&?). unfold page_writable, page_readable in *.
  unfold PAGE_SIZE, MEMORY_END in *.
  zify_bool. assert (0 ≤ ppn < 2 ^ 44) by lia. split_and!; try lia.
  by rewrite PhysAddr_of_PhysPageNum_small.
Qed.

Lemma get_pte_Ret m ppn idx :
  page_writable ppn = true →
  get_pte m ppn idx = Ret (from_le_bytes (mem_read m (ppn * PAGE_SIZE + 8 * idx) 8)).
Proof.
  intros H. destruct (page_writable_spec _ H) as (Hr & _ & Hpa).
  unfold get_pte, get_bytes. rewrite Hr, Hpa. done.
Qed.

Lemma set_pte_Ret m ppn idx pte :
  page_writable ppn = true →
  set_pte m ppn idx pte = Ret (mem_write m (ppn * PAGE_SIZE + 8 * idx) (to_le_bytes 8 pte)).
Proof.
  intros H. destruct (page_writable_spec _ H) as (_ & _ & Hpa).
  unfold set_pte, set_bytes. rewrite H, Hpa. done.
Qed.

(** The word at an entry, as a function. *)
Definition pte_at (m : Mem) (ppn idx : Z) : Z :=
  from_le_bytes (mem_read m (ppn * PAGE_SIZE + 8 * idx) 8).

Lemma pte_at_range m ppn idx : 0 ≤ pte_at m ppn idx < 2 ^ 64.
Proof.
  unfold pte_at. pose proof (from_le_bytes_range (mem_read m (ppn * PAGE_SIZE + 8 * idx) 8)) as H.
  by rewrite length_mem_read in H.
Qed.

Lemma pte_at_write_same m ppn idx pte :
  0 ≤ pte < 2 ^ 64 →
  pte_at (mem_write m (ppn * PAGE_SIZE + 8 * idx) (to_le_bytes 8 pte)) ppn idx = pte.
Proof.
  intros. unfold pte_at.
  pose proof (mem_read_write_same m (ppn * PAGE_SIZE + 8 * idx) (to_le_bytes 8 pte)) as Hs.
  rewrite length_to_le_bytes in Hs. rewrite Hs. by apply from_to_le_bytes_small.
Qed.

Lemma pte_at_ext m m' ppn idx :
  0 ≤ idx < 512 →
  (∀ x, ppn * PAGE_SIZE ≤ x < (ppn + 1) * PAGE_SIZE → m x = m' x) →
  pte_at m ppn idx = pte_at m' ppn idx.
Proof.
  intros Hi H. unfold pte_at. f_equal. apply mem_read_ext. intros x Hx. apply H.
  unfold PAGE_SIZE in *. lia.
Qed.

Lemma pte_at_write_other m ppn idx ppn' idx' pte :
  0 ≤ idx < 512 → 0 ≤ idx' < 512 → (ppn, idx) ≠ (ppn', idx') →
  pte_at (mem_write m (ppn * PAGE_SIZE + 8 * idx) (to_le_bytes 8 pte)) ppn' idx' =
  pte_at m ppn' idx'.
Proof.
  intros H H' Hne. unfold pte_at. f_equal. apply mem_read_ext. intros x Hx.
  apply mem_write_out. rewrite length_to_le_bytes. unfold PAGE_SIZE in *.
  intros Hx'. apply Hne. assert (ppn = ppn') as -> by lia. f_equal. lia.
Qed.
End AccessLemmas.

(** ** Byte strings in memory *)
Definition bytes_at (c : Mem) (a : Z) (bs : list byte) : Prop :=
  ∀ i b, bs !! i = Some b → c (a + Z.of_nat i) = b.

Lemma bytes_at_mem_read c a bs : bytes_at c a bs ↔ mem_read c a (length bs) = bs.
Proof.
  split.
  - intros H. apply list_eq_same_length with (length bs); [done|by rewrite length_mem_read|].
    intros i x y Hi. rewrite lookup_mem_read by done. intros [= <-] Hy. by apply H.
  - intros H i b Hb. assert (i < length bs)%nat by (by eapply lookup_lt_Some).
    rewrite <-H, lookup_mem_read in Hb by done. congruence.
Qed.

Lemma bytes_at_app c a b1 b2 :
  bytes_at c a (b1 ++ b2) ↔ bytes_at c a b1 ∧ bytes_at c (a + Z.of_nat (length b1)) b2.
Proof.
  unfold bytes_at. split.
  - intros H. split.
    + intros i b Hb. apply H. by apply lookup_app_l_Some.
    + intros i b Hb. rewrite <-Z.add_assoc, <-Nat2Z.inj_add. apply H.
      rewrite lookup_app_r by lia. by rewrite Nat.add_sub_swap, Nat.sub_diag by lia.
  - intros [H1 H2] i b [Hb|[Hl Hb]]%lookup_app_Some; [by apply H1|].
    apply H2 in Hb. rewrite <-Hb. f_equal. lia.
Qed.

Lemma bytes_at_nil c a : bytes_at c a [].
Proof. intros i b. by rewrite lookup_nil. Qed.

Lemma bytes_at_ext c c' a bs :
  (∀ x, a ≤ x < a + Z.of_nat (length bs) → c' x = c x) → bytes_at c a bs → bytes_at c' a bs.
Proof.
  intros He H i b Hb. assert (i < length bs)%nat by (by eapply lookup_lt_Some).
  rewrite He by lia. by apply H.
Qed.

Lemma bytes_at_write c a bs : bytes_at (mem_write c a bs) a bs.
Proof. apply bytes_at_mem_read, mem_read_write_same. Qed.

Lemma mem_write_app c a b1 b2 x :
  mem_write (mem_write c a b1) (a + Z.of_nat (length b1)) b2 x = mem_write c a (b1 ++ b2) x.
Proof.
  unfold mem_write. rewrite length_app.
  destruct (Z.leb_spec a x), (Z.leb_spec (a + Z.of_nat (length b1)) x),
    (Z.ltb_spec x (a + Z.of_nat (length b1))), (Z.ltb_spec x (a + Z.of_nat (length b1) + Z.of_nat (length b2))),
    (Z.ltb_spec x (a + Z.of_nat (length b1 + length b2))); simpl; try lia; try done.
  - rewrite app_nth2 by lia. f_equal. lia.
  - by rewrite app_nth1 by lia.
Qed.

Lemma mem_write_ext c c' a bs x : c x = c' x → mem_write c a bs x = mem_write c' a bs x.
Proof. intros H. unfold mem_write. by destruct (_ && _). Qed.
