(* ===== verification/FrameAlloc.v ===== *)
(** * The physical frame allocator ([os/src/mm/frame_allocator.rs])

    [Phys] bundles the byte memory with the allocator, the two globals every
    owner of frames touches.  A [FrameTracker] is the page number it owns;
    its [Drop] is the explicit call [drop_frame]. *)

From S2P Require Import Prelude Address PhysMem.

Record StackFrameAllocator : Type := mkStackFrameAllocator {
  current : Z;
  fend : Z;
  recycled : list Z;
}.

Record Phys : Type := mkPhys { mem : Mem; falloc : StackFrameAllocator }.

(** ** Operations *)
Definition fa_new : StackFrameAllocator := mkStackFrameAllocator 0 0 [].

Definition fa_init (l r : Z) (fa : StackFrameAllocator) : StackFrameAllocator :=
  mkStackFrameAllocator l r (recycled fa).

Definition fa_alloc (fa : StackFrameAllocator) : option Z * StackFrameAllocator :=
  match vec_pop (recycled fa) with
  | Some (ppn, rest) =>
      (Some (PhysPageNum_from ppn), mkStackFrameAllocator (current fa) (fend fa) rest)
  | None =>
      if current fa =? fend fa then (None, fa)
      else
        let cur := usize (current fa + 1) in
        (Some (PhysPageNum_from (usize (cur - 1))), mkStackFrameAllocator cur (fend fa) (recycled fa))
  end.

Definition fa_dealloc (ppn : Z) (fa : StackFrameAllocator) : outcome StackFrameAllocator :=
  if (current fa <=? ppn) || existsb (λ v, v =? ppn) (recycled fa) then Panic
  else Ret (mkStackFrameAllocator (current fa) (fend fa) (recycled fa ++ [ppn])).

Section Frames.
Context {PF : Platform}.

(** [init_frame_allocator]. *)
Definition init_frame_allocator (fa : StackFrameAllocator) : StackFrameAllocator :=
  fa_init (va_ceil (PhysAddr_from ekernel)) (va_floor (PhysAddr_from MEMORY_END)) fa.

(** [frame_alloc]: [alloc().map(FrameTracker::new)]. *)
Definition frame_alloc (ph : Phys) : outcome (option Z * Phys) :=
  match fa_alloc (falloc ph) with
  | (None, fa) => Ret (None, mkPhys (mem ph) fa)
  | (Some ppn, fa) =>
      m ← clear_page (mem ph) ppn;
      Ret (Some ppn, mkPhys m fa)
  end.

(** [frame_dealloc], also [impl Drop for FrameTracker]. *)
Definition frame_dealloc (ppn : Z) (ph : Phys) : outcome Phys :=
  fa ← fa_dealloc ppn (falloc ph); Ret (mkPhys (mem ph) fa).

Definition drop_frame (ppn : Z) (ph : Phys) : outcome Phys := frame_dealloc ppn ph.

(** Dropping a collection of trackers, front to back. *)
Fixpoint drop_frames (ppns : list Z) (ph : Phys) : outcome Phys :=
  match ppns with
  | [] => Ret ph
  | ppn :: ppns => ph ← drop_frame ppn ph; drop_frames ppns ph
  end.

(** ** Specification: the set of frames handed out

    [lo] is the first frame the allocator was initialised with. *)
Definition owned (lo : Z) (fa : StackFrameAllocator) (ppn : Z) : Prop :=
  lo ≤ ppn < current fa ∧ ppn ∉ recycled fa.

Record fa_inv (lo : Z) (fa : StackFrameAllocator) : Prop := {
  fa_bounds : 0 ≤ lo ≤ current fa ∧ current fa ≤ fend fa ≤ 2 ^ 44;
  fa_nodup : NoDup (recycled fa);
  fa_recycled p : p ∈ recycled fa → lo ≤ p < current fa;
}.

(** Every frame of the allocator can be written by the kernel. *)
Definition frames_writable (lo : Z) (fa : StackFrameAllocator) : Prop :=
  ∀ p, lo ≤ p < fend fa → page_writable p = true.

Lemma frames_writable_mono lo fa fa' :
  fend fa' = fend fa → frames_writable lo fa → frames_writable lo fa'.
Proof. unfold frames_writable. by intros ->. Qed.

Lemma owned_writable lo fa p :
  fa_inv lo fa → frames_writable lo fa → owned lo fa p → page_writable p = true.
Proof. intros [Hb _ _] Hw [Hp _]. apply Hw. lia. Qed.

Lemma existsb_eqb_elem (l : list Z) p : existsb (λ v, v =? p) l = true ↔ p ∈ l.
Proof.
  rewrite existsb_exists. setoid_rewrite Z.eqb_eq. setoid_rewrite <-list_elem_of_In.
  naive_solver.
Qed.

(** [alloc]: the frame it returns was free, is now owned, nothing else changed. *)
Lemma fa_alloc_spec lo fa r fa' :
  fa_inv lo fa → fa_alloc fa = (r, fa') →
  fa_inv lo fa' ∧ fend fa' = fend fa ∧
  match r with
  | None => fa' = fa ∧ ∀ p, lo ≤ p < fend fa → owned lo fa p
  | Some p => lo ≤ p < fend fa ∧ ¬ owned lo fa p ∧
              ∀ q, owned lo fa' q ↔ q = p ∨ owned lo fa q
  end.
Proof.
  intros [(Hlo & Hce & Hend) Hnd Hrec] Halloc. unfold fa_alloc in Halloc.
  destruct (vec_pop (recycled fa)) as [[p rest]|] eqn:Hpop.
  - apply vec_pop_Some in Hpop. injection Halloc as <- <-.
    assert (Hp : lo ≤ p < current fa) by (apply Hrec; rewrite Hpop; set_solver).
    assert (PhysPageNum_from p = p) as ->
      by (rewrite PhysPageNum_from_mod; apply Z.mod_small; lia).
    rewrite Hpop in Hnd, Hrec. apply NoDup_app in Hnd as (Hnd & Hdisj & _).
    split_and!; simpl; [split; simpl; [lia|done|set_solver]|done|lia|lia| |].
    + unfold owned. rewrite Hpop. set_solver.
    + intros q. unfold owned. simpl. rewrite Hpop.
      destruct (decide (q = p)) as [->|]; set_solver.
  - apply vec_pop_None in Hpop. destruct (Z.eqb_spec (current fa) (fend fa)) as [He|He].
    + injection Halloc as <- <-. split_and!; [by split|done|done|].
      intros p Hp. unfold owned. rewrite Hpop. set_solver by lia.
    + rewrite (wrap_small 64 (current fa + 1)) in Halloc by lia.
      rewrite (wrap_small 64) in Halloc by lia.
      replace (current fa + 1 - 1) with (current fa) in Halloc by lia.
      injection Halloc as <- <-.
      assert (PhysPageNum_from (current fa) = current fa) as ->
        by (rewrite PhysPageNum_from_mod; apply Z.mod_small; lia).
      split_and!; simpl; [split; simpl; [lia|done|]|done|lia|lia| |].
      * intros p Hp. apply Hrec in Hp. lia.
      * unfold owned. lia.
      * intros q. unfold owned. simpl. rewrite Hpop.
        split; [intros [??]; destruct (decide (q = current fa)); [by left|right; split; [lia|done]]|].
        intros [->|[??]]; (split; [lia|set_solver]).
Qed.

(** The number of frames [alloc] can still hand out. *)
Definition free_count (fa : StackFrameAllocator) : Z :=
  (fend fa - current fa) + Z.of_nat (length (recycled fa)).

Lemma fa_alloc_free lo fa r fa' :
  fa_inv lo fa → fa_alloc fa = (r, fa') →
  match r with
  | None => free_count fa = 0
  | Some _ => free_count fa' = free_count fa - 1
  end.
Proof.
  intros [(Hlo & Hce & Hend) Hnd Hrec] Halloc. unfold fa_alloc, free_count in *.
  destruct (vec_pop (recycled fa)) as [[p rest]|] eqn:Hpop.
  - apply vec_pop_Some in Hpop. injection Halloc as <- <-. simpl.
    rewrite Hpop, length_app. simpl. lia.
  - apply vec_pop_None in Hpop. rewrite Hpop in *. simpl.
    destruct (Z.eqb_spec (current fa) (fend fa)); injection Halloc as <- <-; [lia|].
    simpl. rewrite wrap_small by lia. lia.
Qed.

(** [dealloc]: panics exactly on a frame that is not owned. *)
Lemma fa_dealloc_spec lo fa p :
  fa_inv lo fa → lo ≤ p →
  match fa_dealloc p fa with
  | Ret fa' => owned lo fa p ∧ fa_inv lo fa' ∧ fend fa' = fend fa ∧
               ∀ q, owned lo fa' q ↔ q ≠ p ∧ owned lo fa q
  | Panic => ¬ owned lo fa p
  | NoFuel => False
  end.
Proof.
  intros [(Hlo & Hce & Hend) Hnd Hrec] Hp. unfold fa_dealloc.
  destruct (Z.leb_spec (current fa) p); simpl; [unfold owned; lia|].
  destruct (existsb _ (recycled fa)) eqn:He.
  - apply existsb_eqb_elem in He. unfold owned. tauto.
  - assert (Hnin : p ∉ recycled fa) by (rewrite <-existsb_eqb_elem; congruence).
    split_and!; [split; [lia|done]|split; simpl|done|].
    + lia.
    + apply NoDup_app. split_and!; [done|set_solver|apply NoDup_singleton].
    + intros q. rewrite elem_of_app, list_elem_of_singleton. intros [?| ->]; [auto|lia].
    + intros q. unfold owned. simpl. rewrite elem_of_app, list_elem_of_singleton.
      destruct (decide (q = p)); naive_solver.
Qed.
End Frames.

#[export] Hint Resolve frames_writable_mono owned_writable : osdb.

Section FrameProofs.
Context {PF : Platform} {PFL : PlatformLaws}.

(** The well-formed physical state of an allocator initialised at [lo]. *)
Definition phys_inv (lo : Z) (ph : Phys) : Prop :=
  fa_inv lo (falloc ph) ∧ frames_writable lo (falloc ph).

Definition p_owned (lo : Z) (ph : Phys) (p : Z) : Prop := owned lo (falloc ph) p.

(** Two memories agree on a page. *)
Definition same_page (m m' : Mem) (p : Z) : Prop :=
  ∀ x, p * PAGE_SIZE ≤ x < (p + 1) * PAGE_SIZE → m' x = m x.

(** What a caller of [frame_alloc] may rely on. *)
Definition alloc_post (lo : Z) (ph : Phys) (r : option Z) (ph' : Phys) : Prop :=
  match r with
  | None => ph' = ph ∧ ∀ p, lo ≤ p < fend (falloc ph) → p_owned lo ph p
  | Some p =>
      page_writable p = true ∧ ¬ p_owned lo ph p ∧
      (∀ q, p_owned lo ph' q ↔ q = p ∨ p_owned lo ph q) ∧
      (∀ x, p * PAGE_SIZE ≤ x < (p + 1) * PAGE_SIZE → mem ph' x = x00) ∧
      (∀ q, q ≠ p → same_page (mem ph) (mem ph') q)
  end.

Lemma frame_alloc_total lo ph :
  phys_inv lo ph →
  ∃ r ph', frame_alloc ph = Ret (r, ph') ∧ phys_inv lo ph' ∧
    fend (falloc ph') = fend (falloc ph) ∧ alloc_post lo ph r ph'.
Proof.
  intros [Hinv Hw]. unfold frame_alloc, alloc_post, p_owned.
  destruct (fa_alloc (falloc ph)) as [r fa'] eqn:Ea.
  destruct (fa_alloc_spec lo _ _ _ Hinv Ea) as (Hinv' & Hend & Hr).
  destruct r as [p|].
  - destruct Hr as (Hp & Hno & Hown).
    assert (Hpw : page_writable p = true) by auto.
    destruct (page_writable_spec p Hpw) as (_ & _ & Hpa).
    unfold clear_page. rewrite Hpw, Hpa. cbn [rassert mbind outcome_bind].
    eexists (Some p), _. split; [done|]. unfold phys_inv. simpl. split_and!; try done.
    + by eapply frames_writable_mono.
    + intros x Hx. apply mem_fill_in. lia.
    + intros q Hq x Hx. apply mem_fill_out. unfold PAGE_SIZE in *. lia.
  - destruct Hr as [-> Hall]. exists None, ph. destruct ph; simpl in *. done.
Qed.

(** With a free frame left, [frame_alloc] succeeds. *)
Lemma frame_alloc_succeeds lo ph :
  phys_inv lo ph → 0 < free_count (falloc ph) →
  ∃ p ph', frame_alloc ph = Ret (Some p, ph') ∧ phys_inv lo ph' ∧
    alloc_post lo ph (Some p) ph' ∧ free_count (falloc ph') = free_count (falloc ph) - 1.
Proof.
  intros Hinv Hfree. destruct (frame_alloc_total lo ph Hinv) as (r & ph' & E & Hinv' & _ & Hpost).
  unfold frame_alloc in E. destruct (fa_alloc (falloc ph)) as [r0 fa'] eqn:Ea.
  pose proof (fa_alloc_free lo _ _ _ (proj1 Hinv) Ea) as Hf.
  destruct r0 as [p|]; [|lia]. assert (E' := E). inv_ret.
  exists p. eexists. split_and!; [|done..]. unfold frame_alloc. by rewrite Ea, Hm.
Qed.

Lemma frame_dealloc_total lo ph p :
  phys_inv lo ph → p_owned lo ph p →
  ∃ ph', frame_dealloc p ph = Ret ph' ∧ phys_inv lo ph' ∧ mem ph' = mem ph ∧
    fend (falloc ph') = fend (falloc ph) ∧
    ∀ q, p_owned lo ph' q ↔ q ≠ p ∧ p_owned lo ph q.
Proof.
  intros [Hinv Hw] Hp. unfold frame_dealloc, p_owned in *.
  pose proof (fa_dealloc_spec lo _ p Hinv ltac:(destruct Hp; lia)) as Hs.
  destruct (fa_dealloc p (falloc ph)) as [fa'| |]; [|tauto|done].
  destruct Hs as (_ & Hinv' & Hend & Hq). eexists. split; [done|].
  unfold phys_inv. simpl. split_and!; try done. by eapply frames_writable_mono.
Qed.

(** Dropping distinct owned trackers gives exactly those frames back. *)
Lemma drop_frames_total lo ps ph :
  phys_inv lo ph → NoDup ps → (∀ p, p ∈ ps → p_owned lo ph p) →
  ∃ ph', drop_frames ps ph = Ret ph' ∧ phys_inv lo ph' ∧ mem ph' = mem ph ∧
    fend (falloc ph') = fend (falloc ph) ∧
    ∀ q, p_owned lo ph' q ↔ q ∉ ps ∧ p_owned lo ph q.
Proof.
  revert ph. induction ps as [|p ps IH]; intros ph Hinv Hnd Hown.
  - exists ph. split_and!; try done. set_solver.
  - apply NoDup_cons in Hnd as [Hp Hnd].
    destruct (frame_dealloc_total lo ph p Hinv ltac:(set_solver))
      as (ph1 & E1 & Hinv1 & Hm1 & He1 & Ho1).
    destruct (IH ph1 Hinv1 Hnd) as (ph2 & E2 & Hinv2 & Hm2 & He2 & Ho2).
    { intros q Hq. apply Ho1. set_solver. }
    exists ph2. simpl. unfold drop_frame. rewrite E1. simpl. split_and!; try done; try congruence.
    intros q. rewrite Ho2, Ho1. set_solver.
Qed.
End FrameProofs.

(** [frame_alloc] never panics on a consistent allocator; it fails only
    when every frame is handed out, and otherwise returns a frame that nobody
    owns, zeroed, leaving every other page of memory untouched. *)
Theorem frame_alloc_spec `{PlatformLaws} lo ph :
  phys_inv lo ph →
  ∃ r ph', frame_alloc ph = Ret (r, ph') ∧ phys_inv lo ph' ∧ alloc_post lo ph r ph'.
Proof.
  intros Hinv. destruct (frame_alloc_total lo ph Hinv) as (r & ph' & ? & ? & _ & ?). eauto.
Qed.

(** [frame_dealloc] gives back exactly an owned frame and panics on any
    other (a double free, or a frame never handed out). *)
Theorem frame_dealloc_spec `{PlatformLaws} lo ph p :
  phys_inv lo ph → lo ≤ p →
  (p_owned lo ph p ∧ ∃ ph', frame_dealloc p ph = Ret ph' ∧ phys_inv lo ph' ∧
     ∀ q, p_owned lo ph' q ↔ q ≠ p ∧ p_owned lo ph q) ∨
  (¬ p_owned lo ph p ∧ frame_dealloc p ph = Panic).
Proof.
  intros Hinv Hlo.
  pose proof (fa_dealloc_spec lo _ p (proj1 Hinv) Hlo) as Hs.
  destruct (fa_dealloc p (falloc ph)) as [fa'| |] eqn:E; [|right|done].
  - left. destruct Hs as (Hp & _). split; [done|].
    destruct (frame_dealloc_total lo ph p Hinv Hp) as (ph' & ? & ? & _ & _ & ?). eauto.
  - split; [done|]. unfold frame_dealloc. by rewrite E.
Qed.

(** ** A concrete platform for the witnesses *)
Module DemoPlatform.

(** The layout of [linker-qemu.ld] with small sections. *)
Definition demo : Platform := {|
  stext := 0x80200000; etext := 0x80201000; srodata := 0x80201000; erodata := 0x80202000;
  sdata := 0x80202000; edata := 0x80203000; sbss_with_stack := 0x80203000; ebss := 0x80204000;
  ekernel := 0x80204000; strampoline := 0x80200000;
  trap_handler_addr := 0x80200100; trap_return_addr := 0x80200200 |}.

#[global] Instance demo_laws : @PlatformLaws demo.
Proof. split; by vm_compute. Qed.

(** The allocator as [init_frame_allocator] leaves it. *)
Definition boot : Phys := mkPhys (λ _, xff) (@init_frame_allocator demo fa_new).

Lemma boot_inv : @phys_inv demo 0x80204 boot.
Proof.
  split.
  - split; [vm_compute; done|apply NoDup_nil_2|set_solver].
  - intros p Hp. change (fend (falloc boot)) with 0x88000 in Hp. unfold page_writable. simpl.
    unfold PAGE_SIZE, MEMORY_END.
    rewrite andb_true_iff, !Z.leb_le. lia.
Qed.
End DemoPlatform.

Lemma frame_alloc_spec_witness :
  ∃ r ph', @frame_alloc DemoPlatform.demo DemoPlatform.boot = Ret (r, ph') ∧
    @phys_inv DemoPlatform.demo 0x80204 ph' ∧
    @alloc_post DemoPlatform.demo 0x80204 DemoPlatform.boot r ph'.
Proof. apply (@frame_alloc_spec DemoPlatform.demo _ 0x80204), DemoPlatform.boot_inv. Defined.

Lemma frame_dealloc_spec_witness :
  (p_owned 0x80204 DemoPlatform.boot 0x80300 ∧ ∃ ph', frame_dealloc 0x80300 DemoPlatform.boot = Ret ph' ∧
     @phys_inv DemoPlatform.demo 0x80204 ph' ∧
     ∀ q, p_owned 0x80204 ph' q ↔ q ≠ 0x80300 ∧ p_owned 0x80204 DemoPlatform.boot q) ∨
  (¬ p_owned 0x80204 DemoPlatform.boot 0x80300 ∧ frame_dealloc 0x80300 DemoPlatform.boot = Panic).
Proof.
  apply (@frame_dealloc_spec DemoPlatform.demo _ 0x80204); [apply DemoPlatform.boot_inv|lia].
Defined.
