(* ===== verification/PageTable.v ===== *)
(** * Sv39 page tables ([os/src/mm/page_table.rs])

    A page table is its root page number and the trackers of the frames that
    hold its interior tables; the entries live in physical memory.  A
    [&mut PageTableEntry] is the pair (table page, index) it points to. *)

From S2P Require Import Prelude Address PhysMem FrameAlloc.

(** ** Entries *)
Definition PTE_V : Z := Z.shiftl 1 0.
Definition PTE_R : Z := Z.shiftl 1 1.
Definition PTE_W : Z := Z.shiftl 1 2.
Definition PTE_X : Z := Z.shiftl 1 3.
Definition PTE_U : Z := Z.shiftl 1 4.
Definition PTE_G : Z := Z.shiftl 1 5.
Definition PTE_A : Z := Z.shiftl 1 6.
Definition PTE_D : Z := Z.shiftl 1 7.

Definition pte_new (ppn flags : Z) : Z := Z.lor (usize (Z.shiftl ppn 10)) flags.
Definition pte_empty : Z := 0.
Definition pte_ppn (bits : Z) : Z :=
  PhysPageNum_from (Z.land (Z.shiftr bits 10) (Z.shiftl 1 44 - 1)).
(** [PTEFlags::from_bits(bits as u8).unwrap()]: all eight bits are flags. *)
Definition pte_flags (bits : Z) : Z := u8 bits.
Definition is_valid (bits : Z) : bool := negb (Z.land (pte_flags bits) PTE_V =? 0).
Definition readable (bits : Z) : bool := negb (Z.land (pte_flags bits) PTE_R =? 0).
Definition writable (bits : Z) : bool := negb (Z.land (pte_flags bits) PTE_W =? 0).
Definition executable (bits : Z) : bool := negb (Z.land (pte_flags bits) PTE_X =? 0).

Record PageTable : Type := mkPageTable { root_ppn : Z; pt_frames : list Z }.

Section Table.
Context {PF : Platform}.

Definition pt_new (ph : Phys) : outcome (PageTable * Phys) :=
  '(r, ph) ← frame_alloc ph;
  frame ← unwrap r;
  Ret (mkPageTable frame [frame], ph).

Definition from_token (satp : Z) : PageTable :=
  mkPageTable (PhysPageNum_from (Z.land satp (Z.shiftl 1 44 - 1))) [].

Definition token (pt : PageTable) : Z := Z.lor (Z.shiftl 8 60) (root_ppn pt).

(** One iteration of [find_pte_create]'s loop at an interior level. *)
Definition create_level (ppn idx : Z) (frames : list Z) (ph : Phys)
    : outcome (Z * list Z * Phys) :=
  pte ← get_pte (mem ph) ppn idx;
  if negb (is_valid pte) then
    '(r, ph) ← frame_alloc ph;
    frame ← unwrap r;
    let pte := pte_new frame PTE_V in
    m ← set_pte (mem ph) ppn idx pte;
    Ret (pte_ppn pte, frames ++ [frame], mkPhys m (falloc ph))
  else Ret (pte_ppn pte, frames, ph).

(** The loop of [find_pte_create]: the last index is the leaf. *)
Fixpoint find_pte_create_loop (idxs : list Z) (ppn : Z) (frames : list Z) (ph : Phys)
    : outcome (option (Z * Z) * list Z * Phys) :=
  match idxs with
  | [] => Ret (None, frames, ph)
  | [idx] => Ret (Some (ppn, idx), frames, ph)
  | idx :: idxs =>
      '(ppn, frames, ph) ← create_level ppn idx frames ph;
      find_pte_create_loop idxs ppn frames ph
  end.

Definition find_pte_create (vpn : Z) (pt : PageTable) (ph : Phys)
    : outcome (option (Z * Z) * PageTable * Phys) :=
  let '(i0, i1, i2) := indexes vpn in
  '(res, frames, ph) ← find_pte_create_loop [i0; i1; i2] (root_ppn pt) (pt_frames pt) ph;
  Ret (res, mkPageTable (root_ppn pt) frames, ph).

(** The loop of [find_pte]: no frame is created, an invalid interior entry
    ends the search. *)
Fixpoint find_pte_loop (idxs : list Z) (ppn : Z) (m : Mem) : outcome (option (Z * Z)) :=
  match idxs with
  | [] => Ret None
  | [idx] => Ret (Some (ppn, idx))
  | idx :: idxs =>
      pte ← get_pte m ppn idx;
      if negb (is_valid pte) then Ret None else find_pte_loop idxs (pte_ppn pte) m
  end.

Definition find_pte (vpn : Z) (pt : PageTable) (m : Mem) : outcome (option (Z * Z)) :=
  let '(i0, i1, i2) := indexes vpn in find_pte_loop [i0; i1; i2] (root_ppn pt) m.

Definition pt_map (vpn ppn flags : Z) (pt : PageTable) (ph : Phys) : outcome (PageTable * Phys) :=
  '(res, pt, ph) ← find_pte_create vpn pt ph;
  '(tp, idx) ← unwrap res;
  pte ← get_pte (mem ph) tp idx;
  _ ← rassert (negb (is_valid pte));
  m ← set_pte (mem ph) tp idx (pte_new ppn (Z.lor flags PTE_V));
  Ret (pt, mkPhys m (falloc ph)).

Definition pt_unmap (vpn : Z) (pt : PageTable) (ph : Phys) : outcome Phys :=
  res ← find_pte vpn pt (mem ph);
  '(tp, idx) ← unwrap res;
  pte ← get_pte (mem ph) tp idx;
  _ ← rassert (is_valid pte);
  m ← set_pte (mem ph) tp idx pte_empty;
  Ret (mkPhys m (falloc ph)).

(** [translate] copies the entry out, valid or not. *)
Definition translate (vpn : Z) (pt : PageTable) (m : Mem) : outcome (option Z) :=
  res ← find_pte vpn pt m;
  match res with
  | None => Ret None
  | Some (tp, idx) => pte ← get_pte m tp idx; Ret (Some pte)
  end.

Definition translate_va (va : Z) (pt : PageTable) (m : Mem) : outcome (option Z) :=
  res ← find_pte (va_floor va) pt m;
  match res with
  | None => Ret None
  | Some (tp, idx) =>
      pte ← get_pte m tp idx;
      let aligned_pa := PhysAddr_of_PhysPageNum (pte_ppn pte) in
      let offset := page_offset va in
      Ret (Some (PhysAddr_from (usize (aligned_pa + offset))))
  end.

(** Dropping a [PageTable] drops its trackers. *)
Definition drop_page_table (pt : PageTable) (ph : Phys) : outcome Phys :=
  drop_frames (pt_frames pt) ph.

(** ** Abstract view: a partial map from page numbers to valid entries *)
Definition pt_view (m : Mem) (pt : PageTable) (vpn : Z) : option Z :=
  match translate vpn pt m with
  | Ret (Some pte) => if is_valid pte then Some pte else None
  | _ => None
  end.
End Table.

(** ** Entry lemmas *)
Lemma PTE_V_range : 0 ≤ PTE_V < 256.
Proof. by vm_compute. Qed.

Lemma pte_new_add ppn flags :
  0 ≤ ppn < 2 ^ 44 → 0 ≤ flags < 256 → pte_new ppn flags = ppn * 1024 + flags.
Proof.
  intros Hp Hf. unfold pte_new. rewrite Z.shiftl_mul_pow2 by lia.
  change (2 ^ 10) with 1024. rewrite wrap_small by lia.
  rewrite <-Z.add_nocarry_lor; [done|].
  apply Z.bits_inj'. intros n Hn. rewrite Z.land_spec, Z.bits_0.
  change 1024 with (2 ^ 10). destruct (Z.lt_ge_cases n 10).
  - rewrite Z.mul_pow2_bits_low by lia. done.
  - rewrite <-(Z.mod_small flags (2 ^ 10)) by lia.
    rewrite (Z.mod_pow2_bits_high flags) by lia. apply andb_false_r.
Qed.

Lemma pte_ppn_div bits : pte_ppn bits = bits / 1024 mod 2 ^ 44.
Proof.
  unfold pte_ppn. rewrite PhysPageNum_from_mod, Z.shiftr_div_pow2 by lia.
  pose proof (land_mask (bits / 2 ^ 10) 44 ltac:(lia)) as H. unfold mask in H.
  rewrite H. rewrite Z.mod_mod by lia. done.
Qed.

Lemma pte_ppn_range bits : 0 ≤ pte_ppn bits < 2 ^ 44.
Proof. rewrite pte_ppn_div. apply Z.mod_pos_bound. lia. Qed.

Lemma pte_ppn_new ppn flags :
  0 ≤ ppn < 2 ^ 44 → 0 ≤ flags < 256 → pte_ppn (pte_new ppn flags) = ppn.
Proof.
  intros. rewrite pte_new_add, pte_ppn_div by done.
  rewrite Z.div_add_l, (Z.div_small flags), Z.add_0_r by lia. apply Z.mod_small. lia.
Qed.

Lemma pte_flags_new ppn flags :
  0 ≤ ppn < 2 ^ 44 → 0 ≤ flags < 256 → pte_flags (pte_new ppn flags) = flags.
Proof.
  intros. rewrite pte_new_add by done. unfold pte_flags, wrap. change (2 ^ 8) with 256.
  replace (ppn * 1024 + flags) with (flags + (ppn * 4) * 256) by lia.
  rewrite Z.mod_add by lia. apply Z.mod_small. lia.
Qed.

Lemma is_valid_odd bits : is_valid bits = Z.odd bits.
Proof.
  unfold is_valid, pte_flags, PTE_V, wrap. change (Z.shiftl 1 0) with (Z.ones 1).
  rewrite Z.land_ones by lia. change (2 ^ 1) with 2.
  rewrite <-(Z.bit0_odd bits), <-(Z.mod_pow2_bits_low bits 8 0) by lia.
  rewrite Z.bit0_odd, Zmod_odd. by destruct (Z.odd _).
Qed.

Lemma pte_new_range ppn flags :
  0 ≤ ppn < 2 ^ 44 → 0 ≤ flags < 256 → 0 ≤ pte_new ppn flags < 2 ^ 64.
Proof. intros. rewrite pte_new_add by done. lia. Qed.

Lemma lor_byte_range a b : 0 ≤ a < 256 → 0 ≤ b < 256 → 0 ≤ Z.lor a b < 256.
Proof.
  intros. split; [apply Z.lor_nonneg; lia|].
  destruct (Z.eq_dec (Z.lor a b) 0) as [->|]; [lia|].
  assert (0 < Z.lor a b) by (assert (0 ≤ Z.lor a b) by (apply Z.lor_nonneg; lia); lia).
  change 256 with (2 ^ 8). apply Z.log2_lt_pow2; [done|].
  rewrite Z.log2_lor by lia. apply Z.max_lub_lt.
  - destruct (Z.eq_dec a 0) as [->|]; [done|]. apply Z.log2_lt_pow2; lia.
  - destruct (Z.eq_dec b 0) as [->|]; [done|]. apply Z.log2_lt_pow2; lia.
Qed.

Lemma is_valid_new ppn flags :
  0 ≤ ppn < 2 ^ 44 → 0 ≤ flags < 256 → is_valid (pte_new ppn flags) = Z.odd flags.
Proof.
  intros. rewrite is_valid_odd, pte_new_add by done.
  rewrite Z.odd_add, Z.odd_mul. change (Z.odd 1024) with false.
  rewrite andb_false_r. by destruct (Z.odd flags).
Qed.

Lemma odd_lor_V flags : Z.odd (Z.lor flags PTE_V) = true.
Proof. rewrite <-Z.bit0_odd, Z.lor_spec. apply orb_true_r. Qed.

(** ** The tree invariant

    [T] maps the path of every interior table (at most two indexes from the
    root) to its page.  Tables are distinct owned frames, exactly those the
    page table tracks, and an interior entry is valid iff [T] has the child it
    points to. *)
Section Tree.
Context {PF : Platform} {PFL : PlatformLaws} (lo : Z).

Record pt_wf (ph : Phys) (pt : PageTable) (T : gmap (list Z) Z) : Prop := {
  wf_root : T !! [] = Some (root_ppn pt);
  wf_path p q : T !! p = Some q → (length p ≤ 2)%nat ∧ Forall (λ i, 0 ≤ i < 512) p;
  wf_parent p i q : T !! (p ++ [i]) = Some q → is_Some (T !! p);
  wf_inj p p' q : T !! p = Some q → T !! p' = Some q → p = p';
  wf_frames q : q ∈ pt_frames pt ↔ ∃ p, T !! p = Some q;
  wf_nodup : NoDup (pt_frames pt);
  wf_owned q : q ∈ pt_frames pt → p_owned lo ph q;
  wf_entry p q i : T !! p = Some q → (length p ≤ 1)%nat → 0 ≤ i < 512 →
    match T !! (p ++ [i]) with
    | Some q' => is_valid (pte_at (mem ph) q i) = true ∧ pte_ppn (pte_at (mem ph) q i) = q'
    | None => is_valid (pte_at (mem ph) q i) = false
    end;
}.

Definition pt_inv (ph : Phys) (pt : PageTable) : Prop := ∃ T, pt_wf ph pt T.

Implicit Types (T : gmap (list Z) Z) (ph : Phys) (pt : PageTable).

Lemma wf_writable ph pt T p q :
  phys_inv lo ph → pt_wf ph pt T → T !! p = Some q → page_writable q = true.
Proof.
  intros [Hfa Hw] Hwf Hq. eapply owned_writable; [done..|].
  apply (wf_owned _ _ _ Hwf), (wf_frames _ _ _ Hwf). eauto.
Qed.

(** The table that holds the leaf entry of [vpn], and that entry. *)
Definition leaf_table T (vpn : Z) : option Z :=
  let '(i0, i1, _) := indexes vpn in T !! [i0; i1].
Definition leaf_index (vpn : Z) : Z := let '(_, _, i2) := indexes vpn in i2.

Lemma find_pte_wf ph pt T vpn :
  phys_inv lo ph → pt_wf ph pt T → 0 ≤ vpn →
  find_pte vpn pt (mem ph) = Ret ((λ tp, (tp, leaf_index vpn)) <$> leaf_table T vpn).
Proof.
  intros Hph Hwf Hv. unfold find_pte, leaf_table, leaf_index.
  destruct (indexes vpn) as [[i0 i1] i2] eqn:Ei.
  apply indexes_range in Ei as (H0 & H1 & H2); [|done].
  cbn [find_pte_loop].
  pose proof (wf_root _ _ _ Hwf) as Hroot.
  rewrite get_pte_Ret by (by eapply wf_writable). cbn [mbind outcome_bind].
  fold (pte_at (mem ph) (root_ppn pt) i0).
  pose proof (wf_entry _ _ _ Hwf [] _ i0 Hroot ltac:(simpl; lia) H0) as He0. simpl in He0.
  destruct (T !! [i0]) as [q1|] eqn:E1.
  - destruct He0 as [-> ->]. cbn [negb].
    rewrite get_pte_Ret by (by eapply wf_writable). cbn [mbind outcome_bind].
    fold (pte_at (mem ph) q1 i1).
    pose proof (wf_entry _ _ _ Hwf [i0] _ i1 E1 ltac:(simpl; lia) H1) as He1. simpl in He1.
    destruct (T !! [i0; i1]) as [q2|]; [destruct He1 as [-> ->]|rewrite He1]; done.
  - rewrite He0. cbn [negb].
    destruct (T !! [i0; i1]) as [q2|] eqn:E2; [|done].
    destruct (wf_parent _ _ _ Hwf [i0] i1 q2 E2). congruence.
Qed.

Lemma leaf_index_range vpn : 0 ≤ vpn → 0 ≤ leaf_index vpn < 512.
Proof.
  intros. unfold leaf_index. destruct (indexes vpn) as [[i0 i1] i2] eqn:Ei.
  by apply indexes_range in Ei as (?&?&?).
Qed.

Lemma translate_wf ph pt T vpn :
  phys_inv lo ph → pt_wf ph pt T → 0 ≤ vpn →
  translate vpn pt (mem ph) =
    Ret ((λ tp, pte_at (mem ph) tp (leaf_index vpn)) <$> leaf_table T vpn).
Proof.
  intros Hph Hwf Hv. unfold translate. erewrite find_pte_wf by done. cbn [mbind outcome_bind].
  destruct (leaf_table T vpn) as [tp|] eqn:E; simpl; [|done].
  unfold leaf_table in E. destruct (indexes vpn) as [[i0 i1] i2].
  by rewrite get_pte_Ret by (by eapply wf_writable).
Qed.

Lemma pt_view_wf ph pt T vpn :
  phys_inv lo ph → pt_wf ph pt T → 0 ≤ vpn →
  pt_view (mem ph) pt vpn =
    tp ← leaf_table T vpn;
    let pte := pte_at (mem ph) tp (leaf_index vpn) in
    if is_valid pte then Some pte else None.
Proof.
  intros Hph Hwf Hv. unfold pt_view. erewrite translate_wf by done.
  by destruct (leaf_table T vpn).
Qed.

(** Two page numbers share a leaf entry only if they are equal. *)
Lemma leaf_inj ph pt T vpn vpn' tp :
  pt_wf ph pt T → 0 ≤ vpn < 2 ^ 27 → 0 ≤ vpn' < 2 ^ 27 →
  leaf_table T vpn = Some tp → leaf_table T vpn' = Some tp →
  leaf_index vpn = leaf_index vpn' → vpn = vpn'.
Proof.
  intros Hwf Hv Hv' H H' Hi. apply indexes_inj; [done..|].
  unfold leaf_table, leaf_index in *.
  destruct (indexes vpn) as [[i0 i1] i2], (indexes vpn') as [[j0 j1] j2].
  pose proof (wf_inj _ _ _ Hwf _ _ _ H H'). congruence.
Qed.

(** Frame rule: the invariant only depends on the interior pages. *)
Lemma pt_wf_frame ph ph' pt T :
  pt_wf ph pt T →
  (∀ q, q ∈ pt_frames pt → same_page (mem ph) (mem ph') q ∧ p_owned lo ph' q) →
  pt_wf ph' pt T.
Proof.
  intros Hwf Hsame. destruct Hwf as [? ? ? ? Hfr ? ? Hent]. split; try done.
  - intros q Hq. by apply Hsame.
  - intros p q i Hp Hl Hi. specialize (Hent p q i Hp Hl Hi).
    rewrite <-(pte_at_ext (mem ph) (mem ph') q i Hi); [done|].
    intros x Hx. symmetry. destruct (Hsame q) as [Hs _]; [apply Hfr; eauto|by apply Hs].
Qed.

Lemma pt_view_frame ph ph' pt vpn :
  phys_inv lo ph → phys_inv lo ph' → pt_inv ph pt → 0 ≤ vpn →
  (∀ q, q ∈ pt_frames pt → same_page (mem ph) (mem ph') q ∧ p_owned lo ph' q) →
  pt_view (mem ph') pt vpn = pt_view (mem ph) pt vpn.
Proof.
  intros Hph Hph' [T Hwf] Hv Hsame.
  pose proof (pt_wf_frame _ _ _ _ Hwf Hsame) as Hwf'.
  rewrite !(pt_view_wf _ pt T) by done.
  destruct (leaf_table T vpn) as [tp|] eqn:E; simpl; [|done].
  rewrite (pte_at_ext (mem ph) (mem ph') tp); [done|by apply leaf_index_range|].
  intros x Hx. symmetry. destruct (Hsame tp) as [Hs _]; [|by apply Hs].
  apply (wf_frames _ _ _ Hwf). unfold leaf_table in E. destruct (indexes vpn) as [[i0 i1] i2]. eauto.
Qed.

(** ** Creating interior tables *)

(** What a table-creating step preserves: it owns more frames, only interior
    pages change, and every leaf keeps its entry. *)
Record grows (ph : Phys) (pt : PageTable) (ph' : Phys) (pt' : PageTable) : Prop := {
  gr_root : root_ppn pt' = root_ppn pt;
  gr_frames q : q ∈ pt_frames pt → q ∈ pt_frames pt';
  gr_new q : q ∈ pt_frames pt' → q ∈ pt_frames pt ∨ ¬ p_owned lo ph q;
  gr_owned q : p_owned lo ph' q ↔ p_owned lo ph q ∨ q ∈ pt_frames pt';
  gr_mem q : p_owned lo ph q → q ∉ pt_frames pt → same_page (mem ph) (mem ph') q;
}.

Lemma grows_refl ph pt : (∀ q, q ∈ pt_frames pt → p_owned lo ph q) → grows ph pt ph pt.
Proof.
  intros H. split; try done; [by left|]. intros q. split; [by left|intros [?|?]; auto].
Qed.

Lemma grows_trans ph pt ph1 pt1 ph2 pt2 :
  grows ph pt ph1 pt1 → grows ph1 pt1 ph2 pt2 → grows ph pt ph2 pt2.
Proof.
  intros [R F N O M] [R' F' N' O' M']. split.
  - congruence.
  - auto.
  - intros q Hq. destruct (N' q Hq) as [Hq1|Hq1]; [auto|]. right. intros Hq0. apply Hq1, O. by left.
  - intros q. rewrite O', O. split; [intros [[?|?]|?]; auto|intros [?|?]; auto].
  - intros q Hq Hn x Hx. rewrite M', M; try done.
    + apply O. by left.
    + intros Hq1. destruct (N q Hq1); done.
Qed.

(** Adding a zeroed table [f] under the invalid entry [i] of table [q]. *)
Section AddTable.
Context (ph ph2 : Phys) (pt : PageTable) (T : gmap (list Z) Z) (p : list Z) (q i f : Z).
Context (Hwf : pt_wf ph pt T) (Hp : T !! p = Some q) (Hl : (length p ≤ 1)%nat)
  (Hi : 0 ≤ i < 512) (Hc : T !! (p ++ [i]) = None) (Hf : ∀ r, T !! r ≠ Some f).
Context (Hsame : ∀ r j, 0 ≤ j < 512 → r ≠ f → (r, j) ≠ (q, i) →
    pte_at (mem ph2) r j = pte_at (mem ph) r j)
  (Hzero : ∀ j, 0 ≤ j < 512 → pte_at (mem ph2) f j = 0)
  (Hentry : is_valid (pte_at (mem ph2) q i) = true ∧ pte_ppn (pte_at (mem ph2) q i) = f)
  (Hown : ∀ x, p_owned lo ph2 x ↔ x = f ∨ p_owned lo ph x).

Let pt2 := mkPageTable (root_ppn pt) (pt_frames pt ++ [f]).
Let T2 := <[p ++ [i] := f]> T.

Lemma added_lookup r x : T2 !! r = Some x ↔ (r = p ++ [i] ∧ x = f) ∨ T !! r = Some x.
Proof.
  unfold T2. rewrite lookup_insert_Some. split; [naive_solver|].
  intros [[-> ->]|Hr]; [by left|right; split; [|done]]. congruence.
Qed.

Lemma added_child r j :
  T2 !! (r ++ [j]) = if decide (r = p ∧ j = i) then Some f else T !! (r ++ [j]).
Proof.
  unfold T2. rewrite lookup_insert. case_decide as Hd; case_decide as Hd'; try done.
  - apply app_inj_tail in Hd as [-> ->]. tauto.
  - destruct Hd' as [-> ->]. done.
Qed.

Lemma added_entry r x j :
  T2 !! r = Some x → (length r ≤ 1)%nat → 0 ≤ j < 512 →
  match T2 !! (r ++ [j]) with
  | Some x' => is_valid (pte_at (mem ph2) x j) = true ∧ pte_ppn (pte_at (mem ph2) x j) = x'
  | None => is_valid (pte_at (mem ph2) x j) = false
  end.
Proof.
  intros Hr Hlen Hj. rewrite added_child. apply added_lookup in Hr as [[-> ->]|Hr].
  - rewrite Hzero by done. rewrite decide_False.
    2:{ intros [Heq _]. apply (f_equal length) in Heq. rewrite length_app in Heq. simpl in Heq. lia. }
    destruct (T !! ((p ++ [i]) ++ [j])) as [x'|] eqn:E; [|by vm_compute].
    destruct (wf_parent _ _ _ Hwf _ _ _ E). congruence.
  - case_decide as Hd.
    + destruct Hd as [-> ->]. assert (x = q) as -> by congruence. done.
    + rewrite Hsame; [by apply (wf_entry _ _ _ Hwf)|done|intros ->; by apply (Hf r)|].
      intros [= -> ->]. apply Hd. split; [|done]. by apply (wf_inj _ _ _ Hwf _ _ q).
Qed.

Lemma added_wf : pt_wf ph2 pt2 T2.
Proof.
  assert (Hnin : f ∉ pt_frames pt) by (rewrite (wf_frames _ _ _ Hwf); intros [r Hr]; by apply (Hf r)).
  split.
  - apply added_lookup. right. apply (wf_root _ _ _ Hwf).
  - intros r x [[-> _]|Hr]%added_lookup; [|by apply (wf_path _ _ _ Hwf) in Hr].
    destruct (wf_path _ _ _ Hwf p q Hp) as [_ Hfp]. rewrite length_app. simpl.
    split; [lia|]. apply Forall_app. auto.
  - intros r j x [[Heq _]|Hr]%added_lookup.
    + apply app_inj_tail in Heq as [-> _]. exists q. apply added_lookup. by right.
    + destruct (wf_parent _ _ _ Hwf _ _ _ Hr) as [y Hy]. exists y. apply added_lookup. by right.
  - intros r r' x [[-> ->]|Hr]%added_lookup [[-> Hx]|Hr']%added_lookup; try done.
    + by destruct (Hf r').
    + subst. by destruct (Hf r).
    + by apply (wf_inj _ _ _ Hwf _ _ x).
  - intros x. simpl. rewrite elem_of_app, list_elem_of_singleton, (wf_frames _ _ _ Hwf).
    setoid_rewrite added_lookup. naive_solver.
  - simpl. apply NoDup_app. split_and!; [apply (wf_nodup _ _ _ Hwf)|set_solver|apply NoDup_singleton].
  - intros x. simpl. rewrite elem_of_app, list_elem_of_singleton, Hown.
    intros [Hx|Hx]; [right; by apply (wf_owned _ _ _ Hwf)|by left].
  - intros r x j. apply added_entry.
Qed.

Lemma added_view vpn :
  phys_inv lo ph → phys_inv lo ph2 → 0 ≤ vpn →
  pt_view (mem ph2) pt2 vpn = pt_view (mem ph) pt vpn.
Proof.
  intros Hph Hph2 Hv. rewrite (pt_view_wf ph pt T), (pt_view_wf ph2 pt2 T2) by (done || apply added_wf).
  pose proof (leaf_index_range vpn Hv) as Hr. unfold leaf_table.
  destruct (indexes vpn) as [[i0 i1] i2].
  change [i0; i1] with ([i0] ++ [i1]). rewrite added_child. case_decide as Hd.
  - destruct Hd as [<- <-]. rewrite Hc. simpl. by rewrite Hzero.
  - destruct (T !! ([i0] ++ [i1])) as [tp|] eqn:E; simpl; [|done].
    rewrite Hsame; [done|done|intros ->; by apply (Hf ([i0] ++ [i1]))|].
    intros [= -> _]. pose proof (wf_inj _ _ _ Hwf _ _ _ Hp E) as ->. simpl in Hl. lia.
Qed.
End AddTable.

(** Linking a fresh table [f] into page [q] of the table. *)
Lemma new_table_grows ph ph1 pt q f x bs :
  (∀ r, r ∈ pt_frames pt → p_owned lo ph r) → q ∈ pt_frames pt →
  ¬ p_owned lo ph f → (∀ r, p_owned lo ph1 r ↔ r = f ∨ p_owned lo ph r) →
  (∀ r, r ≠ f → same_page (mem ph) (mem ph1) r) →
  q * PAGE_SIZE ≤ x → x + Z.of_nat (length bs) ≤ (q + 1) * PAGE_SIZE →
  grows ph pt (mkPhys (mem_write (mem ph1) x bs) (falloc ph1))
    (mkPageTable (root_ppn pt) (pt_frames pt ++ [f])).
Proof.
  intros Hpt Hq Hfno Hown Hsame Hx1 Hx2. split; simpl.
  - done.
  - intros r Hr. apply elem_of_app. by left.
  - intros r. rewrite elem_of_app, list_elem_of_singleton. intros [?| ->]; [by left|by right].
  - intros r. unfold p_owned in *. simpl. rewrite Hown, elem_of_app, list_elem_of_singleton.
    split; [intros [->|?]; auto|]. intros [?|[Hr| ->]]; [by right|right|by left]. auto.
  - intros r Hr Hrn y Hy. assert (r ≠ f) by congruence. assert (r ≠ q) by congruence.
    rewrite mem_write_out; [by apply (Hsame r)|]. unfold PAGE_SIZE in *. lia.
Qed.

(** ** The frames a table needs

    A table owns one frame per path of [T]; mapping [vpn] adds the paths of
    its two interior levels.  The free frames and the frames of the table
    together stay the same. *)
Definition interior (vpn : Z) : gset (list Z) :=
  let '(i0, i1, _) := indexes vpn in {[ [i0]; [i0; i1] ]}.

Definition pt_budget (ph : Phys) (T : gmap (list Z) Z) : Z :=
  free_count (falloc ph) + Z.of_nat (size (dom T)).

Lemma interior_size (vpn : Z) (D : gset (list Z)) : (size (interior vpn ∪ D) ≤ 2 + size D)%nat.
Proof.
  unfold interior. destruct (indexes vpn) as [[i0 i1] i2].
  rewrite size_union_alt, size_union_alt, !size_singleton.
  assert (size (D ∖ ({[ [i0] ]} ∪ {[ [i0; i1] ]})) ≤ size D)%nat by (apply subseteq_size; set_solver).
  assert (size (({[ [i0; i1] ]} : gset (list Z)) ∖ {[ [i0] ]}) ≤ 1)%nat.
  { rewrite <-(size_singleton (C := gset (list Z)) [i0; i1]). apply subseteq_size. set_solver. }
  lia.
Qed.

(** A table that owns only its root has no interior table. *)
Lemma single_table_dom ph pt T :
  pt_wf ph pt T → pt_frames pt = [root_ppn pt] → dom T = {[ [] ]}.
Proof.
  intros Hwf Hfr. pose proof (wf_root _ _ _ Hwf) as Hr. apply set_eq. intros p.
  rewrite elem_of_dom, elem_of_singleton. split; [|intros ->; eauto].
  intros [q Hq]. assert (Hin : q ∈ pt_frames pt) by (apply (wf_frames _ _ _ Hwf); eauto).
  rewrite Hfr, list_elem_of_singleton in Hin. subst q. by apply (wf_inj _ _ _ Hwf _ _ (root_ppn pt)).
Qed.

(** One level of [find_pte_create] whose entry is invalid gets a new table. *)
Lemma create_level_new ph pt T p q i :
  phys_inv lo ph → pt_wf ph pt T → T !! p = Some q → (length p ≤ 1)%nat → 0 ≤ i < 512 →
  T !! (p ++ [i]) = None → 0 < free_count (falloc ph) →
  ∃ f ph',
    create_level q i (pt_frames pt) ph = Ret (f, pt_frames pt ++ [f], ph') ∧
    let pt' := mkPageTable (root_ppn pt) (pt_frames pt ++ [f]) in
    phys_inv lo ph' ∧ pt_wf ph' pt' (<[p ++ [i] := f]> T) ∧
    grows ph pt ph' pt' ∧ free_count (falloc ph') = free_count (falloc ph) - 1 ∧
    ∀ vpn, 0 ≤ vpn → pt_view (mem ph') pt' vpn = pt_view (mem ph) pt vpn.
Proof.
  intros Hph Hwf Hp Hl Hi Ec Hfree.
  assert (Hqw : page_writable q = true) by (by eapply wf_writable).
  assert (Hqf : q ∈ pt_frames pt) by (apply (wf_frames _ _ _ Hwf); eauto).
  unfold create_level. rewrite get_pte_Ret by done. cbn [mbind outcome_bind].
  fold (pte_at (mem ph) q i).
  pose proof (wf_entry _ _ _ Hwf p q i Hp Hl Hi) as He. rewrite Ec in He. rewrite He. cbn [negb].
  destruct (frame_alloc_succeeds lo ph Hph Hfree) as (f & ph1 & E & Hph1 & (Hfw & Hfno & Hown & Hz & Hsame) & Hfc).
  rewrite E. cbn [mbind outcome_bind unwrap]. rewrite set_pte_Ret by done. cbn [mbind outcome_bind].
  destruct (page_writable_spec f Hfw) as (_ & Hfr & _). assert (HV := PTE_V_range).
  rewrite pte_ppn_new by done. set (m2 := mem_write _ _ _). set (ph2 := mkPhys m2 (falloc ph1)).
  assert (Hf : ∀ r, T !! r ≠ Some f).
  { intros r Hr. apply Hfno, (wf_owned _ _ _ Hwf), (wf_frames _ _ _ Hwf). eauto. }
  assert (Hne : q ≠ f) by (intros ->; by apply (Hf p)).
  assert (Hm2 : ∀ r j, 0 ≤ j < 512 → r ≠ f → (r, j) ≠ (q, i) → pte_at m2 r j = pte_at (mem ph) r j).
  { intros r j Hj Hr Hrj. unfold m2. rewrite pte_at_write_other by (done || congruence).
    apply pte_at_ext; [done|]. intros x Hx. by rewrite (Hsame r Hr x Hx). }
  assert (Hmf : ∀ j, 0 ≤ j < 512 → pte_at m2 f j = 0).
  { intros j Hj. unfold m2. rewrite pte_at_write_other by (done || congruence).
    rewrite (pte_at_ext (mem ph1) (λ _, x00) f j Hj); [by vm_compute|]. intros x Hx. by apply Hz. }
  assert (Hent : is_valid (pte_at m2 q i) = true ∧ pte_ppn (pte_at m2 q i) = f).
  { unfold m2. rewrite pte_at_write_same by (by apply pte_new_range).
    rewrite is_valid_new, pte_ppn_new by done. done. }
  exists f, ph2. split; [done|]. simpl. split_and!; [done|by apply (added_wf ph ph2 pt T p q i f)| |done|].
  - apply (new_table_grows ph ph1 pt q f); try done.
    + apply (wf_owned _ _ _ Hwf).
    + lia.
    + rewrite length_to_le_bytes. unfold PAGE_SIZE. lia.
  - intros vpn Hv. by apply (added_view ph ph2 pt T p q i f).
Qed.

(** One level of [find_pte_create] on a well-formed tree. *)
Lemma create_level_wf ph pt T p q i :
  phys_inv lo ph → pt_wf ph pt T → T !! p = Some q → (length p ≤ 1)%nat → 0 ≤ i < 512 →
  Z.of_nat (size ({[ p ++ [i] ]} ∪ dom T)) ≤ pt_budget ph T →
  ∃ q' frames' ph' T',
    create_level q i (pt_frames pt) ph = Ret (q', frames', ph') ∧
    let pt' := mkPageTable (root_ppn pt) frames' in
    phys_inv lo ph' ∧ pt_wf ph' pt' T' ∧ T' !! (p ++ [i]) = Some q' ∧
    dom T' = {[ p ++ [i] ]} ∪ dom T ∧ pt_budget ph' T' = pt_budget ph T ∧ grows ph pt ph' pt' ∧
    ∀ vpn, 0 ≤ vpn → pt_view (mem ph') pt' vpn = pt_view (mem ph) pt vpn.
Proof.
  intros Hph Hwf Hp Hl Hi Hb. destruct (T !! (p ++ [i])) as [q'|] eqn:Ec.
  - pose proof (wf_entry _ _ _ Hwf p q i Hp Hl Hi) as He. rewrite Ec in He. destruct He as [He1 He2].
    unfold create_level. rewrite get_pte_Ret by (by eapply wf_writable). cbn [mbind outcome_bind].
    fold (pte_at (mem ph) q i). rewrite He1, He2. cbn [negb].
    exists q', (pt_frames pt), ph, T. destruct pt; simpl in *. split_and!; try done.
    + assert (p ++ [i] ∈ dom T) by (by apply elem_of_dom_2 in Ec). set_solver.
    + apply grows_refl. apply (wf_owned _ _ _ Hwf).
  - assert (Hs : size ({[ p ++ [i] ]} ∪ dom T) = S (size (dom T))).
    { rewrite size_union, size_singleton; [done|]. apply not_elem_of_dom in Ec. set_solver. }
    destruct (create_level_new ph pt T p q i) as (f & ph' & E & Hph' & Hwf' & Hg & Hf & Hv);
      [done|done|done|done|done|done|unfold pt_budget in Hb; rewrite Hs in Hb; lia|].
    exists f, (pt_frames pt ++ [f]), ph', (<[p ++ [i] := f]> T). split; [done|]. cbv zeta.
    split_and!; try done.
    + by rewrite lookup_insert_eq.
    + apply dom_insert_L.
    + unfold pt_budget. rewrite dom_insert_L, Hs. lia.
Qed.

(** [find_pte_create] builds the two interior levels and changes no mapping. *)
Lemma find_pte_create_wf ph pt T vpn :
  phys_inv lo ph → pt_wf ph pt T → 0 ≤ vpn →
  Z.of_nat (size (interior vpn ∪ dom T)) ≤ pt_budget ph T →
  ∃ tp pt' ph' T',
    find_pte_create vpn pt ph = Ret (Some (tp, leaf_index vpn), pt', ph') ∧
    phys_inv lo ph' ∧ pt_wf ph' pt' T' ∧ leaf_table T' vpn = Some tp ∧
    dom T' = interior vpn ∪ dom T ∧ pt_budget ph' T' = pt_budget ph T ∧ grows ph pt ph' pt' ∧
    ∀ v, 0 ≤ v → pt_view (mem ph') pt' v = pt_view (mem ph) pt v.
Proof.
  intros Hph Hwf Hv. unfold find_pte_create, leaf_index, leaf_table, interior.
  destruct (indexes vpn) as [[i0 i1] i2] eqn:Ei. intros Hb.
  apply indexes_range in Ei as (H0 & H1 & H2); [|done]. cbn [find_pte_create_loop].
  destruct (create_level_wf ph pt T [] (root_ppn pt) i0) as
    (q1 & fr1 & ph1 & T1 & E1 & Hph1 & Hwf1 & Hc1 & Hd1 & Hb1 & Hg1 & Hv1);
    [done|done|apply (wf_root _ _ _ Hwf)|simpl; lia|done| |].
  { etrans; [|exact Hb]. apply inj_le, subseteq_size. set_solver. }
  rewrite E1. cbn [mbind outcome_bind]. simpl in Hd1.
  destruct (create_level_wf ph1 (mkPageTable (root_ppn pt) fr1) T1 [i0] q1 i1) as
    (q2 & fr2 & ph2 & T2 & E2 & Hph2 & Hwf2 & Hc2 & Hd2 & Hb2 & Hg2 & Hv2);
    [done|done|done|simpl; lia|done| |].
  { rewrite Hb1, Hd1. etrans; [|exact Hb]. apply inj_le, subseteq_size. set_solver. }
  simpl in E2, Hd2. rewrite E2. cbn [mbind outcome_bind]. simpl in *.
  exists q2, (mkPageTable (root_ppn pt) fr2), ph2, T2. split_and!; try done.
  - rewrite Hd2, Hd1. set_solver.
  - congruence.
  - by eapply grows_trans.
  - intros v Hv'. by rewrite Hv2, Hv1.
Qed.

(** ** Writing a leaf entry *)
Section WriteLeaf.
Context (ph : Phys) (pt : PageTable) (T : gmap (list Z) Z) (vpn tp pte : Z).
Context (Hph : phys_inv lo ph) (Hwf : pt_wf ph pt T) (Hv : 0 ≤ vpn < 2 ^ 27)
  (Hleaf : leaf_table T vpn = Some tp) (Hpte : 0 ≤ pte < 2 ^ 64).

Let ph2 := mkPhys
  (mem_write (mem ph) (tp * PAGE_SIZE + 8 * leaf_index vpn) (to_le_bytes 8 pte)) (falloc ph).

Lemma leaf_path : ∃ p, T !! p = Some tp ∧ length p = 2%nat.
Proof. unfold leaf_table in Hleaf. destruct (indexes vpn) as [[i0 i1] i2]. eauto. Qed.

Lemma leaf_writable : page_writable tp = true.
Proof. destruct leaf_path as (p & Hp & _). by eapply wf_writable. Qed.

Lemma leaf_in_frames : tp ∈ pt_frames pt.
Proof. destruct leaf_path as (p & Hp & _). apply (wf_frames _ _ _ Hwf). eauto. Qed.

Lemma write_leaf_wf : phys_inv lo ph2 ∧ pt_wf ph2 pt T.
Proof.
  split; [done|]. destruct leaf_path as (p' & Hp' & Hl').
  pose proof Hwf as [? ? ? Hinj ? ? ? Hent]. split; try done.
  intros p q i Hp Hl Hi. unfold ph2. simpl. rewrite pte_at_write_other.
  - by apply Hent.
  - apply leaf_index_range. lia.
  - done.
  - intros [= -> _]. rewrite (Hinj p p' q) in Hl; [lia|done..].
Qed.

Lemma write_leaf_view v :
  0 ≤ v < 2 ^ 27 →
  pt_view (mem ph2) pt v =
    if decide (v = vpn) then if is_valid pte then Some pte else None else pt_view (mem ph) pt v.
Proof.
  intros Hv'. destruct write_leaf_wf as [Hph2 Hwf2].
  rewrite (pt_view_wf ph2 pt T), (pt_view_wf ph pt T) by (done || lia).
  unfold ph2. simpl. case_decide as Hd.
  - subst v. rewrite Hleaf. simpl. by rewrite pte_at_write_same.
  - destruct (leaf_table T v) as [tp'|] eqn:E'; simpl; [|done].
    rewrite pte_at_write_other; [done|apply leaf_index_range; lia..|].
    intros [= -> Hi]. apply Hd. symmetry. by apply (leaf_inj ph pt T vpn v tp').
Qed.

Lemma write_leaf_grows : grows ph pt ph2 pt.
Proof.
  split; simpl; try done; [by left| |].
  - intros q. unfold p_owned. simpl. split; [by left|].
    intros [?|Hq]; [done|by apply (wf_owned _ _ _ Hwf)].
  - intros q Hq Hnin x Hx. apply mem_write_out. rewrite length_to_le_bytes.
    pose proof leaf_in_frames. assert (q ≠ tp) by congruence.
    pose proof (leaf_index_range vpn ltac:(lia)). unfold PAGE_SIZE in *. lia.
Qed.
End WriteLeaf.

(** ** [map] and [unmap] as operations on the view *)
Lemma pt_map_wf ph pt T vpn ppn flags :
  phys_inv lo ph → pt_wf ph pt T → 0 ≤ vpn < 2 ^ 27 → 0 ≤ ppn < 2 ^ 44 → 0 ≤ flags < 256 →
  Z.of_nat (size (interior vpn ∪ dom T)) ≤ pt_budget ph T →
  match pt_view (mem ph) pt vpn with
  | Some _ => pt_map vpn ppn flags pt ph = Panic
  | None => ∃ pt' ph' T', pt_map vpn ppn flags pt ph = Ret (pt', ph') ∧
      phys_inv lo ph' ∧ pt_wf ph' pt' T' ∧ dom T' = interior vpn ∪ dom T ∧
      pt_budget ph' T' = pt_budget ph T ∧ grows ph pt ph' pt' ∧
      ∀ v, 0 ≤ v < 2 ^ 27 → pt_view (mem ph') pt' v =
        if decide (v = vpn) then Some (pte_new ppn (Z.lor flags PTE_V))
        else pt_view (mem ph) pt v
  end.
Proof.
  intros Hph Hwf Hv Hp Hfl Hb.
  destruct (find_pte_create_wf ph pt T vpn Hph Hwf ltac:(lia) Hb) as
    (tp & pt1 & ph1 & T1 & E & Hph1 & Hwf1 & Hleaf & Hd & Hb1 & Hg & Hview).
  assert (Hw := leaf_writable ph1 pt1 T1 vpn tp Hph1 Hwf1 Hleaf).
  assert (Hfl' : 0 ≤ Z.lor flags PTE_V < 256) by (apply lor_byte_range; [done|apply PTE_V_range]).
  assert (Hvv := pt_view_wf ph1 pt1 T1 vpn Hph1 Hwf1 ltac:(lia)).
  rewrite Hleaf, Hview in Hvv by lia. simpl in Hvv.
  unfold pt_map. rewrite E. cbn [mbind outcome_bind unwrap].
  rewrite get_pte_Ret by done. cbn [mbind outcome_bind]. fold (pte_at (mem ph1) tp (leaf_index vpn)).
  destruct (is_valid (pte_at (mem ph1) tp (leaf_index vpn))); rewrite Hvv; [done|].
  cbn [negb rassert mbind outcome_bind]. rewrite set_pte_Ret by done. cbn [mbind outcome_bind].
  eexists _, _, T1. split; [done|].
  assert (Hpte : 0 ≤ pte_new ppn (Z.lor flags PTE_V) < 2 ^ 64) by (by apply pte_new_range).
  destruct (write_leaf_wf ph1 pt1 T1 vpn tp (pte_new ppn (Z.lor flags PTE_V)) Hph1 Hwf1 Hv Hleaf) as [Hph2 Hwf2].
  split_and!; [done|done|done|done| |].
  - eapply grows_trans; [done|]. by apply (write_leaf_grows ph1 pt1 T1).
  - intros v Hv'. erewrite write_leaf_view by done. rewrite is_valid_new, odd_lor_V by done.
    case_decide; [done|]. apply Hview. lia.
Qed.

(** Two free frames are always enough. *)
Lemma pt_map_total ph pt vpn ppn flags :
  phys_inv lo ph → pt_inv ph pt → 0 ≤ vpn < 2 ^ 27 → 0 ≤ ppn < 2 ^ 44 → 0 ≤ flags < 256 →
  2 ≤ free_count (falloc ph) →
  match pt_view (mem ph) pt vpn with
  | Some _ => pt_map vpn ppn flags pt ph = Panic
  | None => ∃ pt' ph', pt_map vpn ppn flags pt ph = Ret (pt', ph') ∧
      phys_inv lo ph' ∧ pt_inv ph' pt' ∧ grows ph pt ph' pt' ∧
      free_count (falloc ph) - 2 ≤ free_count (falloc ph') ∧
      ∀ v, 0 ≤ v < 2 ^ 27 → pt_view (mem ph') pt' v =
        if decide (v = vpn) then Some (pte_new ppn (Z.lor flags PTE_V))
        else pt_view (mem ph) pt v
  end.
Proof.
  intros Hph [T Hwf] Hv Hp Hfl Hfree. pose proof (interior_size vpn (dom T)) as Hs.
  pose proof (pt_map_wf ph pt T vpn ppn flags Hph Hwf Hv Hp Hfl) as Hm. unfold pt_budget in Hm.
  specialize (Hm ltac:(lia)). destruct (pt_view (mem ph) pt vpn); [done|].
  destruct Hm as (pt' & ph' & T' & E & Hph' & Hwf' & Hd & Hb & Hg & Hview).
  exists pt', ph'. split_and!; try done; [by eexists|]. rewrite Hd in Hb. lia.
Qed.

Lemma pt_unmap_total ph pt vpn :
  phys_inv lo ph → pt_inv ph pt → 0 ≤ vpn < 2 ^ 27 →
  match pt_view (mem ph) pt vpn with
  | None => pt_unmap vpn pt ph = Panic
  | Some _ => ∃ ph', pt_unmap vpn pt ph = Ret ph' ∧
      phys_inv lo ph' ∧ pt_inv ph' pt ∧ grows ph pt ph' pt ∧ falloc ph' = falloc ph ∧
      ∀ v, 0 ≤ v < 2 ^ 27 → pt_view (mem ph') pt v =
        if decide (v = vpn) then None else pt_view (mem ph) pt v
  end.
Proof.
  intros Hph [T Hwf] Hv. rewrite (pt_view_wf ph pt T) by (done || lia).
  unfold pt_unmap. rewrite (find_pte_wf ph pt T) by (done || lia). cbn [mbind outcome_bind].
  destruct (leaf_table T vpn) as [tp|] eqn:Hleaf; [|done].
  assert (Hw := leaf_writable ph pt T vpn tp Hph Hwf Hleaf). simpl.
  rewrite get_pte_Ret by done. cbn [mbind outcome_bind]. fold (pte_at (mem ph) tp (leaf_index vpn)).
  destruct (is_valid (pte_at (mem ph) tp (leaf_index vpn))); [|done]. cbn [rassert mbind outcome_bind].
  rewrite set_pte_Ret by done. cbn [mbind outcome_bind]. eexists. split; [done|].
  destruct (write_leaf_wf ph pt T vpn tp pte_empty Hph Hwf Hv Hleaf) as [Hph2 Hwf2].
  split_and!; [done|by eexists|by apply (write_leaf_grows ph pt T)|done|].
  intros v Hv'. by erewrite write_leaf_view.
Qed.

(** A fresh table maps nothing. *)
Lemma pt_new_total ph :
  phys_inv lo ph → 0 < free_count (falloc ph) →
  ∃ pt ph', pt_new ph = Ret (pt, ph') ∧ phys_inv lo ph' ∧ pt_inv ph' pt ∧
    ¬ p_owned lo ph (root_ppn pt) ∧ pt_frames pt = [root_ppn pt] ∧
    (∀ q, p_owned lo ph' q ↔ q = root_ppn pt ∨ p_owned lo ph q) ∧
    (∀ q, p_owned lo ph q → same_page (mem ph) (mem ph') q) ∧
    free_count (falloc ph') = free_count (falloc ph) - 1 ∧
    ∀ v, 0 ≤ v → pt_view (mem ph') pt v = None.
Proof.
  intros Hph Hfree.
  destruct (frame_alloc_succeeds lo ph Hph Hfree) as (f & ph1 & E & Hph1 & Hpost & Hfc).
  destruct Hpost as (Hfw & Hfno & Hown & Hz & Hsame).
  unfold pt_new. rewrite E. cbn [mbind outcome_bind unwrap].
  eexists (mkPageTable f [f]), ph1. simpl.
  assert (Hwf : pt_wf ph1 (mkPageTable f [f]) {[ [] := f ]}).
  { split; simpl.
    - apply lookup_singleton_eq.
    - intros p q [<- <-]%lookup_singleton_Some. split; [simpl; lia|done].
    - intros p i q [Hp _]%lookup_singleton_Some. by destruct p.
    - intros p p' q [<- <-]%lookup_singleton_Some [<- _]%lookup_singleton_Some. done.
    - intros q. rewrite list_elem_of_singleton. setoid_rewrite lookup_singleton_Some. naive_solver.
    - apply NoDup_singleton.
    - intros q ->%list_elem_of_singleton. apply Hown. by left.
    - intros p q i [<- <-]%lookup_singleton_Some _ Hi. rewrite lookup_singleton_ne by done.
      rewrite (pte_at_ext (mem ph1) (λ _, x00) f i Hi); [by vm_compute|]. intros x Hx. by apply Hz. }
  split_and!; try done.
  - by eexists.
  - intros q Hq. apply Hsame. congruence.
  - intros v Hv. rewrite (pt_view_wf ph1 _ _ v Hph1 Hwf Hv). unfold leaf_table.
    destruct (indexes v) as [[i0 i1] i2]. by rewrite lookup_singleton_ne.
Qed.

(** Dropping a table gives back exactly its interior frames. *)
Lemma drop_page_table_total ph pt :
  phys_inv lo ph → pt_inv ph pt →
  ∃ ph', drop_page_table pt ph = Ret ph' ∧ phys_inv lo ph' ∧ mem ph' = mem ph ∧
    fend (falloc ph') = fend (falloc ph) ∧
    ∀ q, p_owned lo ph' q ↔ q ∉ pt_frames pt ∧ p_owned lo ph q.
Proof.
  intros Hph [T Hwf]. apply drop_frames_total; [done|apply (wf_nodup _ _ _ Hwf)|apply (wf_owned _ _ _ Hwf)].
Qed.

(** [translate] and [translate_va] read the view. *)
Lemma translate_view ph pt vpn pte :
  phys_inv lo ph → pt_inv ph pt → 0 ≤ vpn →
  pt_view (mem ph) pt vpn = Some pte → translate vpn pt (mem ph) = Ret (Some pte).
Proof.
  intros Hph [T Hwf] Hv. rewrite (pt_view_wf ph pt T), (translate_wf ph pt T) by done.
  destruct (leaf_table T vpn) as [tp|]; simpl; [|done].
  by destruct (is_valid _); intros [= <-].
Qed.

(** The address a translated page gives. *)
Lemma translate_va_of va pt m pte :
  translate (va_floor va) pt m = Ret (Some pte) →
  translate_va va pt m = Ret (Some (pte_ppn pte * PAGE_SIZE + va mod PAGE_SIZE)).
Proof.
  unfold translate, translate_va. destruct (find_pte (va_floor va) pt m) as [[[tp idx]|]| |]; [|done..].
  cbn [mbind outcome_bind] in *. destruct (get_pte m tp idx); [|done..].
  cbn [mbind outcome_bind] in *. intros [= ->]. do 2 f_equal.
  pose proof (pte_ppn_range pte). rewrite PhysAddr_of_PhysPageNum_small by done.
  rewrite page_offset_mod. pose proof (Z.mod_pos_bound va PAGE_SIZE ltac:(done)).
  unfold PAGE_SIZE in *. rewrite (wrap_small 64) by lia.
  unfold PhysAddr_from. change PA_WIDTH_SV39 with 56. rewrite land_mask by lia.
  apply Z.mod_small. lia.
Qed.

Lemma translate_va_view ph pt va pte :
  phys_inv lo ph → pt_inv ph pt → 0 ≤ va →
  pt_view (mem ph) pt (va_floor va) = Some pte →
  translate_va va pt (mem ph) = Ret (Some (pte_ppn pte * PAGE_SIZE + va mod PAGE_SIZE)).
Proof.
  intros Hph Hpt Hv Hview. apply translate_va_of, (translate_view ph pt); [done|done| |done].
  unfold va_floor, PAGE_SIZE. by apply Z.div_pos.
Qed.

Lemma from_token_token pt :
  0 ≤ root_ppn pt < 2 ^ 44 → root_ppn (from_token (token pt)) = root_ppn pt.
Proof.
  intros Hr. unfold from_token, token. simpl. rewrite PhysPageNum_from_mod.
  change (Z.shiftl 1 44 - 1) with (Z.ones 44). rewrite Z.land_ones by lia.
  rewrite Z.mod_mod by lia. apply Z.bits_inj'. intros n Hn.
  destruct (Z.lt_ge_cases n 44).
  - rewrite Z.mod_pow2_bits_low, Z.lor_spec by lia.
    rewrite (Z.shiftl_spec_low 8) by lia. done.
  - rewrite Z.mod_pow2_bits_high by lia.
    rewrite <-(Z.mod_small (root_ppn pt) (2 ^ 44)) by done. by rewrite Z.mod_pow2_bits_high by lia.
Qed.

(** A table reached through its token answers like the table itself. *)
Lemma translate_token vpn pt m :
  0 ≤ root_ppn pt < 2 ^ 44 → translate vpn (from_token (token pt)) m = translate vpn pt m.
Proof. intros. unfold translate, find_pte. by rewrite from_token_token. Qed.

Lemma translate_va_token va pt m :
  0 ≤ root_ppn pt < 2 ^ 44 → translate_va va (from_token (token pt)) m = translate_va va pt m.
Proof. intros. unfold translate_va, find_pte. by rewrite from_token_token. Qed.

Lemma pt_root_range ph pt : phys_inv lo ph → pt_inv ph pt → 0 ≤ root_ppn pt < 2 ^ 44.
Proof.
  intros Hph [T Hwf]. pose proof (wf_writable ph pt T [] _ Hph Hwf (wf_root _ _ _ Hwf)) as Hw.
  by destruct (page_writable_spec _ Hw) as (_ & ? & _).
Qed.

(** ** A run of operations and its specification *)
Inductive pt_op : Type :=
  | OpMap (vpn ppn flags : Z)
  | OpUnmap (vpn : Z).

Definition pt_op_ok (o : pt_op) : Prop :=
  match o with
  | OpMap vpn ppn flags => 0 ≤ vpn < 2 ^ 27 ∧ 0 ≤ ppn < 2 ^ 44 ∧ 0 ≤ flags < 256
  | OpUnmap vpn => 0 ≤ vpn < 2 ^ 27
  end.

Definition pt_run_op (o : pt_op) (st : PageTable * Phys) : outcome (PageTable * Phys) :=
  match o with
  | OpMap vpn ppn flags => pt_map vpn ppn flags st.1 st.2
  | OpUnmap vpn => ph ← pt_unmap vpn st.1 st.2; Ret (st.1, ph)
  end.

Fixpoint pt_run (os : list pt_op) (st : PageTable * Phys) : outcome (PageTable * Phys) :=
  match os with
  | [] => Ret st
  | o :: os => st ← pt_run_op o st; pt_run os st
  end.

(** The specification: a finite map of entries, partial operations. *)
Definition spec_op (o : pt_op) (M : gmap Z Z) : option (gmap Z Z) :=
  match o with
  | OpMap vpn ppn flags =>
      if decide (M !! vpn = None) then Some (<[vpn := pte_new ppn (Z.lor flags PTE_V)]> M) else None
  | OpUnmap vpn => if decide (M !! vpn = None) then None else Some (delete vpn M)
  end.

Fixpoint spec_run (os : list pt_op) (M : gmap Z Z) : option (gmap Z Z) :=
  match os with
  | [] => Some M
  | o :: os => M ← spec_op o M; spec_run os M
  end.

(** The table [pt] represents [M]. *)
Definition represents (ph : Phys) (pt : PageTable) (M : gmap Z Z) : Prop :=
  ∀ v, 0 ≤ v < 2 ^ 27 → pt_view (mem ph) pt v = M !! v.

Lemma pt_run_op_sim ph pt o M :
  phys_inv lo ph → pt_inv ph pt → represents ph pt M → pt_op_ok o → 2 ≤ free_count (falloc ph) →
  match spec_op o M with
  | None => pt_run_op o (pt, ph) = Panic
  | Some M' => ∃ pt' ph', pt_run_op o (pt, ph) = Ret (pt', ph') ∧
      phys_inv lo ph' ∧ pt_inv ph' pt' ∧ represents ph' pt' M' ∧ grows ph pt ph' pt' ∧
      free_count (falloc ph) - 2 ≤ free_count (falloc ph')
  end.
Proof.
  intros Hph Hpt Hrep Hok Hfree. destruct o as [vpn ppn flags|vpn]; simpl in *.
  - destruct Hok as (Hv & Hp & Hf).
    pose proof (pt_map_total ph pt vpn ppn flags Hph Hpt Hv Hp Hf Hfree) as Hm.
    rewrite Hrep in Hm by done. case_decide as Hd; [rewrite Hd in Hm|by destruct (M !! vpn)].
    destruct Hm as (pt' & ph' & E & ? & ? & ? & ? & Hview). exists pt', ph'. split_and!; try done.
    intros v Hv'. rewrite Hview, lookup_insert by done.
    case_decide; case_decide; subst; try done. by apply Hrep.
  - pose proof (pt_unmap_total ph pt vpn Hph Hpt Hok) as Hm. rewrite Hrep in Hm by done.
    case_decide as Hd; [rewrite Hd in Hm; by rewrite Hm|].
    destruct (M !! vpn) as [x|]; [|done]. destruct Hm as (ph' & E & ? & ? & ? & Hfa & Hview).
    exists pt, ph'. rewrite E. split_and!; try done; [|by rewrite Hfa; lia].
    intros v Hv'. rewrite Hview, lookup_delete by done.
    case_decide; case_decide; subst; try done. by apply Hrep.
Qed.

Lemma pt_run_sim os ph pt M :
  phys_inv lo ph → pt_inv ph pt → represents ph pt M → Forall pt_op_ok os →
  2 * Z.of_nat (length os) ≤ free_count (falloc ph) →
  match spec_run os M with
  | None => pt_run os (pt, ph) = Panic
  | Some M' => ∃ pt' ph', pt_run os (pt, ph) = Ret (pt', ph') ∧
      phys_inv lo ph' ∧ pt_inv ph' pt' ∧ represents ph' pt' M' ∧ grows ph pt ph' pt'
  end.
Proof.
  revert ph pt M. induction os as [|o os IH]; intros ph pt M Hph Hpt Hrep Hok Hfree; simpl in *.
  - exists pt, ph. split_and!; try done. apply grows_refl. destruct Hpt as [T Hwf]. apply (wf_owned _ _ _ Hwf).
  - apply Forall_cons in Hok as [Ho Hok].
    pose proof (pt_run_op_sim ph pt o M Hph Hpt Hrep Ho ltac:(lia)) as Hs.
    destruct (spec_op o M) as [M'|]; [|by rewrite Hs].
    destruct Hs as (pt' & ph' & E & Hph' & Hpt' & Hrep' & Hg & Hfc). rewrite E.
    cbn [mbind outcome_bind option_bind].
    pose proof (IH ph' pt' M' Hph' Hpt' Hrep' Hok ltac:(lia)) as Hs.
    destruct (spec_run os M') as [M2|]; [|done].
    destruct Hs as (pt2 & ph2 & E2 & ? & ? & ? & ?). exists pt2, ph2. split_and!; try done.
    by eapply grows_trans.
Qed.

(** [new], a run of operations, then the drop. *)
Definition pt_lifetime (os : list pt_op) (ph : Phys) : outcome (PageTable * Phys * Phys) :=
  '(pt, ph) ← pt_new ph;
  '(pt, ph) ← pt_run os (pt, ph);
  ph' ← drop_page_table pt ph;
  Ret (pt, ph, ph').
End Tree.

(** C34: page tables refine finite maps. Over the whole life of a table - [new],
    any sequence of [map] and [unmap], drop - the code panics exactly where the
    partial-map specification is undefined (mapping a mapped page, unmapping
    an unmapped one); otherwise the entries in memory read back as the
    specified map, and dropping the table returns every interior frame, no
    more and no fewer, leaving the pages of all other owners untouched. *)
Theorem page_table_refines `{PlatformLaws} lo ph os :
  phys_inv lo ph → Forall pt_op_ok os → 1 + 2 * Z.of_nat (length os) ≤ free_count (falloc ph) →
  match spec_run os ∅ with
  | None => pt_lifetime os ph = Panic
  | Some M => ∃ pt ph1 ph2, pt_lifetime os ph = Ret (pt, ph1, ph2) ∧
      represents ph1 pt M ∧ phys_inv lo ph2 ∧
      (∀ q, p_owned lo ph2 q ↔ p_owned lo ph q) ∧
      (∀ q, p_owned lo ph q → same_page (mem ph) (mem ph2) q)
  end.
Proof.
  intros Hph Hok Hfree. unfold pt_lifetime.
  destruct (pt_new_total lo ph Hph ltac:(lia)) as
    (pt & ph0 & E & Hph0 & Hpt0 & Hroot & Hfr & Hown & Hsame & Hfc & Hview).
  rewrite E. cbn [mbind outcome_bind].
  pose proof (pt_run_sim lo os ph0 pt ∅ Hph0 Hpt0) as Hs.
  destruct (spec_run os ∅) as [M|].
  2:{ by rewrite Hs by (done || lia || (intros v Hv; rewrite Hview by lia; done)). }
  destruct Hs as (pt1 & ph1 & E1 & Hph1 & Hpt1 & Hrep & [Gr Gf Gn Go Gm]);
    [intros v Hv; rewrite Hview by lia; done|done|lia|].
  rewrite E1. cbn [mbind outcome_bind].
  destruct (drop_page_table_total lo ph1 pt1 Hph1 Hpt1) as (ph2 & E2 & Hph2 & Hm2 & _ & Ho2).
  rewrite E2. exists pt1, ph1, ph2. split_and!; try done.
  - intros q. rewrite Ho2, Go, Hown. split.
    + intros [Hn [[->|?]|?]]; [|done|done]. destruct Hn. apply Gf. rewrite Hfr. set_solver.
    + intros Hq. split; [|by left; right]. intros Hin. destruct (Gn q Hin) as [Hin'|Hno].
      * rewrite Hfr, list_elem_of_singleton in Hin'. congruence.
      * apply Hno, Hown. by right.
  - intros q Hq x Hx. rewrite Hm2, (Gm q); [by apply (Hsame q)| | |done].
    + apply Hown. by right.
    + rewrite Hfr, list_elem_of_singleton. congruence.
Qed.

(** [map] followed by a translation. Mapping a free page of the table
    makes every address of that page translate to the same offset of the
    frame - also through the token the hardware and the syscalls use - with
    exactly the flags given, and leaves the translation of every other page
    alone; mapping a page that is already mapped panics. *)
Theorem map_translate_va `{PlatformLaws} lo ph pt vpn ppn flags :
  phys_inv lo ph → pt_inv lo ph pt → 0 ≤ vpn < 2 ^ 27 → 0 ≤ ppn < 2 ^ 44 → 0 ≤ flags < 256 →
  2 ≤ free_count (falloc ph) →
  ((∃ pte, pt_view (mem ph) pt vpn = Some pte) ∧ pt_map vpn ppn flags pt ph = Panic) ∨
  ∃ pt' ph', pt_map vpn ppn flags pt ph = Ret (pt', ph') ∧ phys_inv lo ph' ∧ pt_inv lo ph' pt' ∧
    (∀ va, 0 ≤ va < 2 ^ 39 → va_floor va = vpn →
       translate_va va (from_token (token pt')) (mem ph') = Ret (Some (ppn * PAGE_SIZE + va mod PAGE_SIZE))) ∧
    (∃ pte, translate vpn pt' (mem ph') = Ret (Some pte) ∧ pte_flags pte = Z.lor flags PTE_V) ∧
    (∀ v, 0 ≤ v < 2 ^ 27 → v ≠ vpn → pt_view (mem ph') pt' v = pt_view (mem ph) pt v).
Proof.
  intros Hph Hpt Hv Hp Hf Hfree.
  pose proof (pt_map_total lo ph pt vpn ppn flags Hph Hpt Hv Hp Hf Hfree) as Hm.
  destruct (pt_view (mem ph) pt vpn) as [pte|]; [left; eauto|right].
  destruct Hm as (pt' & ph' & E & Hph' & Hpt' & _ & _ & Hview). exists pt', ph'.
  assert (Hfl : 0 ≤ Z.lor flags PTE_V < 256) by (apply lor_byte_range; [done|apply PTE_V_range]).
  assert (Hvpn := Hview vpn Hv). rewrite decide_True in Hvpn by done.
  split_and!; try done.
  - intros va Hva Heq. rewrite translate_va_token by (by eapply pt_root_range).
    rewrite (translate_va_view lo ph' pt' va _ Hph' Hpt' ltac:(lia)) by (by rewrite Heq).
    by rewrite pte_ppn_new.
  - eexists. split; [apply (translate_view lo ph' pt' vpn _ Hph' Hpt' ltac:(lia) Hvpn)|by apply pte_flags_new].
  - intros v Hv' Hne. rewrite Hview by done. by rewrite decide_False.
Qed.

(** ** Witnesses *)
Lemma page_table_refines_witness :
  ∃ pt ph1 ph2, @pt_lifetime DemoPlatform.demo
      [OpMap 5 0x80300 0x16; OpMap 0x40005 0x80301 0x1e; OpUnmap 5] DemoPlatform.boot = Ret (pt, ph1, ph2) ∧
    @represents DemoPlatform.demo ph1 pt {[ 0x40005 := pte_new 0x80301 0x1f ]} ∧
    @phys_inv DemoPlatform.demo 0x80204 ph2 ∧
    (∀ q, p_owned 0x80204 ph2 q ↔ p_owned 0x80204 DemoPlatform.boot q) ∧
    (∀ q, p_owned 0x80204 DemoPlatform.boot q → same_page (mem DemoPlatform.boot) (mem ph2) q).
Proof.
  apply (@page_table_refines DemoPlatform.demo _ 0x80204 DemoPlatform.boot
    [OpMap 5 0x80300 0x16; OpMap 0x40005 0x80301 0x1e; OpUnmap 5]).
  - apply DemoPlatform.boot_inv.
  - repeat (constructor; [by vm_compute|]). constructor.
  - by vm_compute.
Defined.

(** A fresh table of the demo platform. *)
Lemma demo_table :
  ∃ pt ph, @pt_new DemoPlatform.demo DemoPlatform.boot = Ret (pt, ph) ∧
    @phys_inv DemoPlatform.demo 0x80204 ph ∧ @pt_inv 0x80204 ph pt ∧ 2 ≤ free_count (falloc ph).
Proof.
  destruct (@pt_new_total DemoPlatform.demo _ 0x80204 DemoPlatform.boot) as (pt & ph & E & ? & ? & _ & _ & _ & _ & Hf & _).
  - apply DemoPlatform.boot_inv.
  - by vm_compute.
  - exists pt, ph. split_and!; try done. rewrite Hf. by vm_compute.
Qed.

Lemma map_translate_va_witness :
  ∃ pt ph, @pt_new DemoPlatform.demo DemoPlatform.boot = Ret (pt, ph) ∧
  (((∃ pte, @pt_view DemoPlatform.demo (mem ph) pt 7 = Some pte) ∧
     @pt_map DemoPlatform.demo 7 0x80300 0x16 pt ph = Panic) ∨
   ∃ pt' ph', @pt_map DemoPlatform.demo 7 0x80300 0x16 pt ph = Ret (pt', ph') ∧
     @phys_inv DemoPlatform.demo 0x80204 ph' ∧ @pt_inv 0x80204 ph' pt' ∧
     (∀ va, 0 ≤ va < 2 ^ 39 → va_floor va = 7 →
       @translate_va DemoPlatform.demo va (from_token (token pt')) (mem ph') =
         Ret (Some (0x80300 * PAGE_SIZE + va mod PAGE_SIZE))) ∧
     (∃ pte, @translate DemoPlatform.demo 7 pt' (mem ph') = Ret (Some pte) ∧ pte_flags pte = 0x17) ∧
     (∀ v, 0 ≤ v < 2 ^ 27 → v ≠ 7 →
       @pt_view DemoPlatform.demo (mem ph') pt' v = @pt_view DemoPlatform.demo (mem ph) pt v)).
Proof.
  destruct demo_table as (pt & ph & E & Hph & Hpt & Hf). exists pt, ph. split; [done|].
  apply (@map_translate_va DemoPlatform.demo _ 0x80204 ph pt 7 0x80300 0x16); done.
Defined.
