(* ===== verification/MemorySet.v ===== *)
(** * Address spaces ([os/src/mm/memory_set.rs])

    A [MapArea] is a contiguous range of pages with the frames it owns; a
    [MemorySet] is a page table and its areas.  Dropping either is an explicit
    call.  The parsed ELF file is the result of the third-party [xmas_elf]. *)

From S2P Require Import Prelude Address PhysMem FrameAlloc PageTable.

Inductive MapType : Type := Identical | Framed.

#[global] Instance MapType_eq_dec : EqDecision MapType.
Proof. solve_decision. Defined.

(** [MapPermission]: bits of the page-table entry. *)
Definition MP_R : Z := Z.shiftl 1 1.
Definition MP_W : Z := Z.shiftl 1 2.
Definition MP_X : Z := Z.shiftl 1 3.
Definition MP_U : Z := Z.shiftl 1 4.

(** [data_frames] is a [BTreeMap]: an association list in key order. *)
Record MapArea : Type := mkMapArea {
  vpn_range : SimpleRange;
  data_frames : list (Z * Z);
  map_type : MapType;
  map_perm : Z;
}.

Record MemorySet : Type := mkMemorySet {
  page_table : PageTable;
  areas : list MapArea;
}.

(** [BTreeMap::insert] and [remove]: the value that was there, the new map. *)
Fixpoint btree_insert (k v : Z) (l : list (Z * Z)) : option Z * list (Z * Z) :=
  match l with
  | [] => (None, [(k, v)])
  | (k', v') :: l =>
      if k =? k' then (Some v', (k, v) :: l)
      else if k <? k' then (None, (k, v) :: (k', v') :: l)
      else let '(o, l) := btree_insert k v l in (o, (k', v') :: l)
  end.

Fixpoint btree_remove (k : Z) (l : list (Z * Z)) : option Z * list (Z * Z) :=
  match l with
  | [] => (None, [])
  | (k', v') :: l =>
      if k =? k' then (Some v', l)
      else let '(o, l) := btree_remove k l in (o, (k', v') :: l)
  end.

(** ELF files as [xmas_elf] presents them; [None] where its accessor fails. *)
Record ProgramHeader : Type := mkProgramHeader {
  ph_is_load : option bool;
  ph_virtual_addr : Z;
  ph_mem_size : Z;
  ph_offset : Z;
  ph_file_size : Z;
  ph_read : bool;
  ph_write : bool;
  ph_execute : bool;
}.

Record ElfFile : Type := mkElfFile {
  elf_magic : list byte;
  elf_program_headers : list (option ProgramHeader);
  elf_entry_point : Z;
}.

Class ElfParser : Type := { ElfFile_new : list byte → option ElfFile }.

(** A loop whose body may panic. *)
Fixpoint for_each {A S} (f : A → S → outcome S) (l : list A) (s : S) : outcome S :=
  match l with
  | [] => Ret s
  | x :: l => s ← f x s; for_each f l s
  end.

Section Space.
Context {PF : Platform}.

(** Dropping an optional tracker, the value a [BTreeMap] operation returns. *)
Definition drop_opt (o : option Z) (ph : Phys) : outcome Phys :=
  match o with Some f => drop_frame f ph | None => Ret ph end.

(** ** Areas *)
Definition MapArea_new (start_va end_va : Z) (ty : MapType) (perm : Z) : outcome MapArea :=
  rg ← SimpleRange_new (va_floor start_va) (va_ceil end_va);
  Ret (mkMapArea rg [] ty perm).

Definition from_another (a : MapArea) : outcome MapArea :=
  rg ← SimpleRange_new (range_l (vpn_range a)) (range_r (vpn_range a));
  Ret (mkMapArea rg [] (map_type a) (map_perm a)).

Definition map_one (vpn : Z) (st : MapArea * PageTable * Phys) : outcome (MapArea * PageTable * Phys) :=
  let '(a, pt, ph) := st in
  '(ppn, a, ph) ←
    match map_type a with
    | Identical => Ret (vpn, a, ph)
    | Framed =>
        '(r, ph) ← frame_alloc ph;
        frame ← unwrap r;
        let '(old, fs) := btree_insert vpn frame (data_frames a) in
        ph ← drop_opt old ph;
        Ret (frame, mkMapArea (vpn_range a) fs (map_type a) (map_perm a), ph)
    end;
  (* [PTEFlags::from_bits(..).unwrap()]: all eight bits are flags *)
  '(pt, ph) ← pt_map vpn ppn (map_perm a) pt ph;
  Ret (a, pt, ph).

Definition unmap_one (vpn : Z) (st : MapArea * PageTable * Phys) : outcome (MapArea * PageTable * Phys) :=
  let '(a, pt, ph) := st in
  '(a, ph) ←
    (if decide (map_type a = Framed) then
       let '(old, fs) := btree_remove vpn (data_frames a) in
       ph ← drop_opt old ph;
       Ret (mkMapArea (vpn_range a) fs (map_type a) (map_perm a), ph)
     else Ret (a, ph));
  ph ← pt_unmap vpn pt ph;
  Ret (a, pt, ph).

Definition area_map (a : MapArea) (pt : PageTable) (ph : Phys) : outcome (MapArea * PageTable * Phys) :=
  for_each map_one (range_list (vpn_range a)) (a, pt, ph).

Definition area_unmap (a : MapArea) (pt : PageTable) (ph : Phys) : outcome (MapArea * PageTable * Phys) :=
  for_each unmap_one (range_list (vpn_range a)) (a, pt, ph).

(** The loop of [copy_data]: always runs once, then until the data ends. *)
Fixpoint copy_data_loop (fuel : nat) (pt : PageTable) (data : list byte) (start vpn : Z) (m : Mem)
    : outcome Mem :=
  match fuel with
  | O => NoFuel
  | S fuel =>
      let len := Z.of_nat (length data) in
      let src := slice (Z.to_nat start) (Z.to_nat (Z.min len (start + PAGE_SIZE) - start)) data in
      r ← translate vpn pt m;
      pte ← unwrap r;
      m ← set_bytes m (pte_ppn pte) 0 src;
      let start := start + PAGE_SIZE in
      if len <=? start then Ret m else copy_data_loop fuel pt data start (step vpn) m
  end.

Definition copy_data (a : MapArea) (pt : PageTable) (data : list byte) (m : Mem) : outcome Mem :=
  _ ← rassert (bool_decide (map_type a = Framed));
  copy_data_loop (S (Z.to_nat (Z.of_nat (length data) / PAGE_SIZE))) pt data 0 (range_l (vpn_range a)) m.

(** Drop glue: the frames of an area in key order. *)
Definition drop_area (a : MapArea) (ph : Phys) : outcome Phys := drop_frames (data_frames a).*2 ph.

(** ** Memory sets *)
Definition new_bare (ph : Phys) : outcome (MemorySet * Phys) :=
  '(pt, ph) ← pt_new ph; Ret (mkMemorySet pt [], ph).

Definition ms_token (ms : MemorySet) : Z := token (page_table ms).

Definition ms_push (a : MapArea) (data : option (list byte)) (ms : MemorySet) (ph : Phys)
    : outcome (MemorySet * Phys) :=
  '(a, pt, ph) ← area_map a (page_table ms) ph;
  ph ← match data with
       | Some data => m ← copy_data a pt data (mem ph); Ret (mkPhys m (falloc ph))
       | None => Ret ph
       end;
  Ret (mkMemorySet pt (areas ms ++ [a]), ph).

Definition insert_framed_area (start_va end_va perm : Z) (ms : MemorySet) (ph : Phys)
    : outcome (MemorySet * Phys) :=
  a ← MapArea_new start_va end_va Framed perm;
  ms_push a None ms ph.

Definition remove_area_with_start_vpn (start_vpn : Z) (ms : MemorySet) (ph : Phys)
    : outcome (MemorySet * Phys) :=
  match list_find (λ a, range_l (vpn_range a) = start_vpn) (areas ms) with
  | None => Ret (ms, ph)
  | Some (idx, a) =>
      '(a, pt, ph) ← area_unmap a (page_table ms) ph;
      ph ← drop_area a ph;
      Ret (mkMemorySet pt (vec_remove idx (areas ms)), ph)
  end.

Definition map_trampoline (ms : MemorySet) (ph : Phys) : outcome (MemorySet * Phys) :=
  vpn ← VirtPageNum_of_VirtAddr (VirtAddr_from TRAMPOLINE);
  ppn ← PhysPageNum_of_PhysAddr (PhysAddr_from strampoline);
  '(pt, ph) ← pt_map vpn ppn (Z.lor PTE_R PTE_X) (page_table ms) ph;
  Ret (mkMemorySet pt (areas ms), ph).

Definition MMIO : list (Z * Z) := [(0x00100000, 0x002000); (0x10001000, 0x001000)].

(** The areas of [new_kernel], in order. *)
Definition kernel_sections : list (Z * Z * Z) :=
  [(stext, etext, Z.lor MP_R MP_X);
   (srodata, erodata, MP_R);
   (sdata, edata, Z.lor MP_R MP_W);
   (sbss_with_stack, ebss, Z.lor MP_R MP_W);
   (ekernel, MEMORY_END, Z.lor MP_R MP_W)] ++
  ((λ p, (p.1, usize (p.1 + p.2), Z.lor MP_R MP_W)) <$> MMIO).

(** [memory_set.push(MapArea::new(s, e, Identical, perm), None)]. *)
Definition push_section (sec : Z * Z * Z) (st : MemorySet * Phys) : outcome (MemorySet * Phys) :=
  let '(s, e, perm) := sec in let '(ms, ph) := st in
  a ← MapArea_new (VirtAddr_from s) (VirtAddr_from e) Identical perm;
  ms_push a None ms ph.

Definition new_kernel (ph : Phys) : outcome (MemorySet * Phys) :=
  '(ms, ph) ← new_bare ph;
  '(ms, ph) ← map_trampoline ms ph;
  for_each push_section kernel_sections (ms, ph).

(** One program header of [from_elf]; the state carries [max_end_vpn]. *)
Definition load_header (elf_data : list byte) (oph : option ProgramHeader)
    (st : MemorySet * Z * Phys) : outcome (MemorySet * Z * Phys) :=
  let '(ms, max_end_vpn, ph) := st in
  hdr ← unwrap oph;
  is_load ← unwrap (ph_is_load hdr);
  if is_load : bool then
    let start_va := VirtAddr_from (ph_virtual_addr hdr) in
    let end_va := VirtAddr_from (u64 (ph_virtual_addr hdr + ph_mem_size hdr)) in
    let perm := MP_U in
    let perm := if ph_read hdr then Z.lor perm MP_R else perm in
    let perm := if ph_write hdr then Z.lor perm MP_W else perm in
    let perm := if ph_execute hdr then Z.lor perm MP_X else perm in
    a ← MapArea_new start_va end_va Framed perm;
    let lo := ph_offset hdr in
    let hi := u64 (ph_offset hdr + ph_file_size hdr) in
    _ ← rassert (lo <=? hi);
    data ← slice_checked (Z.to_nat lo) (Z.to_nat (hi - lo)) elf_data;
    '(ms, ph) ← ms_push a (Some data) ms ph;
    Ret (ms, range_r (vpn_range a), ph)
  else Ret (ms, max_end_vpn, ph).

Definition from_elf `{!ElfParser} (elf_data : list byte) (ph : Phys)
    : outcome (MemorySet * Z * Z * Phys) :=
  '(ms, ph) ← new_bare ph;
  '(ms, ph) ← map_trampoline ms ph;
  elf ← unwrap (ElfFile_new elf_data);
  _ ← rassert (bool_decide (elf_magic elf = [x7f; x45; x4c; x46]));
  '(ms, max_end_vpn, ph) ← for_each (load_header elf_data) (elf_program_headers elf) (ms, 0, ph);
  let user_stack_bottom := usize_from_VirtAddr (VirtAddr_of_VirtPageNum max_end_vpn) in
  let user_stack_bottom := usize (user_stack_bottom + PAGE_SIZE) in
  let user_stack_top := usize (user_stack_bottom + USER_STACK_SIZE) in
  a ← MapArea_new (VirtAddr_from user_stack_bottom) (VirtAddr_from user_stack_top) Framed
        (Z.lor (Z.lor MP_R MP_W) MP_U);
  '(ms, ph) ← ms_push a None ms ph;
  a ← MapArea_new (VirtAddr_from TRAP_CONTEXT) (VirtAddr_from TRAMPOLINE) Framed (Z.lor MP_R MP_W);
  '(ms, ph) ← ms_push a None ms ph;
  Ret (ms, user_stack_top, elf_entry_point elf, ph).

(** [from_existed_user]: the page copy and the area loop. *)
Definition copy_page (src dst : MemorySet) (vpn : Z) (ph : Phys) : outcome Phys :=
  r ← translate vpn (page_table src) (mem ph);
  src_pte ← unwrap r;
  r ← translate vpn (page_table dst) (mem ph);
  dst_pte ← unwrap r;
  bs ← get_bytes (mem ph) (pte_ppn src_pte) 0 (Z.to_nat PAGE_SIZE);
  m ← set_bytes (mem ph) (pte_ppn dst_pte) 0 bs;
  Ret (mkPhys m (falloc ph)).

Definition clone_area (src : MemorySet) (a : MapArea) (st : MemorySet * Phys) : outcome (MemorySet * Phys) :=
  let '(ms, ph) := st in
  new_area ← from_another a;
  '(ms, ph) ← ms_push new_area None ms ph;
  ph ← for_each (copy_page src ms) (range_list (vpn_range a)) ph;
  Ret (ms, ph).

Definition from_existed_user (user_space : MemorySet) (ph : Phys) : outcome (MemorySet * Phys) :=
  '(ms, ph) ← new_bare ph;
  '(ms, ph) ← map_trampoline ms ph;
  for_each (clone_area user_space) (areas user_space) (ms, ph).

Definition ms_translate (vpn : Z) (ms : MemorySet) (m : Mem) : outcome (option Z) :=
  translate vpn (page_table ms) m.

Definition recycle_data_pages (ms : MemorySet) (ph : Phys) : outcome (MemorySet * Phys) :=
  ph ← for_each drop_area (areas ms) ph;
  Ret (mkMemorySet (page_table ms) [], ph).

(** Drop glue: the page table, then the areas. *)
Definition drop_memory_set (ms : MemorySet) (ph : Phys) : outcome Phys :=
  ph ← drop_page_table (page_table ms) ph;
  for_each drop_area (areas ms) ph.
End Space.

(** ** Lemmas on maps and loops *)
Lemma btree_insert_snoc k v l :
  Forall (λ kv, kv.1 < k) l → btree_insert k v l = (None, l ++ [(k, v)]).
Proof.
  induction l as [|[k' v'] l IH]; intros Hl; simpl; [done|].
  apply Forall_cons in Hl as [Hk Hl]. simpl in Hk.
  destruct (Z.eqb_spec k k'); [lia|]. destruct (Z.ltb_spec k k'); [lia|]. by rewrite IH.
Qed.

Lemma for_each_app {A S} (f : A → S → outcome S) l1 l2 s :
  for_each f (l1 ++ l2) s = (s ← for_each f l1 s; for_each f l2 s).
Proof.
  revert s. induction l1 as [|x l1 IH]; intros s; simpl; [done|].
  destruct (f x s); simpl; auto.
Qed.

(** ** The invariant of an address space *)
Section SpaceInv.
Context {PF : Platform} {PFL : PlatformLaws} (lo : Z).

(** The table [pt] maps exactly the entries [E]; its interior frames and the
    data frames [fs] are distinct owned frames. *)
Record sp_inv (ph : Phys) (pt : PageTable) (fs : list Z) (E : list (Z * Z)) : Prop := {
  sp_pt : pt_inv lo ph pt;
  sp_rep : represents ph pt (list_to_map E);
  sp_keys : NoDup E.*1;
  sp_nodup : NoDup (pt_frames pt ++ fs);
  sp_owned f : f ∈ fs → p_owned lo ph f;
}.

(** What building a space preserves: everything owned by others. *)
Record sgrows (ph : Phys) (pt : PageTable) (ph' : Phys) (pt' : PageTable) (new : list Z) : Prop := {
  sg_frames q : q ∈ pt_frames pt → q ∈ pt_frames pt';
  sg_table q : q ∈ pt_frames pt' → q ∈ pt_frames pt ∨ ¬ p_owned lo ph q;
  sg_new q : q ∈ new → ¬ p_owned lo ph q;
  sg_owned q : p_owned lo ph' q ↔ p_owned lo ph q ∨ q ∈ pt_frames pt' ∨ q ∈ new;
  sg_mem q : p_owned lo ph q → q ∉ pt_frames pt → same_page (mem ph) (mem ph') q;
}.

Lemma sgrows_trans ph pt ph1 pt1 ph2 pt2 n1 n2 :
  sgrows ph pt ph1 pt1 n1 → sgrows ph1 pt1 ph2 pt2 n2 → sgrows ph pt ph2 pt2 (n1 ++ n2).
Proof.
  intros [F T N O M] [F' T' N' O' M']. split.
  - auto.
  - intros q Hq. destruct (T' q Hq) as [Hq1|Hq1]; [auto|]. right. intros Hq0. apply Hq1, O. by left.
  - intros q [Hq|Hq]%elem_of_app; [auto|]. intros Hq0. apply (N' q Hq), O. by left.
  - intros q. rewrite O', O, elem_of_app. split.
    + intros [[?|[?|?]]|[?|?]]; auto.
    + intros [?|[?|[?|?]]]; auto.
  - intros q Hq Hn x Hx. rewrite (M' q), (M q); try done.
    + apply O. by left.
    + intros Hq1. destruct (T q Hq1); done.
Qed.

Lemma sgrows_grows ph pt ph' pt' : grows lo ph pt ph' pt' → sgrows ph pt ph' pt' [].
Proof.
  intros [_ F N O M]. split; try done.
  - set_solver.
  - intros q. rewrite O. set_solver.
Qed.

Lemma sgrows_refl ph pt : (∀ q, q ∈ pt_frames pt → p_owned lo ph q) → sgrows ph pt ph pt [].
Proof. intros H. by apply sgrows_grows, grows_refl. Qed.

Lemma pt_inv_owned ph pt q : pt_inv lo ph pt → q ∈ pt_frames pt → p_owned lo ph q.
Proof. intros [T Hwf]. apply (wf_owned _ _ _ _ Hwf). Qed.

(** Frame rule: a space only depends on its tables and its ownership. *)
Lemma sp_frame ph ph' pt fs E :
  phys_inv lo ph → phys_inv lo ph' → sp_inv ph pt fs E →
  (∀ q, q ∈ pt_frames pt → same_page (mem ph) (mem ph') q ∧ p_owned lo ph' q) →
  (∀ f, f ∈ fs → p_owned lo ph' f) → sp_inv ph' pt fs E.
Proof.
  intros Hph Hph' [Hpt Hrep Hk Hnd Hown] Hsame Hfs. split; try done.
  - destruct Hpt as [T Hwf]. exists T. by eapply pt_wf_frame.
  - intros v Hv. rewrite <-Hrep by done. apply (pt_view_frame lo); try done. lia.
Qed.

Definition zero_page (m : Mem) (q : Z) : Prop := ∀ x, q * PAGE_SIZE ≤ x < (q + 1) * PAGE_SIZE → m x = x00.

Lemma map_one_ok a pt ph fs E v :
  phys_inv lo ph → sp_inv ph pt fs E → map_type a = Framed → 0 ≤ map_perm a < 256 →
  0 ≤ v < 2 ^ 27 → v ∉ E.*1 → Forall (λ kv, kv.1 < v) (data_frames a) → 3 ≤ free_count (falloc ph) →
  ∃ f pt' ph',
    map_one v (a, pt, ph) =
      Ret (mkMapArea (vpn_range a) (data_frames a ++ [(v, f)]) Framed (map_perm a), pt', ph') ∧
    phys_inv lo ph' ∧
    sp_inv ph' pt' (fs ++ [f]) (E ++ [(v, pte_new f (Z.lor (map_perm a) PTE_V))]) ∧
    sgrows ph pt ph' pt' [f] ∧ zero_page (mem ph') f ∧
    free_count (falloc ph) - 3 ≤ free_count (falloc ph').
Proof.
  intros Hph Hsp Hty Hperm Hv Hvn Hlt Hfree. pose proof Hsp as [Hpt Hrep Hk Hnd Hown].
  destruct (frame_alloc_succeeds lo ph Hph ltac:(lia)) as (f & ph1 & E1 & Hph1 & Hpost & Hfc).
  destruct Hpost as (Hfw & Hfno & Hown1 & Hz & Hsame).
  assert (Hfpt : f ∉ pt_frames pt) by (intros Hin; by apply Hfno, (pt_inv_owned _ _ _ Hpt)).
  assert (Hffs : f ∉ fs) by (intros Hin; by apply Hfno, Hown).
  destruct (page_writable_spec f Hfw) as (_ & Hfr & _).
  assert (Hsp1 : sp_inv ph1 pt fs E).
  { eapply sp_frame; [exact Hph|done|done| |].
    - intros q Hq. split; [apply Hsame; congruence|]. apply Hown1. right. by apply (pt_inv_owned _ _ _ Hpt).
    - intros q Hq. apply Hown1. right. auto. }
  destruct Hsp1 as [Hpt1 Hrep1 _ _ Hown1'].
  pose proof (pt_map_total lo ph1 pt v f (map_perm a) Hph1 Hpt1 Hv Hfr Hperm ltac:(lia)) as Hm.
  rewrite Hrep1, (proj1 (not_elem_of_list_to_map E v)) in Hm by done.
  destruct Hm as (pt2 & ph2 & E2 & Hph2 & Hpt2 & Hg & Hfc2 & Hview).
  exists f, pt2, ph2. unfold map_one. rewrite Hty, E1. cbn [mbind outcome_bind unwrap].
  rewrite btree_insert_snoc by done. cbn [drop_opt mbind outcome_bind map_perm]. rewrite E2.
  cbn [mbind outcome_bind]. pose proof Hg as [_ Gf Gn Go Gm].
  split_and!; [done|done| | | |lia].
  - split; [done| | | |].
    + intros u Hu. rewrite Hview by done. rewrite list_to_map_snoc, lookup_insert by done.
      case_decide; case_decide; subst; try done. by apply Hrep1.
    + rewrite fmap_app. apply NoDup_app. split_and!; [done|set_solver|apply NoDup_singleton].
    + rewrite app_assoc. apply NoDup_app in Hnd as (_ & Hd & Hndf).
      apply NoDup_app. split_and!; [|intros q Hq ->%list_elem_of_singleton|apply NoDup_singleton].
      * apply NoDup_app. split_and!; [|intros q Hq Hqf|done].
        -- destruct Hpt2 as [T2 Hwf2]. apply (wf_nodup _ _ _ _ Hwf2).
        -- destruct (Gn q Hq) as [Hq'|Hq']; [by apply (Hd q)|]. by apply Hq', Hown1'.
      * apply elem_of_app in Hq as [Hq|Hq]; [|done].
        destruct (Gn f Hq) as [Hq'|Hq']; [done|]. apply Hq', Hown1. by left.
    + intros q [Hq| ->%list_elem_of_singleton]%elem_of_app; apply Go; left; [auto|apply Hown1; by left].
  - replace [f] with ([f] ++ []) by done. eapply (sgrows_trans ph pt ph1 pt); [|by apply sgrows_grows].
    split; [done|by left| | |].
    + by intros q ->%list_elem_of_singleton.
    + intros q. rewrite Hown1, list_elem_of_singleton. split; [intros [?|?]; auto|].
      intros [?|[?|?]]; [by right| |by left]. right. by apply (pt_inv_owned _ _ _ Hpt).
    + intros q Hq _. apply Hsame. congruence.
  - intros x Hx. rewrite (Gm f); [by apply Hz|apply Hown1; by left|done|done].
Qed.

(** The entries and frames an area contributes. *)
Definition area_entries (a : MapArea) : list (Z * Z) :=
  (λ vf, (vf.1, pte_new vf.2 (Z.lor (map_perm a) PTE_V))) <$> data_frames a.
Definition area_frames (a : MapArea) : list Z := (data_frames a).*2.

Lemma area_entries_keys a : (area_entries a).*1 = (data_frames a).*1.
Proof. unfold area_entries. rewrite <-list_fmap_compose. done. Qed.

(** Mapping a run of consecutive pages. *)
Lemma map_run_ok n a pt ph fs E s :
  phys_inv lo ph → sp_inv ph pt fs E → map_type a = Framed → 0 ≤ map_perm a < 256 →
  0 ≤ s → s + Z.of_nat n ≤ 2 ^ 27 → (∀ v, s ≤ v < s + Z.of_nat n → v ∉ E.*1) →
  Forall (λ kv, kv.1 < s) (data_frames a) → 3 * Z.of_nat n ≤ free_count (falloc ph) →
  ∃ fn pt' ph',
    let nw := zip (seqZ s (Z.of_nat n)) fn in
    length fn = n ∧
    for_each map_one (seqZ s (Z.of_nat n)) (a, pt, ph) =
      Ret (mkMapArea (vpn_range a) (data_frames a ++ nw) Framed (map_perm a), pt', ph') ∧
    phys_inv lo ph' ∧
    sp_inv ph' pt' (fs ++ fn) (E ++ area_entries (mkMapArea (vpn_range a) nw Framed (map_perm a))) ∧
    sgrows ph pt ph' pt' fn ∧ (∀ f, f ∈ fn → zero_page (mem ph') f) ∧
    free_count (falloc ph) - 3 * Z.of_nat n ≤ free_count (falloc ph').
Proof.
  revert a pt ph fs E s. induction n as [|n IH]; intros a pt ph fs E s Hph Hsp Hty Hperm Hs Hn HE Hlt Hfree.
  - exists [], pt, ph. simpl. rewrite !app_nil_r. rewrite <-Hty. split_and!; try done.
    + by destruct a.
    + apply sgrows_refl. intros q Hq. by apply (pt_inv_owned _ _ _ (sp_pt _ _ _ _ Hsp)).
    + set_solver.
    + lia.
  - destruct (map_one_ok a pt ph fs E s) as (f & pt1 & ph1 & E1 & Hph1 & Hsp1 & Hg1 & Hz1 & Hf1);
      [done|done|done|done|lia|apply HE; lia|done|lia|].
    set (a1 := mkMapArea (vpn_range a) (data_frames a ++ [(s, f)]) Framed (map_perm a)) in *.
    destruct (IH a1 pt1 ph1 (fs ++ [f]) (E ++ [(s, pte_new f (Z.lor (map_perm a) PTE_V))]) (s + 1)) as
      (fn & pt2 & ph2 & Hl & E2 & Hph2 & Hsp2 & Hg2 & Hz2 & Hf2); [done|done|done|done|lia|lia| | |lia|].
    { intros v Hv. rewrite fmap_app. simpl. rewrite elem_of_app, list_elem_of_singleton.
      intros [Hin|Hin]; [|lia]. apply (HE v); [lia|done]. }
    { simpl. apply Forall_app. split; [|repeat constructor; simpl; lia].
      eapply Forall_impl; [done|]. simpl. lia. }
    exists (f :: fn), pt2, ph2.
    rewrite (seqZ_cons s) by lia. replace (Z.succ s) with (s + 1) by lia.
    replace (Z.pred (Z.of_nat (S n))) with (Z.of_nat n) by lia.
    cbn [for_each]. rewrite E1. cbn [mbind outcome_bind]. rewrite E2. cbn [zip zip_with].
    split_and!; simpl; [lia| |done| | | |lia].
    + rewrite <-app_assoc. done.
    + unfold area_entries in *. simpl in *. rewrite <-!app_assoc in Hsp2. done.
    + by apply (sgrows_trans ph pt ph1 pt1 ph2 pt2 [f] fn).
    + intros q [-> |Hq]%elem_of_cons; [|auto]. intros x Hx.
      destruct Hg1 as [G1 G2 G3 G4 G5]. destruct Hg2 as [K1 K2 K3 K4 K5].
      rewrite (K5 f); [by apply Hz1| | |done].
      * apply G4. right. right. set_solver.
      * intros Hin. destruct Hsp1 as [_ _ _ Hnd1 _]. apply NoDup_app in Hnd1 as (_ & Hd1 & _).
        apply (Hd1 f Hin). set_solver.
Qed.

(** A page of the run that is already mapped stops the kernel. *)
Lemma map_run_panic n a pt ph fs E s :
  phys_inv lo ph → sp_inv ph pt fs E → map_type a = Framed → 0 ≤ map_perm a < 256 →
  0 ≤ s → s + Z.of_nat n ≤ 2 ^ 27 → (∃ v, s ≤ v < s + Z.of_nat n ∧ v ∈ E.*1) →
  Forall (λ kv, kv.1 < s) (data_frames a) → 3 * Z.of_nat n ≤ free_count (falloc ph) →
  for_each map_one (seqZ s (Z.of_nat n)) (a, pt, ph) = Panic.
Proof.
  revert a pt ph fs E s. induction n as [|n IH]; intros a pt ph fs E s Hph Hsp Hty Hperm Hs Hn HE Hlt Hfree.
  { destruct HE as (v & Hv & _). lia. }
  rewrite (seqZ_cons s) by lia. replace (Z.succ s) with (s + 1) by lia.
  replace (Z.pred (Z.of_nat (S n))) with (Z.of_nat n) by lia. cbn [for_each].
  destruct (decide (s ∈ E.*1)) as [Hin|Hnin].
  - destruct Hsp as [Hpt Hrep Hk Hnd Hown].
    destruct (frame_alloc_succeeds lo ph Hph ltac:(lia)) as (f & ph1 & E1 & Hph1 & Hpost & Hfc).
    destruct Hpost as (Hfw & Hfno & Hown1 & Hz & Hsame).
    destruct (page_writable_spec f Hfw) as (_ & Hfr & _).
    assert (Hsp1 : sp_inv ph1 pt fs E).
    { eapply sp_frame; [exact Hph|done|done| |].
      - intros q Hq. pose proof (pt_inv_owned _ _ _ Hpt Hq). split; [apply Hsame; congruence|]. apply Hown1. by right.
      - intros q Hq. apply Hown1. right. auto. }
    destruct Hsp1 as [Hpt1 Hrep1 _ _ _].
    unfold map_one. rewrite Hty, E1. cbn [mbind outcome_bind unwrap].
    rewrite btree_insert_snoc by done. cbn [drop_opt mbind outcome_bind map_perm].
    pose proof (pt_map_total lo ph1 pt s f (map_perm a) Hph1 Hpt1 ltac:(lia) Hfr Hperm ltac:(lia)) as Hm.
    rewrite Hrep1 in Hm by lia.
    destruct (list_to_map E !! s) eqn:Hl; [by rewrite Hm|].
    apply not_elem_of_list_to_map in Hl. done.
  - destruct (map_one_ok a pt ph fs E s) as (f & pt1 & ph1 & E1 & Hph1 & Hsp1 & Hg1 & Hz1 & Hf1);
      [done|done|done|done|lia|done|done|lia|].
    rewrite E1. cbn [mbind outcome_bind].
    eapply (IH _ pt1 ph1); [done|done|done|done|lia|lia| | |lia].
    + destruct HE as (v & Hv & Hin). exists v. rewrite fmap_app, elem_of_app.
      assert (v ≠ s) by congruence. split; [lia|by left].
    + simpl. apply Forall_app. split; [|repeat constructor; simpl; lia].
      eapply Forall_impl; [done|]. simpl. lia.
Qed.

(** ** Well-formed address spaces *)
Record area_wf (a : MapArea) : Prop := {
  aw_type : map_type a = Framed;
  aw_range : 0 ≤ range_l (vpn_range a) ≤ range_r (vpn_range a) ∧ range_r (vpn_range a) ≤ 2 ^ 27;
  aw_perm : 0 ≤ map_perm a < 256;
  aw_keys : (data_frames a).*1 = range_list (vpn_range a);
}.

Definition ms_frames (ms : MemorySet) : list Z := areas ms ≫= area_frames.
Definition ms_entries (ms : MemorySet) : list (Z * Z) := areas ms ≫= area_entries.

(** The pages of the areas, as page counts. *)
Definition area_pages (a : MapArea) : Z := range_r (vpn_range a) - range_l (vpn_range a).
Definition total_pages (l : list MapArea) : Z := foldr Z.add 0 (area_pages <$> l).

(** [B] are the entries that no area owns (the trampoline). *)
Record space (B : list (Z * Z)) (ph : Phys) (ms : MemorySet) : Prop := {
  sc_sp : sp_inv ph (page_table ms) (ms_frames ms) (B ++ ms_entries ms);
  sc_areas : Forall area_wf (areas ms);
}.

(** An area before its pages are mapped. *)
Record area_fresh (a : MapArea) : Prop := {
  af_type : map_type a = Framed;
  af_range : 0 ≤ range_l (vpn_range a) ≤ range_r (vpn_range a) ∧ range_r (vpn_range a) ≤ 2 ^ 27;
  af_perm : 0 ≤ map_perm a < 256;
  af_empty : data_frames a = [];
}.

Lemma range_list_nat rg :
  range_l rg ≤ range_r rg → range_list rg = seqZ (range_l rg) (Z.of_nat (Z.to_nat (range_r rg - range_l rg))).
Proof. intros. unfold range_list. by rewrite Z2Nat.id by lia. Qed.

Lemma ms_push_ok B a ms ph :
  phys_inv lo ph → space B ph ms → area_fresh a →
  (∀ v, v ∈ range_list (vpn_range a) → v ∉ (B ++ ms_entries ms).*1) →
  3 * area_pages a ≤ free_count (falloc ph) →
  ∃ fn pt' ph',
    let a' := mkMapArea (vpn_range a) (zip (range_list (vpn_range a)) fn) Framed (map_perm a) in
    let ms' := mkMemorySet pt' (areas ms ++ [a']) in
    ms_push a None ms ph = Ret (ms', ph') ∧ length fn = Z.to_nat (area_pages a) ∧
    phys_inv lo ph' ∧ space B ph' ms' ∧ sgrows ph (page_table ms) ph' pt' fn ∧
    (∀ f, f ∈ fn → zero_page (mem ph') f) ∧
    free_count (falloc ph) - 3 * area_pages a ≤ free_count (falloc ph').
Proof.
  intros Hph [Hsp Hwf] [Hty Hr Hperm Hemp] Hdis Hfree. unfold area_pages in *.
  rewrite range_list_nat in * by lia. set (n := Z.to_nat _) in *.
  assert (Hn : Z.of_nat n = range_r (vpn_range a) - range_l (vpn_range a)) by lia.
  destruct (map_run_ok n a (page_table ms) ph (ms_frames ms) (B ++ ms_entries ms) (range_l (vpn_range a)))
    as (fn & pt' & ph' & Hl & E & Hph' & Hsp' & Hg & Hz & Hf); [done|done|done|done|lia|lia| | |lia|].
  { intros v Hv. apply Hdis, elem_of_seqZ. lia. }
  { rewrite Hemp. constructor. }
  exists fn, pt', ph'. unfold ms_push, area_map. rewrite range_list_nat by lia. fold n. rewrite E, Hemp.
  split_and!; try done; [|lia]. split.
  - unfold ms_frames, ms_entries in *. simpl. rewrite !bind_app. simpl. rewrite !app_nil_r.
    rewrite <-app_assoc in Hsp'. unfold area_frames at 2. simpl.
    rewrite snd_zip by (rewrite length_seqZ; lia). done.
  - apply Forall_app. split; [done|]. constructor; [|constructor].
    split; simpl; [done|lia|done|]. rewrite fst_zip by (rewrite length_seqZ; lia).
    by rewrite range_list_nat by lia.
Qed.

(** ** Cloning *)
Definition page_copy (m : Mem) (f : Z) (m' : Mem) (f' : Z) : Prop :=
  ∀ o, 0 ≤ o < PAGE_SIZE → m' (f' * PAGE_SIZE + o) = m (f * PAGE_SIZE + o).

Lemma owned_page ph q : phys_inv lo ph → p_owned lo ph q → page_writable q = true.
Proof. intros [Hfa Hw] Hq. by eapply owned_writable. Qed.

Lemma copy_page_ok src dst ph fs fd Es Ed v f f' p p' :
  phys_inv lo ph → sp_inv ph (page_table src) fs Es → sp_inv ph (page_table dst) fd Ed →
  0 ≤ v < 2 ^ 27 → p_owned lo ph f → p_owned lo ph f' → 0 ≤ p < 256 → 0 ≤ p' < 256 →
  (list_to_map Es : gmap Z Z) !! v = Some (pte_new f p) →
  (list_to_map Ed : gmap Z Z) !! v = Some (pte_new f' p') →
  ∃ m', copy_page src dst v ph = Ret (mkPhys m' (falloc ph)) ∧ page_copy (mem ph) f m' f' ∧
    ∀ q, q ≠ f' → same_page (mem ph) m' q.
Proof.
  intros Hph [Hpts Hreps _ _ _] [Hptd Hrepd _ _ _] Hv Hf Hf' Hp Hp' Hes Hed.
  rewrite <-Hreps in Hes by done. rewrite <-Hrepd in Hed by done.
  pose proof (owned_page _ _ Hph Hf) as Hw. pose proof (owned_page _ _ Hph Hf') as Hw'.
  destruct (page_writable_spec _ Hw) as (Hr & Hfr & Hpa).
  destruct (page_writable_spec _ Hw') as (_ & Hfr' & Hpa').
  unfold copy_page.
  rewrite (translate_view lo ph _ v _ Hph Hpts ltac:(lia) Hes). cbn [mbind outcome_bind unwrap].
  rewrite (translate_view lo ph _ v _ Hph Hptd ltac:(lia) Hed). cbn [mbind outcome_bind unwrap].
  rewrite !pte_ppn_new by done. unfold get_bytes, set_bytes.
  rewrite Hr, Hw', Hpa, Hpa'. cbn [rassert mbind outcome_bind]. rewrite !Z.add_0_r.
  eexists. split; [done|]. split.
  - intros o Ho. unfold PAGE_SIZE in *.
    pose proof (mem_write_in (mem ph) (f' * 4096) (mem_read (mem ph) (f * 4096) (Z.to_nat 4096))
      (f' * 4096 + o)) as Hin.
    rewrite length_mem_read in Hin. specialize (Hin ltac:(lia)).
    rewrite lookup_mem_read in Hin by lia. injection Hin as Hin. rewrite <-Hin. f_equal. lia.
  - intros q Hq x Hx. apply mem_write_out. rewrite length_mem_read. unfold PAGE_SIZE in *. lia.
Qed.

Lemma copy_run_ok src dst ps pd vs fsrc fdst ph fss fsd Es Ed :
  phys_inv lo ph → sp_inv ph (page_table src) fss Es → sp_inv ph (page_table dst) fsd Ed →
  length fsrc = length vs → length fdst = length vs → 0 ≤ ps < 256 → 0 ≤ pd < 256 →
  (∀ i v f, vs !! i = Some v → fsrc !! i = Some f →
     0 ≤ v < 2 ^ 27 ∧ p_owned lo ph f ∧ (list_to_map Es : gmap Z Z) !! v = Some (pte_new f ps)) →
  (∀ i v f, vs !! i = Some v → fdst !! i = Some f →
     p_owned lo ph f ∧ (list_to_map Ed : gmap Z Z) !! v = Some (pte_new f pd)) →
  NoDup fdst →
  (∀ f, f ∈ fdst → f ∉ pt_frames (page_table src) ∧ f ∉ pt_frames (page_table dst) ∧ f ∉ fss ∧ f ∉ fsrc) →
  (∀ f, f ∈ fss ∨ f ∈ fsd → p_owned lo ph f) →
  ∃ m', for_each (copy_page src dst) vs ph = Ret (mkPhys m' (falloc ph)) ∧
    Forall2 (λ f f', page_copy (mem ph) f m' f') fsrc fdst ∧
    ∀ q, q ∉ fdst → same_page (mem ph) m' q.
Proof.
  revert fsrc fdst ph. induction vs as [|v vs IH];
    intros [|f fsrc] [|f' fdst] ph Hph Hs Hd Hls Hld Hps Hpd HEs HEd Hnd Hdis Hfs; try done.
  { exists (mem ph). destruct ph. split_and!; done. }
  destruct (HEs O v f eq_refl eq_refl) as (Hv & Hf & Hes). destruct (HEd O v f' eq_refl eq_refl) as (Hf' & Hed).
  destruct (copy_page_ok src dst ph fss fsd Es Ed v f f' ps pd Hph Hs Hd Hv Hf Hf' Hps Hpd Hes Hed)
    as (m1 & E1 & Hc1 & Hm1).
  cbn [for_each]. rewrite E1. cbn [mbind outcome_bind]. set (ph1 := mkPhys m1 (falloc ph)).
  apply NoDup_cons in Hnd as [Hnin Hnd].
  assert (Hph1 : phys_inv lo ph1) by exact Hph.
  destruct (Hdis f' ltac:(by left)) as (D1 & D2 & D3 & D4).
  assert (Hs1 : sp_inv ph1 (page_table src) fss Es).
  { apply (sp_frame ph ph1); [done|done|done| |].
    - intros q Hq. split; [apply Hm1; congruence|]. by apply (pt_inv_owned ph _ _ (sp_pt _ _ _ _ Hs)).
    - intros q Hq. by apply (Hfs q); left. }
  assert (Hd1 : sp_inv ph1 (page_table dst) fsd Ed).
  { apply (sp_frame ph ph1); [done|done|done| |].
    - intros q Hq. split; [apply Hm1; congruence|]. by apply (pt_inv_owned ph _ _ (sp_pt _ _ _ _ Hd)).
    - intros q Hq. by apply (Hfs q); right. }
  destruct (IH fsrc fdst ph1) as (m2 & E2 & Hc2 & Hm2); try done; simpl in *; try lia.
  - intros i. apply (HEs (S i)).
  - intros i. apply (HEd (S i)).
  - intros q Hq. destruct (Hdis q ltac:(by right)) as (?&?&?&Hn). split_and!; [done..|].
    intros Hin. apply Hn. by right.
  - exists m2. split_and!; [done| |].
    + constructor.
      * intros o Ho. rewrite <-(Hc1 o Ho). apply (Hm2 f' Hnin). unfold PAGE_SIZE in *. lia.
      * eapply Forall2_impl; [apply Forall2_same_length_lookup_2|]; [by apply Forall2_length in Hc2| |].
        -- intros i x y Hx Hy. pose proof (Forall2_lookup_lr _ _ _ _ _ _ Hc2 Hx Hy) as Hxy.
           assert (x ≠ f') by (intros ->; apply D4, elem_of_cons; right; by eapply list_elem_of_lookup_2).
           assert (Hgoal : page_copy (mem ph) x m2 y); [|exact Hgoal].
           intros o Ho. rewrite (Hxy o Ho). apply (Hm1 x); [done|]. unfold PAGE_SIZE in *. lia.
        -- done.
    + intros q [Hq1 Hq2]%not_elem_of_cons x Hx. by rewrite (Hm2 q), (Hm1 q).
Qed.

(** A clone of an area: same pages and permissions, frames with the same content. *)
Record area_copy (m m' : Mem) (a a' : MapArea) : Prop := {
  ac_range : vpn_range a' = vpn_range a;
  ac_perm : map_perm a' = map_perm a;
  ac_type : map_type a' = map_type a;
  ac_keys : (data_frames a').*1 = (data_frames a).*1;
  ac_data : Forall2 (λ f f', page_copy m f m' f') (area_frames a) (area_frames a');
}.

Lemma area_copy_mono m m1 m2 a a' :
  area_copy m m1 a a' → (∀ q, q ∈ area_frames a' → same_page m1 m2 q) → area_copy m m2 a a'.
Proof.
  intros [? ? ? ? Hd] Hs. split; try done. apply Forall2_same_length_lookup_2; [by apply Forall2_length in Hd|].
  intros i f f' Hf Hf'. pose proof (Forall2_lookup_lr _ _ _ _ _ _ Hd Hf Hf') as Hc.
  intros o Ho. rewrite <-(Hc o Ho). apply (Hs f'); [by eapply list_elem_of_lookup_2|]. unfold PAGE_SIZE in *. lia.
Qed.

Lemma space_frame B ph0 ph ms :
  phys_inv lo ph0 → phys_inv lo ph → space B ph0 ms →
  (∀ q, p_owned lo ph0 q → p_owned lo ph q ∧ same_page (mem ph0) (mem ph) q) → space B ph ms.
Proof.
  intros Hph0 Hph [Hsp Hwf] Hs. split; [|done]. apply (sp_frame ph0 ph); [done..| |].
  - intros q Hq. pose proof (pt_inv_owned _ _ _ (sp_pt _ _ _ _ Hsp) Hq) as Ho. by apply Hs in Ho as [? ?].
  - intros f Hf. by apply Hs, (sp_owned _ _ _ _ Hsp).
Qed.

Lemma copy_keys m m' l l' : Forall2 (area_copy m m') l l' → (l' ≫= area_entries).*1 = (l ≫= area_entries).*1.
Proof.
  induction 1 as [|a a' l l' Ha Hl IH]; [done|].
  rewrite !bind_cons, !fmap_app, IH, !area_entries_keys. by rewrite (ac_keys _ _ _ _ Ha).
Qed.

(** An entry of an area is an entry of its space. *)
Lemma space_lookup B ph ms a i v f :
  space B ph ms → a ∈ areas ms → data_frames a !! i = Some (v, f) →
  0 ≤ v < 2 ^ 27 ∧ p_owned lo ph f ∧
  (list_to_map (B ++ ms_entries ms) : gmap Z Z) !! v = Some (pte_new f (Z.lor (map_perm a) PTE_V)).
Proof.
  intros [Hsp Hwf] Ha Hi. rewrite Forall_forall in Hwf. specialize (Hwf a Ha). destruct Hwf as [_ Hr _ Hk].
  assert (Hin : (v, f) ∈ data_frames a) by (by eapply list_elem_of_lookup_2).
  assert (Hv : v ∈ range_list (vpn_range a)) by (rewrite <-Hk; apply list_elem_of_fmap; by exists (v, f)).
  unfold range_list in Hv. apply elem_of_seqZ in Hv. split_and!; [lia|lia| |].
  - apply (sp_owned _ _ _ _ Hsp), list_elem_of_bind. exists a. split; [|done].
    apply list_elem_of_fmap. by exists (v, f).
  - apply elem_of_list_to_map_1; [apply (sp_keys _ _ _ _ Hsp)|]. apply elem_of_app. right.
    apply list_elem_of_bind. exists a. split; [|done]. apply list_elem_of_fmap. by exists (v, f).
Qed.

(** The clone of an area before its pages are copied. *)
Definition cloned_area (a : MapArea) (fn : list Z) : MapArea :=
  mkMapArea (vpn_range a) (zip (range_list (vpn_range a)) fn) Framed (map_perm a).

Lemma cloned_area_frames a fn : length (range_list (vpn_range a)) = length fn → area_frames (cloned_area a fn) = fn.
Proof. intros H. unfold area_frames. simpl. by rewrite snd_zip by lia. Qed.

Lemma cloned_ms_frames ms pt a fn :
  length (range_list (vpn_range a)) = length fn →
  ms_frames (mkMemorySet pt (areas ms ++ [cloned_area a fn])) = ms_frames ms ++ fn.
Proof. intros H. unfold ms_frames. simpl. rewrite bind_app. simpl. by rewrite app_nil_r, cloned_area_frames. Qed.

(** A space under construction, [ph0] being the state before it: it owns new
    frames only and leaves everything else alone. *)
Record child_state (B : list (Z * Z)) (ph0 : Phys) (ms : MemorySet) (ph : Phys) : Prop := {
  ch_phys : phys_inv lo ph;
  ch_child : space B ph ms;
  ch_new q : q ∈ pt_frames (page_table ms) ++ ms_frames ms → ¬ p_owned lo ph0 q;
  ch_owned q : p_owned lo ph q ↔ p_owned lo ph0 q ∨ q ∈ pt_frames (page_table ms) ++ ms_frames ms;
  ch_mem q : p_owned lo ph0 q → same_page (mem ph0) (mem ph) q;
}.

(** The same with the area [a] just mapped: the new frames are [fn], the page
    table is [pt]. *)
Record child_pushed (B : list (Z * Z)) (ph0 : Phys) (ms : MemorySet) (a : MapArea)
    (fn : list Z) (pt : PageTable) (ph : Phys) : Prop := {
  cp_phys : phys_inv lo ph;
  cp_child : space B ph (mkMemorySet pt (areas ms ++ [cloned_area a fn]));
  cp_length : length (range_list (vpn_range a)) = length fn;
  cp_new q : q ∈ pt_frames pt ++ (ms_frames ms ++ fn) → ¬ p_owned lo ph0 q;
  cp_owned q : p_owned lo ph q ↔ p_owned lo ph0 q ∨ q ∈ pt_frames pt ++ (ms_frames ms ++ fn);
  cp_mem q : p_owned lo ph0 q → same_page (mem ph0) (mem ph) q;
  cp_fresh q : q ∈ fn → q ∉ pt_frames pt ∧ q ∉ ms_frames ms;
  cp_nodup : NoDup fn;
}.

Lemma child_push_ok B ph0 ms ph a :
  child_state B ph0 ms ph → area_fresh a →
  (∀ v, v ∈ range_list (vpn_range a) → v ∉ (B ++ ms_entries ms).*1) → 3 * area_pages a ≤ free_count (falloc ph) →
  ∃ fn pt ph1, ms_push a None ms ph = Ret (mkMemorySet pt (areas ms ++ [cloned_area a fn]), ph1) ∧
    child_pushed B ph0 ms a fn pt ph1 ∧ (∀ q, q ∈ ms_frames ms → same_page (mem ph) (mem ph1) q) ∧
    (∀ f, f ∈ fn → zero_page (mem ph1) f) ∧
    free_count (falloc ph) - 3 * area_pages a ≤ free_count (falloc ph1).
Proof.
  intros [Hph Hch Hnew Hown Hmem] Ha Hdis Hfree.
  destruct (ms_push_ok B a ms ph Hph Hch Ha Hdis Hfree) as
    (fn & pt & ph1 & E & Hlen & Hph1 & Hch1 & [G1 G2 G3 G4 G5] & Hz & Hf1).
  fold (cloned_area a fn) in *.
  assert (Hlr : length (range_list (vpn_range a)) = length fn).
  { unfold range_list. rewrite length_seqZ. unfold area_pages in *. lia. }
  pose proof (sp_nodup _ _ _ _ (sc_sp _ _ _ Hch1)) as Hnd. rewrite cloned_ms_frames in Hnd by done.
  cbn [page_table] in Hnd. rewrite app_assoc in Hnd. apply NoDup_app in Hnd as (_ & Hdfn & Hndfn).
  exists fn, pt, ph1. split; [done|]. split; [split; try done|split_and!; [|done|done]].
  - intros q Hq Hq0. rewrite !elem_of_app in Hq. destruct Hq as [Hq|[Hq|Hq]].
    + destruct (G2 q Hq) as [Hq1|Hq1]; [|apply Hq1, Hown; by left]. apply (Hnew q); [|done]. apply elem_of_app. by left.
    + apply (Hnew q); [|done]. apply elem_of_app. by right.
    + apply (G3 q Hq), Hown. by left.
  - intros q. rewrite G4, Hown, !elem_of_app. cbn [page_table] in *. split; [|naive_solver]. intros [[?|[?%G1|?]]|[?|?]]; auto.
  - intros q Hq x Hx. rewrite (G5 q), (Hmem q); try done; [apply Hown; by left|].
    intros Hin. apply (Hnew q); [|done]. apply elem_of_app. by left.
  - intros q Hq. rewrite <-not_elem_of_app. intros Hin. by apply (Hdfn q).
  - intros q Hq. pose proof (sc_sp _ _ _ Hch) as [_ _ _ Hcnd Hcown].
    apply (G5 q); [by apply Hcown|]. intros Hin. apply NoDup_app in Hcnd as (_ & Hcd & _). by apply (Hcd q).
Qed.

(** Writing the new frames finishes the step. *)
Lemma child_write_ok B ph0 ms a fn pt ph m :
  child_pushed B ph0 ms a fn pt ph → (∀ q, q ∉ fn → same_page (mem ph) m q) →
  child_state B ph0 (mkMemorySet pt (areas ms ++ [cloned_area a fn])) (mkPhys m (falloc ph)).
Proof.
  intros [Hph [Hsp Hwf] Hlen Hnew Hown Hmem Hfr Hnd] Hm.
  assert (Hold : ∀ q, p_owned lo ph0 q → q ∉ fn) by (intros q Hq Hin; apply (Hnew q); set_solver).
  split.
  - exact Hph.
  - split; [|done]. apply (sp_frame ph _); [done|done|done| |].
    + intros q Hq. split; [|by apply (pt_inv_owned _ _ _ (sp_pt _ _ _ _ Hsp))]. apply Hm. intros Hin. by destruct (Hfr q Hin).
    + intros q. apply (sp_owned _ _ _ _ Hsp q).
  - intros q. rewrite cloned_ms_frames by done. apply Hnew.
  - intros q. rewrite cloned_ms_frames by done. apply Hown.
  - intros q Hq x Hx. rewrite (Hm q); [by apply (Hmem q Hq)|by apply Hold|done].
Qed.

(** The state of [from_existed_user] after the areas [done]; [ph0] is where it
    started. *)
Record clone_state (B : list (Z * Z)) (ph0 : Phys) (done : list MapArea) (ms : MemorySet) (ph : Phys) : Prop := {
  cs_state : child_state B ph0 ms ph;
  cs_copy : Forall2 (area_copy (mem ph0) (mem ph)) done (areas ms);
}.

(** Copies stay copies when their frames do not change. *)
Lemma area_copies_mono m m1 m2 l l' :
  Forall2 (area_copy m m1) l l' → (∀ q, q ∈ l' ≫= area_frames → same_page m1 m2 q) → Forall2 (area_copy m m2) l l'.
Proof.
  intros H. induction H as [|a a' l l' Ha _ IH]; intros Hs; constructor.
  - eapply area_copy_mono; [done|]. intros q Hq. apply Hs. rewrite bind_cons. apply elem_of_app. by left.
  - apply IH. intros q Hq. apply Hs. rewrite bind_cons. apply elem_of_app. by right.
Qed.

(** The pages of the next area are not mapped in the child. *)
Lemma clone_pages_free B ph0 src done ms ph a rest v :
  space B ph0 src → areas src = done ++ a :: rest → clone_state B ph0 done ms ph →
  v ∈ range_list (vpn_range a) → v ∉ (B ++ ms_entries ms).*1.
Proof.
  intros Hsrc Hareas Hcl Hv. rewrite fmap_app. unfold ms_entries. rewrite (copy_keys _ _ _ _ (cs_copy _ _ _ _ _ Hcl)).
  pose proof (sc_areas _ _ _ Hsrc) as Hwfs. rewrite Forall_forall in Hwfs.
  destruct (Hwfs a) as [_ _ _ Hk]; [rewrite Hareas; set_solver|].
  pose proof (sp_keys _ _ _ _ (sc_sp _ _ _ Hsrc)) as Hnd. unfold ms_entries in Hnd.
  rewrite Hareas, bind_app, bind_cons, !fmap_app, app_assoc in Hnd.
  apply NoDup_app in Hnd as (_ & Hd & _). intros Hin. apply (Hd v Hin), elem_of_app. left.
  by rewrite area_entries_keys, Hk.
Qed.

Lemma clone_push_ok B ph0 src done ms ph a rest :
  space B ph0 src → areas src = done ++ a :: rest → clone_state B ph0 done ms ph →
  area_wf a → 3 * area_pages a ≤ free_count (falloc ph) →
  ∃ fn pt ph1, ms_push (mkMapArea (vpn_range a) [] Framed (map_perm a)) None ms ph =
      Ret (mkMemorySet pt (areas ms ++ [cloned_area a fn]), ph1) ∧
    child_pushed B ph0 ms a fn pt ph1 ∧ Forall2 (area_copy (mem ph0) (mem ph1)) done (areas ms) ∧
    free_count (falloc ph) - 3 * area_pages a ≤ free_count (falloc ph1).
Proof.
  intros Hsrc Hareas Hcl [_ Hr Hp _] Hfree.
  destruct (child_push_ok B ph0 ms ph (mkMapArea (vpn_range a) [] Framed (map_perm a)) (cs_state _ _ _ _ _ Hcl)) as
    (fn & pt & ph1 & E & Hpu & Hold & _ & Hf1);
    [by split|exact (λ v, clone_pages_free B ph0 src done ms ph a rest v Hsrc Hareas Hcl)|done|].
  exists fn, pt, ph1. split_and!; [done|by destruct Hpu| |done].
  eapply area_copies_mono; [apply Hcl|done].
Qed.

Lemma clone_copy_ok B ph0 src ms a fn pt ph :
  phys_inv lo ph0 → space B ph0 src → a ∈ areas src → area_wf a → child_pushed B ph0 ms a fn pt ph →
  ∃ m, for_each (copy_page src (mkMemorySet pt (areas ms ++ [cloned_area a fn]))) (range_list (vpn_range a)) ph =
      Ret (mkPhys m (falloc ph)) ∧
    Forall2 (λ f f', page_copy (mem ph) f m f') (area_frames a) fn ∧ ∀ q, q ∉ fn → same_page (mem ph) m q.
Proof.
  intros Hph0 Hsrc Ha [Hty Hr Hperm Hk] [Hph Hch Hlen Hnew Hown Hmem Hfr Hnd].
  pose proof (sp_owned _ _ _ _ (sc_sp _ _ _ Hsrc)) as Hso.
  assert (Hsrc1 : space B ph src).
  { apply (space_frame B ph0); [done..|]. intros q Hq. split; [apply Hown; by left|by apply Hmem]. }
  assert (Hflags : 0 ≤ Z.lor (map_perm a) PTE_V < 256) by (apply lor_byte_range; [done|apply PTE_V_range]).
  apply (copy_run_ok _ _ (Z.lor (map_perm a) PTE_V) (Z.lor (map_perm a) PTE_V) _ (area_frames a) fn ph _ _ _ _ Hph
    (sc_sp _ _ _ Hsrc1) (sc_sp _ _ _ Hch)); try done.
  - rewrite <-Hk. unfold area_frames. by rewrite !length_fmap.
  - intros i v f Hv Hf. rewrite <-Hk in Hv. unfold area_frames in Hf. rewrite list_lookup_fmap in Hv, Hf.
    destruct (data_frames a !! i) as [[v0 f0]|] eqn:Hi; [|done].
    simpl in *. injection Hv as ->. injection Hf as ->. by apply (space_lookup B ph src a i).
  - intros i v f Hv Hf. assert (Hi : data_frames (cloned_area a fn) !! i = Some (v, f))
      by (apply lookup_zip_with_Some; eauto).
    apply (space_lookup B ph _ _ i _ _ Hch) in Hi as (_ & ? & ?); [done|]. simpl. set_solver.
  - intros f Hf. assert (Hno : ¬ p_owned lo ph0 f) by (apply Hnew; set_solver). split_and!.
    + intros Hin. by apply Hno, (pt_inv_owned _ _ _ (sp_pt _ _ _ _ (sc_sp _ _ _ Hsrc))).
    + by apply Hfr.
    + intros Hin. by apply Hno, Hso.
    + intros Hin. apply Hno, Hso, list_elem_of_bind. eauto.
  - intros f [Hf|Hf]; [by apply (sp_owned _ _ _ _ (sc_sp _ _ _ Hsrc1) f)|by apply (sp_owned _ _ _ _ (sc_sp _ _ _ Hch) f)].
Qed.

Lemma clone_finish B ph0 src done ms a fn pt ph m :
  space B ph0 src → a ∈ areas src → area_wf a → child_pushed B ph0 ms a fn pt ph →
  Forall2 (area_copy (mem ph0) (mem ph)) done (areas ms) →
  Forall2 (λ f f', page_copy (mem ph) f m f') (area_frames a) fn → (∀ q, q ∉ fn → same_page (mem ph) m q) →
  clone_state B ph0 (done ++ [a]) (mkMemorySet pt (areas ms ++ [cloned_area a fn])) (mkPhys m (falloc ph)).
Proof.
  intros Hsrc Ha [Hty _ _ Hk] Hpu Hcopy Hc Hm. split; [by apply child_write_ok|].
  destruct Hpu as [_ _ Hlen _ _ Hmem Hfr _]. apply Forall2_app.
  - eapply area_copies_mono; [done|]. intros q Hq. apply Hm. intros Hin. by destruct (Hfr q Hin).
  - constructor; [|constructor]. split; simpl; [done|done|by rewrite Hty|rewrite Hk; apply fst_zip; lia|].
    rewrite cloned_area_frames by done. apply Forall2_same_length_lookup_2; [by apply Forall2_length in Hc|].
    intros i x y Hx Hy o Ho. pose proof (Forall2_lookup_lr _ _ _ _ _ _ Hc Hx Hy) as Hxy. rewrite (Hxy o Ho).
    apply (Hmem x); [|unfold PAGE_SIZE in *; lia]. apply (sp_owned _ _ _ _ (sc_sp _ _ _ Hsrc)), list_elem_of_bind.
    exists a. split; [by eapply list_elem_of_lookup_2|done].
Qed.

Lemma clone_area_ok B ph0 src done ms ph a rest :
  phys_inv lo ph0 → space B ph0 src → areas src = done ++ a :: rest →
  clone_state B ph0 done ms ph → 3 * area_pages a ≤ free_count (falloc ph) →
  ∃ ms' ph', clone_area src a (ms, ph) = Ret (ms', ph') ∧ clone_state B ph0 (done ++ [a]) ms' ph' ∧
    free_count (falloc ph) - 3 * area_pages a ≤ free_count (falloc ph').
Proof.
  intros Hph0 Hsrc Hareas Hcl Hfree. assert (Ha : a ∈ areas src) by (rewrite Hareas; set_solver).
  pose proof (sc_areas _ _ _ Hsrc) as Hwfs. rewrite Forall_forall in Hwfs. pose proof (Hwfs a Ha) as Hwf.
  destruct (clone_push_ok B ph0 src done ms ph a rest Hsrc Hareas Hcl Hwf Hfree) as (fn & pt & ph1 & E1 & Hp & Hcp & Hf).
  destruct (clone_copy_ok B ph0 src ms a fn pt ph1 Hph0 Hsrc Ha Hwf Hp) as (m & E2 & Hc & Hm).
  unfold clone_area, from_another, SimpleRange_new. destruct (id Hwf) as [Hty Hr _ _].
  rewrite (proj2 (Z.leb_le _ _)) by lia. cbn [rassert mbind outcome_bind].
  assert (mkSimpleRange (range_l (vpn_range a)) (range_r (vpn_range a)) = vpn_range a) as -> by (by destruct (vpn_range a)).
  rewrite Hty, E1. cbn [mbind outcome_bind]. rewrite E2. cbn [mbind outcome_bind].
  do 2 eexists. split; [done|]. split; [|done]. by eapply clone_finish.
Qed.

(** ** Whole spaces *)

(** The entry of the trampoline, mapped in every space but owned by none. *)
Definition trampoline_entry : Z * Z :=
  (0x7ffffff, pte_new (strampoline / PAGE_SIZE) (Z.lor (Z.lor PTE_R PTE_X) PTE_V)).

Lemma new_bare_ok ph :
  phys_inv lo ph → 0 < free_count (falloc ph) →
  ∃ ms ph', new_bare ph = Ret (ms, ph') ∧ phys_inv lo ph' ∧ space [] ph' ms ∧ areas ms = [] ∧
    (∀ q, q ∈ pt_frames (page_table ms) → ¬ p_owned lo ph q) ∧
    (∀ q, p_owned lo ph' q ↔ p_owned lo ph q ∨ q ∈ pt_frames (page_table ms)) ∧
    (∀ q, p_owned lo ph q → same_page (mem ph) (mem ph') q) ∧
    free_count (falloc ph') = free_count (falloc ph) - 1.
Proof.
  intros Hph Hfree.
  destruct (pt_new_total lo ph Hph Hfree) as (pt & ph' & E & Hph' & Hpt & Hno & Hfr & Hown & Hmem & Hfc & Hview).
  exists (mkMemorySet pt []), ph'. unfold new_bare. rewrite E. cbn [page_table]. rewrite Hfr.
  split_and!; try done.
  - split; [|constructor]. unfold ms_frames, ms_entries. simpl. split; simpl.
    + done.
    + intros v Hv. rewrite Hview by lia. done.
    + constructor.
    + rewrite app_nil_r, Hfr. apply NoDup_singleton.
    + set_solver.
  - set_solver.
  - intros q. rewrite Hown. set_solver.
Qed.

Lemma strampoline_page : 0 ≤ strampoline / PAGE_SIZE < 2 ^ 44.
Proof.
  destruct strampoline_aligned as [Hb _]. unfold PAGE_SIZE, MEMORY_END in *.
  split; [apply Z.div_pos; lia|apply Z.div_lt_upper_bound; lia].
Qed.

(** Both conversions of [map_trampoline] are of aligned addresses. *)
Lemma map_trampoline_eq ms ph :
  map_trampoline ms ph =
    ('(pt, ph) ← pt_map 0x7ffffff (strampoline / PAGE_SIZE) (Z.lor PTE_R PTE_X) (page_table ms) ph;
     Ret (mkMemorySet pt (areas ms), ph)).
Proof.
  destruct strampoline_aligned as [Hb Hal].
  unfold map_trampoline, VirtPageNum_of_VirtAddr, PhysPageNum_of_PhysAddr.
  change (page_offset (VirtAddr_from TRAMPOLINE) =? 0) with true.
  change (va_floor (VirtAddr_from TRAMPOLINE)) with 0x7ffffff. cbn [rassert mbind outcome_bind].
  assert (Hs : PhysAddr_from strampoline = strampoline).
  { unfold PhysAddr_from, PA_WIDTH_SV39. rewrite land_mask by lia. apply Z.mod_small. unfold MEMORY_END in *. lia. }
  rewrite Hs, page_offset_mod, Hal. done.
Qed.

Lemma map_trampoline_ok ms ph :
  phys_inv lo ph → space [] ph ms → areas ms = [] → 2 ≤ free_count (falloc ph) →
  ∃ pt' ph', let ms' := mkMemorySet pt' [] in
    map_trampoline ms ph = Ret (ms', ph') ∧ phys_inv lo ph' ∧ space [trampoline_entry] ph' ms' ∧
    sgrows ph (page_table ms) ph' pt' [] ∧
    free_count (falloc ph) - 2 ≤ free_count (falloc ph').
Proof.
  intros Hph [[Hpt Hrep Hk Hnd Hown] _] Hemp Hfree. rewrite map_trampoline_eq.
  set (spn := strampoline / PAGE_SIZE). pose proof strampoline_page as Hspn. fold spn in Hspn.
  pose proof (pt_map_total lo ph (page_table ms) 0x7ffffff spn (Z.lor PTE_R PTE_X) Hph Hpt
    ltac:(lia) Hspn ltac:(by vm_compute) Hfree) as Hm.
  unfold ms_entries, ms_frames in *. rewrite Hemp in *. simpl in *.
  rewrite Hrep in Hm by lia. simpl in Hm. rewrite lookup_empty in Hm.
  destruct Hm as (pt' & ph' & E & Hph' & Hpt' & Hg & Hfc & Hview). rewrite E. cbn [mbind outcome_bind].
  exists pt', ph'. split_and!; [done|done| |by apply sgrows_grows|done].
  split; [|constructor]. unfold ms_entries, ms_frames. simpl. split; simpl.
  - done.
  - intros v Hv. rewrite Hview by done. rewrite lookup_insert, lookup_empty.
    case_decide; case_decide; subst; try done. rewrite Hrep by done. simpl. by rewrite lookup_empty.
  - apply NoDup_singleton.
  - rewrite app_nil_r. destruct Hpt' as [T' Hwf']. apply (wf_nodup _ _ _ _ Hwf').
  - set_solver.
Qed.

Lemma total_pages_cons a l : total_pages (a :: l) = area_pages a + total_pages l.
Proof. done. Qed.

Lemma area_pages_nonneg a : area_wf a → 0 ≤ area_pages a.
Proof. intros [_ ? _ _]. unfold area_pages. lia. Qed.

Lemma total_pages_nonneg l : Forall area_wf l → 0 ≤ total_pages l.
Proof.
  induction 1 as [|a l Ha Hl IH]; [done|]. rewrite total_pages_cons. pose proof (area_pages_nonneg a Ha). lia.
Qed.

Lemma clone_areas_ok B ph0 src done rest ms ph :
  phys_inv lo ph0 → space B ph0 src → areas src = done ++ rest →
  clone_state B ph0 done ms ph → 3 * total_pages rest ≤ free_count (falloc ph) →
  ∃ ms' ph', for_each (clone_area src) rest (ms, ph) = Ret (ms', ph') ∧
    clone_state B ph0 (areas src) ms' ph'.
Proof.
  intros Hph0 Hsrc. revert done ms ph. induction rest as [|a rest IH]; intros done ms ph Hareas Hst Hfree.
  - exists ms, ph. rewrite app_nil_r in Hareas. by rewrite Hareas.
  - rewrite total_pages_cons in Hfree.
    assert (Hnn : 0 ≤ total_pages rest).
    { apply total_pages_nonneg. pose proof (sc_areas _ _ _ Hsrc) as Hwf. rewrite Hareas in Hwf.
      apply Forall_app in Hwf as [_ Hwf]. by apply Forall_cons in Hwf as [_ ?]. }
    destruct (clone_area_ok B ph0 src done ms ph a rest Hph0 Hsrc Hareas Hst ltac:(lia)) as
      (ms1 & ph1 & E1 & Hst1 & Hf1).
    cbn [for_each]. rewrite E1. cbn [mbind outcome_bind].
    apply (IH (done ++ [a])); [by rewrite <-app_assoc|done|lia].
Qed.

(** [new_bare] and [map_trampoline] start a space. *)
Lemma new_child_ok ph :
  phys_inv lo ph → 3 ≤ free_count (falloc ph) →
  ∃ ms0 ph0 ms ph1, new_bare ph = Ret (ms0, ph0) ∧ map_trampoline ms0 ph0 = Ret (ms, ph1) ∧ areas ms = [] ∧
    child_state [trampoline_entry] ph ms ph1 ∧ free_count (falloc ph) - 3 ≤ free_count (falloc ph1).
Proof.
  intros Hph Hfree.
  destruct (new_bare_ok ph Hph ltac:(lia)) as (ms0 & ph0 & E0 & Hph0 & Hs0 & Ha0 & Hn0 & Ho0 & Hm0 & Hf0).
  destruct (map_trampoline_ok ms0 ph0 Hph0 Hs0 Ha0 ltac:(lia)) as (pt1 & ph1 & E1 & Hph1 & Hs1 & [G1 G2 G3 G4 G5] & Hf1).
  exists ms0, ph0, (mkMemorySet pt1 []), ph1. split_and!; [done|done|done| |lia].
  unfold ms_frames in *. split; simpl; rewrite ?app_nil_r; try done.
  - intros q Hq Hq0. destruct (G2 q Hq) as [Hin|Hin]; [by apply (Hn0 q)|]. apply Hin, Ho0. by left.
  - intros q. rewrite G4, Ho0. split; [intros [[?|?]|[?|[]%elem_of_nil]]; auto|intros [?|?]; auto].
  - intros q Hq x Hx. rewrite (G5 q), (Hm0 q); try done; [apply Ho0; by left|].
    intros Hin. by apply (Hn0 q).
Qed.

Lemma from_existed_user_ok src ph :
  phys_inv lo ph → space [trampoline_entry] ph src →
  3 + 3 * total_pages (areas src) ≤ free_count (falloc ph) →
  ∃ child ph', from_existed_user src ph = Ret (child, ph') ∧
    clone_state [trampoline_entry] ph (areas src) child ph'.
Proof.
  intros Hph Hsrc Hfree. pose proof (total_pages_nonneg _ (sc_areas _ _ _ Hsrc)).
  destruct (new_child_ok ph Hph ltac:(lia)) as (ms0 & ph0 & ms & ph1 & E0 & E1 & Ha & Hch & Hf).
  unfold from_existed_user. rewrite E0. cbn [mbind outcome_bind]. rewrite E1. cbn [mbind outcome_bind].
  apply (clone_areas_ok _ ph src []); [done|done|done| |lia]. split; [done|]. by rewrite Ha.
Qed.

(** ** Dropping *)
Lemma drop_areas_ok l ph :
  phys_inv lo ph → NoDup (l ≫= area_frames) → (∀ q, q ∈ l ≫= area_frames → p_owned lo ph q) →
  ∃ ph', for_each drop_area l ph = Ret ph' ∧ phys_inv lo ph' ∧ mem ph' = mem ph ∧
    ∀ q, p_owned lo ph' q ↔ q ∉ l ≫= area_frames ∧ p_owned lo ph q.
Proof.
  revert ph. induction l as [|a l IH]; intros ph Hph Hnd Hown.
  - exists ph. split_and!; try done. simpl. set_solver.
  - rewrite bind_cons in Hnd, Hown. apply NoDup_app in Hnd as (Hnda & Hdis & Hndl).
    destruct (drop_frames_total lo (area_frames a) ph Hph Hnda) as (ph1 & E1 & Hph1 & Hm1 & _ & Ho1); [set_solver|].
    destruct (IH ph1 Hph1 Hndl) as (ph2 & E2 & Hph2 & Hm2 & Ho2).
    { intros q Hq. apply Ho1. split; [|set_solver]. intros Hin. by apply (Hdis q). }
    exists ph2. cbn [for_each]. change (drop_area a ph) with (drop_frames (area_frames a) ph). rewrite E1. cbn [mbind outcome_bind].
    rewrite E2. split_and!; [done|done|congruence|].
    intros q. rewrite Ho2, Ho1, bind_cons, elem_of_app. tauto.
Qed.

Lemma drop_memory_set_ok B ms ph :
  phys_inv lo ph → space B ph ms →
  ∃ ph', drop_memory_set ms ph = Ret ph' ∧ phys_inv lo ph' ∧ mem ph' = mem ph ∧
    ∀ q, p_owned lo ph' q ↔ q ∉ pt_frames (page_table ms) ++ ms_frames ms ∧ p_owned lo ph q.
Proof.
  intros Hph [[Hpt _ _ Hnd Hown] _]. apply NoDup_app in Hnd as (_ & Hdis & Hndf).
  destruct (drop_page_table_total lo ph _ Hph Hpt) as (ph1 & E1 & Hph1 & Hm1 & _ & Ho1).
  destruct (drop_areas_ok (areas ms) ph1 Hph1 Hndf) as (ph2 & E2 & Hph2 & Hm2 & Ho2).
  { intros q Hq. apply Ho1. split; [|auto]. intros Hin. by apply (Hdis q). }
  exists ph2. unfold drop_memory_set. rewrite E1. cbn [mbind outcome_bind]. rewrite E2.
  split_and!; [done|done|congruence|]. intros q. rewrite Ho2, Ho1, elem_of_app. unfold ms_frames. tauto.
Qed.
End SpaceInv.

(** C4: [from_existed_user] (the memory half of fork) builds an isolated copy.
    Given enough free frames it never panics; the child has exactly the
    parent's areas with the same ranges and permissions, every page holding
    the parent's bytes in a frame that nobody owned before; every page owned
    by anyone before the call - the parent's own included - keeps its content
    and its owner; and dropping the child gives back exactly its frames. *)
Theorem fork_copies_and_isolates `{PlatformLaws} lo src ph :
  phys_inv lo ph → space lo [trampoline_entry] ph src →
  3 + 3 * total_pages (areas src) ≤ free_count (falloc ph) →
  ∃ child ph' ph'', from_existed_user src ph = Ret (child, ph') ∧
    phys_inv lo ph' ∧ space lo [trampoline_entry] ph' child ∧ space lo [trampoline_entry] ph' src ∧
    Forall2 (area_copy (mem ph) (mem ph')) (areas src) (areas child) ∧
    (∀ q, q ∈ pt_frames (page_table child) ++ ms_frames child → ¬ p_owned lo ph q) ∧
    (∀ q, p_owned lo ph q → p_owned lo ph' q ∧ same_page (mem ph) (mem ph') q) ∧
    drop_memory_set child ph' = Ret ph'' ∧ (∀ q, p_owned lo ph'' q ↔ p_owned lo ph q).
Proof.
  intros Hph Hsrc Hfree.
  destruct (from_existed_user_ok lo src ph Hph Hsrc Hfree) as (child & ph' & E & [[Hph' Hch Hnew Hown Hmem] Hcopy]).
  destruct (drop_memory_set_ok lo _ child ph' Hph' Hch) as (ph'' & E'' & _ & _ & Ho'').
  assert (Hkeep : ∀ q, p_owned lo ph q → p_owned lo ph' q ∧ same_page (mem ph) (mem ph') q).
  { intros q Hq. split; [apply Hown; by left|by apply Hmem]. }
  exists child, ph', ph''. split_and!; try done; [by apply (space_frame lo _ ph)|].
  intros q. rewrite Ho'', Hown. split; [tauto|]. intros Hq. split; [|by left]. intros Hin. by apply (Hnew q).
Qed.

(** [insert_framed_area] maps a whole range or stops the kernel. With
    enough free frames: if no page of the range is mapped, every page of the
    range gets a fresh zeroed frame with the requested permissions and the
    space stays well formed; if some page is mapped already it panics. *)
Theorem insert_framed_area_spec `{PlatformLaws} lo B ms ph start_va end_va perm :
  phys_inv lo ph → space lo B ph ms → 0 ≤ start_va → start_va ≤ end_va → end_va ≤ 2 ^ 39 → 0 ≤ perm < 256 →
  let l := va_floor start_va in
  let r := va_ceil end_va in
  3 * (r - l) ≤ free_count (falloc ph) →
  (∃ v, l ≤ v < r ∧ v ∈ (B ++ ms_entries ms).*1 ∧ insert_framed_area start_va end_va perm ms ph = Panic) ∨
  (∃ fn ms' ph', insert_framed_area start_va end_va perm ms ph = Ret (ms', ph') ∧
     phys_inv lo ph' ∧ space lo B ph' ms' ∧ length fn = Z.to_nat (r - l) ∧
     areas ms' = areas ms ++ [mkMapArea (mkSimpleRange l r) (zip (seqZ l (r - l)) fn) Framed perm] ∧
     (∀ f, f ∈ fn → ¬ p_owned lo ph f ∧ p_owned lo ph' f ∧ zero_page (mem ph') f) ∧
     (∀ q, p_owned lo ph q → q ∉ pt_frames (page_table ms) → same_page (mem ph) (mem ph') q)).
Proof.
  intros Hph Hms Hs Hse He Hp l r Hfree.
  assert (Hlr : 0 ≤ l ≤ r ∧ r ≤ 2 ^ 27).
  { unfold l, r, va_floor, va_ceil, PAGE_SIZE. destruct (Z.eqb_spec end_va 0) as [->|].
    - assert (start_va = 0) as -> by lia. done.
    - split_and!; [apply Z.div_pos; lia|apply Z.div_le_mono; lia|].
      apply Z.lt_succ_r, Z.div_lt_upper_bound; lia. }
  unfold insert_framed_area, MapArea_new, SimpleRange_new. fold l r.
  rewrite (proj2 (Z.leb_le l r)) by lia. cbn [rassert mbind outcome_bind].
  set (a := mkMapArea (mkSimpleRange l r) [] Framed perm).
  destruct (decide (Exists (λ v, v ∈ (B ++ ms_entries ms).*1) (seqZ l (r - l)))) as [Hex|Hnex].
  - left. apply Exists_exists in Hex as (v & Hv & Hin). apply elem_of_seqZ in Hv. exists v.
    split_and!; [lia|lia|done|]. unfold ms_push, area_map.
    rewrite range_list_nat by (simpl; lia). simpl.
    destruct Hms as [Hsp _].
    rewrite (map_run_panic lo _ a (page_table ms) ph (ms_frames ms) (B ++ ms_entries ms) l);
      [done|done|done|done|done|lia|lia|exists v; split; [lia|done]|constructor|lia].
  - right. rewrite <-Forall_Exists_neg, Forall_forall in Hnex.
    destruct (ms_push_ok lo B a ms ph Hph Hms) as (fn & pt' & ph' & E & Hlen & Hph' & Hms' & [G1 G2 G3 G4 G5] & Hz & _).
    + split; simpl; [done|lia|done|done].
    + intros v Hv. by apply Hnex.
    + unfold area_pages. simpl. lia.
    + rewrite E. exists fn. eexists _, ph'. split_and!; [done|done|done|done|done| |done].
      intros f Hf. split_and!; [by apply G3|apply G4; auto|by apply Hz].
Qed.

(** ** Witnesses: a two-page user space of the demo platform *)
Lemma demo_user_space :
  ∃ ms ph, @phys_inv DemoPlatform.demo 0x80204 ph ∧
    @space DemoPlatform.demo 0x80204 [@trampoline_entry DemoPlatform.demo] ph ms ∧
    total_pages (areas ms) = 2 ∧ 100 ≤ free_count (falloc ph) ∧
    (ms_entries ms).*1 = [16; 17].
Proof.
  pose proof DemoPlatform.boot_inv as Hph.
  assert (Hf : free_count (falloc DemoPlatform.boot) = 32252) by (vm_compute; reflexivity).
  destruct (@new_bare_ok DemoPlatform.demo _ 0x80204 _ Hph ltac:(rewrite Hf; lia))
    as (ms0 & ph0 & _ & Hph0 & Hs0 & Ha0 & _ & _ & _ & Hf0).
  destruct (@map_trampoline_ok DemoPlatform.demo _ 0x80204 ms0 ph0 Hph0 Hs0 Ha0 ltac:(lia))
    as (pt1 & ph1 & _ & Hph1 & Hs1 & _ & Hf1).
  set (a := mkMapArea (mkSimpleRange 16 18) [] Framed 0x16).
  assert (Hp : area_pages a = 2) by reflexivity.
  destruct (@ms_push_ok DemoPlatform.demo _ 0x80204 _ a _ ph1 Hph1 Hs1)
    as (fn & pt2 & ph2 & _ & Hlen & Hph2 & Hs2 & _ & _ & Hf2).
  - split; simpl; [reflexivity|lia|lia|reflexivity].
  - intros v Hv. apply elem_of_seqZ in Hv. simpl in Hv. simpl.
    intros [->|[]%elem_of_nil]%elem_of_cons. lia.
  - rewrite Hp. lia.
  - rewrite Hp in Hf2. eexists _, ph2. split_and!; [exact Hph2|exact Hs2|reflexivity|lia|].
    unfold ms_entries. simpl. rewrite app_nil_r, area_entries_keys. simpl.
    apply (fst_zip (seqZ 16 2) fn). rewrite Hlen. simpl. lia.
Qed.

Lemma fork_copies_and_isolates_witness :
  ∃ src ph, 
  ∃ child ph' ph'', @from_existed_user DemoPlatform.demo src ph = Ret (child, ph') ∧
    @phys_inv DemoPlatform.demo 0x80204 ph' ∧
    @space DemoPlatform.demo 0x80204 [@trampoline_entry DemoPlatform.demo] ph' child ∧
    @space DemoPlatform.demo 0x80204 [@trampoline_entry DemoPlatform.demo] ph' src ∧
    Forall2 (area_copy (mem ph) (mem ph')) (areas src) (areas child) ∧
    (∀ q, q ∈ pt_frames (page_table child) ++ ms_frames child → ¬ p_owned 0x80204 ph q) ∧
    (∀ q, p_owned 0x80204 ph q → p_owned 0x80204 ph' q ∧ same_page (mem ph) (mem ph') q) ∧
    drop_memory_set child ph' = Ret ph'' ∧ (∀ q, p_owned 0x80204 ph'' q ↔ p_owned 0x80204 ph q).
Proof.
  destruct demo_user_space as (ms & ph & Hph & Hs & Hp & Hf & _). exists ms, ph.
  apply (@fork_copies_and_isolates DemoPlatform.demo _ 0x80204 ms ph Hph Hs). rewrite Hp. lia.
Defined.

Lemma insert_framed_area_spec_witness :
  ∃ ms ph,
  (∃ v, 17 ≤ v < 20 ∧ v ∈ ([@trampoline_entry DemoPlatform.demo] ++ ms_entries ms).*1 ∧
     @insert_framed_area DemoPlatform.demo 0x11000 0x13800 0x16 ms ph = Panic) ∨
  (∃ fn ms' ph', @insert_framed_area DemoPlatform.demo 0x11000 0x13800 0x16 ms ph = Ret (ms', ph') ∧
     @phys_inv DemoPlatform.demo 0x80204 ph' ∧
     @space DemoPlatform.demo 0x80204 [@trampoline_entry DemoPlatform.demo] ph' ms' ∧ length fn = Z.to_nat (20 - 17) ∧
     areas ms' = areas ms ++ [mkMapArea (mkSimpleRange 17 20) (zip (seqZ 17 (20 - 17)) fn) Framed 0x16] ∧
     (∀ f, f ∈ fn → ¬ p_owned 0x80204 ph f ∧ p_owned 0x80204 ph' f ∧ zero_page (mem ph') f) ∧
     (∀ q, p_owned 0x80204 ph q → q ∉ pt_frames (page_table ms) → same_page (mem ph) (mem ph') q)).
Proof.
  destruct demo_user_space as (ms & ph & Hph & Hs & Hp & Hf & _). exists ms, ph.
  apply (@insert_framed_area_spec DemoPlatform.demo _ 0x80204 _ ms ph 0x11000 0x13800 0x16 Hph Hs); try lia.
  change (va_ceil 0x13800 - va_floor 0x11000) with 3. lia.
Defined.
