(* ===== verification/KernelSpace.v ===== *)
(** * The kernel address space and memory start-up
      ([os/src/mm/mod.rs], [MemorySet::new_kernel], [remap_test])

    [mm_init] sets the frame allocator up, builds [KERNEL_SPACE] (a lazy
    static, forced here first) and writes its token to [satp].  The theorem
    at the end is what the rest of the development takes for granted when it
    reads and writes physical memory directly ([PhysMem]). *)

From S2P Require Import Prelude Address PhysMem FrameAlloc PageTable MemorySet.

(** ** The linker script ([os/src/linker-qemu.ld]): sections in order, each
    ending where the next starts, every boundary page aligned; the trampoline
    is inside [.text]. *)
Class KernelLayout `{!Platform} : Prop := {
  kl_base : stext = 0x80200000;
  kl_text : stext ≤ strampoline < etext;
  kl_rodata : etext = srodata ∧ srodata ≤ erodata;
  kl_data : erodata = sdata ∧ sdata ≤ edata;
  kl_bss : edata = sbss_with_stack ∧ sbss_with_stack ≤ ebss;
  kl_end : ebss = ekernel ∧ ekernel < MEMORY_END;
  kl_aligned : Forall (λ a, a mod PAGE_SIZE = 0) [etext; erodata; edata; ekernel; strampoline];
}.

Section Boot.
Context {PF : Platform}.

(** [mm::init]: the kernel space, memory and the value written to [satp].
    Setting up the heap of the external allocator is left out. *)
Definition mm_init (m : Mem) : outcome (MemorySet * Phys * Z) :=
  let ph := mkPhys m (init_frame_allocator fa_new) in
  '(ms, ph) ← new_kernel ph;
  Ret (ms, ph, ms_token ms).

(** [remap_test]: the middle of [.text] and [.rodata] cannot be written, the
    middle of [.data] cannot be executed. *)
Definition remap_test (ms : MemorySet) (m : Mem) : outcome unit :=
  let mid_text := VirtAddr_from (usize (stext + etext) / 2) in
  let mid_rodata := VirtAddr_from (usize (srodata + erodata) / 2) in
  let mid_data := VirtAddr_from (usize (sdata + edata) / 2) in
  r ← translate (va_floor mid_text) (page_table ms) m;
  pte ← unwrap r;
  _ ← rassert (negb (writable pte));
  r ← translate (va_floor mid_rodata) (page_table ms) m;
  pte ← unwrap r;
  _ ← rassert (negb (writable pte));
  r ← translate (va_floor mid_data) (page_table ms) m;
  pte ← unwrap r;
  rassert (negb (executable pte)).

(** ** Specification: the mapping of the kernel space *)
Definition identity_entry (perm v : Z) : Z := pte_new v (Z.lor perm PTE_V).

Definition in_section (sec : Z * Z * Z) (v : Z) : Prop :=
  let '(s, e, _) := sec in s / PAGE_SIZE ≤ v < e / PAGE_SIZE.

#[global] Instance in_section_dec sec v : Decision (in_section sec v).
Proof. destruct sec as [[s e] perm]. apply _. Defined.

Fixpoint sections_entry (l : list (Z * Z * Z)) (v : Z) : option Z :=
  match l with
  | [] => None
  | sec :: l => if decide (in_section sec v) then Some (identity_entry sec.2 v) else sections_entry l v
  end.

Definition trampoline_vpn : Z := 2 ^ 27 - 1.

Definition kernel_view (v : Z) : option Z :=
  if decide (v = trampoline_vpn) then Some (pte_new (strampoline / PAGE_SIZE) (Z.lor (Z.lor PTE_R PTE_X) PTE_V))
  else sections_entry kernel_sections v.

(** The paths of the interior tables: the trampoline's, those of the two
    register ranges, and those of the RAM from the base of the kernel on. *)
Definition kernel_tables : gset (list Z) :=
  list_to_set ([[]; [511]; [511; 511]; [0]; [0; 0]; [0; 128]; [2]] ++ ((λ i, [2; i]) <$> seqZ 1 63)).
End Boot.

Lemma kernel_tables_size : size kernel_tables = 70%nat.
Proof. by vm_compute. Qed.

(** ** Building a space of identity mappings *)
Section Building.
Context {PF : Platform} {PFL : PlatformLaws} (lo : Z) (U : gset (list Z)) (B : Z).
Context (HB : Z.of_nat (size U) ≤ B).

(** The table under construction maps exactly [V] with tables among [U]. *)
Record building (ph : Phys) (pt : PageTable) (V : Z → option Z) : Prop := {
  bd_phys : phys_inv lo ph;
  bd_wf : ∃ T, pt_wf lo ph pt T ∧ dom T ⊆ U ∧ pt_budget ph T = B;
  bd_view v : 0 ≤ v < 2 ^ 27 → pt_view (mem ph) pt v = V v;
}.

Lemma building_ext ph pt V V' :
  building ph pt V → (∀ v, 0 ≤ v < 2 ^ 27 → V v = V' v) → building ph pt V'.
Proof. intros [H1 H2 H3] HV. split; [done..|]. intros v Hv. by rewrite H3, HV. Qed.

Lemma building_inv ph pt V : building ph pt V → pt_inv lo ph pt.
Proof. intros [_ (T & HT & _) _]. by exists T. Qed.

Lemma building_map ph pt V vpn ppn flags :
  building ph pt V → 0 ≤ vpn < 2 ^ 27 → 0 ≤ ppn < 2 ^ 44 → 0 ≤ flags < 256 →
  interior vpn ⊆ U → V vpn = None →
  ∃ pt' ph', pt_map vpn ppn flags pt ph = Ret (pt', ph') ∧ grows lo ph pt ph' pt' ∧
    building ph' pt' (λ v, if decide (v = vpn) then Some (pte_new ppn (Z.lor flags PTE_V)) else V v).
Proof.
  intros [Hph (T & Hwf & Hd & Hb) Hview] Hv Hp Hf Hi HV.
  assert (HS : interior vpn ∪ dom T ⊆ U) by set_solver.
  pose proof (pt_map_wf lo ph pt T vpn ppn flags Hph Hwf Hv Hp Hf) as Hm.
  rewrite Hview, HV, Hb in Hm by done. specialize (Hm ltac:(apply subseteq_size in HS; lia)).
  destruct Hm as (pt' & ph' & T' & E & Hph' & Hwf' & Hd' & Hb' & Hg & Hview').
  exists pt', ph'. split_and!; [done|done|]. split; [done| |].
  - exists T'. rewrite Hd'. split_and!; [done|done|congruence].
  - intros v Hv'. rewrite Hview' by done. case_decide; [done|]. by apply Hview.
Qed.

Lemma building_run n a pt ph V s :
  building ph pt V → map_type a = Identical → 0 ≤ map_perm a < 256 →
  0 ≤ s → s + Z.of_nat n ≤ 2 ^ 27 →
  (∀ v, s ≤ v < s + Z.of_nat n → interior v ⊆ U ∧ V v = None) →
  ∃ pt' ph', for_each map_one (seqZ s (Z.of_nat n)) (a, pt, ph) = Ret (a, pt', ph') ∧
    grows lo ph pt ph' pt' ∧
    building ph' pt' (λ v, if decide (s ≤ v < s + Z.of_nat n) then Some (identity_entry (map_perm a) v) else V v).
Proof.
  revert pt ph V s. induction n as [|n IH]; intros pt ph V s Hbd Hty Hperm Hs Hn HV.
  - exists pt, ph. simpl. split_and!; [done| |].
    + apply grows_refl. intros q Hq. by apply (pt_inv_owned lo _ _ _ (building_inv _ _ _ Hbd)).
    + eapply building_ext; [done|]. intros v Hv. rewrite decide_False by lia. done.
  - destruct (building_map ph pt V s s (map_perm a) Hbd) as (pt1 & ph1 & E1 & Hg1 & Hbd1);
      [lia|lia|done|apply HV; lia|apply HV; lia|].
    destruct (IH pt1 ph1 _ (s + 1) Hbd1) as (pt2 & ph2 & E2 & Hg2 & Hbd2); [done|done|lia|lia| |].
    { intros v Hv. rewrite decide_False by lia. apply HV. lia. }
    exists pt2, ph2. rewrite (seqZ_cons s) by lia. replace (Z.succ s) with (s + 1) by lia.
    replace (Z.pred (Z.of_nat (S n))) with (Z.of_nat n) by lia.
    assert (E0 : map_one s (a, pt, ph) = Ret (a, pt1, ph1)).
    { unfold map_one. rewrite Hty. cbn [mbind outcome_bind]. by rewrite E1. }
    cbn [for_each]. rewrite E0. cbn [mbind outcome_bind]. rewrite E2.
    split_and!; [done|by eapply grows_trans|]. eapply building_ext; [done|].
    intros v Hv. simpl. unfold identity_entry. repeat case_decide; subst; (done || lia).
Qed.

(** A section the space can take: aligned, in the low half, permission bits only. *)
Definition section_ok (sec : Z * Z * Z) : Prop :=
  let '(s, e, perm) := sec in
  0 < s ≤ e ∧ e < 2 ^ 38 ∧ s mod PAGE_SIZE = 0 ∧ e mod PAGE_SIZE = 0 ∧ 0 ≤ perm < 256 ∧
  ∀ v, in_section sec v → interior v ⊆ U.

Lemma push_section_ok sec ms ph V :
  building ph (page_table ms) V → section_ok sec → (∀ v, in_section sec v → V v = None) →
  ∃ ms' ph', push_section sec (ms, ph) = Ret (ms', ph') ∧
    grows lo ph (page_table ms) ph' (page_table ms') ∧
    building ph' (page_table ms') (λ v, if decide (in_section sec v) then Some (identity_entry sec.2 v) else V v) ∧
    areas ms' = areas ms ++ [mkMapArea (mkSimpleRange (sec.1.1 / PAGE_SIZE) (sec.1.2 / PAGE_SIZE)) [] Identical sec.2].
Proof.
  destruct sec as [[s e] perm]. intros Hbd (Hse & He & Hs0 & He0 & Hperm & HU) HV.
  unfold push_section, MapArea_new, SimpleRange_new.
  rewrite !VirtAddr_from_small by lia. unfold va_floor, va_ceil.
  rewrite (proj2 (Z.eqb_neq e 0)) by lia.
  assert (Hc : (e - 1 + PAGE_SIZE) / PAGE_SIZE = e / PAGE_SIZE).
  { unfold PAGE_SIZE in *. pose proof (Z.div_mod e 0x1000 ltac:(lia)).
    symmetry. apply Z.div_unique with 0xfff; lia. }
  rewrite Hc. pose proof (Z.div_le_mono s e PAGE_SIZE ltac:(done) ltac:(lia)) as Hle.
  rewrite (proj2 (Z.leb_le _ _) Hle). cbn [rassert mbind outcome_bind].
  set (a := mkMapArea (mkSimpleRange (s / PAGE_SIZE) (e / PAGE_SIZE)) [] Identical perm).
  assert (0 ≤ s / PAGE_SIZE) by (apply Z.div_pos; [lia|done]).
  assert (Hhi : e / PAGE_SIZE ≤ 2 ^ 27).
  { unfold PAGE_SIZE. pose proof (Z.div_lt_upper_bound e 0x1000 (2 ^ 26)) as Hd. lia. }
  destruct (building_run (Z.to_nat (e / PAGE_SIZE - s / PAGE_SIZE)) a (page_table ms) ph V (s / PAGE_SIZE))
    as (pt' & ph' & E & Hg & Hbd'); [done..|lia| |].
  { intros v Hv. rewrite Z2Nat.id in Hv by lia. split; [apply HU|apply HV]; simpl; lia. }
  rewrite Z2Nat.id in E, Hbd' by lia.
  eexists (mkMemorySet pt' (areas ms ++ [a])), ph'. unfold ms_push, area_map, range_list. simpl.
  rewrite E. split_and!; [done|done| |done].
  eapply building_ext; [done|]. intros v Hv. simpl. repeat case_decide; (done || lia).
Qed.

(** Pushing sections that do not overlap. *)
Lemma push_sections_ok l ms ph V :
  building ph (page_table ms) V → Forall section_ok l →
  ForallOrdPairs (λ a b, ∀ v, in_section a v → ¬ in_section b v) l →
  (∀ sec v, sec ∈ l → in_section sec v → V v = None) →
  ∃ ms' ph', for_each push_section l (ms, ph) = Ret (ms', ph') ∧
    grows lo ph (page_table ms) ph' (page_table ms') ∧
    building ph' (page_table ms') (λ v, match sections_entry l v with Some e => Some e | None => V v end).
Proof.
  revert ms ph V. induction l as [|sec l IH]; intros ms ph V Hbd Hok Hdis HV.
  - exists ms, ph. split_and!; [done| |done].
    apply grows_refl. intros q Hq. by apply (pt_inv_owned lo _ _ _ (building_inv _ _ _ Hbd)).
  - apply Forall_cons in Hok as [Hs Hok]. inversion Hdis as [|? ? Hd Hdis']; subst.
    destruct (push_section_ok sec ms ph V Hbd Hs) as (ms1 & ph1 & E1 & Hg1 & Hbd1 & _); [set_solver|].
    destruct (IH ms1 ph1 _ Hbd1 Hok Hdis') as (ms2 & ph2 & E2 & Hg2 & Hbd2).
    { intros sec' v Hin Hv. rewrite decide_False; [apply (HV sec'); set_solver|].
      intros Hv'. rewrite List.Forall_forall in Hd. by apply (Hd sec' (proj1 (list_elem_of_In _ _) Hin) v). }
    exists ms2, ph2. cbn [for_each]. rewrite E1. cbn [mbind outcome_bind].
    split_and!; [done|by eapply grows_trans|]. eapply building_ext; [done|].
    intros v Hv. cbn [sections_entry]. case_decide as Hsv; [|done].
    assert (Hnone : sections_entry l v = None); [|by rewrite Hnone].
    clear -Hd Hsv. induction l as [|x l IH]; simpl; [done|]. inversion Hd as [|? ? Hx Hd']; subst.
    rewrite decide_False by eauto. auto.
Qed.
End Building.

(** ** Building a space only takes frames

    With no recycled frame at the start there is none at the end, so that the
    free frames stay one run of consecutive pages. *)
Section OnlyTakes.
Context {PF : Platform}.

Definition no_recycled (ph : Phys) : Prop := recycled (falloc ph) = [].

Lemma for_each_keeps {A S} (P : S → Prop) (f : A → S → outcome S) l s s' :
  (∀ x s s', f x s = Ret s' → P s → P s') → for_each f l s = Ret s' → P s → P s'.
Proof.
  intros Hf. revert s. induction l as [|x l IH]; intros s E Hs; simpl in E; inv_ret; [done|]. eauto.
Qed.

Lemma frame_alloc_keeps ph r ph' : frame_alloc ph = Ret (r, ph') → no_recycled ph → no_recycled ph'.
Proof.
  unfold frame_alloc, fa_alloc, no_recycled. intros E Hn. rewrite Hn in E. simpl in E.
  destruct (current (falloc ph) =? fend (falloc ph)); inv_ret; [exact Hn|done].
Qed.

Lemma pt_map_keeps vpn ppn flags pt ph pt' ph' :
  pt_map vpn ppn flags pt ph = Ret (pt', ph') → no_recycled ph → no_recycled ph'.
Proof.
  assert (Hl : ∀ q i fs ph q' fs' ph',
    create_level q i fs ph = Ret (q', fs', ph') → no_recycled ph → no_recycled ph').
  { intros q i fs ph0 q' fs' ph1 E Hn. unfold create_level in E. inv_ret; [|done].
    rename select (frame_alloc _ = _) into Ha. exact (frame_alloc_keeps _ _ _ Ha Hn). }
  unfold pt_map, find_pte_create. intros E Hn. destruct (indexes vpn) as [[i0 i1] i2]. cbn [find_pte_create_loop] in E.
  inv_ret. unfold no_recycled in *. simpl. eauto.
Qed.

Lemma map_one_keeps v a pt ph a' pt' ph' :
  map_one v (a, pt, ph) = Ret (a', pt', ph') → map_type a = Identical → no_recycled ph →
  map_type a' = Identical ∧ no_recycled ph'.
Proof.
  unfold map_one. intros E Hty Hn. rewrite Hty in E. inv_ret. eauto using pt_map_keeps.
Qed.

Lemma push_section_keeps sec ms ph ms' ph' :
  push_section sec (ms, ph) = Ret (ms', ph') → no_recycled ph → no_recycled ph'.
Proof.
  destruct sec as [[s e] perm]. unfold push_section, MapArea_new, ms_push, area_map. intros E Hn. inv_ret.
  rename select (for_each _ _ _ = _) into Hf.
  eapply (for_each_keeps (λ st, map_type st.1.1 = Identical ∧ no_recycled st.2)) in Hf; [by apply Hf| |done].
  intros v [[a pt] p] [[a' pt'] p'] E [? ?]. by eapply map_one_keeps.
Qed.

Lemma new_kernel_keeps ph ms ph' : new_kernel ph = Ret (ms, ph') → no_recycled ph → no_recycled ph'.
Proof.
  unfold new_kernel, new_bare, pt_new, map_trampoline. generalize kernel_sections. intros l E Hn. inv_ret.
  rename select (for_each _ _ _ = _) into Hf.
  eapply (for_each_keeps (λ st, no_recycled st.2)) in Hf; [done| |simpl; eauto using pt_map_keeps, frame_alloc_keeps].
  intros sec [? ?] [? ?]. apply push_section_keeps.
Qed.
End OnlyTakes.

(** ** The tables a page needs are among [kernel_tables] *)
Lemma kernel_tables_elem p :
  p ∈ kernel_tables ↔
  p ∈ [[]; [511]; [511; 511]; [0]; [0; 0]; [0; 128]; [2]] ∨ ∃ i, p = [2; i] ∧ 1 ≤ i < 64.
Proof.
  unfold kernel_tables. rewrite elem_of_list_to_set, elem_of_app, list_elem_of_fmap.
  setoid_rewrite elem_of_seqZ. done.
Qed.

Lemma interior_kernel v i0 i1 :
  0 ≤ v → v / 262144 mod 512 = i0 → (v / 512) mod 512 = i1 →
  [i0] ∈ kernel_tables → [i0; i1] ∈ kernel_tables → interior v ⊆ kernel_tables.
Proof.
  intros Hv H0 H1 ? ?. unfold interior. destruct (indexes v) as [[j0 j1] j2] eqn:E.
  apply indexes_spec in E as (_ & -> & ->); [|done]. rewrite H0, H1. set_solver.
Qed.

Lemma interior_ram v : 0x80200 ≤ v < 0x88000 → interior v ⊆ kernel_tables.
Proof.
  intros Hv. assert (Hq : 1025 ≤ v / 512 < 1088)
    by (split; [apply Z.div_le_lower_bound|apply Z.div_lt_upper_bound]; lia).
  assert (v / 262144 = 2) by (symmetry; apply Z.div_unique with (v - 2 * 262144); lia).
  assert (Hi : (v / 512) mod 512 = v / 512 - 1024)
    by (symmetry; apply Z.mod_unique with 2; lia).
  apply (interior_kernel v 2 (v / 512 - 1024)); [lia|by rewrite H|done| |];
    apply kernel_tables_elem; [left; by apply (bool_decide_unpack _)|right]. eexists. split; [done|lia].
Qed.

Lemma interior_low v : 0x100 ≤ v < 0x102 ∨ v = 0x10001 → interior v ⊆ kernel_tables.
Proof.
  intros Hv. assert (v = 0x100 ∨ v = 0x101 ∨ v = 0x10001) as [->|[-> | ->]] by lia;
    (eapply interior_kernel; [lia|done|done|apply kernel_tables_elem; left; by apply (bool_decide_unpack _)..]).
Qed.

Lemma interior_trampoline : interior trampoline_vpn ⊆ kernel_tables.
Proof. eapply interior_kernel; [done..| |]; apply kernel_tables_elem; left; by apply (bool_decide_unpack _). Qed.

(** ** The kernel space *)
Section Kernel.
Context {PF : Platform} {PFL : PlatformLaws} {KL : KernelLayout}.

Lemma page_aligned a : a mod PAGE_SIZE = 0 → a = PAGE_SIZE * (a / PAGE_SIZE).
Proof. intros H. pose proof (Z.div_mod a PAGE_SIZE ltac:(done)). lia. Qed.

(** The page numbers of the sections. *)
Lemma layout_pages :
  stext / PAGE_SIZE = 0x80200 ∧
  etext = 0x1000 * (etext / PAGE_SIZE) ∧ erodata = 0x1000 * (erodata / PAGE_SIZE) ∧
  edata = 0x1000 * (edata / PAGE_SIZE) ∧ ekernel = 0x1000 * (ekernel / PAGE_SIZE) ∧
  0x80200 < etext / PAGE_SIZE ∧ etext / PAGE_SIZE ≤ erodata / PAGE_SIZE ∧
  erodata / PAGE_SIZE ≤ edata / PAGE_SIZE ∧ edata / PAGE_SIZE ≤ ekernel / PAGE_SIZE ∧
  ekernel / PAGE_SIZE < 0x88000.
Proof.
  destruct kl_text, kl_rodata as [<- ?], kl_data as [<- ?], kl_bss as [<- ?], kl_end as [<- Hend].
  pose proof kl_aligned as Ha. rewrite kl_base in *. unfold MEMORY_END in Hend.
  destruct kl_end as [He _]. rewrite <-He in *.
  repeat match goal with
  | H : Forall _ (_ :: _) |- _ => apply Forall_cons in H as [?%page_aligned H]
  end.
  change (0x80200000 / PAGE_SIZE) with 0x80200. unfold PAGE_SIZE in *. lia.
Qed.

(** The sections as page ranges. *)
Lemma kernel_sections_eq :
  kernel_sections =
    [(stext, etext, Z.lor MP_R MP_X); (etext, erodata, MP_R);
     (erodata, edata, Z.lor MP_R MP_W); (edata, ekernel, Z.lor MP_R MP_W);
     (ekernel, MEMORY_END, Z.lor MP_R MP_W);
     (0x100000, 0x102000, Z.lor MP_R MP_W); (0x10001000, 0x10002000, Z.lor MP_R MP_W)].
Proof.
  destruct kl_rodata as [H1 _], kl_data as [H2 _], kl_bss as [H3 _], kl_end as [H4 _].
  unfold kernel_sections. by rewrite <-H1, <-H2, <-H3, H4.
Qed.

Ltac pages := change (0x100000 / PAGE_SIZE) with 0x100 in *; change (0x102000 / PAGE_SIZE) with 0x102 in *;
  change (0x10001000 / PAGE_SIZE) with 0x10001 in *; change (0x10002000 / PAGE_SIZE) with 0x10002 in *;
  change (MEMORY_END / PAGE_SIZE) with 0x88000 in *.

Lemma kernel_sections_ok : Forall (section_ok kernel_tables) kernel_sections.
Proof.
  pose proof layout_pages as (Hs & Ht & Hr & Hd & Hk & H). pose proof kl_aligned as Ha.
  pose proof kl_base as Hb. rewrite !Forall_cons in Ha. destruct Ha as (? & ? & ? & ? & _).
  rewrite kernel_sections_eq, !Forall_cons. unfold section_ok, in_section. pages. rewrite Hs, Hb.
  assert (HM : MEMORY_END = 0x88000000) by done.
  split_and!; try done; try lia; intros v Hv; (apply interior_ram; lia) || (apply interior_low; lia).
Qed.

Lemma kernel_sections_disjoint :
  ForallOrdPairs (λ a b, ∀ v, in_section a v → ¬ in_section b v) kernel_sections.
Proof.
  pose proof layout_pages as (Hs & Ht & Hr & Hd & Hk & H). rewrite kernel_sections_eq.
  repeat constructor; unfold in_section; pages; rewrite ?Hs; intros v Hv; lia.
Qed.

Lemma sections_entry_Some l v e :
  sections_entry l v = Some e → ∃ sec, sec ∈ l ∧ in_section sec v ∧ e = identity_entry sec.2 v.
Proof.
  induction l as [|sec l IH]; simpl; [done|]. case_decide; [intros [= <-]; set_solver|].
  intros (sec' & ? & ?)%IH. set_solver.
Qed.

Lemma kernel_sections_low sec v : sec ∈ kernel_sections → in_section sec v → v < 0x88000.
Proof.
  pose proof layout_pages as (Hs & Ht & Hr & Hd & Hk & H). rewrite kernel_sections_eq.
  rewrite !elem_of_cons. intros [->|[->|[->|[->|[->|[->|[->|[]%elem_of_nil]]]]]]];
    unfold in_section; pages; lia.
Qed.

(** [new_kernel] maps exactly [kernel_view] and takes the frames of at most
    [kernel_tables], whatever else the allocator has handed out. *)
Lemma new_kernel_ok lo ph :
  phys_inv lo ph → 70 ≤ free_count (falloc ph) →
  ∃ ms ph', new_kernel ph = Ret (ms, ph') ∧
    building lo kernel_tables (free_count (falloc ph)) ph' (page_table ms) kernel_view ∧
    (∀ q, p_owned lo ph' q ↔ p_owned lo ph q ∨ q ∈ pt_frames (page_table ms)) ∧
    (∀ q, p_owned lo ph q → q ∉ pt_frames (page_table ms) ∧ same_page (mem ph) (mem ph') q).
Proof.
  intros Hph Hfree.
  destruct (pt_new_total lo ph Hph ltac:(lia)) as
    (pt0 & ph0 & E0 & Hph0 & [T0 Hwf0] & Hno & Hfr & Hown0 & Hmem0 & Hfc0 & Hv0).
  set (B := free_count (falloc ph)) in *.
  assert (HB : Z.of_nat (size kernel_tables) ≤ B) by (rewrite kernel_tables_size; lia).
  assert (Hbd0 : building lo kernel_tables B ph0 pt0 (λ _, None)).
  { split; [done| |intros v Hv; apply Hv0; lia].
    pose proof (single_table_dom lo ph0 pt0 T0 Hwf0 Hfr) as Hd. exists T0. split_and!; [done| |].
    - rewrite Hd. intros x ->%elem_of_singleton. by apply kernel_tables_elem; left; left.
    - unfold pt_budget. rewrite Hd, size_singleton. lia. }
  destruct (building_map lo kernel_tables B HB ph0 pt0 _ trampoline_vpn (strampoline / PAGE_SIZE)
    (Z.lor PTE_R PTE_X) Hbd0) as (pt1 & ph1 & E1 & Hg1 & Hbd1);
    [done|apply strampoline_page|by vm_compute|apply interior_trampoline|done|].
  destruct (push_sections_ok lo kernel_tables B HB kernel_sections (mkMemorySet pt1 []) ph1 _ Hbd1
    kernel_sections_ok kernel_sections_disjoint) as (ms & ph' & E2 & Hg2 & Hbd2).
  { intros sec v Hin Hv. pose proof (kernel_sections_low _ _ Hin Hv). unfold trampoline_vpn.
    rewrite decide_False by lia. done. }
  exists ms, ph'. unfold new_kernel, new_bare. rewrite E0. cbn [mbind outcome_bind].
  rewrite map_trampoline_eq. cbn [page_table]. unfold trampoline_vpn in E1. change (2 ^ 27 - 1) with 0x7ffffff in E1.
  rewrite E1. cbn [mbind outcome_bind areas]. rewrite E2.
  pose proof (grows_trans lo _ _ _ _ _ _ Hg1 Hg2) as [_ Gf Gn Go Gm]. cbn [page_table] in *.
  split_and!; [done| | |].
  - eapply building_ext; [done|]. intros v Hv. cbv beta. unfold kernel_view.
    destruct (sections_entry kernel_sections v) eqn:E; [|done].
    rewrite decide_False; [done|]. intros ->. apply sections_entry_Some in E as (sec & Hin & Hsec & _).
    by pose proof (kernel_sections_low _ _ Hin Hsec).
  - intros q. rewrite Go, Hown0. split; [intros [[->|?]|?]; auto|intros [?|?]; auto].
    right. apply Gf. rewrite Hfr. set_solver.
  - intros q Hq.
    assert (Hq0 : q ∉ pt_frames pt0) by (rewrite Hfr, list_elem_of_singleton; congruence).
    split; [intros Hin; destruct (Gn q Hin) as [|Hn]; [done|apply Hn, Hown0; by right]|].
    intros x Hx. rewrite (Gm q); [by apply (Hmem0 q)|apply Hown0; by right|done|done].
Qed.

(** ** What the entries allow *)
Definition ram_perm (p : Z) : Z :=
  if decide (p < etext / PAGE_SIZE) then Z.lor MP_R MP_X
  else if decide (p < erodata / PAGE_SIZE) then MP_R else Z.lor MP_R MP_W.

Lemma page_readable_range p : page_readable p = true ↔ 0x80200 ≤ p < 0x88000.
Proof.
  unfold page_readable, MEMORY_END, PAGE_SIZE. rewrite kl_base, andb_true_iff, !Z.leb_le. lia.
Qed.

Lemma page_writable_range p : page_writable p = true ↔ erodata / PAGE_SIZE ≤ p < 0x88000.
Proof.
  pose proof layout_pages as (Hs & Ht & Hr & Hd & Hk & H). destruct kl_data as [Hsd _].
  unfold page_writable, MEMORY_END. rewrite <-Hsd, andb_true_iff, !Z.leb_le. unfold PAGE_SIZE in *. lia.
Qed.

Lemma kernel_view_ram p :
  0x80200 ≤ p < 0x88000 → kernel_view p = Some (identity_entry (ram_perm p) p).
Proof.
  intros Hp. pose proof layout_pages as (Hs & Ht & Hr & Hd & Hk & H).
  unfold kernel_view, trampoline_vpn, ram_perm. rewrite decide_False by lia. rewrite kernel_sections_eq.
  unfold sections_entry, in_section. pages. repeat case_decide; (done || lia).
Qed.

Lemma kernel_view_gap v : 0x10002 ≤ v < 0x7ffffff → ¬ 0x80200 ≤ v < 0x88000 → kernel_view v = None.
Proof.
  intros Hv Hr. pose proof layout_pages as (Hs & Ht & Hro & Hd & Hk & H).
  unfold kernel_view, trampoline_vpn. rewrite decide_False by lia. rewrite kernel_sections_eq.
  unfold sections_entry, in_section. pages. repeat case_decide; (done || lia).
Qed.
(** Every entry is valid, never both writable and executable, never for users. *)
Definition kernel_flags (f : Z) : bool :=
  negb (Z.land f PTE_V =? 0) && ((Z.land f PTE_W =? 0) || (Z.land f PTE_X =? 0)) && (Z.land f PTE_U =? 0).

Lemma kernel_view_flags v pte :
  0 ≤ v < 2 ^ 27 → kernel_view v = Some pte → kernel_flags (pte_flags pte) = true.
Proof.
  intros Hv. unfold kernel_view. case_decide.
  - intros [= <-]. rewrite pte_flags_new by (apply strampoline_page || by vm_compute). by vm_compute.
  - intros (sec & Hin & _ & ->)%sections_entry_Some. unfold identity_entry.
    assert (Hperm : sec.2 ∈ [Z.lor MP_R MP_X; MP_R; Z.lor MP_R MP_W]).
    { rewrite kernel_sections_eq in Hin. rewrite !elem_of_cons in Hin.
      destruct Hin as [->|[->|[->|[->|[->|[->|[->|[]%elem_of_nil]]]]]]]; by apply (bool_decide_unpack _). }
    rewrite !elem_of_cons in Hperm.
    destruct Hperm as [->|[->|[->|[]%elem_of_nil]]]; rewrite pte_flags_new by (lia || by vm_compute); by vm_compute.
Qed.

(** A page table that maps exactly the kernel space. *)
Record kernel_mapped (lo : Z) (ph : Phys) (pt : PageTable) : Prop := {
  km_phys : phys_inv lo ph;
  km_pt : pt_inv lo ph pt;
  km_view v : 0 ≤ v < 2 ^ 27 → pt_view (mem ph) pt v = kernel_view v;
}.

Lemma building_mapped lo B ph pt :
  building lo kernel_tables B ph pt kernel_view → kernel_mapped lo ph pt.
Proof. intros Hbd. split; [apply Hbd|by eapply building_inv|apply Hbd]. Qed.

(** Memory and frames of others may change. *)
Lemma kernel_mapped_frame lo ph ph' pt :
  kernel_mapped lo ph pt → phys_inv lo ph' →
  (∀ q, p_owned lo ph q → same_page (mem ph) (mem ph') q ∧ p_owned lo ph' q) →
  kernel_mapped lo ph' pt.
Proof.
  intros [Hph Hpt Hview] Hph' Hs.
  assert (Hs' : ∀ q, q ∈ pt_frames pt → same_page (mem ph) (mem ph') q ∧ p_owned lo ph' q).
  { intros q Hq. by apply Hs, (pt_inv_owned lo _ _ _ Hpt). }
  split; [done| |].
  - destruct Hpt as [T Hwf]. exists T. by eapply pt_wf_frame.
  - intros v Hv. rewrite <-Hview by done. apply (pt_view_frame lo); (done || lia).
Qed.

(** Reading an entry of the RAM. *)
Lemma ram_entry lo ph pt p :
  kernel_mapped lo ph pt → 0x80200 ≤ p < 0x88000 →
  let pte := identity_entry (ram_perm p) p in
  translate p pt (mem ph) = Ret (Some pte) ∧ pte_ppn pte = p ∧ readable pte = true ∧
  writable pte = bool_decide (erodata / PAGE_SIZE ≤ p) ∧
  executable pte = bool_decide (p < etext / PAGE_SIZE).
Proof.
  intros Hbd Hp. cbv zeta. pose proof layout_pages as (_ & _ & _ & _ & _ & H).
  split.
  - apply (translate_view lo ph); [apply Hbd|apply Hbd|lia|].
    rewrite (km_view _ _ _ Hbd) by lia. by apply kernel_view_ram.
  - unfold identity_entry, readable, writable, executable, ram_perm.
    rewrite pte_ppn_new, pte_flags_new by (lia || (repeat case_decide; by vm_compute)).
    repeat case_decide; split_and!; try done; symmetry;
      (apply bool_decide_eq_true_2; lia) || (apply bool_decide_eq_false_2; lia).
Qed.

(** The state [init_frame_allocator] leaves. *)
Lemma init_phys m :
  phys_inv (ekernel / PAGE_SIZE) (mkPhys m (init_frame_allocator fa_new)) ∧
  free_count (init_frame_allocator fa_new) = 0x88000 - ekernel / PAGE_SIZE ∧
  ∀ q, ¬ p_owned (ekernel / PAGE_SIZE) (mkPhys m (init_frame_allocator fa_new)) q.
Proof.
  pose proof layout_pages as (_ & _ & _ & Hd & Hk & H).
  assert (Hc : va_ceil (PhysAddr_from ekernel) = ekernel / PAGE_SIZE).
  { unfold PhysAddr_from, va_ceil. rewrite land_mask by done. rewrite Z.mod_small by (unfold PA_WIDTH_SV39; lia).
    rewrite (proj2 (Z.eqb_neq _ 0)) by lia. symmetry. unfold PAGE_SIZE in *. apply Z.div_unique with 0xfff; lia. }
  unfold init_frame_allocator, fa_init, phys_inv, p_owned, owned, free_count. rewrite Hc.
  change (va_floor (PhysAddr_from MEMORY_END)) with 0x88000. simpl.
  split_and!; [split; simpl; [lia|apply NoDup_nil_2|set_solver]| |lia|lia].
  intros p Hp. simpl in Hp. apply page_writable_range. lia.
Qed.

(** The middle of a section lies in it. *)
Lemma middle_page s e :
  0 < s ≤ e → e < 2 ^ 38 →
  va_floor (VirtAddr_from (usize (s + e) / 2)) = (s + e) / 2 / PAGE_SIZE ∧
  s / PAGE_SIZE ≤ (s + e) / 2 / PAGE_SIZE ∧
  (s < e → e = 0x1000 * (e / PAGE_SIZE) → (s + e) / 2 / PAGE_SIZE < e / PAGE_SIZE).
Proof.
  intros Hs He. rewrite (wrap_small 64) by lia.
  assert (s ≤ (s + e) / 2 ≤ e) by (split; [apply Z.div_le_lower_bound|apply Z.div_le_upper_bound]; lia).
  rewrite VirtAddr_from_small by lia. split_and!; [done|apply Z.div_le_mono; [done|lia]|].
  intros Hlt Heq. apply Z.div_lt_upper_bound; [done|]. unfold PAGE_SIZE in *. rewrite <-Heq.
  apply Z.div_lt_upper_bound; lia.
Qed.

Lemma remap_test_ok lo ph ms :
  kernel_mapped lo ph (page_table ms) → srodata < erodata →
  remap_test ms (mem ph) = Ret tt.
Proof.
  intros Hbd Hro. pose proof layout_pages as (Hs & Ht & Hr & Hd & Hk & H).
  destruct kl_rodata as [E1 _], kl_data as [E2 Hde]. rewrite <-E1 in Hro.
  pose proof kl_base. unfold remap_test. rewrite <-E1, <-E2.
  destruct (middle_page stext etext) as (-> & ? & Ht2); [lia..|].
  destruct (middle_page etext erodata) as (-> & ? & Hr2); [lia..|].
  destruct (middle_page erodata edata) as (-> & ? & _); [lia..|].
  assert ((erodata + edata) / 2 / PAGE_SIZE ≤ edata / PAGE_SIZE).
  { apply Z.div_le_mono; [done|]. apply Z.div_le_upper_bound; lia. }
  specialize (Ht2 ltac:(lia) Ht). specialize (Hr2 Hro Hr). rewrite Hs in *.
  set (vt := (stext + etext) / 2 / PAGE_SIZE) in *. set (vr := (etext + erodata) / 2 / PAGE_SIZE) in *.
  set (vd := (erodata + edata) / 2 / PAGE_SIZE) in *.
  assert (Hvt : 0x80200 ≤ vt < 0x88000) by (clear -H H1 Ht2; lia).
  assert (Hvr : 0x80200 ≤ vr < 0x88000) by (clear -H H2 Hr2; lia).
  assert (Hvd : 0x80200 ≤ vd < 0x88000) by (clear -H H3 H4; lia).
  destruct (ram_entry lo ph _ vt Hbd Hvt) as (-> & _ & _ & W1 & _).
  destruct (ram_entry lo ph _ vr Hbd Hvr) as (T2 & _ & _ & W2 & _).
  destruct (ram_entry lo ph _ vd Hbd Hvd) as (T3 & _ & _ & _ & X3).
  cbn [mbind outcome_bind unwrap]. rewrite W1, bool_decide_eq_false_2 by (clear -H Ht2; lia).
  cbn [negb rassert mbind outcome_bind]. rewrite T2. cbn [mbind outcome_bind unwrap].
  rewrite W2, bool_decide_eq_false_2 by (clear -Hr2; lia).
  cbn [negb rassert mbind outcome_bind]. rewrite T3. cbn [mbind outcome_bind unwrap].
  by rewrite X3, bool_decide_eq_false_2 by (clear -H H3; lia).
Qed.

Lemma mm_init_ok m :
  let lo := ekernel / PAGE_SIZE in
  lo + 70 ≤ 0x88000 →
  ∃ ms ph, mm_init m = Ret (ms, ph, ms_token ms) ∧ kernel_mapped lo ph (page_table ms) ∧
    no_recycled ph ∧ (∀ q, p_owned lo ph q ↔ q ∈ pt_frames (page_table ms)) ∧
    0x88000 - lo - 70 ≤ free_count (falloc ph).
Proof.
  intros lo Hlo. destruct (init_phys m) as (Hph & Hfc & Hno).
  set (ph0 := mkPhys m (init_frame_allocator fa_new)) in *. fold lo in Hph, Hfc, Hno.
  destruct (new_kernel_ok lo ph0 Hph) as (ms & ph & E & Hbd & Hown & _); [simpl; lia|].
  exists ms, ph. unfold mm_init. fold ph0. rewrite E. cbn [mbind outcome_bind]. split_and!; [done| | | |].
  - by eapply building_mapped.
  - by eapply new_kernel_keeps.
  - intros q. rewrite Hown. split; [intros [Hq|?]; [by destruct (Hno q)|done]|by right].
  - destruct Hbd as [_ (T & _ & HT & HB) _]. apply subseteq_size in HT. rewrite kernel_tables_size in HT.
    unfold pt_budget in HB. simpl in HB. lia.
Qed.

(** The pages the model lets the kernel access are those its entries allow. *)
Lemma ram_access lo ph pt p :
  kernel_mapped lo ph pt → page_readable p = true →
  ∃ pte, translate p (from_token (token pt)) (mem ph) = Ret (Some pte) ∧ pte_ppn pte = p ∧
    readable pte = true ∧ writable pte = page_writable p ∧
    executable pte = bool_decide (p < etext / PAGE_SIZE).
Proof.
  intros Hkm Hp%page_readable_range. eexists.
  rewrite translate_token by (apply (pt_root_range lo ph); apply Hkm).
  destruct (ram_entry lo ph _ p Hkm Hp) as (-> & ? & ? & -> & ->). split_and!; try done.
  pose proof (page_writable_range p) as Hw. case_bool_decide; destruct (page_writable p); try done.
  - symmetry. apply Hw. lia.
  - by destruct Hw as [[] _].
Qed.
End Kernel.

(** C35: memory start-up. On any image that follows the linker script, with
    a non-empty [.rodata] and 70 pages of RAM after the kernel, [mm_init] and
    [remap_test] return.  The table in [satp] maps exactly [kernel_view]: each
    page of RAM from the kernel's base on to itself, readable, writable just
    from [.data] on and executable just in [.text], the device registers, and
    the trampoline; no entry is both writable and executable or open to user
    code.  The kernel hence reads and writes exactly the pages the other
    components of the model let it read and write.  At most 70 frames are
    used, all for page tables. *)
Theorem kernel_space_boots (PF : Platform) `{!PlatformLaws} `{!KernelLayout} m :
  srodata < erodata → ekernel + 70 * PAGE_SIZE ≤ MEMORY_END →
  let lo := ekernel / PAGE_SIZE in
  ∃ ms ph, mm_init m = Ret (ms, ph, ms_token ms) ∧ phys_inv lo ph ∧ pt_inv lo ph (page_table ms) ∧
    (∀ q, p_owned lo ph q ↔ q ∈ pt_frames (page_table ms)) ∧
    0x88000 - lo - 70 ≤ free_count (falloc ph) ∧
    (∀ v, 0 ≤ v < 2 ^ 27 → pt_view (mem ph) (from_token (ms_token ms)) v = kernel_view v) ∧
    (∀ v pte, 0 ≤ v < 2 ^ 27 → kernel_view v = Some pte → kernel_flags (pte_flags pte) = true) ∧
    (∀ p, page_readable p = true → ∃ pte,
       translate p (from_token (ms_token ms)) (mem ph) = Ret (Some pte) ∧ pte_ppn pte = p ∧
       readable pte = true ∧ writable pte = page_writable p ∧
       executable pte = bool_decide (p < etext / PAGE_SIZE)) ∧
    remap_test ms (mem ph) = Ret tt.
Proof.
  intros Hro Hend lo. destruct (mm_init_ok m) as (ms & ph & E & Hkm & _ & Hown & Hfree).
  { pose proof layout_pages as (_ & _ & _ & _ & Hk & _). unfold PAGE_SIZE, MEMORY_END in *. lia. }
  exists ms, ph. split_and!; [done|apply Hkm|apply Hkm|done|done| |apply kernel_view_flags| |by eapply remap_test_ok].
  - intros v Hv. rewrite <-(km_view _ _ _ Hkm v Hv). unfold pt_view, ms_token.
    by rewrite translate_token by (apply (pt_root_range lo ph); apply Hkm).
  - intros p. by apply (ram_access lo).
Qed.

(** ** Witness *)
#[global] Instance demo_layout : @KernelLayout DemoPlatform.demo.
Proof. split; try by vm_compute. repeat constructor. Qed.

Lemma kernel_space_boots_witness :
  ∃ ms ph, @mm_init DemoPlatform.demo (λ _, xff) = Ret (ms, ph, ms_token ms) ∧
    @phys_inv DemoPlatform.demo 0x80204 ph ∧ @pt_inv 0x80204 ph (page_table ms) ∧
    (∀ q, p_owned 0x80204 ph q ↔ q ∈ pt_frames (page_table ms)) ∧
    0x88000 - 0x80204 - 70 ≤ free_count (falloc ph) ∧
    (∀ v, 0 ≤ v < 2 ^ 27 →
       @pt_view DemoPlatform.demo (mem ph) (from_token (ms_token ms)) v = @kernel_view DemoPlatform.demo v) ∧
    (∀ v pte, 0 ≤ v < 2 ^ 27 → @kernel_view DemoPlatform.demo v = Some pte → kernel_flags (pte_flags pte) = true) ∧
    (∀ p, @page_readable DemoPlatform.demo p = true → ∃ pte,
       @translate DemoPlatform.demo p (from_token (ms_token ms)) (mem ph) = Ret (Some pte) ∧ pte_ppn pte = p ∧
       readable pte = true ∧ writable pte = @page_writable DemoPlatform.demo p ∧
       executable pte = bool_decide (p < 0x80201)) ∧
    @remap_test DemoPlatform.demo ms (mem ph) = Ret tt.
Proof. apply (@kernel_space_boots DemoPlatform.demo _ _ (λ _, xff)); by vm_compute. Defined.
