(* ===== verification/Virtio.v ===== *)
(** * DMA memory of the block device driver
      ([os/src/drivers/block/virtio_blk.rs], [impl Hal for VirtioHal])

    The driver itself is the external crate [virtio_drivers], which calls the
    four functions of [VirtioHal].  [QUEUE_FRAMES] is the list of the trackers
    handed out; it is a static, so its trackers are never dropped. *)

From S2P Require Import Prelude Address PhysMem FrameAlloc PageTable MemorySet KernelSpace.

Section Hal.
Context {PF : Platform}.

(** One round of [dma_alloc]: the base is the first frame, and each frame has
    to follow the one before. *)
Definition dma_alloc_step (i : Z) (st : Z * list Z * Phys) : outcome (Z * list Z * Phys) :=
  let '(ppn_base, queue_frames, ph) := st in
  '(r, ph) ← frame_alloc ph;
  frame ← unwrap r;
  let ppn_base := if i =? 0 then frame else ppn_base in
  _ ← rassert (frame =? usize (ppn_base + i));
  Ret (ppn_base, queue_frames ++ [frame], ph).

Definition dma_alloc (pages : Z) (queue_frames : list Z) (ph : Phys) : outcome (Z * list Z * Phys) :=
  '(ppn_base, queue_frames, ph) ← for_each dma_alloc_step (seqZ 0 pages) (0, queue_frames, ph);
  Ret (PhysAddr_of_PhysPageNum ppn_base, queue_frames, ph).

(** [dma_dealloc] frees the frames in ascending order; [QUEUE_FRAMES] keeps
    their trackers. *)
Definition dma_dealloc (pa pages : Z) (ph : Phys) : outcome (Z * Phys) :=
  ppn_base ← PhysPageNum_of_PhysAddr (PhysAddr_from pa);
  '(_, ph) ← for_each (λ _ '(ppn_base, ph),
    ph ← frame_dealloc ppn_base ph; Ret (step ppn_base, ph)) (seqZ 0 pages) (ppn_base, ph);
  Ret (0, ph).

Definition phys_to_virt (addr : Z) : Z := addr.

Definition virt_to_phys (kernel_space : MemorySet) (m : Mem) (vaddr : Z) : outcome Z :=
  r ← translate_va (VirtAddr_from vaddr) (from_token (ms_token kernel_space)) m;
  unwrap r.

(** ** Specification of the allocator: a stack of free frames

    The recycled frames, last freed first, then those never handed out. *)
Definition upcoming (fa : StackFrameAllocator) : list Z :=
  reverse (recycled fa) ++ seqZ (current fa) (fend fa - current fa).
End Hal.

Section Stack.
Context {PF : Platform} {PFL : PlatformLaws} (lo : Z).
Implicit Types (ph : Phys) (fa : StackFrameAllocator).

Lemma fa_alloc_upcoming fa :
  fa_inv lo fa →
  (fa_alloc fa).1 = head (upcoming fa) ∧ upcoming (fa_alloc fa).2 = tail (upcoming fa).
Proof.
  intros [(Hlo & Hce & Hend) Hnd Hrec]. unfold fa_alloc, upcoming.
  destruct (vec_pop (recycled fa)) as [[p rest]|] eqn:Hpop.
  - apply vec_pop_Some in Hpop. rewrite Hpop, reverse_snoc. simpl.
    assert (lo ≤ p < current fa) by (apply Hrec; rewrite Hpop; set_solver).
    by rewrite PhysPageNum_from_mod, Z.mod_small by lia.
  - apply vec_pop_None in Hpop. rewrite Hpop. simpl.
    destruct (Z.eqb_spec (current fa) (fend fa)) as [He|He]; simpl.
    + rewrite Hpop, He, Z.sub_diag. done.
    + rewrite !(wrap_small 64) by (rewrite ?(wrap_small 64); lia).
      rewrite (seqZ_cons (current fa)) by lia. simpl.
      rewrite PhysPageNum_from_mod, Z.mod_small by lia.
      split; [f_equal; lia|]. f_equal; lia.
Qed.

Lemma fa_dealloc_upcoming p fa fa' :
  fa_dealloc p fa = Ret fa' → upcoming fa' = p :: upcoming fa.
Proof.
  unfold fa_dealloc. destruct (_ || _); [done|]. intros [= <-]. unfold upcoming. simpl.
  by rewrite reverse_snoc.
Qed.

(** [frame_alloc] pops. *)
Lemma frame_alloc_pop ph :
  phys_inv lo ph →
  match upcoming (falloc ph) with
  | [] => frame_alloc ph = Ret (None, ph)
  | f :: fs => ∃ ph', frame_alloc ph = Ret (Some f, ph') ∧ phys_inv lo ph' ∧
      upcoming (falloc ph') = fs ∧ alloc_post lo ph (Some f) ph'
  end.
Proof.
  intros Hph. destruct (frame_alloc_total lo ph Hph) as (r & ph' & E & Hph' & _ & Hpost).
  destruct (fa_alloc_upcoming (falloc ph)) as [H1 H2]; [apply Hph|].
  assert (Hr : r = head (upcoming (falloc ph)) ∧ upcoming (falloc ph') = tail (upcoming (falloc ph))).
  { revert E. unfold frame_alloc. destruct (fa_alloc (falloc ph)) as [[f|] fa']; simpl in *.
    - destruct (clear_page (mem ph) f); [|done..]. cbn [mbind outcome_bind]. intros [= <- <-]. done.
    - intros [= <- <-]. done. }
  destruct Hr as [-> Hu]. destruct (upcoming (falloc ph)) as [|f fs]; simpl in *.
  - destruct Hpost as [-> _]. done.
  - eauto.
Qed.

(** ** [dma_alloc] *)

(** What a successful request leaves behind. *)
Record dma_post (ph ph' : Phys) (fs : list Z) : Prop := {
  dp_phys : phys_inv lo ph';
  dp_upcoming : upcoming (falloc ph') = drop (length fs) (upcoming (falloc ph));
  dp_fresh f : f ∈ fs → ¬ p_owned lo ph f ∧ zero_page (mem ph') f;
  dp_owned f : p_owned lo ph' f ↔ f ∈ fs ∨ p_owned lo ph f;
  dp_same f : f ∉ fs → same_page (mem ph) (mem ph') f;
}.

Lemma dma_post_nil ph : phys_inv lo ph → dma_post ph ph [].
Proof. intros. split; try done; set_solver. Qed.

Lemma dma_post_cons ph ph1 ph2 f fs :
  upcoming (falloc ph1) = tail (upcoming (falloc ph)) →
  alloc_post lo ph (Some f) ph1 → dma_post ph1 ph2 fs → dma_post ph ph2 (f :: fs).
Proof.
  intros Hu (_ & Hno & Hown & Hz & Hs) [P1 P2 P3 P4 P5].
  assert (Hff : f ∉ fs). { intros Hin. destruct (P3 f Hin) as [Hn _]. apply Hn, Hown. by left. }
  split.
  - done.
  - rewrite P2, Hu. simpl. destruct (upcoming (falloc ph)); [apply drop_nil|done].
  - intros g [->|Hg]%elem_of_cons.
    + split; [done|]. intros x Hx. rewrite (P5 f Hff x Hx). by apply Hz.
    + destruct (P3 g Hg) as [Hn Hzg]. split; [|done]. intros Hgo. apply Hn, Hown. by right.
  - intros g. rewrite P4, Hown, elem_of_cons. tauto.
  - intros g Hg x Hx. rewrite elem_of_cons in Hg. rewrite (P5 g) by tauto || done. apply (Hs g); tauto.
Qed.

Lemma dma_alloc_step_next i b q ph :
  0 < i → 0 ≤ b + i < 2 ^ 64 →
  dma_alloc_step i (b, q, ph) =
    ('(r, ph) ← frame_alloc ph;
     frame ← unwrap r;
     _ ← rassert (frame =? b + i);
     Ret (b, q ++ [frame], ph)).
Proof.
  intros Hi Hb. unfold dma_alloc_step. rewrite (proj2 (Z.eqb_neq i 0)) by lia. cbv zeta.
  by rewrite (wrap_small 64) by lia.
Qed.

Lemma dma_alloc_step_first b q ph :
  dma_alloc_step 0 (b, q, ph) =
    ('(r, ph) ← frame_alloc ph;
     frame ← unwrap r;
     _ ← rassert (frame =? usize (frame + 0));
     Ret (frame, q ++ [frame], ph)).
Proof. done. Qed.

(** The rounds after the first: the frames have to continue the run. *)
Lemma dma_alloc_rounds k b i q ph :
  phys_inv lo ph → 0 < i → 0 ≤ b + i → b + i + Z.of_nat k < 2 ^ 64 →
  let fs := seqZ (b + i) (Z.of_nat k) in
  if decide (take k (upcoming (falloc ph)) = fs) then
    ∃ ph', for_each dma_alloc_step (seqZ i (Z.of_nat k)) (b, q, ph) = Ret (b, q ++ fs, ph') ∧ dma_post ph ph' fs
  else for_each dma_alloc_step (seqZ i (Z.of_nat k)) (b, q, ph) = Panic.
Proof.
  revert i q ph. induction k as [|k IH]; intros i q ph Hph Hi Hb Hk; cbv zeta.
  - rewrite decide_True by done. exists ph. simpl. rewrite app_nil_r. split; [done|by apply dma_post_nil].
  - rewrite (seqZ_cons i), (seqZ_cons (b + i)) by lia.
    replace (Z.pred (Z.of_nat (S k))) with (Z.of_nat k) by lia.
    replace (Z.succ i) with (i + 1) by lia. replace (Z.succ (b + i)) with (b + (i + 1)) by lia.
    pose proof (frame_alloc_pop ph Hph) as Hpop. cbn [for_each].
    rewrite dma_alloc_step_next by lia.
    destruct (upcoming (falloc ph)) as [|f fs] eqn:Hu.
    { rewrite Hpop. by rewrite decide_False by done. }
    destruct Hpop as (ph1 & E & Hph1 & Hu1 & Hpost). rewrite E. cbn [mbind outcome_bind unwrap].
    destruct (Z.eqb_spec f (b + i)) as [->|Hne]; cbn [rassert mbind outcome_bind].
    2:{ rewrite decide_False; [done|]. simpl. congruence. }
    specialize (IH (i + 1) (q ++ [b + i]) ph1 Hph1 ltac:(lia) ltac:(lia) ltac:(lia)). cbv zeta in IH.
    rewrite Hu1 in IH. cbn [take].
    case_decide as Hd; case_decide as Hd'; [|congruence|by destruct Hd; injection Hd'|done].
    destruct IH as (ph2 & E2 & Hp2). exists ph2. rewrite E2, <-app_assoc. split; [done|].
    eapply dma_post_cons; [|done|done]. by rewrite Hu, Hu1.
Qed.

(** The frames [dma_dealloc] gives back lie on top of the stack, the last
    one first. *)
Lemma dma_dealloc_rounds k b i ph :
  phys_inv lo ph → 0 ≤ b → b + Z.of_nat k < 2 ^ 64 →
  (∀ f, b ≤ f < b + Z.of_nat k → p_owned lo ph f) →
  ∃ ph', for_each (λ _ '(ppn_base, ph), ph ← frame_dealloc ppn_base ph; Ret (step ppn_base, ph))
      (seqZ i (Z.of_nat k)) (b, ph) = Ret (b + Z.of_nat k, ph') ∧
    phys_inv lo ph' ∧ mem ph' = mem ph ∧
    upcoming (falloc ph') = reverse (seqZ b (Z.of_nat k)) ++ upcoming (falloc ph) ∧
    (∀ f, p_owned lo ph' f ↔ p_owned lo ph f ∧ ¬ (b ≤ f < b + Z.of_nat k)).
Proof.
  revert b i ph. induction k as [|k IH]; intros b i ph Hph Hb Hk Hown.
  - exists ph. simpl. rewrite Z.add_0_r. split_and!; try done. intros f. split; [intros; split; [done|lia]|tauto].
  - destruct (frame_dealloc_total lo ph b Hph) as (ph1 & E & Hph1 & Hm1 & _ & Ho1); [apply Hown; lia|].
    destruct (IH (b + 1) (i + 1) ph1 Hph1) as (ph2 & E2 & Hph2 & Hm2 & Hu2 & Ho2); [lia|lia| |].
    { intros f Hf. apply Ho1. split; [lia|]. apply Hown. lia. }
    rewrite (seqZ_cons i), (seqZ_cons b) by lia. replace (Z.pred (Z.of_nat (S k))) with (Z.of_nat k) by lia.
    replace (Z.succ i) with (i + 1) by lia. replace (Z.succ b) with (b + 1) by lia.
    exists ph2. cbn [for_each]. rewrite E. cbn [mbind outcome_bind]. 
    assert (Hst : step b = b + 1) by (unfold step; apply wrap_small; lia). rewrite Hst, E2. split_and!; [do 2 f_equal; lia|done|congruence| |].
    + rewrite Hu2, reverse_cons, <-app_assoc. f_equal. simpl. revert E. unfold frame_dealloc.
      destruct (fa_dealloc b (falloc ph)) as [fa'| |] eqn:Ed; [|done..]. cbn [mbind outcome_bind].
      intros [= <-]. by apply fa_dealloc_upcoming.
    + intros f. rewrite Ho2, Ho1. split; [intros [[??]?]; split; [done|lia]|intros [??]; split_and!; [lia|done|lia]].
Qed.
End Stack.

(** [dma_alloc] on every branch. With the free frames as a stack, a
    request takes its top: if those frames are consecutive ascending page
    numbers it returns the address of the first and they become owned, zeroed
    and tracked, with every other page untouched; otherwise - too few frames,
    or a gap - the kernel panics. *)
Theorem dma_alloc_spec `{PlatformLaws} lo pages q ph :
  phys_inv lo ph → 0 < pages < 2 ^ 32 →
  let fs := take (Z.to_nat pages) (upcoming (falloc ph)) in
  (∃ b ph', fs = seqZ b pages ∧ dma_alloc pages q ph = Ret (b * PAGE_SIZE, q ++ fs, ph') ∧ dma_post lo ph ph' fs) ∨
  ((∀ b, fs ≠ seqZ b pages) ∧ dma_alloc pages q ph = Panic).
Proof.
  intros Hph Hp. cbv zeta. destruct (Z.to_nat pages) as [|k] eqn:Ek; [lia|].
  assert (pages = Z.of_nat (S k)) as -> by lia. unfold dma_alloc.
  rewrite (seqZ_cons 0) by lia. replace (Z.pred (Z.of_nat (S k))) with (Z.of_nat k) by lia.
  pose proof (frame_alloc_pop lo ph Hph) as Hpop. cbn [for_each]. rewrite dma_alloc_step_first.
  destruct (upcoming (falloc ph)) as [|f fs] eqn:Hu.
  { right. rewrite Hpop. split; [|done]. intros b. by rewrite (seqZ_cons b) by lia. }
  destruct Hpop as (ph1 & E & Hph1 & Hu1 & Hpost). rewrite E. cbn [mbind outcome_bind unwrap Z.eqb].
  destruct (page_writable_spec f (proj1 Hpost)) as (_ & Hf & Hpa).
  rewrite Z.add_0_r, wrap_small, Z.eqb_refl by lia. cbn [rassert mbind outcome_bind].
  pose proof (dma_alloc_rounds lo k f 1 (q ++ [f]) ph1 Hph1 ltac:(lia) ltac:(lia) ltac:(lia)) as Hr. cbv zeta in Hr.
  rewrite Hu1 in Hr. change (Z.succ 0) with 1. cbn [take]. case_decide as Hd.
  - left. destruct Hr as (ph' & E' & Hp'). exists f, ph'. rewrite E'. cbn [mbind outcome_bind].
    rewrite Hpa, Hd, <-app_assoc. split_and!; [|done|].
    + rewrite (seqZ_cons f) by lia. do 2 f_equal; lia.
    + rewrite <-Hd. eapply (dma_post_cons lo ph ph1); [by rewrite Hu|done|by rewrite Hd].
  - right. rewrite Hr. split; [|done]. intros b. rewrite (seqZ_cons b) by lia.
    intros [= -> Heq]. apply Hd. rewrite Heq. f_equal; lia.
Qed.

(** ** Address translation *)
Section Translation.
Context {PF : Platform} {PFL : PlatformLaws} {KL : KernelLayout}.

(** In the kernel space virtual and physical RAM addresses are the same. *)
Lemma virt_to_phys_ram lo ph ms va :
  kernel_mapped lo ph (page_table ms) → stext ≤ va < MEMORY_END → virt_to_phys ms (mem ph) va = Ret va.
Proof.
  intros Hkm Hva. rewrite kl_base in Hva. unfold virt_to_phys, ms_token, MEMORY_END in *.
  rewrite VirtAddr_from_small, translate_va_token by (lia || (apply (pt_root_range lo ph); apply Hkm)).
  assert (Hp : 0x80200 ≤ va_floor va < 0x88000).
  { unfold va_floor, PAGE_SIZE. split; [apply Z.div_le_lower_bound|apply Z.div_lt_upper_bound]; lia. }
  destruct (ram_entry lo ph _ _ Hkm Hp) as (Ht & Hppn & _).
  rewrite (translate_va_of _ _ _ _ Ht), Hppn. cbn [mbind outcome_bind unwrap]. f_equal.
  unfold va_floor. pose proof (Z.div_mod va PAGE_SIZE ltac:(done)). lia.
Qed.

Lemma dma_post_mapped lo ph ph' pt fs :
  kernel_mapped lo ph pt → dma_post lo ph ph' fs → kernel_mapped lo ph' pt.
Proof.
  intros Hkm [Hph' _ Hfr Hown Hsame]. apply (kernel_mapped_frame lo ph); [done..|].
  intros q Hq. split; [|apply Hown; by right]. apply Hsame. intros Hin. by destruct (Hfr q Hin).
Qed.

(** Without recycled frames the free frames are consecutive. *)
Lemma upcoming_run ph n :
  no_recycled ph → 0 ≤ n ≤ free_count (falloc ph) →
  take (Z.to_nat n) (upcoming (falloc ph)) = seqZ (current (falloc ph)) n.
Proof.
  unfold no_recycled, free_count, upcoming. intros -> Hn. simpl in *.
  replace (fend (falloc ph) - current (falloc ph)) with (n + (fend (falloc ph) - current (falloc ph) - n)) by lia.
  rewrite seqZ_app by lia. apply take_app_length'. rewrite length_seqZ. done.
Qed.
End Translation.

(** A request of two pages or more that follows the release of two pages or
    more stops the kernel: the released frames come back in descending order. *)
Theorem dma_realloc_panics `{PlatformLaws} lo b n pages q ph :
  phys_inv lo ph → 0 ≤ b → 2 ≤ n < 2 ^ 32 → (∀ f, b ≤ f < b + n → p_owned lo ph f) → 2 ≤ pages < 2 ^ 32 →
  ∃ ph', dma_dealloc (b * PAGE_SIZE) n ph = Ret (0, ph') ∧ dma_alloc pages q ph' = Panic.
Proof.
  intros Hph Hb Hn Hown Hp.
  assert (Hlast : page_writable (b + n - 1) = true) by (eapply owned_writable; [apply Hph..|apply Hown; lia]).
  destruct (page_writable_spec _ Hlast) as (_ & Hrange & _).
  destruct (dma_dealloc_rounds lo (Z.to_nat n) b 0 ph Hph Hb) as (ph' & E & Hph' & _ & Hu & _);
    [lia|intros f Hf; apply Hown; lia|].
  rewrite Z2Nat.id in E, Hu by lia. exists ph'. split.
  - unfold dma_dealloc, PhysPageNum_of_PhysAddr, PhysAddr_from, va_floor.
    rewrite land_mask, Z.mod_small by (unfold PAGE_SIZE, PA_WIDTH_SV39; lia).
    rewrite page_offset_mod, Z.mod_mul, Z.div_mul by done. cbn [Z.eqb rassert mbind outcome_bind].
    by rewrite E.
  - destruct (dma_alloc_spec lo pages q ph' Hph' ltac:(lia)) as [(b' & ph2 & Hfs & _)|[_ ?]]; [|done].
    exfalso. revert Hfs. rewrite Hu. replace n with (Z.of_nat (S (S (Z.to_nat (n - 2))))) by lia.
    rewrite !seqZ_S, !reverse_snoc. destruct (Z.to_nat pages) as [|[|k]] eqn:Ek; [lia..|].
    cbn [app take]. rewrite (seqZ_cons b'), (seqZ_cons (Z.succ b')) by lia. intros [= H1 H2 _]. lia.
Qed.

(** The driver's memory at start-up. On a kernel that [mm_init] has just
    set up, with enough RAM left, [dma_alloc] gives the driver the requested
    number of consecutive pages, zeroed and not part of any page table, and
    keeps their trackers; the kernel space still maps what it did, and every
    RAM address, those of the new pages included, has itself as its physical
    address, so that the device and the kernel see the same bytes. *)
Theorem driver_memory_at_boot (PF : Platform) `{!PlatformLaws} `{!KernelLayout} m pages q :
  0 < pages → ekernel + (70 + pages) * PAGE_SIZE ≤ MEMORY_END →
  ∃ ms ph b ph',
    mm_init m = Ret (ms, ph, ms_token ms) ∧
    dma_alloc pages q ph = Ret (b * PAGE_SIZE, q ++ seqZ b pages, ph') ∧
    kernel_mapped (ekernel / PAGE_SIZE) ph' (page_table ms) ∧
    (∀ f, b ≤ f < b + pages →
       zero_page (mem ph') f ∧ f ∉ pt_frames (page_table ms) ∧ p_owned (ekernel / PAGE_SIZE) ph' f) ∧
    (∀ va, stext ≤ va < MEMORY_END → virt_to_phys ms (mem ph') va = Ret va).
Proof.
  intros Hp Hend. set (lo := ekernel / PAGE_SIZE) in *.
  assert (Hlo : lo + 70 + pages ≤ 0x88000 ∧ 0 ≤ lo).
  { pose proof layout_pages as (_ & _ & _ & _ & Hk & ?). unfold lo, PAGE_SIZE, MEMORY_END in *. lia. }
  destruct (mm_init_ok m) as (ms & ph & E & Hkm & Hnr & Hown & Hfree); [fold lo; lia|]; fold lo in Hkm, Hown, Hfree.
  pose proof (upcoming_run ph pages Hnr ltac:(lia)) as Hu.
  destruct (dma_alloc_spec lo pages q ph (km_phys _ _ _ Hkm) ltac:(lia)) as
    [(b & ph' & Hfs & E' & Hpost)|[Hn _]]; [|by destruct (Hn _ Hu)].
  rewrite Hfs in *. pose proof (dma_post_mapped lo ph ph' _ _ Hkm Hpost) as Hkm'.
  exists ms, ph, b, ph'. split_and!; [done|done|done| |intros va; by apply (virt_to_phys_ram lo)].
  intros f Hf. assert (Hin : f ∈ seqZ b pages) by (apply elem_of_seqZ; lia).
  destruct (dp_fresh _ _ _ _ Hpost f Hin) as [Hno Hz]. split_and!; [done|by rewrite <-Hown|].
  apply (dp_owned _ _ _ _ Hpost). by left.
Qed.

(** ** Witnesses *)
Lemma driver_memory_at_boot_witness :
  ∃ ms ph b ph',
    @mm_init DemoPlatform.demo (λ _, xff) = Ret (ms, ph, ms_token ms) ∧
    @dma_alloc DemoPlatform.demo 4 [] ph = Ret (b * PAGE_SIZE, [] ++ seqZ b 4, ph') ∧
    @kernel_mapped DemoPlatform.demo 0x80204 ph' (page_table ms) ∧
    (∀ f, b ≤ f < b + 4 → zero_page (mem ph') f ∧ f ∉ pt_frames (page_table ms) ∧ p_owned 0x80204 ph' f) ∧
    (∀ va, 0x80200000 ≤ va < MEMORY_END → @virt_to_phys DemoPlatform.demo ms (mem ph') va = Ret va).
Proof. apply (@driver_memory_at_boot DemoPlatform.demo _ _ (λ _, xff) 4 []); by vm_compute. Defined.
