(* ===== verification/ElfLoad.v ===== *)
(** * Loading a program ([MemorySet::from_elf], [os/src/mm/memory_set.rs])

    What [from_elf] builds from the headers that [xmas_elf] presents: an area
    for each segment with the bytes of the file and zeros after them, a guard
    page, the user stack and the page of the trap context. *)

From S2P Require Import Prelude Address PhysMem FrameAlloc PageTable MemorySet.

Section Load.
Context {PF : Platform} {PFL : PlatformLaws} (lo : Z).

(** ** Copying the file into mapped pages *)

(** Writing at the start of a page. *)
Lemma set_bytes_page m f bs :
  page_writable f = true → Z.of_nat (length bs) ≤ PAGE_SIZE →
  ∃ m', set_bytes m f 0 bs = Ret m' ∧
    (∀ o, 0 ≤ o < PAGE_SIZE → m' (f * PAGE_SIZE + o) = nth (Z.to_nat o) bs (m (f * PAGE_SIZE + o))) ∧
    ∀ q, q ≠ f → same_page m m' q.
Proof.
  intros Hw Hl. destruct (page_writable_spec f Hw) as (_ & _ & Hpa).
  unfold set_bytes. rewrite Hw, Hpa, Z.add_0_r. cbn [rassert mbind outcome_bind].
  eexists. split; [done|]. split.
  - intros o Ho. destruct (decide (o < Z.of_nat (length bs))).
    + pose proof (mem_write_in m (f * PAGE_SIZE) bs (f * PAGE_SIZE + o) ltac:(lia)) as Hin.
      replace (f * PAGE_SIZE + o - f * PAGE_SIZE) with o in Hin by lia.
      symmetry. by apply nth_lookup_Some.
    + rewrite mem_write_out by lia. by rewrite nth_overflow by lia.
  - intros q Hq x Hx. apply mem_write_out. unfold PAGE_SIZE in *. lia.
Qed.

(** What the loop of [copy_data] leaves from page [k] of the area on. *)
Record copied (m m' : Mem) (fn : list Z) (k : nat) (data : list byte) : Prop := {
  cd_page i f o : fn !! i = Some f → (k ≤ i)%nat → 0 ≤ o < PAGE_SIZE →
    m' (f * PAGE_SIZE + o) = nth (i * Z.to_nat PAGE_SIZE + Z.to_nat o) data (m (f * PAGE_SIZE + o));
  cd_same q : q ∉ drop k fn → same_page m m' q;
}.

Lemma copied_cons m m1 m2 fn k f data :
  NoDup fn → fn !! k = Some f →
  (∀ o, 0 ≤ o < PAGE_SIZE →
     m1 (f * PAGE_SIZE + o) = nth (k * Z.to_nat PAGE_SIZE + Z.to_nat o) data (m (f * PAGE_SIZE + o))) →
  (∀ q, q ≠ f → same_page m m1 q) → copied m1 m2 fn (S k) data → copied m m2 fn k data.
Proof.
  intros Hnd Hf Hm1 Hs1 [Hp Hs]. pose proof (drop_S fn f k Hf) as Hd.
  assert (Hnin : f ∉ drop (S k) fn).
  { rewrite <-(take_drop k fn) in Hnd. apply NoDup_app in Hnd as (_ & _ & Hnd').
    rewrite Hd in Hnd'. by apply NoDup_cons in Hnd' as [? _]. }
  split.
  - intros i f' o Hi Hk Ho. destruct (decide (i = k)) as [->|].
    + assert (f' = f) as -> by congruence. rewrite <-(Hm1 o Ho). apply (Hs f Hnin). lia.
    + rewrite (Hp i f' o Hi ltac:(lia) Ho). f_equal. apply (Hs1 f'); [|lia].
      intros ->. by pose proof (NoDup_lookup fn i k f Hnd Hi Hf).
  - intros q Hq x Hx. rewrite Hd, not_elem_of_cons in Hq. destruct Hq as [Hq1 Hq2].
    by rewrite (Hs q Hq2 x Hx), (Hs1 q Hq1 x Hx).
Qed.

Lemma copied_done m fn k data :
  Z.of_nat (length data) ≤ Z.of_nat k * PAGE_SIZE → copied m m fn k data.
Proof.
  intros Hl. split; [|done]. intros i f o _ Hi Ho. rewrite nth_overflow; [done|]. unfold PAGE_SIZE in *. lia.
Qed.

Lemma nth_slice (data : list byte) k n o d : (o < n)%nat → nth o (slice k n data) d = nth (k + o) data d.
Proof. intros Ho. by rewrite !nth_lookup, lookup_slice, decide_True. Qed.

(** A space whose memory changes only in its data frames. *)
Lemma sp_write ph m' pt fs E :
  phys_inv lo ph → sp_inv lo ph pt fs E →
  (∀ q, q ∈ pt_frames pt → same_page (mem ph) m' q) → sp_inv lo (mkPhys m' (falloc ph)) pt fs E.
Proof.
  intros Hph Hsp Hs. apply (sp_frame lo ph); [done|done|done| |].
  - intros q Hq. split; [by apply Hs|]. by apply (pt_inv_owned lo _ _ _ (sp_pt _ _ _ _ _ Hsp)).
  - intros q. apply (sp_owned _ _ _ _ _ Hsp q).
Qed.

(** The pages [fn] mapped with flags [p] from page number [s] on. *)
Definition run_mapped (E : list (Z * Z)) (fn : list Z) (p s : Z) : Prop :=
  ∀ i f, fn !! i = Some f →
    0 ≤ s + Z.of_nat i < 2 ^ 27 ∧ (list_to_map E : gmap Z Z) !! (s + Z.of_nat i) = Some (pte_new f p).

(** The part of the file that belongs on page [k]. *)
Definition page_data (data : list byte) (k : nat) : list byte :=
  slice (Z.to_nat (Z.of_nat k * PAGE_SIZE))
    (Z.to_nat (Z.min (Z.of_nat (length data)) (Z.of_nat k * PAGE_SIZE + PAGE_SIZE) - Z.of_nat k * PAGE_SIZE)) data.

Lemma nth_page_data data k o d :
  0 ≤ o < PAGE_SIZE → nth (Z.to_nat o) (page_data data k) d = nth (k * Z.to_nat PAGE_SIZE + Z.to_nat o) data d.
Proof.
  intros Ho. unfold page_data. rewrite !nth_lookup, lookup_slice.
  assert (Hi : (Z.to_nat (Z.of_nat k * PAGE_SIZE) + Z.to_nat o = k * Z.to_nat PAGE_SIZE + Z.to_nat o)%nat)
    by (unfold PAGE_SIZE in *; lia).
  rewrite Hi. case_decide as Hd; [done|]. rewrite lookup_ge_None_2; [done|]. unfold PAGE_SIZE in *. lia.
Qed.

Lemma page_data_length data k : Z.of_nat (length (page_data data k)) ≤ PAGE_SIZE.
Proof. unfold page_data, slice. rewrite length_take. unfold PAGE_SIZE. lia. Qed.

Lemma copy_data_loop_ok fuel pt fs E fn p s data k ph :
  phys_inv lo ph → sp_inv lo ph pt fs E → 0 ≤ p < 256 → NoDup fn → (∀ f, f ∈ fn → f ∈ fs) →
  run_mapped E fn p s → (k < length fn)%nat →
  Z.of_nat (length data) ≤ Z.of_nat (length fn) * PAGE_SIZE →
  Z.of_nat (length data) - Z.of_nat k * PAGE_SIZE ≤ Z.of_nat fuel * PAGE_SIZE → (0 < fuel)%nat →
  ∃ m', copy_data_loop fuel pt data (Z.of_nat k * PAGE_SIZE) (s + Z.of_nat k) (mem ph) = Ret m' ∧
    copied (mem ph) m' fn k data.
Proof.
  revert k ph. induction fuel as [|fuel IH]; intros k ph Hph Hsp Hp Hnd Hin HE Hk Hlen Hfuel Hf0; [lia|].
  destruct (lookup_lt_is_Some_2 fn k Hk) as [f Hf]. destruct (HE k f Hf) as [Hv HEk].
  assert (Hff : f ∈ fs) by (eapply Hin, list_elem_of_lookup_2, Hf).
  pose proof (owned_page lo ph f Hph (sp_owned _ _ _ _ _ Hsp f Hff)) as Hw.
  destruct (page_writable_spec f Hw) as (_ & Hfr & _).
  assert (Hvk := sp_rep _ _ _ _ _ Hsp _ Hv). rewrite HEk in Hvk.
  destruct (set_bytes_page (mem ph) f (page_data data k) Hw (page_data_length data k)) as (m1 & E1 & Hm1 & Hs1).
  cbn [copy_data_loop].
  rewrite (translate_view lo ph pt (s + Z.of_nat k) _ Hph (sp_pt _ _ _ _ _ Hsp) (proj1 Hv) Hvk). cbn [mbind outcome_bind unwrap].
  rewrite pte_ppn_new by done. fold (page_data data k). rewrite E1. cbn [mbind outcome_bind].
  assert (Hone : ∀ o, 0 ≤ o < PAGE_SIZE →
    m1 (f * PAGE_SIZE + o) = nth (k * Z.to_nat PAGE_SIZE + Z.to_nat o) data (mem ph (f * PAGE_SIZE + o))).
  { intros o Ho. rewrite Hm1 by done. by apply nth_page_data. }
  destruct (Z.leb_spec (Z.of_nat (length data)) (Z.of_nat k * PAGE_SIZE + PAGE_SIZE)) as [Hdone|Hmore].
  - exists m1. split; [done|]. eapply copied_cons; [done|done|done|done|]. apply copied_done. lia.
  - assert (Hst : step (s + Z.of_nat k) = s + Z.of_nat (S k)) by (unfold step; rewrite wrap_small; lia).
    replace (Z.of_nat k * PAGE_SIZE + PAGE_SIZE) with (Z.of_nat (S k) * PAGE_SIZE) in * by lia. rewrite Hst.
    assert (Hsp1 : sp_inv lo (mkPhys m1 (falloc ph)) pt fs E).
    { apply sp_write; [done|done|]. intros q Hq. apply Hs1. intros ->.
      pose proof (sp_nodup _ _ _ _ _ Hsp) as Hnds. apply NoDup_app in Hnds as (_ & Hd & _). by apply (Hd f). }
    destruct (IH (S k) (mkPhys m1 (falloc ph))) as (m2 & E2 & Hc); try done; [unfold PAGE_SIZE in *; lia..|].
    exists m2. split; [done|]. by eapply copied_cons.
Qed.

Lemma copy_data_ok a pt fs E fn p data ph :
  phys_inv lo ph → sp_inv lo ph pt fs E → map_type a = Framed → 0 ≤ p < 256 → NoDup fn → (∀ f, f ∈ fn → f ∈ fs) →
  run_mapped E fn p (range_l (vpn_range a)) → (0 < length fn)%nat →
  Z.of_nat (length data) ≤ Z.of_nat (length fn) * PAGE_SIZE →
  ∃ m', copy_data a pt data (mem ph) = Ret m' ∧ copied (mem ph) m' fn 0 data.
Proof.
  intros Hph Hsp Hty Hp Hnd Hin HE Hn Hlen. unfold copy_data. rewrite Hty, bool_decide_eq_true_2 by done.
  cbn [rassert mbind outcome_bind].
  pose proof (Z.div_mod (Z.of_nat (length data)) PAGE_SIZE ltac:(done)) as Hdm.
  pose proof (Z.mod_pos_bound (Z.of_nat (length data)) PAGE_SIZE ltac:(done)).
  assert (0 ≤ Z.of_nat (length data) / PAGE_SIZE) by (apply Z.div_pos; [lia|done]).
  destruct (copy_data_loop_ok (S (Z.to_nat (Z.of_nat (length data) / PAGE_SIZE))) pt fs E fn p (range_l (vpn_range a)) data 0 ph)
    as (m' & E' & Hc); try done; [(unfold PAGE_SIZE in *; lia)..|].
  exists m'. by rewrite Z.add_0_r in E'.
Qed.

(** A push with data is the push without, then the copy. *)
Lemma ms_push_data a data ms ph ms' pt a' ph1 m :
  ms' = mkMemorySet pt (areas ms ++ [a']) → ms_push a None ms ph = Ret (ms', ph1) →
  copy_data a' pt data (mem ph1) = Ret m → ms_push a (Some data) ms ph = Ret (ms', mkPhys m (falloc ph1)).
Proof.
  intros -> E Ec. unfold ms_push in *. destruct (area_map a (page_table ms) ph) as [[[a1 pt1] ph2]| |]; [|done..].
  cbn [mbind outcome_bind] in *. injection E as -> [_ ->]%app_inj_tail ->. by rewrite Ec.
Qed.

(** ** Segments *)

(** A range of pages with its permissions and the bytes from its start on;
    the rest of the range is zero. *)
Record segment : Type := mkSegment { sg_start : Z; sg_end : Z; sg_perm : Z; sg_data : list byte }.

Definition in_segment (s : segment) (v : Z) : Prop := sg_start s ≤ v < sg_end s.
Definition sg_pages (s : segment) : Z := sg_end s - sg_start s.

Definition segment_fits (s : segment) : Prop :=
  0 ≤ sg_start s ≤ sg_end s ∧ sg_end s ≤ 0x7ffffff ∧ 0 ≤ sg_perm s < 256 ∧
  Z.of_nat (length (sg_data s)) ≤ sg_pages s * PAGE_SIZE.

(** The area [a] holds the segment [s] in memory [m]. *)
Record seg_area (m : Mem) (s : segment) (a : MapArea) : Prop := {
  sa_range : vpn_range a = mkSimpleRange (sg_start s) (sg_end s);
  sa_perm : map_perm a = sg_perm s;
  sa_bytes i f o : area_frames a !! i = Some f → 0 ≤ o < PAGE_SIZE →
    m (f * PAGE_SIZE + o) = nth (i * Z.to_nat PAGE_SIZE + Z.to_nat o) (sg_data s) x00;
}.

Lemma seg_area_mono m m' s a :
  seg_area m s a → (∀ q, q ∈ area_frames a → same_page m m' q) → seg_area m' s a.
Proof.
  intros [H1 H2 H3] Hs. split; [done..|]. intros i f o Hi Ho. rewrite <-(H3 i f o Hi Ho).
  apply (Hs f); [by eapply list_elem_of_lookup_2|]. unfold PAGE_SIZE in *. lia.
Qed.

Lemma seg_areas_mono m m' ss l :
  Forall2 (seg_area m) ss l → (∀ q, q ∈ l ≫= area_frames → same_page m m' q) → Forall2 (seg_area m') ss l.
Proof.
  induction 1 as [|s a ss l Ha _ IH]; intros Hs; constructor.
  - eapply seg_area_mono; [done|]. intros q Hq. apply Hs. rewrite bind_cons. apply elem_of_app. by left.
  - apply IH. intros q Hq. apply Hs. rewrite bind_cons. apply elem_of_app. by right.
Qed.

(** A space that maps the trampoline and the segments [ss], and nothing else. *)
Record loaded (ss : list segment) (ms : MemorySet) (ph : Phys) : Prop := {
  lo_space : space lo [trampoline_entry] ph ms;
  lo_areas : Forall2 (seg_area (mem ph)) ss (areas ms);
}.

(** The state of [from_elf] after the segments [ss]; [ph0] is where it started. *)
Record loading (ph0 : Phys) (ss : list segment) (ms : MemorySet) (ph : Phys) : Prop := {
  ld_state : child_state lo [trampoline_entry] ph0 ms ph;
  ld_areas : Forall2 (seg_area (mem ph)) ss (areas ms);
}.

Lemma loading_loaded ph0 ss ms ph : loading ph0 ss ms ph → loaded ss ms ph.
Proof. intros [Hch Ha]. split; [apply Hch|done]. Qed.

(** The pages a loaded space maps. *)
Lemma loaded_keys ss ms ph v :
  loaded ss ms ph → v ∈ ([trampoline_entry] ++ ms_entries ms).*1 →
  v = 0x7ffffff ∨ ∃ s, s ∈ ss ∧ in_segment s v.
Proof.
  intros [Hsp Ha] Hv. rewrite fmap_app in Hv. apply elem_of_app in Hv as [Hv|Hv].
  { left. by apply list_elem_of_singleton in Hv. }
  right. pose proof (sc_areas _ _ _ _ Hsp) as Hwf. unfold ms_entries in Hv.
  clear Hsp. revert Hv. induction Ha as [|s a ss l Hsa Ha IH]; [by intros []%elem_of_nil|].
  apply Forall_cons in Hwf as [Hw Hwf]. rewrite bind_cons, fmap_app, elem_of_app. intros [Hv|Hv].
  - exists s. split; [by left|]. rewrite area_entries_keys, (aw_keys _ Hw), (sa_range _ _ _ Hsa) in Hv.
    unfold range_list in Hv. apply elem_of_seqZ in Hv. simpl in Hv. unfold in_segment. lia.
  - destruct (IH Hwf Hv) as (s' & ? & ?). exists s'. split; [by right|done].
Qed.

(** Mapping the new area, then the bytes of the segment written. *)
Lemma loading_finish ph0 ss s ms a fn pt ph m :
  child_pushed lo [trampoline_entry] ph0 ms a fn pt ph → Forall2 (seg_area (mem ph)) ss (areas ms) →
  vpn_range a = mkSimpleRange (sg_start s) (sg_end s) → map_perm a = sg_perm s →
  (∀ f, f ∈ fn → zero_page (mem ph) f) → copied (mem ph) m fn 0 (sg_data s) →
  loading ph0 (ss ++ [s]) (mkMemorySet pt (areas ms ++ [cloned_area a fn])) (mkPhys m (falloc ph)).
Proof.
  intros Hpu Ha Hr Hp Hz [Hc Hs]. split; [by apply child_write_ok|].
  destruct Hpu as [_ _ Hlen _ _ _ Hfr _]. apply Forall2_app.
  - eapply seg_areas_mono; [done|]. intros q Hq. apply Hs. intros Hin. by destruct (Hfr q Hin).
  - constructor; [|constructor]. split; [done|done|]. rewrite cloned_area_frames by done.
    intros i f o Hi Ho. simpl. rewrite (Hc i f o Hi ltac:(lia) Ho). f_equal.
    apply (Hz f (list_elem_of_lookup_2 _ _ _ Hi)). unfold PAGE_SIZE in *. lia.
Qed.

(** The frames of the area just mapped, as entries of the space. *)
Lemma pushed_run ph0 ms a fn pt ph :
  child_pushed lo [trampoline_entry] ph0 ms a fn pt ph →
  run_mapped ([trampoline_entry] ++ ms_entries (mkMemorySet pt (areas ms ++ [cloned_area a fn]))) fn
    (Z.lor (map_perm a) PTE_V) (range_l (vpn_range a)).
Proof.
  intros [_ Hch Hlen _ _ _ _ _] i f Hi.
  assert (Hd : data_frames (cloned_area a fn) !! i = Some (range_l (vpn_range a) + Z.of_nat i, f)).
  { apply lookup_zip_with_Some. do 2 eexists. split_and!; [done| |done].
    unfold range_list in *. apply lookup_seqZ. split; [done|].
    pose proof (lookup_lt_Some _ _ _ Hi). rewrite length_seqZ in Hlen. lia. }
  apply (space_lookup lo _ _ _ _ i _ _ Hch) in Hd as (Hv & _ & He); [|simpl; set_solver]. by split.
Qed.

(** The [data] a push copies, and the segment it makes. *)
Definition push_data (s : segment) (od : option (list byte)) : Prop :=
  match od with
  | Some data => data = sg_data s ∧ 0 < sg_pages s
  | None => sg_data s = []
  end.

Lemma push_segment_ok ph0 ss ms ph s od :
  loading ph0 ss ms ph → segment_fits s → push_data s od →
  (∀ s' v, s' ∈ ss → in_segment s v → ¬ in_segment s' v) → 3 * sg_pages s ≤ free_count (falloc ph) →
  ∃ ms' ph', ms_push (mkMapArea (mkSimpleRange (sg_start s) (sg_end s)) [] Framed (sg_perm s)) od ms ph = Ret (ms', ph') ∧
    loading ph0 (ss ++ [s]) ms' ph' ∧ free_count (falloc ph) - 3 * sg_pages s ≤ free_count (falloc ph').
Proof.
  intros Hld (Hr & Htop & Hp & Hl) Hod Hdis Hfree. pose proof (ld_areas _ _ _ _ Hld) as Ha.
  set (a := mkMapArea _ _ _ _).
  destruct (child_push_ok lo [trampoline_entry] ph0 ms ph a (ld_state _ _ _ _ Hld)) as
    (fn & pt & ph1 & E & Hpu & Hold & Hz & Hf).
  { by split; simpl; [|lia| |]. }
  { intros v Hv Hk. unfold range_list in Hv. apply elem_of_seqZ in Hv. simpl in Hv.
    destruct (loaded_keys _ _ _ v (loading_loaded _ _ _ _ Hld) Hk) as [->|(s' & Hs' & Hin)]; [lia|].
    apply (Hdis s' v Hs'); [unfold in_segment; lia|done]. }
  { done. }
  assert (Ha1 : Forall2 (seg_area (mem ph1)) ss (areas ms)).
  { eapply seg_areas_mono; [done|]. apply Hold. }
  assert (Hfn : length fn = Z.to_nat (sg_pages s)).
  { pose proof (cp_length _ _ _ _ _ _ _ _ Hpu) as Hlen. unfold range_list in Hlen. by rewrite length_seqZ in Hlen. }
  destruct od as [data|]; simpl in Hod.
  - destruct Hod as [-> Hpos].
    destruct (copy_data_ok (cloned_area a fn) pt (ms_frames ms ++ fn)
      ([trampoline_entry] ++ ms_entries (mkMemorySet pt (areas ms ++ [cloned_area a fn]))) fn
      (Z.lor (sg_perm s) PTE_V) (sg_data s) ph1) as (m & Ec & Hc).
    { apply Hpu. }
    { pose proof (sc_sp _ _ _ _ (cp_child _ _ _ _ _ _ _ _ Hpu)) as Hsp.
      by rewrite cloned_ms_frames in Hsp by apply Hpu. }
    { done. }
    { apply lor_byte_range; [done|apply PTE_V_range]. }
    { apply Hpu. }
    { intros f Hin. apply elem_of_app. by right. }
    { exact (pushed_run ph0 ms a fn pt ph1 Hpu). }
    { lia. }
    { unfold sg_pages in *. lia. }
    exists (mkMemorySet pt (areas ms ++ [cloned_area a fn])), (mkPhys m (falloc ph1)).
    split_and!; [by eapply ms_push_data|by eapply loading_finish|done].
  - exists (mkMemorySet pt (areas ms ++ [cloned_area a fn])), ph1. split_and!; [done| |done].
    replace ph1 with (mkPhys (mem ph1) (falloc ph1)) by (by destruct ph1).
    eapply loading_finish; [done..|]. rewrite Hod. apply copied_done. simpl. unfold PAGE_SIZE. lia.
Qed.

(** ** Program headers *)
Lemma va_floor_le v : va_floor v * PAGE_SIZE ≤ v < (va_floor v + 1) * PAGE_SIZE.
Proof.
  unfold va_floor. pose proof (Z.div_mod v PAGE_SIZE ltac:(done)).
  pose proof (Z.mod_pos_bound v PAGE_SIZE ltac:(done)). unfold PAGE_SIZE in *. lia.
Qed.

Lemma va_ceil_ge v : 0 < v → v ≤ va_ceil v * PAGE_SIZE < v + PAGE_SIZE.
Proof.
  intros Hv. unfold va_ceil. rewrite (proj2 (Z.eqb_neq v 0)) by lia.
  pose proof (Z.div_mod (v - 1 + PAGE_SIZE) PAGE_SIZE ltac:(done)).
  pose proof (Z.mod_pos_bound (v - 1 + PAGE_SIZE) PAGE_SIZE ltac:(done)). unfold PAGE_SIZE in *. lia.
Qed.

Definition header_perm (h : ProgramHeader) : Z :=
  let perm := MP_U in
  let perm := if ph_read h then Z.lor perm MP_R else perm in
  let perm := if ph_write h then Z.lor perm MP_W else perm in
  if ph_execute h then Z.lor perm MP_X else perm.

Definition header_segment (elf_data : list byte) (h : ProgramHeader) : segment :=
  mkSegment (va_floor (ph_virtual_addr h)) (va_ceil (ph_virtual_addr h + ph_mem_size h)) (header_perm h)
    (slice (Z.to_nat (ph_offset h)) (Z.to_nat (ph_file_size h)) elf_data).

(** A segment in the low half of the address space, not empty, with its bytes
    in the file. *)
Record loadable (elf_data : list byte) (h : ProgramHeader) : Prop := {
  lh_addr : 0 ≤ ph_virtual_addr h;
  lh_end : ph_virtual_addr h + ph_mem_size h ≤ 2 ^ 38;
  lh_size : 0 ≤ ph_file_size h ≤ ph_mem_size h ∧ 0 < ph_mem_size h;
  lh_offset : 0 ≤ ph_offset h ∧ ph_offset h + ph_file_size h ≤ Z.of_nat (length elf_data) < 2 ^ 64;
}.

Lemma header_perm_range h : 0 ≤ header_perm h < 256.
Proof. unfold header_perm. by destruct (ph_read h), (ph_write h), (ph_execute h). Qed.

Lemma header_segment_fits elf_data h :
  loadable elf_data h →
  let s := header_segment elf_data h in
  segment_fits s ∧ 0 < sg_pages s ∧ sg_end s ≤ 2 ^ 26.
Proof.
  intros [Ha He [Hf Hm] [Ho Hl]]. cbv zeta. unfold segment_fits, sg_pages, header_segment. cbn [sg_start sg_end sg_perm sg_data].
  pose proof (va_floor_le (ph_virtual_addr h)).
  pose proof (va_ceil_ge (ph_virtual_addr h + ph_mem_size h) ltac:(lia)).
  pose proof (header_perm_range h). rewrite length_slice by lia. unfold PAGE_SIZE in *. lia.
Qed.

Lemma load_header_ok elf_data ph0 ss ms e ph h :
  loading ph0 ss ms ph → ph_is_load h = Some true → loadable elf_data h →
  let s := header_segment elf_data h in
  (∀ s' v, s' ∈ ss → in_segment s v → ¬ in_segment s' v) → 3 * sg_pages s ≤ free_count (falloc ph) →
  ∃ ms' ph', load_header elf_data (Some h) (ms, e, ph) = Ret (ms', sg_end s, ph') ∧
    loading ph0 (ss ++ [s]) ms' ph' ∧ free_count (falloc ph) - 3 * sg_pages s ≤ free_count (falloc ph').
Proof.
  intros Hld Hty Hh s Hdis Hfree. destruct (header_segment_fits elf_data h Hh) as (Hfit & Hpos & _).
  fold s in Hfit, Hpos. destruct Hh as [Ha He [Hf Hm] [Ho Hl]].
  destruct (push_segment_ok ph0 ss ms ph s (Some (sg_data s)) Hld Hfit) as (ms' & ph' & E & Hld' & Hf'); [done|done|done|].
  exists ms', ph'. split; [|done]. unfold load_header. cbn [unwrap mbind outcome_bind]. rewrite Hty. cbn [unwrap mbind outcome_bind].
  rewrite (wrap_small 64 (ph_virtual_addr h + _)), (wrap_small 64 (ph_offset h + _)) by lia.
  rewrite !VirtAddr_from_small by lia. fold (header_perm h).
  unfold MapArea_new, SimpleRange_new. destruct Hfit as (Hr & _).
  rewrite (proj2 (Z.leb_le (va_floor _) (va_ceil _)) (proj2 Hr)).
  rewrite (proj2 (Z.leb_le (ph_offset h) (ph_offset h + ph_file_size h))) by lia.
  cbn [rassert mbind outcome_bind].
  replace (ph_offset h + ph_file_size h - ph_offset h) with (ph_file_size h) by lia.
  unfold slice_checked. rewrite (proj2 (Nat.leb_le _ _)) by lia. cbn [mbind outcome_bind].
  unfold s, header_segment in E. cbn [sg_start sg_end sg_perm sg_data] in E. by rewrite E.
Qed.

(** ** The loop over the headers *)
Definition load_headers (l : list (option ProgramHeader)) : list ProgramHeader :=
  omap (λ o, h ← o; b ← ph_is_load h; if b : bool then Some h else None) l.

Definition elf_segments (elf_data : list byte) (l : list (option ProgramHeader)) : list segment :=
  header_segment elf_data <$> load_headers l.

(** Every header can be read, and the loaded ones are fine. *)
Definition header_ok (elf_data : list byte) (o : option ProgramHeader) : Prop :=
  ∃ h b, o = Some h ∧ ph_is_load h = Some b ∧ (b = true → loadable elf_data h).

Definition ascending (s s' : segment) : Prop := sg_end s ≤ sg_start s'.
Definition last_end (ss : list segment) : Z := from_option sg_end 0 (last ss).
Definition segment_pages (ss : list segment) : Z := foldr Z.add 0 (sg_pages <$> ss).

Lemma load_header_skip elf_data h st :
  ph_is_load h = Some false → load_header elf_data (Some h) st = Ret st.
Proof.
  intros E. destruct st as [[ms e] ph]. unfold load_header. cbn [unwrap mbind outcome_bind]. by rewrite E.
Qed.

Lemma elf_segments_fit elf_data l s :
  Forall (header_ok elf_data) l → s ∈ elf_segments elf_data l →
  segment_fits s ∧ 0 < sg_pages s ∧ sg_end s ≤ 2 ^ 26.
Proof.
  intros Hok (h & -> & Hh)%list_elem_of_fmap. apply header_segment_fits.
  unfold load_headers in Hh. apply list_elem_of_omap in Hh as (o & Ho & E).
  rewrite Forall_forall in Hok. destruct (Hok o Ho) as (h' & b & -> & Hb & Hl).
  simpl in E. rewrite Hb in E. simpl in E. destruct b; [|done]. injection E as <-. by apply Hl.
Qed.

Lemma segment_pages_nonneg elf_data l :
  Forall (header_ok elf_data) l → 0 ≤ segment_pages (elf_segments elf_data l).
Proof.
  intros Hok. pose proof (elf_segments_fit elf_data l) as Hfit. unfold segment_pages.
  induction (elf_segments elf_data l) as [|s ss IH]; [done|]. rewrite fmap_cons. cbn [foldr].
  destruct (Hfit s Hok ltac:(by left)) as (_ & ? & _).
  assert (0 ≤ foldr Z.add 0 (sg_pages <$> ss)) by (apply IH; intros s' ? ?; apply Hfit; [done|by right]). lia.
Qed.

Lemma load_headers_run elf_data ph0 l ss ms ph :
  loading ph0 ss ms ph → Forall (header_ok elf_data) l →
  StronglySorted ascending (ss ++ elf_segments elf_data l) →
  3 * segment_pages (elf_segments elf_data l) ≤ free_count (falloc ph) →
  ∃ ms' ph', for_each (load_header elf_data) l (ms, last_end ss, ph) =
      Ret (ms', last_end (ss ++ elf_segments elf_data l), ph') ∧
    loading ph0 (ss ++ elf_segments elf_data l) ms' ph' ∧
    free_count (falloc ph) - 3 * segment_pages (elf_segments elf_data l) ≤ free_count (falloc ph').
Proof.
  revert ss ms ph. induction l as [|o l IH]; intros ss ms ph Hld Hok Hss Hfree.
  { exists ms, ph. change (elf_segments elf_data []) with (@nil segment). rewrite app_nil_r. split_and!; [done|done|].
    unfold segment_pages. simpl. lia. }
  apply Forall_cons in Hok as [(h & b & -> & Hb & Hh) Hok]. destruct b.
  - specialize (Hh eq_refl). set (s := header_segment elf_data h).
    assert (Hseg : elf_segments elf_data (Some h :: l) = s :: elf_segments elf_data l).
    { unfold elf_segments, load_headers. simpl. by rewrite Hb. }
    rewrite Hseg in *. change (segment_pages (s :: ?x)) with (sg_pages s + segment_pages x) in *.
    pose proof (segment_pages_nonneg elf_data l Hok) as Hnn.
    destruct (load_header_ok elf_data ph0 ss ms (last_end ss) ph h Hld Hb Hh) as (ms1 & ph1 & E1 & Hld1 & Hf1).
    { intros s' v Hs' Hv. apply StronglySorted_app in Hss as (Hss & _). specialize (Hss s' s Hs' ltac:(by left)).
      unfold ascending, in_segment in *. fold s in Hv. lia. }
    { fold s. lia. }
    fold s in E1, Hld1, Hf1.
    destruct (IH (ss ++ [s]) ms1 ph1 Hld1 Hok) as (ms2 & ph2 & E2 & Hld2 & Hf2); [by rewrite <-app_assoc|lia|].
    unfold last_end at 1 in E2. rewrite last_snoc in E2. rewrite <-app_assoc in E2, Hld2.
    exists ms2, ph2. cbn [for_each]. rewrite E1. cbn [mbind outcome_bind]. split_and!; [done|done|lia].
  - assert (Hseg : elf_segments elf_data (Some h :: l) = elf_segments elf_data l).
    { unfold elf_segments, load_headers. cbn [omap list_omap]. simpl. by rewrite Hb. }
    rewrite Hseg in *. cbn [for_each]. rewrite load_header_skip by done. cbn [mbind outcome_bind]. by apply IH.
Qed.

(** ** The whole program *)

(** The user stack above a guard page, and the page of the trap context. *)
Definition stack_segment (e : Z) : segment := mkSegment (e + 1) (e + 3) (Z.lor (Z.lor MP_R MP_W) MP_U) [].
Definition trap_segment : segment := mkSegment 0x7fffffe 0x7ffffff (Z.lor MP_R MP_W) [].

Definition program_segments (elf_data : list byte) (l : list (option ProgramHeader)) : list segment :=
  let ss := elf_segments elf_data l in ss ++ [stack_segment (last_end ss); trap_segment].

(** An ELF file [from_elf] can load: readable headers whose segments ascend
    without sharing a page and leave room for the stack in the low half. *)
Record elf_ok `{!ElfParser} (elf_data : list byte) (elf : ElfFile) : Prop := {
  eo_parse : ElfFile_new elf_data = Some elf;
  eo_magic : elf_magic elf = [x7f; x45; x4c; x46];
  eo_headers : Forall (header_ok elf_data) (elf_program_headers elf);
  eo_sorted : StronglySorted ascending (elf_segments elf_data (elf_program_headers elf));
  eo_room : last_end (elf_segments elf_data (elf_program_headers elf)) + 3 ≤ 2 ^ 26;
}.

Definition elf_pages (elf_data : list byte) (elf : ElfFile) : Z :=
  segment_pages (elf_segments elf_data (elf_program_headers elf)) + 3.

Lemma sorted_last_end ss s : StronglySorted ascending ss → Forall (λ s, sg_start s ≤ sg_end s) ss →
  s ∈ ss → sg_end s ≤ last_end ss.
Proof.
  intros Hss Hr Hs. unfold last_end. destruct ss as [|x ss _] using rev_ind; [by apply elem_of_nil in Hs|].
  rewrite last_snoc. simpl. apply elem_of_app in Hs as [Hs|Hs%list_elem_of_singleton]; [|by subst].
  apply StronglySorted_app in Hss as (Hss & _). specialize (Hss s x Hs ltac:(by left)). unfold ascending in Hss.
  apply Forall_app in Hr as [_ Hr]. apply Forall_cons in Hr as [Hr _]. lia.
Qed.

(** Pushing an empty area for the stack or the trap context. *)
Lemma push_empty_ok ph0 ss ms ph s :
  loading ph0 ss ms ph → segment_fits s → sg_data s = [] →
  (∀ s' v, s' ∈ ss → in_segment s v → ¬ in_segment s' v) → 3 * sg_pages s ≤ free_count (falloc ph) →
  ∃ ms' ph', ms_push (mkMapArea (mkSimpleRange (sg_start s) (sg_end s)) [] Framed (sg_perm s)) None ms ph = Ret (ms', ph') ∧
    loading ph0 (ss ++ [s]) ms' ph' ∧ free_count (falloc ph) - 3 * sg_pages s ≤ free_count (falloc ph').
Proof. intros. by apply push_segment_ok. Qed.

Lemma stack_area e :
  0 ≤ e → e + 3 ≤ 2 ^ 26 →
  let bottom := usize (usize_from_VirtAddr (VirtAddr_of_VirtPageNum e) + PAGE_SIZE) in
  let top := usize (bottom + USER_STACK_SIZE) in
  top = (e + 3) * PAGE_SIZE ∧
  MapArea_new (VirtAddr_from bottom) (VirtAddr_from top) Framed (Z.lor (Z.lor MP_R MP_W) MP_U) =
    Ret (mkMapArea (mkSimpleRange (e + 1) (e + 3)) [] Framed (sg_perm (stack_segment e))).
Proof.
  intros H0 He. cbv zeta. unfold VirtAddr_of_VirtPageNum, PAGE_SIZE_BITS. rewrite Z.shiftl_mul_pow2 by lia.
  change (2 ^ 0xc) with 0x1000. rewrite (wrap_small 64 (e * _)) by lia.
  rewrite usize_from_VirtAddr_low by lia. unfold PAGE_SIZE, USER_STACK_SIZE.
  rewrite (wrap_small 64 (e * 0x1000 + 0x1000)) by lia. rewrite wrap_small by lia. split; [lia|].
  rewrite !VirtAddr_from_small by lia. unfold MapArea_new, SimpleRange_new, va_floor, va_ceil, PAGE_SIZE.
  rewrite (proj2 (Z.eqb_neq _ 0)) by lia.
  replace (e * 0x1000 + 0x1000) with ((e + 1) * 0x1000) by lia. rewrite Z.div_mul by done.
  assert (Hc : ((e + 1) * 0x1000 + 4096 * 2 - 1 + 0x1000) / 0x1000 = e + 3)
    by (symmetry; apply Z.div_unique with 0xfff; lia).
  rewrite Hc, (proj2 (Z.leb_le _ _)) by lia. done.
Qed.

Lemma trap_area :
  MapArea_new (VirtAddr_from TRAP_CONTEXT) (VirtAddr_from TRAMPOLINE) Framed (Z.lor MP_R MP_W) =
    Ret (mkMapArea (mkSimpleRange (sg_start trap_segment) (sg_end trap_segment)) [] Framed (sg_perm trap_segment)).
Proof. done. Qed.

Lemma segments_below elf_data l ss :
  Forall (header_ok elf_data) l → ss = elf_segments elf_data l → StronglySorted ascending ss →
  0 ≤ last_end ss ∧ ∀ s, s ∈ ss → 0 ≤ sg_start s ≤ sg_end s ∧ sg_end s ≤ last_end ss.
Proof.
  intros Hh -> Hs.
  assert (He : ∀ s, s ∈ elf_segments elf_data l →
    0 ≤ sg_start s ≤ sg_end s ∧ sg_end s ≤ last_end (elf_segments elf_data l)).
  { intros s Hin. destruct (elf_segments_fit elf_data l s Hh Hin) as ((? & _) & _). split; [lia|].
    apply sorted_last_end; [done| |done]. apply Forall_forall. intros s' Hs'.
    by destruct (elf_segments_fit elf_data l s' Hh Hs') as (([_ ?] & _) & _). }
  split; [|done]. unfold last_end in *. destruct (last (elf_segments elf_data l)) as [s|] eqn:E; [|done].
  simpl in *. apply last_Some_elem_of in E. specialize (He s E). lia.
Qed.

Lemma from_elf_ok `{!ElfParser} elf_data elf ph :
  phys_inv lo ph → elf_ok elf_data elf → 3 + 3 * elf_pages elf_data elf ≤ free_count (falloc ph) →
  let ss := elf_segments elf_data (elf_program_headers elf) in
  ∃ ms ph', from_elf elf_data ph = Ret (ms, (last_end ss + 3) * PAGE_SIZE, elf_entry_point elf, ph') ∧
    loading ph (program_segments elf_data (elf_program_headers elf)) ms ph' ∧
    free_count (falloc ph) - (3 + 3 * elf_pages elf_data elf) ≤ free_count (falloc ph').
Proof.
  intros Hph [Hp Hm Hh Hs Hroom] Hfree. unfold elf_pages, program_segments in *. cbv zeta.
  set (l := elf_program_headers elf) in *. set (ss := elf_segments elf_data l) in *. set (e := last_end ss) in *.
  pose proof (segment_pages_nonneg elf_data l Hh) as Hnn. fold ss in Hnn.
  destruct (segments_below elf_data l ss Hh eq_refl Hs) as [He0 He]. fold e in He0, He.
  destruct (new_child_ok lo ph Hph ltac:(lia)) as (ms0 & ph0 & ms1 & ph1 & E0 & E1 & Ha1 & Hch1 & Hf1).
  assert (Hld1 : loading ph [] ms1 ph1) by (split; [done|by rewrite Ha1]).
  destruct (load_headers_run elf_data ph l [] ms1 ph1 Hld1 Hh Hs ltac:(fold ss; lia)) as (ms2 & ph2 & E2 & Hld2 & Hf2).
  cbn [app] in E2, Hld2. fold ss e in E2, Hld2, Hf2.
  destruct (stack_area e He0 Hroom) as [Htop Hst]. cbv zeta in Htop, Hst.
  destruct (push_empty_ok ph ss ms2 ph2 (stack_segment e) Hld2) as (ms3 & ph3 & E3 & Hld3 & Hf3);
    [by split_and!; simpl; [lia..| |done|unfold PAGE_SIZE, sg_pages; simpl; lia]|done| |unfold sg_pages; simpl; lia|].
  { intros s v Hin Hv. specialize (He s Hin). unfold in_segment in *. simpl in Hv. lia. }
  destruct (push_empty_ok ph (ss ++ [stack_segment e]) ms3 ph3 trap_segment Hld3) as (ms4 & ph4 & E4 & Hld4 & Hf4);
    [done|done| |unfold sg_pages in *; simpl in *; lia|].
  { intros s v [Hin| ->%list_elem_of_singleton]%elem_of_app Hv; [specialize (He s Hin)|]; unfold in_segment in *; simpl in *; lia. }
  exists ms4, ph4. split_and!; [|by rewrite <-app_assoc in Hld4|unfold sg_pages in *; simpl in *; lia].
  unfold from_elf. rewrite E0. cbn [mbind outcome_bind]. rewrite E1. cbn [mbind outcome_bind].
  rewrite Hp. cbn [unwrap mbind outcome_bind]. rewrite Hm, bool_decide_eq_true_2 by done. cbn [rassert mbind outcome_bind].
  fold l. change 0 with (last_end []) at 1. rewrite E2. cbn [mbind outcome_bind].
  rewrite Hst. cbn [mbind outcome_bind]. change (mkSimpleRange (e + 1) (e + 3)) with
    (mkSimpleRange (sg_start (stack_segment e)) (sg_end (stack_segment e))). rewrite E3. cbn [mbind outcome_bind].
  rewrite trap_area. cbn [mbind outcome_bind]. rewrite E4. cbn [mbind outcome_bind]. by rewrite Htop.
Qed.

(** ** What the program sees *)

(** The page of a segment: its entry, and the bytes behind it. *)
Lemma loaded_byte ss ms ph s va :
  loaded ss ms ph → s ∈ ss → in_segment s (va / PAGE_SIZE) →
  ∃ f, f ∈ ms_frames ms ∧
    pt_view (mem ph) (page_table ms) (va / PAGE_SIZE) = Some (pte_new f (Z.lor (sg_perm s) PTE_V)) ∧
    mem ph (f * PAGE_SIZE + va mod PAGE_SIZE) = nth (Z.to_nat (va - sg_start s * PAGE_SIZE)) (sg_data s) x00.
Proof.
  intros [Hsp Ha] Hs Hin. apply list_elem_of_lookup in Hs as [j Hj].
  destruct (Forall2_lookup_l _ _ _ _ _ Ha Hj) as (a & Hja & [Hr Hp Hb]).
  assert (Hain : a ∈ areas ms) by (by eapply list_elem_of_lookup_2).
  pose proof (sc_areas _ _ _ _ Hsp) as Hwf.
  rewrite Forall_forall in Hwf. pose proof (aw_keys _ (Hwf a Hain)) as Hk. unfold range_list in Hk. rewrite Hr in Hk.
  simpl in Hk. unfold in_segment in Hin. set (i := Z.to_nat (va / PAGE_SIZE - sg_start s)).
  assert (Hki : (data_frames a).*1 !! i = Some (va / PAGE_SIZE)) by (rewrite Hk; apply lookup_seqZ; lia).
  rewrite list_lookup_fmap in Hki. destruct (data_frames a !! i) as [[v f]|] eqn:Hi; [|done].
  simpl in Hki. injection Hki as ->. exists f.
  destruct (space_lookup lo _ _ _ _ _ _ _ Hsp Hain Hi) as (Hv & _ & He).
  assert (Hf : area_frames a !! i = Some f) by (unfold area_frames; by rewrite list_lookup_fmap, Hi).
  split_and!.
  - apply list_elem_of_bind. exists a. split; [by eapply list_elem_of_lookup_2|done].
  - rewrite (sp_rep _ _ _ _ _ (sc_sp _ _ _ _ Hsp)) by done. by rewrite He, Hp.
  - rewrite (Hb i f (va mod PAGE_SIZE) Hf) by (by apply Z.mod_pos_bound). f_equal.
    pose proof (Z.div_mod va PAGE_SIZE ltac:(done)). pose proof (Z.mod_pos_bound va PAGE_SIZE ltac:(done)).
    unfold i, PAGE_SIZE in *. lia.
Qed.

Lemma loaded_unmapped ss ms ph v :
  loaded ss ms ph → 0 ≤ v < 0x7ffffff → (∀ s, s ∈ ss → ¬ in_segment s v) →
  pt_view (mem ph) (page_table ms) v = None.
Proof.
  intros Hld Hv Hno. pose proof (sc_sp _ _ _ _ (lo_space _ _ _ Hld)) as Hsp.
  rewrite (sp_rep _ _ _ _ _ Hsp) by lia. apply not_elem_of_list_to_map. intros Hk.
  destruct (loaded_keys _ _ _ v Hld Hk) as [->|(s & Hs & Hin)]; [lia|]. by apply (Hno s).
Qed.
(** Loaded programs stay loaded while their frames are left alone. *)
Lemma loaded_frame ss ms ph ph' :
  phys_inv lo ph → phys_inv lo ph' → loaded ss ms ph →
  (∀ q, q ∈ pt_frames (page_table ms) ++ ms_frames ms → same_page (mem ph) (mem ph') q ∧ p_owned lo ph' q) →
  loaded ss ms ph'.
Proof.
  intros Hph Hph' [[Hsp Hwf] Ha] Hs. split; [split; [|done]|].
  - apply (sp_frame lo ph); [done..| |].
    + intros q Hq. apply Hs, elem_of_app. by left.
    + intros q Hq. apply Hs, elem_of_app. by right.
  - eapply seg_areas_mono; [done|]. intros q Hq. apply Hs, elem_of_app. by right.
Qed.

(** Writing to the start of the last segment, when it is one empty page. *)
Lemma loaded_write ss s ms ph bs :
  phys_inv lo ph → loaded (ss ++ [s]) ms ph → sg_end s = sg_start s + 1 → sg_data s = [] →
  Z.of_nat (length bs) ≤ PAGE_SIZE →
  ∃ f m', f ∈ ms_frames ms ∧ pt_view (mem ph) (page_table ms) (sg_start s) = Some (pte_new f (Z.lor (sg_perm s) PTE_V)) ∧
    set_bytes (mem ph) f 0 bs = Ret m' ∧ (∀ q, q ≠ f → same_page (mem ph) m' q) ∧
    loaded (ss ++ [mkSegment (sg_start s) (sg_end s) (sg_perm s) bs]) ms (mkPhys m' (falloc ph)).
Proof.
  intros Hph [[Hsp Hwf] Ha] He Hd Hl.
  apply Forall2_app_inv_l in Ha as (l & l2 & Ha & Hs & Heq). apply Forall2_cons_inv_l in Hs as (a & l3 & Hsa & Hnil & ->).
  apply Forall2_nil_inv_l in Hnil as ->. destruct Hsa as [Hr Hp Hb].
  assert (Hain : a ∈ areas ms) by (rewrite Heq; set_solver).
  assert (Hk : (data_frames a).*1 = [sg_start s]).
  { rewrite Forall_forall in Hwf. rewrite (aw_keys _ (Hwf a Hain)), Hr. unfold range_list. simpl.
    by replace (sg_end s - sg_start s) with 1 by lia. }
  destruct (data_frames a) as [|[v f] [|]] eqn:Hdf; try done. injection Hk as ->.
  destruct (space_lookup lo _ _ _ a 0%nat (sg_start s) f (Build_space lo _ _ _ Hsp Hwf) Hain) as (Hv & Hf & Hent); [by rewrite Hdf|].
  assert (Haf : area_frames a = [f]) by (unfold area_frames; by rewrite Hdf).
  assert (Hms : ms_frames ms = (l ≫= area_frames) ++ [f]) by (unfold ms_frames; by rewrite Heq, bind_app, bind_cons, Haf).
  pose proof (sp_nodup _ _ _ _ _ Hsp) as Hnd. rewrite Hms in Hnd. apply NoDup_app in Hnd as (_ & Hnt & Hnd).
  apply NoDup_app in Hnd as (_ & Hnl & _).
  destruct (set_bytes_page (mem ph) f bs) as (m' & E & Hm & Hsame); [|done|].
  { apply (owned_page lo ph); [done|]. apply (sp_owned _ _ _ _ _ Hsp). rewrite Hms. set_solver. }
  exists f, m'. split_and!; [rewrite Hms; set_solver| |done|done|].
  { rewrite (sp_rep _ _ _ _ _ Hsp) by done. by rewrite Hent, Hp. }
  split; [split; [|done]|].
  - apply sp_write; [done..|]. intros q Hq. apply Hsame. intros ->. apply (Hnt f Hq). set_solver.
  - rewrite Heq. apply Forall2_app.
    + eapply seg_areas_mono; [done|]. intros q Hq. apply Hsame. intros ->. by apply (Hnl f Hq), list_elem_of_singleton.
    + constructor; [|constructor]. split; [done..|]. rewrite Haf. intros [|i] g o Hi Ho; [|done].
      injection Hi as <-. simpl. rewrite Hm by done. rewrite (Hb 0%nat f o) by (by rewrite ?Haf).
      rewrite Hd. simpl. by destruct (Z.to_nat o).
Qed.
End Load.

(** [from_elf] loads the program. Given the free frames for its pages and
    tables, a file whose segments ascend without sharing a page is loaded
    without panic: each segment's pages hold the bytes of the file from the
    start of its first page on and zeros after them, with the permissions of
    its header and open to user code; above the last segment an unmapped
    guard page, then a zeroed stack whose top is returned with the entry
    point; the page of the trap context is zeroed and closed to user code;
    nothing else but the trampoline is mapped.  The space owns new frames
    only, and all other memory is untouched. *)
Theorem from_elf_loads `{PlatformLaws} `{!ElfParser} lo elf_data elf ph :
  phys_inv lo ph → elf_ok elf_data elf → 3 + 3 * elf_pages elf_data elf ≤ free_count (falloc ph) →
  let ss := program_segments elf_data (elf_program_headers elf) in
  let e := last_end (elf_segments elf_data (elf_program_headers elf)) in
  ∃ ms ph', from_elf elf_data ph = Ret (ms, (e + 3) * PAGE_SIZE, elf_entry_point elf, ph') ∧
    child_state lo [trampoline_entry] ph ms ph' ∧
    (∀ s va, s ∈ ss → in_segment s (va / PAGE_SIZE) →
       ∃ f, f ∈ ms_frames ms ∧
         pt_view (mem ph') (page_table ms) (va / PAGE_SIZE) = Some (pte_new f (Z.lor (sg_perm s) PTE_V)) ∧
         mem ph' (f * PAGE_SIZE + va mod PAGE_SIZE) = nth (Z.to_nat (va - sg_start s * PAGE_SIZE)) (sg_data s) x00) ∧
    (∀ v, 0 ≤ v < 0x7ffffff → (∀ s, s ∈ ss → ¬ in_segment s v) → pt_view (mem ph') (page_table ms) v = None).
Proof.
  intros Hph Hok Hfree ss e.
  destruct (from_elf_ok lo elf_data elf ph Hph Hok Hfree) as (ms & ph' & E & Hld & _).
  exists ms, ph'. split_and!; [done|apply Hld| |].
  - intros s va. by eapply loaded_byte, loading_loaded.
  - intros v. by eapply loaded_unmapped, loading_loaded.
Qed.

(** ** Witness: a parser of one-segment files and a file of five bytes *)
Module DemoElfFile.
Definition header (data : list byte) : ProgramHeader :=
  mkProgramHeader (Some true) 0x1000 0x1800 4 (Z.of_nat (length data) - 4) true false true.

Definition parse (data : list byte) : option ElfFile :=
  Some (mkElfFile (take 4 data) [Some (header data)] 0x1000).

Definition file : list byte := [x7f; x45; x4c; x46; x13].
End DemoElfFile.

#[local] Instance demo_parser : ElfParser := {| ElfFile_new := DemoElfFile.parse |}.

Definition demo_elf : ElfFile := mkElfFile (take 4 DemoElfFile.file) [Some (DemoElfFile.header DemoElfFile.file)] 0x1000.

Lemma demo_elf_ok : elf_ok DemoElfFile.file demo_elf.
Proof.
  split; try done.
  - constructor; [|constructor]. exists (DemoElfFile.header DemoElfFile.file), true. split_and!; [done|done|].
    intros _. by split; simpl.
  - repeat constructor.
Qed.

Lemma from_elf_loads_witness :
  let ss := program_segments DemoElfFile.file (elf_program_headers demo_elf) in
  ∃ ms ph', @from_elf DemoPlatform.demo _ DemoElfFile.file DemoPlatform.boot = Ret (ms, 0x6000, 0x1000, ph') ∧
    @child_state DemoPlatform.demo 0x80204 [@trampoline_entry DemoPlatform.demo] DemoPlatform.boot ms ph' ∧
    (∀ s va, s ∈ ss → in_segment s (va / PAGE_SIZE) →
       ∃ f, f ∈ ms_frames ms ∧
         @pt_view DemoPlatform.demo (mem ph') (page_table ms) (va / PAGE_SIZE) = Some (pte_new f (Z.lor (sg_perm s) PTE_V)) ∧
         mem ph' (f * PAGE_SIZE + va mod PAGE_SIZE) = nth (Z.to_nat (va - sg_start s * PAGE_SIZE)) (sg_data s) x00) ∧
    (∀ v, 0 ≤ v < 0x7ffffff → (∀ s, s ∈ ss → ¬ in_segment s v) →
       @pt_view DemoPlatform.demo (mem ph') (page_table ms) v = None).
Proof.
  apply (@from_elf_loads DemoPlatform.demo _ _ 0x80204 DemoElfFile.file demo_elf DemoPlatform.boot);
    [apply DemoPlatform.boot_inv|apply demo_elf_ok|by vm_compute].
Defined.
