(* ===== verification/PcbExt.v ===== *)
(** * Agent extension of the process control block

    [os/src/agent/pcb_ext.rs], [os/src/agent/error.rs] and the constants of
    [os/src/agent/context_area.rs]. *)

From S2P Require Import Prelude Address.

Inductive AgentType : Type := ATNormal | ATSystem.

Inductive LoopState : Type := LIdle | LThinking | LCalling | LObserving | LDone.

Record PathNodeMeta : Type := mkPathNodeMeta {
  offset_in_buffer : Z;
  node_len : Z;
  write_time : Z;
  node_seq : Z;
}.

Inductive EvictPolicy : Type := Fifo | Lru.

Record PathQuota : Type := mkPathQuota {
  max_nodes : Z;
  max_bytes : Z;
  policy : EvictPolicy;
}.

Record AgentExt : Type := mkAgentExt {
  agent_type : AgentType;
  heartbeat_interval_ms : Z;
  loop_state : LoopState;
  context_area_base : Z;
  context_area_size : Z;
  path_meta : list PathNodeMeta;
  path_quota : PathQuota;
  path_used_bytes : Z;
  next_seq : Z;
  heartbeat_last_ms : Z;
  heartbeat_pending : bool;
  file_event_pending : bool;
  watched_events : Z;
  mailbox : list (list byte);
  mailbox_capacity : Z;
}.

#[global] Instance LoopState_eq_dec : EqDecision LoopState.
Proof. solve_decision. Defined.
#[global] Instance EvictPolicy_eq_dec : EqDecision EvictPolicy.
Proof. solve_decision. Defined.

(** [AgentExt::new]. *)
Definition AgentExt_new (ty : AgentType) (base size maxn maxb : Z) : AgentExt := {|
  agent_type := ty;
  heartbeat_interval_ms := 0;
  loop_state := LIdle;
  context_area_base := base;
  context_area_size := size;
  path_meta := [];
  path_quota := {| max_nodes := maxn; max_bytes := maxb; policy := Lru |};
  path_used_bytes := 0;
  next_seq := 0;
  heartbeat_last_ms := 0;
  heartbeat_pending := false;
  file_event_pending := false;
  watched_events := 0;
  mailbox := [];
  mailbox_capacity := 32;
|}.

(** Field assignments [ext.field = value]. *)
Definition set_loop_state (s : LoopState) (e : AgentExt) : AgentExt :=
  mkAgentExt (agent_type e) (heartbeat_interval_ms e) s (context_area_base e) (context_area_size e)
    (path_meta e) (path_quota e) (path_used_bytes e) (next_seq e) (heartbeat_last_ms e)
    (heartbeat_pending e) (file_event_pending e) (watched_events e) (mailbox e) (mailbox_capacity e).

Definition set_path (ms : list PathNodeMeta) (used : Z) (e : AgentExt) : AgentExt :=
  mkAgentExt (agent_type e) (heartbeat_interval_ms e) (loop_state e) (context_area_base e)
    (context_area_size e) ms (path_quota e) used (next_seq e) (heartbeat_last_ms e)
    (heartbeat_pending e) (file_event_pending e) (watched_events e) (mailbox e) (mailbox_capacity e).

Definition set_next_seq (s : Z) (e : AgentExt) : AgentExt :=
  mkAgentExt (agent_type e) (heartbeat_interval_ms e) (loop_state e) (context_area_base e)
    (context_area_size e) (path_meta e) (path_quota e) (path_used_bytes e) s (heartbeat_last_ms e)
    (heartbeat_pending e) (file_event_pending e) (watched_events e) (mailbox e) (mailbox_capacity e).

Definition set_heartbeat (interval last : Z) (pending : bool) (e : AgentExt) : AgentExt :=
  mkAgentExt (agent_type e) interval (loop_state e) (context_area_base e) (context_area_size e)
    (path_meta e) (path_quota e) (path_used_bytes e) (next_seq e) last pending
    (file_event_pending e) (watched_events e) (mailbox e) (mailbox_capacity e).

Definition set_file_event (pending : bool) (e : AgentExt) : AgentExt :=
  mkAgentExt (agent_type e) (heartbeat_interval_ms e) (loop_state e) (context_area_base e)
    (context_area_size e) (path_meta e) (path_quota e) (path_used_bytes e) (next_seq e)
    (heartbeat_last_ms e) (heartbeat_pending e) pending (watched_events e) (mailbox e)
    (mailbox_capacity e).

Definition set_watched (mask : Z) (e : AgentExt) : AgentExt :=
  mkAgentExt (agent_type e) (heartbeat_interval_ms e) (loop_state e) (context_area_base e)
    (context_area_size e) (path_meta e) (path_quota e) (path_used_bytes e) (next_seq e)
    (heartbeat_last_ms e) (heartbeat_pending e) (file_event_pending e) mask (mailbox e)
    (mailbox_capacity e).

Definition set_mailbox (mb : list (list byte)) (e : AgentExt) : AgentExt :=
  mkAgentExt (agent_type e) (heartbeat_interval_ms e) (loop_state e) (context_area_base e)
    (context_area_size e) (path_meta e) (path_quota e) (path_used_bytes e) (next_seq e)
    (heartbeat_last_ms e) (heartbeat_pending e) (file_event_pending e) (watched_events e) mb
    (mailbox_capacity e).

(** ** Errors *)
Inductive AgentError : Type :=
  | BadUserPointer | BufferTooSmall | ProtocolMalformed | NotAnAgent
  | QuotaExceeded | NotFound | PermissionDenied | InternalError.

Abbreviation AgentResult T := (AgentError + T)%type.

Definition into_isize (e : AgentError) : Z :=
  match e with
  | BadUserPointer => -1
  | BufferTooSmall => -2
  | ProtocolMalformed => -3
  | NotAnAgent => -4
  | QuotaExceeded => -5
  | NotFound => -6
  | PermissionDenied => -7
  | InternalError => -8
  end.

(** ** Context area layout *)
Definition CONTEXT_AREA_BASE : Z := 0x80000000.
Definition CONTEXT_AREA_DEFAULT_SIZE : Z := 64 * 1024.
Definition HEADER_OFF : Z := 0x0000.
Definition HEADER_LEN : Z := 0x0100.
Definition TOOL_RESULT_OFF : Z := 0x0100.
Definition TOOL_RESULT_LEN : Z := 0x4000.
Definition PATH_BUFFER_OFF : Z := 0x4100.
Definition PATH_BUFFER_LEN : Z := 0x8000.
Definition HISTORY_OFF : Z := 0xC100.
Definition HISTORY_LEN : Z := 0x2000.
Definition HEADER_MAGIC : Z := 0xA9E45EC0.
Definition HEADER_VERSION : Z := 1.
