(* ===== verification/UserCopy.v ===== *)
(** * Copies between the kernel and a user address space

    [translated_byte_buffer] and [translated_str] ([os/src/mm/page_table.rs])
    and [read_user_bytes] / [write_user_bytes]
    ([os/src/agent/context_area.rs]).  The code above this layer is written
    against the class [UserMem], whose laws [UserLaws] present the user memory
    of a token as a function from virtual addresses to bytes; the instance for
    physical memory discharges them from the page tables. *)

From S2P Require Import Prelude Address PhysMem FrameAlloc PageTable.

(** ** Operations *)
Section Copy.
Context {PF : Platform}.

(** A [&'static mut [u8]] inside a page: page number and the two bounds. *)
Abbreviation Chunk := (Z * Z * Z)%type.

(** The [while start < end] loop of [translated_byte_buffer]. *)
Fixpoint tbb_loop (fuel : nat) (pt : PageTable) (m : Mem) (start fin : Z) : outcome (list Chunk) :=
  if start <? fin then
    match fuel with
    | O => NoFuel
    | S fuel =>
        let start_va := VirtAddr_from start in
        let vpn := va_floor start_va in
        r ← translate vpn pt m;
        pte ← unwrap r;
        let ppn := pte_ppn pte in
        let vpn := step vpn in
        let end_va := Z.min (VirtAddr_of_VirtPageNum vpn) (VirtAddr_from fin) in
        let hi := if page_offset end_va =? 0 then PAGE_SIZE else page_offset end_va in
        _ ← rassert (page_offset start_va <=? hi);
        rest ← tbb_loop fuel pt m (usize_from_VirtAddr end_va) fin;
        Ret ((ppn, page_offset start_va, hi) :: rest)
    end
  else Ret [].

(** A range of [len] bytes meets at most [len / PAGE_SIZE + 2] pages. *)
Definition translated_byte_buffer (token ptr len : Z) (m : Mem) : outcome (list Chunk) :=
  tbb_loop (Z.to_nat (len / PAGE_SIZE) + 2) (from_token token) m ptr (usize (ptr + len)).

(** The copy loops; [pos] is [written] / [read]. *)
Fixpoint write_chunks (cs : list Chunk) (data : list byte) (pos : nat) (m : Mem) : outcome Mem :=
  match cs with
  | [] => Ret m
  | (ppn, a, b) :: cs =>
      let n := Nat.min (Z.to_nat (b - a)) (length data - pos) in
      m ← set_bytes m ppn a (slice pos n data);
      let pos := (pos + n)%nat in
      if (length data <=? pos)%nat then Ret m else write_chunks cs data pos m
  end.

Definition write_user_bytes (token user_va : Z) (data : list byte) (m : Mem) : outcome Mem :=
  cs ← translated_byte_buffer token user_va (Z.of_nat (length data)) m;
  write_chunks cs data 0 m.

Fixpoint read_chunks (cs : list Chunk) (buf : list byte) (pos : nat) (m : Mem)
    : outcome (list byte) :=
  match cs with
  | [] => Ret buf
  | (ppn, a, b) :: cs =>
      let n := Nat.min (Z.to_nat (b - a)) (length buf - pos) in
      bs ← get_bytes m ppn a n;
      let buf := splice pos bs buf in
      let pos := (pos + n)%nat in
      if (length buf <=? pos)%nat then Ret buf else read_chunks cs buf pos m
  end.

Definition read_user_bytes (token user_va : Z) (buf : list byte) (m : Mem) : outcome (list byte) :=
  cs ← translated_byte_buffer token user_va (Z.of_nat (length buf)) m;
  read_chunks cs buf 0 m.

(** [translated_str]: the characters up to the first zero byte; [fuel] bounds
    the characters read. *)
Fixpoint translated_str_loop (fuel : nat) (pt : PageTable) (va : Z) (m : Mem) : outcome (list byte) :=
  match fuel with
  | O => NoFuel
  | S fuel =>
      r ← translate_va (VirtAddr_from va) pt m;
      pa ← unwrap r;
      chs ← get_bytes m (va_floor pa) (page_offset pa) 1;
      match chs with
      | ch :: _ =>
          if decide (ch = x00) then Ret []
          else rest ← translated_str_loop fuel pt (usize (va + 1)) m; Ret (ch :: rest)
      | [] => Panic
      end
  end.

Definition translated_str (fuel : nat) (token ptr : Z) (m : Mem) : outcome (list byte) :=
  translated_str_loop fuel (from_token token) ptr m.
End Copy.

(** ** The interface *)
Class UserMem (M : Type) : Type := {
  uread : Z → Z → list byte → M → outcome (list byte);
  uwrite : Z → Z → list byte → M → outcome M;
}.

(** The memory behind [token], as its clients see it: [u_win] is the set of
    addresses they may use, [u_ok] the states in which it is mapped. *)
Class UserLaws (M : Type) `{!UserMem M} (token : Z) : Type := {
  u_win : Z → Prop;
  u_ok : M → Prop;
  content : M → Z → byte;
  uread_ok m va buf :
    u_ok m → 0 ≤ va → (∀ x, va ≤ x < va + Z.of_nat (length buf) → u_win x) →
    uread token va buf m = Ret (mem_read (content m) va (length buf));
  uwrite_ok m va data :
    u_ok m → 0 ≤ va → (∀ x, va ≤ x < va + Z.of_nat (length data) → u_win x) →
    ∃ m', uwrite token va data m = Ret m' ∧ u_ok m' ∧
      ∀ x, u_win x → content m' x = mem_write (content m) va data x;
}.

#[export] Instance mem_user_mem `{Platform} : UserMem Mem := {
  uread := read_user_bytes;
  uwrite := write_user_bytes;
}.

(** ** Implementation of the interface by page tables *)

(** Pages [v] with [W v] are mapped by [token], to distinct writable frames
    [frame v] whose contents do not influence the translation. *)
Record uspace `{Platform} (token : Z) (W : Z → Prop) (frame : Z → Z) (m : Mem) : Prop := {
  us_low v : W v → 0 ≤ v < 2 ^ 26;
  us_tr v : W v → ∃ pte, translate v (from_token token) m = Ret (Some pte) ∧ pte_ppn pte = frame v;
  us_writable v : W v → page_writable (frame v) = true;
  us_inj v v' : W v → W v' → frame v = frame v' → v = v';
  us_stable v m' : W v →
    (∀ x, (∀ u, W u → x / PAGE_SIZE ≠ frame u) → m' x = m x) →
    translate v (from_token token) m' = translate v (from_token token) m;
}.

(** The physical address of a user address. *)
Definition upa (frame : Z → Z) (va : Z) : Z :=
  frame (va / PAGE_SIZE) * PAGE_SIZE + va mod PAGE_SIZE.

Section Impl.
Context {PF : Platform} {PFL : PlatformLaws} (token : Z) (W : Z → Prop) (frame : Z → Z).

Definition in_W (va n : Z) : Prop := ∀ x, va ≤ x < va + n → W (x / PAGE_SIZE).

(** The chunks of a mapped range: each but the last ends with its page. *)
Inductive covers : list (Z * Z * Z) → Z → Z → Prop :=
  | cov_nil s : covers [] s s
  | cov_cons a b cs s e :
      a = s mod PAGE_SIZE → a < b ≤ PAGE_SIZE → s + (b - a) ≤ e → b = PAGE_SIZE ∨ s + (b - a) = e → W (s / PAGE_SIZE) →
      covers cs (s + (b - a)) e →
      covers ((frame (s / PAGE_SIZE), a, b) :: cs) s e.

Lemma page_split s : s = s / PAGE_SIZE * PAGE_SIZE + s mod PAGE_SIZE ∧ 0 ≤ s mod PAGE_SIZE < PAGE_SIZE.
Proof.
  pose proof (Z.div_mod s PAGE_SIZE ltac:(done)). pose proof (Z.mod_pos_bound s PAGE_SIZE ltac:(done)). lia.
Qed.

Lemma page_of s v o : s = v * PAGE_SIZE + o → 0 ≤ o < PAGE_SIZE → s / PAGE_SIZE = v ∧ s mod PAGE_SIZE = o.
Proof.
  intros -> Ho. split; symmetry; [apply Z.div_unique with o|apply Z.mod_unique with v]; lia.
Qed.

Lemma tbb_loop_covers fuel m s e :
  uspace token W frame m → 0 ≤ s ≤ e → in_W s (e - s) →
  e - s / PAGE_SIZE * PAGE_SIZE ≤ Z.of_nat fuel * PAGE_SIZE →
  ∃ cs, tbb_loop fuel (from_token token) m s e = Ret cs ∧ covers cs s e.
Proof.
  intros Hus. revert s. induction fuel as [|fuel IH]; intros s Hse HW Hf.
  all: cbn [tbb_loop]; destruct (Z.ltb_spec s e) as [Hlt|Hge];
    [|exists []; split; [done|]; assert (s = e) as -> by lia; constructor].
  - pose proof (page_split s). lia.
  - pose proof (page_split s) as [Hs Hmod].
    assert (HWs : W (s / PAGE_SIZE)) by (apply HW; lia).
    assert (HWe : W ((e - 1) / PAGE_SIZE)) by (apply HW; lia).
    pose proof (us_low _ _ _ _ Hus _ HWs) as Hlow. pose proof (us_low _ _ _ _ Hus _ HWe) as Hlowe.
    pose proof (page_split (e - 1)) as [He Hmode].
    destruct (us_tr _ _ _ _ Hus _ HWs) as (pte & Htr & Hppn).
    assert (Hs39 : VirtAddr_from s = s) by (apply VirtAddr_from_small; unfold PAGE_SIZE in *; lia).
    assert (He39 : VirtAddr_from e = e) by (apply VirtAddr_from_small; unfold PAGE_SIZE in *; lia).
    unfold va_floor. rewrite Hs39, Htr. cbn [mbind outcome_bind unwrap]. rewrite Hppn, He39.
    unfold step, VirtAddr_of_VirtPageNum. rewrite (wrap_small 64 (_ + 1)) by lia.
    rewrite Z.shiftl_mul_pow2 by done. change (2 ^ PAGE_SIZE_BITS) with PAGE_SIZE.
    rewrite wrap_small by (unfold PAGE_SIZE in *; lia).
    set (t := Z.min ((s / PAGE_SIZE + 1) * PAGE_SIZE) e).
    assert (Hst : s < t ≤ e ∧ t - s / PAGE_SIZE * PAGE_SIZE ≤ PAGE_SIZE) by (unfold t, PAGE_SIZE in *; lia).
    assert (Hhi : (if page_offset t =? 0 then PAGE_SIZE else page_offset t) = t - s / PAGE_SIZE * PAGE_SIZE).
    { rewrite page_offset_mod.
      destruct (Z.eq_dec t ((s / PAGE_SIZE + 1) * PAGE_SIZE)) as [Ht|Ht].
      - rewrite Ht, Z.mod_mul by done. simpl. lia.
      - destruct (page_of t (s / PAGE_SIZE) (t - s / PAGE_SIZE * PAGE_SIZE)) as [_ ->]; [lia|lia|].
        destruct (Z.eqb_spec (t - s / PAGE_SIZE * PAGE_SIZE) 0); lia. }
    rewrite Hhi, page_offset_mod.
    rewrite (proj2 (Z.leb_le (s mod PAGE_SIZE) _)) by lia. cbn [rassert mbind outcome_bind].
    assert (Hnext : ∃ cs, tbb_loop fuel (from_token token) m (usize_from_VirtAddr t) e = Ret cs ∧ covers cs t e).
    { destruct (Z.lt_ge_cases t (2 ^ 38)) as [Hlt38|Hge38].
      - rewrite usize_from_VirtAddr_low by done.
        destruct (Z.eq_dec t e) as [->|Hte].
        + exists []. split; [|constructor]. destruct fuel; simpl; by rewrite Z.ltb_irrefl.
        + assert (Ht : t = (s / PAGE_SIZE + 1) * PAGE_SIZE) by (unfold t in *; lia).
          apply IH; [lia|intros x Hx; apply HW; lia|].
          rewrite Ht, Z.div_mul by done. lia.
      - assert (t = e) as Hte by (unfold PAGE_SIZE in *; lia).
        assert (t = 2 ^ 38) as -> by (unfold PAGE_SIZE in *; lia). rewrite <-Hte.
        exists []. split; [|constructor].
        destruct fuel; simpl; change (usize_from_VirtAddr 274877906944) with (2 ^ 64 - 2 ^ 38); done. }
    destruct Hnext as (cs & -> & Hcov). eexists. split; [done|].
    constructor; try done; [lia|lia|lia|].
    by replace (s + (t - s / PAGE_SIZE * PAGE_SIZE - s mod PAGE_SIZE)) with t by lia.
Qed.

Lemma translated_byte_buffer_covers m va n :
  uspace token W frame m → 0 ≤ va → 0 ≤ n → in_W va n → n = 0 ∨ va + n ≤ 2 ^ 38 →
  ∃ cs, translated_byte_buffer token va n m = Ret cs ∧ covers cs va (va + n).
Proof.
  intros Hus Hva Hn HW Hb. unfold translated_byte_buffer.
  destruct Hb as [->|Hb].
  - exists []. rewrite Z.add_0_r. split; [|constructor]. simpl.
    assert (wrap 64 va ≤ va) by (apply Z.mod_le; lia).
    rewrite (proj2 (Z.ltb_ge _ _)) by lia. done.
  - rewrite wrap_small by lia. apply tbb_loop_covers; [done|lia|by rewrite Z.add_simpl_l|].
    pose proof (page_split va). pose proof (page_split n). unfold PAGE_SIZE in *.
    assert (0 ≤ n / 4096) by (apply Z.div_pos; lia). lia.
Qed.

Lemma in_W_bound m va n : uspace token W frame m → 0 < n → in_W va n → 0 ≤ va ∧ va + n ≤ 2 ^ 38.
Proof.
  intros Hus Hn HW. pose proof (page_split va). pose proof (page_split (va + n - 1)).
  pose proof (us_low _ _ _ _ Hus _ (HW va ltac:(lia))).
  pose proof (us_low _ _ _ _ Hus _ (HW (va + n - 1) ltac:(lia))). unfold PAGE_SIZE in *. lia.
Qed.

Lemma upa_page s x :
  0 ≤ x - s / PAGE_SIZE * PAGE_SIZE < PAGE_SIZE →
  upa frame x = frame (s / PAGE_SIZE) * PAGE_SIZE + (x - s / PAGE_SIZE * PAGE_SIZE).
Proof.
  intros Hx. unfold upa.
  destruct (page_of x (s / PAGE_SIZE) (x - s / PAGE_SIZE * PAGE_SIZE)) as [-> ->]; lia.
Qed.

(** Reading a covered range. *)
Lemma read_chunks_covers m cs s e buf pos :
  uspace token W frame m → covers cs s e → (pos ≤ length buf)%nat →
  e - s = Z.of_nat (length buf - pos) →
  read_chunks cs buf pos m =
    Ret (splice pos (mem_read (λ va, m (upa frame va)) s (length buf - pos)) buf).
Proof.
  intros Hus Hcov. revert buf pos.
  induction Hcov as [s|a b cs s e Ha Hab Hle Hmx HWs Hcov IH]; intros buf pos Hpos Hlen; cbn [read_chunks].
  - assert (pos = length buf) as -> by lia. rewrite Nat.sub_diag. unfold splice. simpl.
    rewrite Nat.add_0_r, firstn_all, drop_all. by rewrite app_nil_r.
  - replace (Nat.min (Z.to_nat (b - a)) (length buf - pos)) with (Z.to_nat (b - a)) by lia.
    set (n := Z.to_nat (b - a)) in *. assert (Hn : Z.of_nat n = b - a) by lia.
    destruct (page_writable_spec _ (us_writable _ _ _ _ Hus _ HWs)) as (Hr & _ & Hpa).
    unfold get_bytes. rewrite Hr, Hpa. cbn [rassert mbind outcome_bind].
    pose proof (page_split s) as [Hs Hmod].
    assert (Hrd : mem_read m (frame (s / PAGE_SIZE) * PAGE_SIZE + a) n = mem_read (λ va, m (upa frame va)) s n).
    { apply list_eq_same_length with n; rewrite ?length_mem_read; [done|done|].
      intros i x y Hi. rewrite !lookup_mem_read by done. rewrite (upa_page s) by lia.
      replace (frame (s / PAGE_SIZE) * PAGE_SIZE + (s + Z.of_nat i - s / PAGE_SIZE * PAGE_SIZE))
        with (frame (s / PAGE_SIZE) * PAGE_SIZE + a + Z.of_nat i) by lia. congruence. }
    rewrite Hrd. set (r1 := mem_read _ s n). assert (Hr1 : length r1 = n) by apply length_mem_read.
    rewrite (length_splice pos r1 buf) by lia.
    assert (Hsplit : mem_read (λ va, m (upa frame va)) s (length buf - pos) =
      r1 ++ mem_read (λ va, m (upa frame va)) (s + (b - a)) (length buf - (pos + n))).
    { unfold r1, mem_read. rewrite <-fmap_app. f_equal. rewrite <-Hn.
      replace (Z.of_nat (length buf - pos)) with (Z.of_nat n + Z.of_nat (length buf - (pos + n))) by lia.
      apply seqZ_app; lia. }
    rewrite Hsplit. clear Hsplit Hrd. set (r2 := mem_read _ (s + (b - a)) _).
    assert (Hr2 : length r2 = (length buf - (pos + n))%nat) by apply length_mem_read.
    destruct (Nat.leb_spec (length buf) (pos + n)).
    + destruct r2; [by rewrite app_nil_r|simpl in Hr2; lia].
    + rewrite IH; rewrite ?(length_splice pos r1 buf) by lia; [|lia|lia]. fold r2.
      f_equal. rewrite <-Hr1. apply splice_app. lia.
Qed.

(** Stores into the frames of [W] keep the space. *)
Lemma uspace_ext m m' :
  uspace token W frame m → (∀ x, (∀ u, W u → x / PAGE_SIZE ≠ frame u) → m' x = m x) →
  uspace token W frame m'.
Proof.
  intros [Hlow Htr Hw Hinj Hst] Hm. split; try done.
  - intros v Hv. rewrite (Hst v m' Hv Hm). by apply Htr.
  - intros v m'' Hv Hm''. rewrite (Hst v m' Hv Hm). apply (Hst v m'' Hv).
    intros x Hx. by rewrite Hm'', Hm.
Qed.

(** A store inside one page of [W] is a store at the virtual address. *)
Lemma page_write_in m s d :
  uspace token W frame m → W (s / PAGE_SIZE) → s mod PAGE_SIZE + Z.of_nat (length d) ≤ PAGE_SIZE →
  ∀ x, W (x / PAGE_SIZE) →
    mem_write m (frame (s / PAGE_SIZE) * PAGE_SIZE + s mod PAGE_SIZE) d (upa frame x) =
    mem_write (λ va, m (upa frame va)) s d x.
Proof.
  intros Hus HWs Hd x HWx. pose proof (page_split s) as [Hs Hmod]. pose proof (page_split x) as [Hx Hmodx]. unfold mem_write.
  destruct (Z.eq_dec (x / PAGE_SIZE) (s / PAGE_SIZE)) as [Hv|Hv].
  - assert (Hd' : upa frame x - (frame (s / PAGE_SIZE) * PAGE_SIZE + s mod PAGE_SIZE) = x - s) by (unfold upa; rewrite Hv; nia).
    rewrite Hd'. replace (frame (s / PAGE_SIZE) * PAGE_SIZE + s mod PAGE_SIZE) with (upa frame x - (x - s)) by lia.
    destruct (Z.leb_spec s x), (Z.leb_spec (upa frame x - (x - s)) (upa frame x)); try lia; simpl; [|done].
    destruct (Z.ltb_spec x (s + Z.of_nat (length d))),
      (Z.ltb_spec (upa frame x) (upa frame x - (x - s) + Z.of_nat (length d))); try lia; done.
  - assert (Hf : frame (x / PAGE_SIZE) ≠ frame (s / PAGE_SIZE)) by (intros Hf; by apply Hv, (us_inj _ _ _ _ Hus)).
    assert (Hout : ¬ (s ≤ x < s + Z.of_nat (length d))) by nia.
    assert (Hout' : ¬ (frame (s / PAGE_SIZE) * PAGE_SIZE + s mod PAGE_SIZE ≤ upa frame x <
      frame (s / PAGE_SIZE) * PAGE_SIZE + s mod PAGE_SIZE + Z.of_nat (length d))) by (unfold upa; nia).
    destruct (Z.leb_spec s x), (Z.ltb_spec x (s + Z.of_nat (length d))),
      (Z.leb_spec (frame (s / PAGE_SIZE) * PAGE_SIZE + s mod PAGE_SIZE) (upa frame x)),
      (Z.ltb_spec (upa frame x) (frame (s / PAGE_SIZE) * PAGE_SIZE + s mod PAGE_SIZE + Z.of_nat (length d)));
      simpl; try done; tauto.
Qed.

Lemma page_write_out m s d y :
  s mod PAGE_SIZE + Z.of_nat (length d) ≤ PAGE_SIZE →
  (∀ x, s ≤ x < s + Z.of_nat (length d) → y ≠ upa frame x) →
  mem_write m (frame (s / PAGE_SIZE) * PAGE_SIZE + s mod PAGE_SIZE) d y = m y.
Proof.
  intros Hd Hy. pose proof (page_split s) as [Hs Hmod]. apply mem_write_out. intros Hr.
  apply (Hy (y - frame (s / PAGE_SIZE) * PAGE_SIZE + s / PAGE_SIZE * PAGE_SIZE)); [lia|].
  rewrite (upa_page s) by lia. lia.
Qed.

Lemma page_write_uspace m s d :
  uspace token W frame m → W (s / PAGE_SIZE) → s mod PAGE_SIZE + Z.of_nat (length d) ≤ PAGE_SIZE →
  uspace token W frame (mem_write m (frame (s / PAGE_SIZE) * PAGE_SIZE + s mod PAGE_SIZE) d).
Proof.
  intros Hus HWs Hd. pose proof (page_split s) as [Hs Hmod]. apply (uspace_ext m _ Hus). intros y Hy.
  apply page_write_out; [done|]. intros x Hx ->. apply (Hy _ HWs). rewrite (upa_page s) by lia.
  symmetry. apply Z.div_unique with (x - s / PAGE_SIZE * PAGE_SIZE); lia.
Qed.

Lemma write_chunks_covers cs s e data pos m :
  uspace token W frame m → covers cs s e → (pos ≤ length data)%nat →
  e - s = Z.of_nat (length data - pos) →
  ∃ m', write_chunks cs data pos m = Ret m' ∧ uspace token W frame m' ∧
    (∀ x, W (x / PAGE_SIZE) →
      m' (upa frame x) = mem_write (λ va, m (upa frame va)) s (drop pos data) x) ∧
    (∀ y, (∀ x, s ≤ x < e → y ≠ upa frame x) → m' y = m y).
Proof.
  intros Hus Hcov. revert m pos Hus.
  induction Hcov as [s|a b cs s e Ha Hab Hle Hmx HWs Hcov IH]; intros m pos Hus Hpos Hlen; cbn [write_chunks].
  - exists m. split_and!; try done. intros x _. rewrite drop_ge by lia.
    by rewrite mem_write_out by (simpl; lia).
  - replace (Nat.min (Z.to_nat (b - a)) (length data - pos)) with (Z.to_nat (b - a)) by lia.
    set (n := Z.to_nat (b - a)) in *. assert (Hn : Z.of_nat n = b - a) by lia.
    assert (Hwr := us_writable _ _ _ _ Hus _ HWs). destruct (page_writable_spec _ Hwr) as (_ & _ & Hpa).
    unfold set_bytes. rewrite Hwr, Hpa. cbn [rassert mbind outcome_bind]. subst a.
    set (d1 := slice pos n data). assert (Hd1 : length d1 = n) by (apply length_slice; lia).
    assert (Hfit : s mod PAGE_SIZE + Z.of_nat (length d1) ≤ PAGE_SIZE) by lia.
    pose proof (page_write_in m s d1 Hus HWs Hfit) as Hm1.
    pose proof (λ y, page_write_out m s d1 y Hfit) as Hm1'. pose proof (page_write_uspace m s d1 Hus HWs Hfit) as Hus1.
    set (m1 := mem_write m _ d1) in *.
    destruct (Nat.leb_spec (length data) (pos + n)) as [Hend|Hmore].
    + exists m1. split_and!; [done|done| |].
      * intros x HWx. rewrite Hm1 by done. f_equal. unfold d1, slice. apply take_ge. rewrite length_drop. lia.
      * intros y Hy. apply Hm1'. intros x Hx. apply Hy. lia.
    + destruct (IH m1 (pos + n)%nat Hus1) as (m2 & E2 & Hus2 & Hc2 & Ho2); [lia|lia|].
      exists m2. split_and!; [done|done| |].
      * intros x HWx. assert (drop pos data = d1 ++ drop (pos + n) data) as -> by (unfold d1, slice; by rewrite <-drop_drop, take_drop).
        rewrite <-mem_write_app, Hc2, Hd1, Hn by done. by apply mem_write_ext, Hm1.
      * intros y Hy. rewrite Ho2, Hm1'; [done|intros x Hx; apply Hy; lia..].
Qed.

(** The two copies on a mapped range. *)
Lemma read_user_bytes_ok m va buf :
  uspace token W frame m → 0 ≤ va → in_W va (Z.of_nat (length buf)) →
  read_user_bytes token va buf m = Ret (mem_read (λ x, m (upa frame x)) va (length buf)).
Proof.
  intros Hus Hva HW. unfold read_user_bytes.
  destruct (translated_byte_buffer_covers m va (Z.of_nat (length buf))) as (cs & E & Hcov);
    [done|done|lia|done| |].
  { destruct (length buf) as [|n] eqn:El; [by left|right].
    eapply (in_W_bound m va); [done|lia|done]. }
  rewrite E. cbn [mbind outcome_bind].
  rewrite (read_chunks_covers m cs va (va + Z.of_nat (length buf)) buf 0) by (done || lia).
  rewrite Nat.sub_0_r. f_equal. unfold splice. simpl.
  rewrite drop_ge by (rewrite length_mem_read; lia). by rewrite app_nil_r.
Qed.

Lemma write_user_bytes_ok m va data :
  uspace token W frame m → 0 ≤ va → in_W va (Z.of_nat (length data)) →
  ∃ m', write_user_bytes token va data m = Ret m' ∧ uspace token W frame m' ∧
    (∀ x, W (x / PAGE_SIZE) → m' (upa frame x) = mem_write (λ v, m (upa frame v)) va data x) ∧
    (∀ y, (∀ x, va ≤ x < va + Z.of_nat (length data) → y ≠ upa frame x) → m' y = m y).
Proof.
  intros Hus Hva HW. unfold write_user_bytes.
  destruct (translated_byte_buffer_covers m va (Z.of_nat (length data))) as (cs & E & Hcov);
    [done|done|lia|done| |].
  { destruct (length data) as [|n] eqn:El; [by left|right].
    eapply (in_W_bound m va); [done|lia|done]. }
  rewrite E. cbn [mbind outcome_bind].
  destruct (write_chunks_covers cs va (va + Z.of_nat (length data)) data 0 m) as (m' & ? & ? & ? & ?);
    [done|done|lia|lia|]. exists m'. by rewrite drop_0 in *.
Qed.

Lemma write_user_bytes_law m va data :
  uspace token W frame m → 0 ≤ va → in_W va (Z.of_nat (length data)) →
  ∃ m', write_user_bytes token va data m = Ret m' ∧ uspace token W frame m' ∧
    ∀ x, W (x / PAGE_SIZE) → m' (upa frame x) = mem_write (λ v, m (upa frame v)) va data x.
Proof. intros Hus Hva HW. destruct (write_user_bytes_ok m va data Hus Hva HW) as (m' & ? & ? & ? & _). eauto. Qed.

Lemma cons_eq_iff {A} (x y : A) l k : x :: l = y :: k ↔ x = y ∧ l = k.
Proof. naive_solver. Qed.

Lemma mem_read_S c a n : mem_read c a (S n) = c a :: mem_read c (a + 1) n.
Proof. unfold mem_read. rewrite seqZ_cons by lia. cbn [fmap list_fmap]. do 3 f_equal; lia. Qed.

(** A zero-terminated string of user memory. *)
Lemma translated_str_ok m bs fuel va :
  uspace token W frame m → 0 ≤ va → in_W va (Z.of_nat (length bs) + 1) →
  mem_read (λ x, m (upa frame x)) va (length bs + 1) = bs ++ [x00] → Forall (λ b, b ≠ x00) bs → (length bs < fuel)%nat →
  translated_str fuel token va m = Ret bs.
Proof.
  intros Hus. unfold translated_str. revert va fuel. induction bs as [|b bs IH]; intros va fuel Hva HW Hm Hbs Hf;
    (destruct fuel as [|fuel]; [simpl in Hf; lia|]); cbn [translated_str_loop length] in *.
  all: destruct (in_W_bound m va 1 Hus ltac:(lia)) as [_ Hva1]; [intros x Hx; apply HW; lia|].
  all: assert (Hwv : W (va / PAGE_SIZE)) by (apply HW; lia).
  all: assert (Hv39 : VirtAddr_from va = va) by (apply VirtAddr_from_small; lia); rewrite Hv39.
  all: destruct (us_tr _ _ _ _ Hus _ Hwv) as (pte & Htr & Hppn).
  all: rewrite (translate_va_of va _ _ pte Htr), Hppn; cbn [mbind outcome_bind unwrap].
  all: destruct (page_writable_spec _ (us_writable _ _ _ _ Hus _ Hwv)) as (Hr & _ & Hpa).
  all: pose proof (page_split va) as [Hsp Hmod].
  all: destruct (page_of (frame (va / PAGE_SIZE) * PAGE_SIZE + va mod PAGE_SIZE) (frame (va / PAGE_SIZE)) (va mod PAGE_SIZE) eq_refl Hmod) as [Hfl Hoff].
  all: unfold va_floor; rewrite Hfl, page_offset_mod, Hoff; unfold get_bytes; rewrite Hr, Hpa; cbn [rassert mbind outcome_bind].
  all: rewrite ?Nat.add_0_l, ?Nat.add_succ_l, mem_read_S in Hm; rewrite mem_read_S; apply cons_eq_iff in Hm as [Hb Hm']; cbn [fmap list_fmap];
    fold (upa frame va); rewrite Hb.
  - by rewrite decide_True.
  - apply Forall_cons in Hbs as [Hb0 Hbs]. rewrite decide_False by done. rewrite (wrap_small 64) by lia.
    rewrite IH; [done|lia|intros x Hx; apply HW; lia| |done|lia].
    exact Hm'.
Qed.

(** One iteration whose end address wrapped around below [fin]: the loop
    cannot get past [top]. *)
Lemma tbb_loop_stuck fuel m s lo top fin :
  uspace token W frame m → VirtAddr_from fin = top → top < 2 ^ 38 → top < fin →
  (∀ x, lo ≤ x ≤ top → W (x / PAGE_SIZE)) → lo ≤ VirtAddr_from s ≤ top → s < fin →
  tbb_loop fuel (from_token token) m s fin = NoFuel.
Proof.
  intros Hus Hfin Htop Hlt HW. revert s. induction fuel as [|fuel IH]; intros s Hs Hsf;
    cbn [tbb_loop]; rewrite (proj2 (Z.ltb_lt s fin)) by done; [done|].
  set (a := VirtAddr_from s) in *.
  assert (HWa : W (a / PAGE_SIZE)) by (apply HW; lia).
  pose proof (us_low _ _ _ _ Hus _ HWa) as Hlow. pose proof (page_split a) as [Ha Hmod].
  destruct (us_tr _ _ _ _ Hus _ HWa) as (pte & Htr & _).
  unfold va_floor. rewrite Htr. cbn [mbind outcome_bind unwrap]. rewrite Hfin.
  unfold step, VirtAddr_of_VirtPageNum. rewrite (wrap_small 64 (_ + 1)) by lia.
  rewrite Z.shiftl_mul_pow2 by done. change (2 ^ PAGE_SIZE_BITS) with PAGE_SIZE.
  rewrite wrap_small by (unfold PAGE_SIZE in *; lia).
  set (t := Z.min ((a / PAGE_SIZE + 1) * PAGE_SIZE) top).
  assert (Ht : a ≤ t ≤ top ∧ t - a / PAGE_SIZE * PAGE_SIZE ≤ PAGE_SIZE) by (unfold t, PAGE_SIZE in *; lia).
  destruct (rassert _) eqn:E; [| |by destruct (_ <=? _) in E].
  - cbn [mbind outcome_bind]. rewrite usize_from_VirtAddr_low by lia.
    rewrite IH; [done| |lia]. rewrite VirtAddr_from_small by (pose proof (page_split a); unfold PAGE_SIZE in *; lia). lia.
  - exfalso. destruct (Z.leb_spec (page_offset a)
      (if page_offset t =? 0 then PAGE_SIZE else page_offset t)) as [|Hgt]; [done|].
    rewrite !page_offset_mod in Hgt.
    destruct (Z.eqb_spec (t mod PAGE_SIZE) 0) as [|Hne]; [lia|].
    destruct (Z.eq_dec t ((a / PAGE_SIZE + 1) * PAGE_SIZE)) as [He|He].
    + apply Hne. rewrite He. by apply Z.mod_mul.
    + destruct (page_of t (a / PAGE_SIZE) (t - a / PAGE_SIZE * PAGE_SIZE)) as [_ Hm]; [lia|lia|]. lia.
Qed.
End Impl.

(** The laws of [UserMem], discharged by the page tables. *)
#[export] Instance mem_user_laws `{PF : Platform} {PFL : PlatformLaws} token W frame : UserLaws Mem token := {
  u_win x := W (x / PAGE_SIZE);
  u_ok := uspace token W frame;
  content m va := m (upa frame va);
  uread_ok := read_user_bytes_ok token W frame;
  uwrite_ok := write_user_bytes_law token W frame;
}.

(** A user space as the page tables provide it: mapped low pages, on distinct
    frames that are not interior tables. *)
Lemma uspace_of_pt `{PlatformLaws} lo ph pt (W : Z → Prop) frame :
  phys_inv lo ph → pt_inv lo ph pt →
  (∀ v, W v → 0 ≤ v < 2 ^ 26 ∧ page_writable (frame v) = true ∧ frame v ∉ pt_frames pt ∧
     ∃ pte, pt_view (mem ph) pt v = Some pte ∧ pte_ppn pte = frame v) →
  (∀ v v', W v → W v' → frame v = frame v' → v = v') →
  uspace (token pt) W frame (mem ph).
Proof.
  intros Hph Hpt HW Hinj. pose proof (pt_root_range lo ph pt Hph Hpt) as Hroot.
  split; try done.
  - intros v Hv. by destruct (HW v Hv).
  - intros v Hv. destruct (HW v Hv) as (Hr & _ & _ & pte & Hview & Hp). exists pte. split; [|done].
    rewrite translate_token by done. by apply (translate_view lo ph pt); [| |lia|].
  - intros v Hv. by destruct (HW v Hv) as (_ & ? & _).
  - intros v m' Hv Hm. rewrite !translate_token by done. destruct (HW v Hv) as (Hr & _).
    destruct Hpt as [T Hwf]. set (ph' := mkPhys m' (falloc ph)).
    assert (Hsame : ∀ q, q ∈ pt_frames pt → same_page (mem ph) (mem ph') q ∧ p_owned lo ph' q).
    { intros q Hq. split; [|by apply (wf_owned _ _ _ _ Hwf)]. intros x Hx. apply Hm. intros u Hu Hx'.
      destruct (HW u Hu) as (_ & _ & Hnin & _). apply Hnin. rewrite <-Hx'.
      destruct (page_of x q (x - q * PAGE_SIZE)) as [-> _]; [lia|unfold PAGE_SIZE in *; lia|done]. }
    pose proof (pt_wf_frame lo ph ph' pt T Hwf Hsame) as Hwf'.
    change m' with (mem ph'). rewrite (translate_wf lo ph' pt T) by (done || lia).
    rewrite (translate_wf lo ph pt T) by (done || lia).
    f_equal. destruct (leaf_table T v) as [tp|] eqn:E; simpl; [|done]. f_equal.
    apply pte_at_ext; [apply leaf_index_range; lia|].
    intros x Hx. destruct (Hsame tp) as [Hs _]; [|by apply (Hs x)].
    apply (wf_frames _ _ _ _ Hwf). unfold leaf_table in E. destruct (indexes v) as [[i0 i1] i2]. eauto.
Qed.

(** A concrete space of the demo platform: two low pages and the sixteen
    pages at [0x80000000]. *)
Definition demo_pages : list Z := [5; 6] ++ seqZ 0x80000 16.
Definition demo_frame (v : Z) : Z := if v <? 0x80000 then 0x802fb + v else 0x310 + v.
Definition demo_W (v : Z) : Prop := 5 ≤ v ≤ 6 ∨ 0x80000 ≤ v < 0x80010.
Definition demo_maps : list pt_op := (λ v, OpMap v (demo_frame v) 0x16) <$> demo_pages.

Definition demo_run : outcome (PageTable * Phys) :=
  st ← @pt_new DemoPlatform.demo DemoPlatform.boot; @pt_run DemoPlatform.demo demo_maps st.

Lemma demo_W_pages v : demo_W v ↔ v ∈ demo_pages.
Proof.
  unfold demo_W, demo_pages. rewrite elem_of_app, elem_of_seqZ, !elem_of_cons.
  split; [lia|]. intros [[->|[->|[]%elem_of_nil]]|]; lia.
Qed.

Lemma demo_spec_run :
  match spec_run demo_maps ∅ with
  | Some M => forallb (λ v, bool_decide ((pte_ppn <$> M !! v) = Some (demo_frame v))) demo_pages
  | None => false
  end = true.
Proof. vm_compute. reflexivity. Qed.

Lemma demo_W_frame v : demo_W v → 0x80300 ≤ demo_frame v < 0x80400 ∧ 0 ≤ v < 2 ^ 26.
Proof. unfold demo_W, demo_frame. destruct (Z.ltb_spec v 0x80000); lia. Qed.

Lemma demo_space :
  ∃ pt ph, demo_run = Ret (pt, ph) ∧
    @uspace DemoPlatform.demo (token pt) demo_W demo_frame (mem ph).
Proof.
  destruct (@pt_new_total DemoPlatform.demo _ 0x80204 DemoPlatform.boot DemoPlatform.boot_inv)
    as (pt0 & ph0 & E0 & Hph0 & Hpt0 & _ & _ & _ & _ & Hf & Hv); [by vm_compute|].
  pose proof (@pt_run_sim DemoPlatform.demo _ 0x80204 demo_maps ph0 pt0 ∅ Hph0 Hpt0) as Hs.
  pose proof demo_spec_run as Hfr.
  destruct (spec_run demo_maps ∅) as [Mp|]; [|discriminate Hfr].
  rewrite forallb_forall in Hfr.
  destruct Hs as (pt & ph & E & Hph & Hpt & Hrep & _).
  - intros v Hr. rewrite Hv by lia. done.
  - apply Forall_fmap, Forall_forall. intros v Hv'. cbn [compose pt_op_ok].
    pose proof (demo_W_frame v (proj2 (demo_W_pages v) Hv')). lia.
  - rewrite Hf. by vm_compute.
  - exists pt, ph. assert (Hrun : demo_run = Ret (pt, ph)) by (unfold demo_run; rewrite E0; exact E).
    split; [done|]. apply (@uspace_of_pt DemoPlatform.demo _ 0x80204); [exact Hph|exact Hpt| |].
    2:{ unfold demo_W, demo_frame. intros v v' Hv1 Hv2.
        destruct (Z.ltb_spec v 0x80000), (Z.ltb_spec v' 0x80000); lia. }
    assert (Hcur : (λ st, current (falloc st.2) <=? 0x80300) <$> demo_run = Ret true) by (vm_compute; reflexivity).
    rewrite Hrun in Hcur. cbn [fmap outcome_fmap snd] in Hcur. injection Hcur as Hcur%Z.leb_le.
    intros v Hr. pose proof (demo_W_frame v Hr) as [Hfv Hvr].
    split_and!; [lia|lia| | |].
    + unfold page_writable. change (@sdata DemoPlatform.demo) with 0x80202000. unfold PAGE_SIZE, MEMORY_END.
      rewrite andb_true_iff, !Z.leb_le. lia.
    + intros Hin. destruct Hpt as [T Hwf]. destruct (wf_owned _ _ _ _ Hwf _ Hin) as [Hb _]. lia.
    + rewrite Hrep by lia. apply demo_W_pages, list_elem_of_In, Hfr, bool_decide_eq_true_1 in Hr.
      destruct (Mp !! v) as [pte|]; [|discriminate Hr].
      exists pte. split; [reflexivity|]. by injection Hr.
Qed.

(** C18: copying to user memory and back. On a mapped user range
    [write_user_bytes] succeeds, [read_user_bytes] then returns the data
    whatever the page boundaries crossed, no other user byte changes, and the
    only physical bytes that change are those the range translates to. *)
Theorem user_copy_roundtrip `{PlatformLaws} token W frame m va data buf :
  uspace token W frame m → 0 ≤ va → in_W W va (Z.of_nat (length data)) →
  length buf = length data →
  ∃ m', write_user_bytes token va data m = Ret m' ∧ uspace token W frame m' ∧
    read_user_bytes token va buf m' = Ret data ∧
    (∀ x, W (x / PAGE_SIZE) → ¬ (va ≤ x < va + Z.of_nat (length data)) →
       m' (upa frame x) = m (upa frame x)) ∧
    (∀ y, (∀ x, va ≤ x < va + Z.of_nat (length data) → y ≠ upa frame x) → m' y = m y).
Proof.
  intros Hus Hva HW Hlen.
  destruct (write_user_bytes_ok token W frame m va data Hus Hva HW) as (m' & E & Hus' & Hc & Hm).
  exists m'. split_and!; try done.
  - rewrite (read_user_bytes_ok token W frame) by (done || by rewrite Hlen). f_equal. rewrite Hlen.
    rewrite <-(mem_read_write_same (λ v, m (upa frame v)) va data) at 2.
    apply mem_read_ext. intros x Hx. by apply Hc, HW.
  - intros x HWx Hout. by rewrite Hc, mem_write_out by done.
Qed.

(** C40: a non-canonical user pointer hangs the kernel. The loop of
    [translated_byte_buffer] truncates both ends to 39 bits but compares the
    truncated position with the untruncated end: for a pointer above [2^39]
    whose truncation is mapped, no amount of fuel lets it return (each turn
    pushes a slice, so the kernel heap is exhausted). *)
Theorem tbb_noncanonical_diverges `{PlatformLaws} token W frame m fuel k lo len :
  uspace token W frame m → 0 < k → 0 ≤ lo → 0 < len → lo + len < 2 ^ 38 →
  in_W W lo (len + 1) →
  tbb_loop fuel (from_token token) m (k * 2 ^ 39 + lo) (k * 2 ^ 39 + lo + len) = NoFuel.
Proof.
  intros Hus Hk Hlo Hlen Htop HW.
  assert (Hmod : ∀ x, 0 ≤ x < 2 ^ 39 → VirtAddr_from (k * 2 ^ 39 + x) = x).
  { intros x Hx. rewrite VirtAddr_from_mod, Z.add_comm, Z.mod_add by lia. by apply Z.mod_small. }
  apply (tbb_loop_stuck token W frame fuel m _ lo (lo + len)); [done| |lia|lia| | |lia].
  - rewrite <-Z.add_assoc. apply Hmod. lia.
  - intros x Hx. apply HW. lia.
  - rewrite Hmod by lia. lia.
Qed.

(** ** Witnesses *)
Lemma user_copy_roundtrip_witness :
  ∃ pt ph, demo_run = Ret (pt, ph) ∧
  ∃ m', @write_user_bytes DemoPlatform.demo (token pt) 0x5ffe [x01; x02; x03; x04] (mem ph) = Ret m' ∧
    @uspace DemoPlatform.demo (token pt) demo_W demo_frame m' ∧
    @read_user_bytes DemoPlatform.demo (token pt) 0x5ffe [x00; x00; x00; x00] m' = Ret [x01; x02; x03; x04] ∧
    (∀ x, demo_W (x / PAGE_SIZE) → ¬ (0x5ffe ≤ x < 0x5ffe + Z.of_nat 4) →
       m' (upa demo_frame x) = mem ph (upa demo_frame x)) ∧
    (∀ y, (∀ x, 0x5ffe ≤ x < 0x5ffe + Z.of_nat 4 → y ≠ upa demo_frame x) → m' y = mem ph y).
Proof.
  destruct demo_space as (pt & ph & E & Hus). exists pt, ph. split; [done|].
  apply (@user_copy_roundtrip DemoPlatform.demo _ (token pt) demo_W demo_frame);
    [done|lia| |done].
  intros x Hx. simpl in Hx. left. split; [apply Z.div_le_lower_bound|apply Z.lt_succ_r, Z.div_lt_upper_bound];
    unfold PAGE_SIZE; lia.
Defined.

Lemma tbb_noncanonical_diverges_witness :
  ∃ pt ph, demo_run = Ret (pt, ph) ∧
  @tbb_loop DemoPlatform.demo 1000 (from_token (token pt)) (mem ph)
    (1 * 2 ^ 39 + 0x5ffe) (1 * 2 ^ 39 + 0x5ffe + 4) = NoFuel.
Proof.
  destruct demo_space as (pt & ph & E & Hus). exists pt, ph. split; [done|].
  apply (@tbb_noncanonical_diverges DemoPlatform.demo _ (token pt) demo_W demo_frame);
    [done|lia|lia|lia|lia|].
  intros x Hx. simpl in Hx. left. split; [apply Z.div_le_lower_bound|apply Z.lt_succ_r, Z.div_lt_upper_bound];
    unfold PAGE_SIZE; lia.
Defined.
