(* ===== verification/ContextPath.v ===== *)
(** * The context path of an agent ([os/src/agent/context_path.rs])

    The node metadata lives in the process control block, the node bytes in
    the agent's context area, reached through [UserMem].  [get_time] is the
    argument [now]. *)

From S2P Require Import Prelude Address PhysMem FrameAlloc PageTable UserCopy PcbExt.

Definition NODE_HEADER_SIZE : Z := 8 + 8 + 4 + 4.
Definition node_total_size (req_len resp_len : Z) : Z := usize (NODE_HEADER_SIZE + req_len + resp_len).

(** ** Operations *)
Section Path.
Context {M : Type} `{!UserMem M}.

Definition sync_header (ext : AgentExt) (token : Z) (m : M) : outcome M :=
  let used := path_used_bytes ext in
  let count := u32 (Z.of_nat (length (path_meta ext))) in
  let base := context_area_base ext in
  m ← uwrite token (usize (base + 36)) (to_le_bytes 4 used) m;
  uwrite token (usize (base + 40)) (to_le_bytes 4 count) m.

Definition write_node_at (token path_buffer_va offset seq ts : Z) (req resp : list byte) (m : M)
    : outcome M :=
  let header := to_le_bytes 8 seq ++ to_le_bytes 8 ts ++
    to_le_bytes 4 (u32 (Z.of_nat (length req))) ++ to_le_bytes 4 (u32 (Z.of_nat (length resp))) in
  let abs := usize (path_buffer_va + offset) in
  m ← uwrite token abs header m;
  m ← uwrite token (usize (abs + NODE_HEADER_SIZE)) req m;
  uwrite token (usize (abs + NODE_HEADER_SIZE + Z.of_nat (length req))) resp m.

Definition CHUNK : Z := 256.

(** The copy loop of [shift_path_buffer_left]; the buffer is overwritten by
    every read. *)
Fixpoint shift_loop (fuel : nat) (token path_buffer_va from len shift copied : Z) (m : M) : outcome M :=
  if copied <? len then
    match fuel with
    | O => NoFuel
    | S fuel =>
        let n := Z.min (u32 (len - copied)) CHUNK in
        buf ← uread token (usize (path_buffer_va + u32 (from + copied)))
                (replicate (Z.to_nat n) x00) m;
        m ← uwrite token (usize (path_buffer_va + u32 (u32 (from + copied) - shift))) buf m;
        shift_loop fuel token path_buffer_va from len shift (u32 (copied + n)) m
    end
  else Ret m.

Definition shift_path_buffer_left (token path_buffer_va from len shift : Z) (m : M) : outcome M :=
  if (len =? 0) || (shift =? 0) then Ret m
  else shift_loop (Z.to_nat (len / CHUNK) + 1) token path_buffer_va from len shift 0 m.

(** [min_by_key]: the first of the smallest keys. *)
Fixpoint min_by_key (best : nat * Z) (i : nat) (l : list PathNodeMeta) : nat :=
  match l with
  | [] => best.1
  | n :: l => min_by_key (if write_time n <? best.2 then (i, write_time n) else best) (S i) l
  end.

Definition pick_victim (ext : AgentExt) : option nat :=
  match path_meta ext with
  | [] => None
  | n :: l =>
      match policy (path_quota ext) with
      | Fifo => Some O
      | Lru => Some (min_by_key (O, write_time n) 1 l)
      end
  end.

Definition evict_one (ext : AgentExt) (token : Z) (m : M) : outcome (AgentResult unit * AgentExt * M) :=
  match pick_victim ext with
  | None => Ret (inl NotFound, ext, m)
  | Some victim_idx =>
      victim ← unwrap (path_meta ext !! victim_idx);
      let path_buffer_va := usize (context_area_base ext + PATH_BUFFER_OFF) in
      let move_from := u32 (offset_in_buffer victim + node_len victim) in
      let move_len := sat_sub (path_used_bytes ext) move_from in
      m ← shift_path_buffer_left token path_buffer_va move_from move_len (node_len victim) m;
      let metas := (λ n,
        if move_from <=? offset_in_buffer n
        then mkPathNodeMeta (u32 (offset_in_buffer n - node_len victim)) (node_len n) (write_time n) (node_seq n)
        else n) <$> vec_remove victim_idx (path_meta ext) in
      Ret (inr tt, set_path metas (sat_sub (path_used_bytes ext) (node_len victim)) ext, m)
  end.

(** The eviction loop of [push_node]. *)
Definition needs_evict (size : Z) (ext : AgentExt) : bool :=
  (max_bytes (path_quota ext) <? u32 (path_used_bytes ext + size)) ||
  (max_nodes (path_quota ext) <=? u32 (Z.of_nat (length (path_meta ext)))).

Fixpoint evict_loop (fuel : nat) (size : Z) (ext : AgentExt) (token : Z) (m : M)
    : outcome (AgentResult unit * AgentExt * M) :=
  if needs_evict size ext then
    match path_meta ext with
    | [] => Ret (inl InternalError, ext, m)
    | _ :: _ =>
        match fuel with
        | O => NoFuel
        | S fuel =>
            '(r, ext, m) ← evict_one ext token m;
            match r with
            | inl e => Ret (inl e, ext, m)
            | inr _ => evict_loop fuel size ext token m
            end
        end
    end
  else Ret (inr tt, ext, m).

Definition push_node (now : Z) (ext : AgentExt) (token : Z) (req resp : list byte) (m : M)
    : outcome (AgentResult Z * AgentExt * M) :=
  let size := u32 (node_total_size (Z.of_nat (length req)) (Z.of_nat (length resp))) in
  if PATH_BUFFER_LEN <? size then Ret (inl QuotaExceeded, ext, m) else
  if max_bytes (path_quota ext) <? size then Ret (inl QuotaExceeded, ext, m) else
  '(r, ext, m) ← evict_loop (length (path_meta ext)) size ext token m;
  match r with
  | inl e => Ret (inl e, ext, m)
  | inr _ =>
      let offset := path_used_bytes ext in
      let seq := next_seq ext in
      let path_buffer_va := usize (context_area_base ext + PATH_BUFFER_OFF) in
      m ← write_node_at token path_buffer_va offset seq now req resp m;
      let meta := mkPathNodeMeta offset size now seq in
      let ext := set_path (path_meta ext ++ [meta]) (u32 (path_used_bytes ext + size)) ext in
      let ext := set_next_seq (u64 (next_seq ext + 1)) ext in
      m ← sync_header ext token m;
      Ret (inr (usize (Z.of_nat (length (path_meta ext)) - 1)), ext, m)
  end.

Definition rollback (ext : AgentExt) (token node_count : Z) (m : M)
    : outcome (AgentResult unit * AgentExt * M) :=
  if Z.of_nat (length (path_meta ext)) <? node_count then Ret (inl NotFound, ext, m) else
  ext ← (if node_count =? 0 then Ret (set_path [] 0 ext)
         else
           last ← unwrap (path_meta ext !! Z.to_nat (node_count - 1));
           Ret (set_path (take (Z.to_nat node_count) (path_meta ext))
                  (u32 (offset_in_buffer last + node_len last)) ext));
  m ← sync_header ext token m;
  Ret (inr tt, ext, m).

Definition clear (ext : AgentExt) (token : Z) (m : M) : outcome (AgentExt * M) :=
  let ext := set_path [] 0 ext in
  m ← sync_header ext token m;
  Ret (ext, m).
End Path.

(** [serialize_meta]: the tuples handed to [postcard::to_allocvec]. *)
Definition serialize_meta {E} (to_allocvec : list (Z * Z * Z * Z) → E + list byte) (ext : AgentExt)
    : AgentResult (list byte) :=
  match to_allocvec ((λ n, (offset_in_buffer n, node_len n, node_seq n, write_time n)) <$> path_meta ext) with
  | inl _ => inl InternalError
  | inr bs => inr bs
  end.

(** ** Specification: a path is a list of nodes *)
Record Node : Type := mkNode {
  n_seq : Z;
  n_ts : Z;
  n_req : list byte;
  n_resp : list byte;
}.

(** The binary layout of a node in the path buffer. *)
Definition node_bytes (n : Node) : list byte :=
  to_le_bytes 8 (n_seq n) ++ to_le_bytes 8 (n_ts n) ++
  to_le_bytes 4 (Z.of_nat (length (n_req n))) ++ to_le_bytes 4 (Z.of_nat (length (n_resp n))) ++
  n_req n ++ n_resp n.

Definition node_size (n : Node) : Z := Z.of_nat (length (node_bytes n)).
Definition path_bytes (l : list Node) : list byte := l ≫= node_bytes.
Definition path_size (l : list Node) : Z := Z.of_nat (length (path_bytes l)).

(** The metadata of a path laid out from [off]. *)
Fixpoint metas_of (off : Z) (l : list Node) : list PathNodeMeta :=
  match l with
  | [] => []
  | n :: l => mkPathNodeMeta off (node_size n) (n_ts n) (n_seq n) :: metas_of (off + node_size n) l
  end.

(** The victim of the abstract path: the oldest of the least recently written. *)
Fixpoint victim_of (best : nat * Z) (i : nat) (l : list Node) : nat :=
  match l with
  | [] => best.1
  | n :: l => victim_of (if n_ts n <? best.2 then (i, n_ts n) else best) (S i) l
  end.
Definition victim (p : EvictPolicy) (l : list Node) : nat :=
  match p, l with
  | Lru, n :: l => victim_of (O, n_ts n) 1 l
  | _, _ => O
  end.

Definition fits (q : PathQuota) (size : Z) (l : list Node) : bool :=
  (path_size l + size <=? max_bytes q) && (Z.of_nat (length l) <? max_nodes q).

(** Evict until a node of [size] bytes fits. *)
Fixpoint spec_evict (fuel : nat) (q : PathQuota) (size : Z) (l : list Node) : list Node :=
  match fuel with
  | O => l
  | S fuel => if fits q size l then l else spec_evict fuel q size (delete (victim (policy q) l) l)
  end.
Definition spec_push (q : PathQuota) (n : Node) (l : list Node) : list Node :=
  spec_evict (length l) q (node_size n) l ++ [n].

(** ** Lemmas on the specification *)
Lemma node_size_eq n :
  node_size n = NODE_HEADER_SIZE + Z.of_nat (length (n_req n)) + Z.of_nat (length (n_resp n)).
Proof.
  unfold node_size, node_bytes. rewrite !length_app, !length_to_le_bytes.
  unfold NODE_HEADER_SIZE. lia.
Qed.

Lemma path_size_cons n l : path_size (n :: l) = node_size n + path_size l.
Proof. unfold path_size, path_bytes, node_size. rewrite bind_cons, length_app. lia. Qed.

Lemma path_bytes_single n : path_bytes [n] = node_bytes n.
Proof. apply app_nil_r. Qed.

Lemma path_size_single n : path_size [n] = node_size n.
Proof. unfold path_size. by rewrite path_bytes_single. Qed.

Lemma path_bytes_app l1 l2 : path_bytes (l1 ++ l2) = path_bytes l1 ++ path_bytes l2.
Proof. unfold path_bytes. by rewrite bind_app. Qed.

Lemma path_size_app l1 l2 : path_size (l1 ++ l2) = path_size l1 + path_size l2.
Proof. unfold path_size. rewrite path_bytes_app, length_app. lia. Qed.

Lemma path_size_nonneg l : 0 ≤ path_size l.
Proof. unfold path_size. lia. Qed.

Lemma node_size_pos n : 24 ≤ node_size n.
Proof. rewrite node_size_eq. unfold NODE_HEADER_SIZE. lia. Qed.

Lemma metas_of_app off l1 l2 :
  metas_of off (l1 ++ l2) = metas_of off l1 ++ metas_of (off + path_size l1) l2.
Proof.
  revert off. induction l1 as [|n l1 IH]; intros off; simpl.
  - unfold path_size. simpl. f_equal. lia.
  - rewrite IH, path_size_cons. do 3 f_equal. lia.
Qed.

Lemma length_metas_of off l : length (metas_of off l) = length l.
Proof. revert off. induction l; intros; simpl; auto. Qed.

Lemma metas_of_bounds off l x :
  x ∈ metas_of off l → off ≤ offset_in_buffer x ∧ 0 < node_len x ∧ offset_in_buffer x + node_len x ≤ off + path_size l.
Proof.
  revert off. induction l as [|n l IH]; intros off; simpl; [set_solver|].
  rewrite path_size_cons, elem_of_cons. intros [->|Hx]; simpl.
  - pose proof (path_size_nonneg l). pose proof (node_size_pos n). lia.
  - apply IH in Hx. pose proof (node_size_pos n). lia.
Qed.

Lemma min_by_key_metas best i off l :
  min_by_key best i (metas_of off l) = victim_of best i l.
Proof. revert best i off. induction l as [|n l IH]; intros; simpl; [done|apply IH]. Qed.

Lemma victim_of_bound best i l : (best.1 < i)%nat → (victim_of best i l < i + length l)%nat.
Proof.
  revert best i. induction l as [|n l IH]; intros best i Hb; simpl; [lia|].
  specialize (IH (if n_ts n <? best.2 then (i, n_ts n) else best) (S i)).
  destruct (n_ts n <? best.2); simpl in *; lia.
Qed.

Lemma victim_bound p l : l ≠ [] → (victim p l < length l)%nat.
Proof.
  destruct l as [|n l]; [done|]. intros _. destruct p; simpl; [lia|].
  apply (victim_of_bound (O, n_ts n) 1 l). simpl. lia.
Qed.

(** Shifting the metadata of a suffix. *)
Lemma metas_of_shift off d l :
  0 ≤ off → off + d + path_size l < 2 ^ 32 → 0 ≤ d →
  (λ x, mkPathNodeMeta (u32 (offset_in_buffer x - d)) (node_len x) (write_time x) (node_seq x))
    <$> metas_of (off + d) l = metas_of off l.
Proof.
  revert off. induction l as [|n l IH]; intros off Ho Hs Hd; simpl; [done|].
  rewrite path_size_cons in Hs. pose proof (node_size_pos n). pose proof (path_size_nonneg l).
  rewrite wrap_small by lia. f_equal; [f_equal; lia|].
  replace (off + d + node_size n) with (off + node_size n + d) by lia. apply IH; lia.
Qed.

(** ** Refinement *)
Section Refine.
Context {M : Type} `{UM : !UserMem M} (token : Z) {UL : UserLaws M token}.

(** The area the path of an agent uses, inside the client's window. *)
Record area_ok (base : Z) : Prop := {
  ar_range : 0 ≤ base ∧ base + CONTEXT_AREA_DEFAULT_SIZE ≤ 2 ^ 39;
  ar_win x : base ≤ x < base + CONTEXT_AREA_DEFAULT_SIZE → u_win x;
}.

Definition quota_ok (q : PathQuota) : Prop :=
  0 < max_nodes q < 2 ^ 32 ∧ 0 ≤ max_bytes q ≤ PATH_BUFFER_LEN.

(** Reading and writing inside the area. *)
Lemma area_write base m a data :
  area_ok base → u_ok m → base ≤ a → a + Z.of_nat (length data) ≤ base + CONTEXT_AREA_DEFAULT_SIZE →
  ∃ m', uwrite token (usize a) data m = Ret m' ∧ u_ok m' ∧
    ∀ x, u_win x → content m' x = mem_write (content m) a data x.
Proof.
  intros [Hr Hw] Hok Ha Hb. unfold CONTEXT_AREA_DEFAULT_SIZE in *. rewrite wrap_small by lia.
  apply uwrite_ok; [done|lia|]. intros x Hx. apply Hw. lia.
Qed.

Lemma area_read base m a buf :
  area_ok base → u_ok m → base ≤ a → a + Z.of_nat (length buf) ≤ base + CONTEXT_AREA_DEFAULT_SIZE →
  uread token (usize a) buf m = Ret (mem_read (content m) a (length buf)).
Proof.
  intros [Hr Hw] Hok Ha Hb. unfold CONTEXT_AREA_DEFAULT_SIZE in *. rewrite wrap_small by lia.
  apply uread_ok; [done|lia|]. intros x Hx. apply Hw. lia.
Qed.

(** The content after [k] bytes from [src] have moved [d] bytes down. *)
Definition moved (c : Mem) (src d k : Z) : Mem := λ x,
  if decide (src - d ≤ x < src - d + k) then c (x + d) else c x.

Lemma shift_loop_ok base va from len shift fuel copied m c0 :
  area_ok base → base ≤ va → 0 < shift ≤ from → va + from + len ≤ base + CONTEXT_AREA_DEFAULT_SIZE →
  0 ≤ copied ≤ len → from + len < 2 ^ 32 → len - copied ≤ CHUNK * Z.of_nat fuel →
  u_ok m → (∀ x, u_win x → content m x = moved c0 (va + from) shift copied x) →
  ∃ m', shift_loop fuel token va from len shift copied m = Ret m' ∧ u_ok m' ∧
    ∀ x, u_win x → content m' x = moved c0 (va + from) shift len x.
Proof.
  intros Ha Hva Hsh Hend Hc Hlen Hf Hok Hcont. revert copied m Hc Hf Hok Hcont.
  unfold CHUNK in *. induction fuel as [|fuel IH]; intros copied m Hc Hf Hok Hcont; cbn [shift_loop];
    destruct (Z.ltb_spec copied len);
    [lia|assert (copied = len) as -> by lia; eauto| |assert (copied = len) as -> by lia; eauto].
  unfold CHUNK in *. rewrite (wrap_small 32 (len - copied)), (wrap_small 32 (from + copied)) by lia.
  rewrite (wrap_small 32 (from + copied - shift)), (wrap_small 32 (copied + _)) by lia.
  set (n := Z.min (len - copied) 256). assert (Hn : 0 < n ≤ len - copied) by lia.
  rewrite (area_read base) by (done || rewrite ?length_replicate; lia).
  rewrite length_replicate. cbn [mbind outcome_bind].
  set (bs := mem_read _ _ _). assert (Hbs : Z.of_nat (length bs) = n) by (unfold bs; rewrite length_mem_read; lia).
  destruct (area_write base m (va + (from + copied - shift)) bs) as (m1 & E & Hok1 & Hc1); [done..|lia|lia|].
  rewrite E. cbn [mbind outcome_bind].
  apply IH; [lia|lia|done|].
  intros x Hx. rewrite Hc1 by done. unfold mem_write.
  destruct (Z.leb_spec (va + (from + copied - shift)) x); simpl.
  2:{ rewrite Hcont by done. unfold moved. repeat case_decide; try done; lia. }
  rewrite Hbs. destruct (Z.ltb_spec x (va + (from + copied - shift) + n)).
  - unfold bs. erewrite nth_lookup_Some; [|apply lookup_mem_read; lia].
    destruct Ha as [Har Haw].
    rewrite Hcont by (apply Haw; lia). unfold moved. rewrite decide_False, decide_True by lia.
    f_equal. lia.
  - rewrite Hcont by done. unfold moved. repeat case_decide; try done; lia.
Qed.

Lemma shift_path_buffer_left_ok base va from len shift m :
  area_ok base → base ≤ va → 0 < shift ≤ from → va + from + len ≤ base + CONTEXT_AREA_DEFAULT_SIZE →
  0 ≤ len → from + len < 2 ^ 32 → u_ok m →
  ∃ m', shift_path_buffer_left token va from len shift m = Ret m' ∧ u_ok m' ∧
    ∀ x, u_win x → content m' x = moved (content m) (va + from) shift len x.
Proof.
  intros. unfold shift_path_buffer_left.
  destruct (Z.eqb_spec len 0) as [->|]; simpl.
  { exists m. split_and!; [done..|]. intros x _. unfold moved. rewrite decide_False by lia. done. }
  destruct (Z.eqb_spec shift 0); [lia|]. simpl.
  apply (shift_loop_ok base); [done|done|done|done|lia|done| |done|].
  - unfold CHUNK. pose proof (Z.div_mod len 256 ltac:(lia)). pose proof (Z.mod_pos_bound len 256 ltac:(lia)).
    assert (0 ≤ len / 256) by (apply Z.div_pos; lia). lia.
  - intros x _. unfold moved. rewrite decide_False by lia. done.
Qed.

(** The kernel metadata and the path buffer hold the path [l]. *)
Record path_data (c : Mem) (ext : AgentExt) (l : list Node) : Prop := {
  pd_meta : path_meta ext = metas_of 0 l;
  pd_used : path_used_bytes ext = path_size l;
  pd_bytes : bytes_at c (context_area_base ext + PATH_BUFFER_OFF) (path_bytes l);
  pd_quota : path_size l ≤ max_bytes (path_quota ext) ∧ Z.of_nat (length l) ≤ max_nodes (path_quota ext);
}.

(** Only the path buffer changed. *)
Definition same_outside (base : Z) (c c' : Mem) : Prop :=
  ∀ x, u_win x → ¬ (base + PATH_BUFFER_OFF ≤ x < base + PATH_BUFFER_OFF + PATH_BUFFER_LEN) → c' x = c x.

(** The metadata after an eviction: later nodes move down by the victim's size. *)
Lemma evict_metas l1 v l2 :
  path_size (l1 ++ v :: l2) < 2 ^ 32 →
  (λ n, if path_size l1 + node_size v <=? offset_in_buffer n
     then mkPathNodeMeta (u32 (offset_in_buffer n - node_size v)) (node_len n) (write_time n) (node_seq n)
     else n) <$> vec_remove (length l1) (metas_of 0 (l1 ++ v :: l2)) = metas_of 0 (l1 ++ l2).
Proof.
  intros Hsz. rewrite path_size_app, path_size_cons in Hsz.
  pose proof (path_size_nonneg l1). pose proof (path_size_nonneg l2). pose proof (node_size_pos v).
  unfold vec_remove. rewrite metas_of_app. simpl. rewrite <-(length_metas_of 0 l1) at 1.
  rewrite delete_middle, fmap_app, metas_of_app. f_equal.
  - rewrite <-(list_fmap_id (metas_of 0 l1)) at 2. apply list_fmap_ext. intros i x Hx.
    apply list_elem_of_lookup_2, metas_of_bounds in Hx. rewrite (proj2 (Z.leb_gt _ _)) by lia. done.
  - rewrite !Z.add_0_l, <-(metas_of_shift (path_size l1) (node_size v) l2) by lia. apply list_fmap_ext. intros i x Hx.
    apply list_elem_of_lookup_2, metas_of_bounds in Hx. rewrite (proj2 (Z.leb_le _ _)) by lia. done.
Qed.

(** Moving the later nodes down in the buffer leaves the bytes of the shorter path. *)
Lemma evict_bytes base c c' l1 v l2 :
  area_ok base → path_size (l1 ++ v :: l2) ≤ PATH_BUFFER_LEN →
  bytes_at c (base + PATH_BUFFER_OFF) (path_bytes (l1 ++ v :: l2)) →
  (∀ x, u_win x → c' x = moved c (base + PATH_BUFFER_OFF + (path_size l1 + node_size v)) (node_size v) (path_size l2) x) →
  bytes_at c' (base + PATH_BUFFER_OFF) (path_bytes (l1 ++ l2)).
Proof.
  intros Ha Hsz Hbytes Hc'. rewrite path_size_app, path_size_cons in Hsz.
  pose proof (path_size_nonneg l1). pose proof (path_size_nonneg l2). pose proof (node_size_pos v).
  unfold PATH_BUFFER_OFF, PATH_BUFFER_LEN in *. rewrite path_bytes_app in Hbytes.
  change (path_bytes (v :: l2)) with (node_bytes v ++ path_bytes l2) in Hbytes.
  rewrite !bytes_at_app in Hbytes. destruct Hbytes as (Hb1 & _ & Hb2).
  fold (path_size l1) in Hb2. fold (node_size v) in Hb2. rewrite path_bytes_app, bytes_at_app. split.
  - eapply bytes_at_ext; [|exact Hb1]. intros x Hx. fold (path_size l1) in Hx.
    rewrite Hc' by (apply (ar_win _ Ha); unfold CONTEXT_AREA_DEFAULT_SIZE; lia).
    unfold moved. rewrite decide_False by lia. done.
  - intros i b Hb. assert (Hi : (i < length (path_bytes l2))%nat) by (by eapply lookup_lt_Some).
    fold (path_size l1). assert (Z.of_nat i < path_size l2) by (unfold path_size; lia).
    rewrite Hc' by (apply (ar_win _ Ha); unfold CONTEXT_AREA_DEFAULT_SIZE; lia).
    unfold moved. rewrite decide_True by lia. rewrite <-(Hb2 i b Hb). f_equal. lia.
Qed.

(** The victim, and the path around it. *)
Lemma evict_victim ext l :
  path_meta ext = metas_of 0 l → l ≠ [] →
  ∃ l1 v l2, l = l1 ++ v :: l2 ∧ delete (victim (policy (path_quota ext)) l) l = l1 ++ l2 ∧
    pick_victim ext = Some (length l1) ∧
    path_meta ext !! length l1 = Some (mkPathNodeMeta (path_size l1) (node_size v) (n_ts v) (n_seq v)).
Proof.
  intros Hmeta Hne. set (idx := victim (policy (path_quota ext)) l).
  assert (Hidx : (idx < length l)%nat) by (by apply victim_bound).
  destruct (lookup_lt_is_Some_2 l idx Hidx) as [v Hv].
  assert (Hl1 : length (take idx l) = idx) by (rewrite length_take; lia).
  exists (take idx l), v, (drop (S idx) l). rewrite Hl1.
  split; [symmetry; by apply take_drop_middle|]. split; [apply delete_take_drop|]. split.
  - unfold pick_victim, idx. rewrite Hmeta. destruct l as [|n l]; [done|]. simpl.
    destruct (policy _); [done|]. by rewrite min_by_key_metas.
  - rewrite Hmeta. rewrite <-(take_drop_middle l idx v Hv) at 1. rewrite metas_of_app.
    rewrite lookup_app_r by (rewrite length_metas_of; lia). rewrite length_metas_of, Hl1, Nat.sub_diag. simpl. do 2 f_equal.
Qed.

Lemma evict_one_ok ext m l :
  let base := context_area_base ext in
  area_ok base → quota_ok (path_quota ext) → u_ok m → path_data (content m) ext l → l ≠ [] →
  let l' := delete (victim (policy (path_quota ext)) l) l in
  ∃ m', evict_one ext token m = Ret (inr tt, set_path (metas_of 0 l') (path_size l') ext, m') ∧
    u_ok m' ∧ path_data (content m') (set_path (metas_of 0 l') (path_size l') ext) l' ∧
    same_outside base (content m) (content m').
Proof.
  intros base Ha [Hqn Hqb] Hok [Hmeta Hused Hbytes [Hq1 Hq2]] Hne.
  destruct (evict_victim ext l Hmeta Hne) as (l1 & v & l2 & -> & -> & Hpick & Hmv). intros l'. subst l'.
  assert (Hsz : path_size (l1 ++ v :: l2) = path_size l1 + node_size v + path_size l2) by (rewrite path_size_app, path_size_cons; lia).
  pose proof (path_size_nonneg l1). pose proof (path_size_nonneg l2). pose proof (node_size_pos v).
  pose proof (ar_range _ Ha) as Har.
  unfold PATH_BUFFER_LEN, CONTEXT_AREA_DEFAULT_SIZE in *.
  unfold evict_one. rewrite Hpick, Hmv. cbn [unwrap mbind outcome_bind offset_in_buffer node_len]. fold base.
  rewrite (wrap_small 32 (path_size l1 + _)), (wrap_small 64) by (unfold PATH_BUFFER_OFF; lia).
  rewrite Hused. unfold sat_sub. rewrite !Z.max_r by lia.
  replace (path_size (l1 ++ v :: l2) - (path_size l1 + node_size v)) with (path_size l2) by lia.
  destruct (shift_path_buffer_left_ok base (base + PATH_BUFFER_OFF) (path_size l1 + node_size v)
    (path_size l2) (node_size v) m) as (m' & E & Hok' & Hc');
    [done|unfold PATH_BUFFER_OFF; lia|lia|unfold CONTEXT_AREA_DEFAULT_SIZE, PATH_BUFFER_OFF; lia|lia|lia|done|].
  rewrite E. cbn [mbind outcome_bind]. rewrite Hmeta, evict_metas by lia.
  replace (path_size (l1 ++ v :: l2) - node_size v) with (path_size (l1 ++ l2)) by (rewrite path_size_app; lia).
  exists m'. split_and!; [done|done| |].
  - split; simpl; [done|done| |rewrite path_size_app, length_app in *; simpl in *; lia].
    by apply (evict_bytes base (content m) _ l1 v l2); [done|unfold PATH_BUFFER_LEN; lia|..].
  - intros x Hx Hout. rewrite Hc' by done. unfold moved. rewrite decide_False; [done|]. unfold PATH_BUFFER_LEN, PATH_BUFFER_OFF in *. lia.
Qed.

(** Effect of one write inside the area on the byte strings of the area. *)
Definition written (c c' : Mem) (a : Z) (d : list byte) : Prop :=
  ∀ x, u_win x → c' x = mem_write c a d x.

Definition in_area (base a : Z) (d : list byte) : Prop :=
  base ≤ a ∧ a + Z.of_nat (length d) ≤ base + CONTEXT_AREA_DEFAULT_SIZE.

Lemma written_same base c c' a d :
  area_ok base → in_area base a d → written c c' a d → bytes_at c' a d.
Proof.
  intros Ha [Hb1 Hb2] Hw. eapply bytes_at_ext; [|apply (bytes_at_write c)].
  intros x Hx. apply Hw, (ar_win _ Ha). lia.
Qed.

Lemma written_other base c c' a d b bs :
  area_ok base → in_area base b bs → written c c' a d →
  b + Z.of_nat (length bs) ≤ a ∨ a + Z.of_nat (length d) ≤ b →
  bytes_at c b bs → bytes_at c' b bs.
Proof.
  intros Ha [Hb1 Hb2] Hw Hdis. apply bytes_at_ext. intros x Hx.
  rewrite Hw by (apply (ar_win _ Ha); lia). apply mem_write_out. lia.
Qed.

(** The kernel's path and its image in the area, header included. *)
Record path_rep (c : Mem) (ext : AgentExt) (l : list Node) : Prop := {
  pr_data : path_data c ext l;
  pr_used : bytes_at c (context_area_base ext + 36) (to_le_bytes 4 (path_size l));
  pr_count : bytes_at c (context_area_base ext + 40) (to_le_bytes 4 (Z.of_nat (length l)));
}.

(** Only the path buffer and the two header fields changed. *)
Definition same_elsewhere (base : Z) (c c' : Mem) : Prop :=
  ∀ x, u_win x → ¬ (base + 36 ≤ x < base + 44) →
    ¬ (base + PATH_BUFFER_OFF ≤ x < base + PATH_BUFFER_OFF + PATH_BUFFER_LEN) → c' x = c x.

Lemma sync_header_ok ext m l :
  area_ok (context_area_base ext) → quota_ok (path_quota ext) → u_ok m → path_data (content m) ext l →
  ∃ m', sync_header ext token m = Ret m' ∧ u_ok m' ∧ path_rep (content m') ext l ∧
    ∀ x, u_win x → ¬ (context_area_base ext + 36 ≤ x < context_area_base ext + 44) →
      content m' x = content m x.
Proof.
  intros Ha [Hqn Hqb] Hok Hd. pose proof Hd as [Hmeta Hused Hbytes [Hq1 Hq2]].
  set (base := context_area_base ext) in *. unfold PATH_BUFFER_LEN in *.
  pose proof (path_size_nonneg l).
  unfold sync_header. rewrite Hmeta, length_metas_of, Hused, (wrap_small 32) by lia. fold base.
  destruct (area_write base m (base + 36) (to_le_bytes 4 (path_size l))) as (m1 & E1 & Hok1 & Hc1);
    [done|done|lia|rewrite length_to_le_bytes; unfold CONTEXT_AREA_DEFAULT_SIZE; lia|].
  rewrite E1. cbn [mbind outcome_bind].
  destruct (area_write base m1 (base + 40) (to_le_bytes 4 (Z.of_nat (length l)))) as (m2 & E2 & Hok2 & Hc2);
    [done|done|lia|rewrite length_to_le_bytes; unfold CONTEXT_AREA_DEFAULT_SIZE; lia|].
  exists m2. split_and!; [done|done| |].
  - split; [split; try done| |]; fold base.
    + unfold path_size in *. assert (in_area base (base + PATH_BUFFER_OFF) (path_bytes l))
        by (unfold in_area, PATH_BUFFER_OFF, CONTEXT_AREA_DEFAULT_SIZE; lia).
      eapply (written_other base); [done|done|exact Hc2| |].
      { rewrite length_to_le_bytes. unfold PATH_BUFFER_OFF. lia. }
      eapply (written_other base); [done|done|exact Hc1| |done].
      rewrite length_to_le_bytes. unfold PATH_BUFFER_OFF. lia.
    + eapply (written_other base); [done| |exact Hc2| |].
      * unfold in_area, CONTEXT_AREA_DEFAULT_SIZE. rewrite length_to_le_bytes. lia.
      * rewrite !length_to_le_bytes. lia.
      * eapply (written_same base); [done| |exact Hc1].
        unfold in_area, CONTEXT_AREA_DEFAULT_SIZE. rewrite length_to_le_bytes. lia.
    + eapply (written_same base); [done| |exact Hc2].
      unfold in_area, CONTEXT_AREA_DEFAULT_SIZE. rewrite length_to_le_bytes. lia.
  - intros x Hx Hout. rewrite Hc2, mem_write_out, Hc1, mem_write_out by
      (try done; rewrite length_to_le_bytes; lia). done.
Qed.

(** Eviction refines [spec_evict]. *)
Lemma needs_evict_fits ext m size l :
  quota_ok (path_quota ext) → 0 ≤ size ≤ PATH_BUFFER_LEN → path_data (content m) ext l →
  needs_evict size ext = negb (fits (path_quota ext) size l).
Proof.
  intros [Hqn Hqb] Hs [Hmeta Hused _ [Hq1 Hq2]]. unfold needs_evict, fits.
  pose proof (path_size_nonneg l). unfold PATH_BUFFER_LEN in *.
  rewrite Hmeta, Hused, length_metas_of, !(wrap_small 32) by lia.
  by rewrite negb_andb, !Z.ltb_antisym, negb_involutive.
Qed.

Lemma set_path_id c ext l :
  path_data c ext l → set_path (metas_of 0 l) (path_size l) ext = ext.
Proof. intros [H1 H2 _ _]. destruct ext. simpl in *. by subst. Qed.

Lemma evict_loop_ok size fuel ext m l :
  area_ok (context_area_base ext) → quota_ok (path_quota ext) → u_ok m → path_data (content m) ext l →
  0 ≤ size ≤ max_bytes (path_quota ext) → length l = fuel →
  let l' := spec_evict fuel (path_quota ext) size l in
  let ext' := set_path (metas_of 0 l') (path_size l') ext in
  ∃ m', evict_loop fuel size ext token m = Ret (inr tt, ext', m') ∧ u_ok m' ∧
    path_data (content m') ext' l' ∧ fits (path_quota ext) size l' = true ∧
    same_outside (context_area_base ext) (content m) (content m').
Proof.
  intros Ha Hq Hok. revert ext m l Ha Hq Hok.
  induction fuel as [|fuel IH]; intros ext m l Ha Hq Hok Hd Hs Hfuel; pose proof Hq as [Hqn Hqb];
    cbn [evict_loop spec_evict]; rewrite (needs_evict_fits ext m size l) by (done || lia).
  - destruct l; [|done].
    assert (Hfits : fits (path_quota ext) size [] = true).
    { unfold fits, path_size. simpl. rewrite (proj2 (Z.leb_le _ _)), (proj2 (Z.ltb_lt _ _)) by lia. done. }
    rewrite Hfits. simpl. exists m. pose proof (set_path_id _ _ _ Hd) as Hid. simpl in Hid.
    rewrite Hid. split_and!; done.
  - destruct (fits (path_quota ext) size l) eqn:Hfits; cbn [negb].
    { exists m. rewrite (set_path_id _ _ _ Hd). split_and!; done. }
    assert (Hne : l ≠ []) by (by intros ->).
    destruct (path_meta ext) eqn:Hm0.
    { pose proof (pd_meta _ _ _ Hd) as Hm. rewrite Hm0 in Hm. by destruct l. }
    destruct (evict_one_ok ext m l Ha Hq Hok Hd Hne) as (m1 & E1 & Hok1 & Hd1 & Hs1).
    rewrite E1. cbn [mbind outcome_bind].
    set (ext1 := set_path _ _ ext) in *.
    destruct (IH ext1 m1 (delete (victim (policy (path_quota ext)) l) l)) as
      (m2 & E2 & Hok2 & Hd2 & Hf2 & Hs2); [done..| |].
    { pose proof (victim_bound (policy (path_quota ext)) l Hne).
      rewrite length_delete by (by apply lookup_lt_is_Some_2). lia. }
    rewrite E2. exists m2. split_and!; [done..|].
    intros x Hx Hout. by rewrite Hs2, Hs1.
Qed.

(** ** The operations refine the abstract path *)
Lemma write_node_at_ok base m offset n :
  area_ok base → u_ok m → 0 ≤ offset → offset + node_size n ≤ PATH_BUFFER_LEN →
  ∃ m', write_node_at token (usize (base + PATH_BUFFER_OFF)) offset (n_seq n) (n_ts n) (n_req n) (n_resp n) m = Ret m' ∧
    u_ok m' ∧ written (content m) (content m') (base + PATH_BUFFER_OFF + offset) (node_bytes n).
Proof.
  intros Ha Hok Hoff Hsz. pose proof (node_size_eq n) as Hn. pose proof (ar_range _ Ha) as Har.
  unfold NODE_HEADER_SIZE, PATH_BUFFER_LEN, PATH_BUFFER_OFF, CONTEXT_AREA_DEFAULT_SIZE in *.
  unfold write_node_at. rewrite !(wrap_small 32) by lia.
  rewrite (wrap_small 64 (base + 0x4100)) by lia.
  set (hdr := to_le_bytes 8 _ ++ _). assert (Hh : length hdr = 24%nat)
    by (unfold hdr; rewrite !length_app, !length_to_le_bytes; done).
  destruct (area_write base m (base + 0x4100 + offset) hdr) as (m1 & E1 & Hok1 & Hc1);
    [done|done|lia|unfold CONTEXT_AREA_DEFAULT_SIZE; lia|].
  rewrite E1. cbn [mbind outcome_bind]. rewrite (wrap_small 64 (base + 0x4100 + offset)) by lia.
  unfold NODE_HEADER_SIZE.
  replace (base + 16640 + offset + (8 + 8 + 4 + 4)) with (base + 16640 + offset + 24) by lia.
  destruct (area_write base m1 (base + 0x4100 + offset + 24) (n_req n)) as (m2 & E2 & Hok2 & Hc2);
    [done|done|lia|unfold CONTEXT_AREA_DEFAULT_SIZE; lia|].
  rewrite E2. cbn [mbind outcome_bind].
  destruct (area_write base m2 (base + 0x4100 + offset + 24 + Z.of_nat (length (n_req n))) (n_resp n))
    as (m3 & E3 & Hok3 & Hc3); [done|done|lia|unfold CONTEXT_AREA_DEFAULT_SIZE; lia|].
  exists m3. split_and!; [done|done|]. intros x Hx.
  assert (Hnb : node_bytes n = hdr ++ n_req n ++ n_resp n) by (unfold node_bytes, hdr; by rewrite <-!app_assoc).
  rewrite Hnb, <-!mem_write_app, Hh, Hc3 by done. change (Z.of_nat 24) with 24.
  apply mem_write_ext. rewrite Hc2 by done. apply mem_write_ext. by apply Hc1.
Qed.

Lemma same_outside_elsewhere base c c' : same_outside base c c' → same_elsewhere base c c'.
Proof. intros H x Hx _ Hout. by apply H. Qed.

Lemma same_elsewhere_trans base c1 c2 c3 :
  same_elsewhere base c1 c2 → same_elsewhere base c2 c3 → same_elsewhere base c1 c3.
Proof. intros H1 H2 x Hx Ho1 Ho2. by rewrite H2, H1. Qed.

Lemma push_node_ok now ext m l req resp :
  let n := mkNode (next_seq ext) now req resp in
  let base := context_area_base ext in
  area_ok base → quota_ok (path_quota ext) → u_ok m → path_rep (content m) ext l →
  node_size n < 2 ^ 32 →
  if max_bytes (path_quota ext) <? node_size n
  then push_node now ext token req resp m = Ret (inl QuotaExceeded, ext, m)
  else
    let l' := spec_push (path_quota ext) n l in
    let ext' := set_next_seq (u64 (next_seq ext + 1)) (set_path (metas_of 0 l') (path_size l') ext) in
    ∃ m', push_node now ext token req resp m = Ret (inr (Z.of_nat (length l') - 1), ext', m') ∧
      u_ok m' ∧ path_rep (content m') ext' l' ∧ same_elsewhere base (content m) (content m').
Proof.
  intros n base Ha Hq Hok [Hd _ _] Hn32. pose proof Hq as [Hqn Hqb].
  pose proof (node_size_pos n) as Hn24. pose proof (node_size_eq n) as Hneq. simpl in Hneq.
  assert (Hsize : u32 (node_total_size (Z.of_nat (length req)) (Z.of_nat (length resp))) = node_size n).
  { unfold node_total_size. rewrite <-Hneq, (wrap_small 64), (wrap_small 32) by lia. done. }
  unfold push_node. rewrite Hsize.
  destruct (Z.ltb_spec (max_bytes (path_quota ext)) (node_size n)) as [Hbig|Hfit].
  { by destruct (PATH_BUFFER_LEN <? node_size n). }
  set (l' := spec_push (path_quota ext) n l).
  set (ext' := set_next_seq (u64 (next_seq ext + 1)) (set_path (metas_of 0 l') (path_size l') ext)).
  rewrite (proj2 (Z.ltb_ge PATH_BUFFER_LEN _)) by lia.
  pose proof (pd_meta _ _ _ Hd) as Hm0. rewrite Hm0, length_metas_of.
  destruct (evict_loop_ok (node_size n) (length l) ext m l) as (m1 & E1 & Hok1 & Hd1 & Hf1 & Hs1);
    [done..|lia|done|].
  rewrite E1. cbn [mbind outcome_bind]. set (l1 := spec_evict _ _ _ l) in *.
  change l' with (l1 ++ [n]) in *.
  unfold fits in Hf1. zify_bool. pose proof (path_size_nonneg l1).
  cbn [path_used_bytes path_meta next_seq context_area_base set_path]. fold base.
  destruct (write_node_at_ok base m1 (path_size l1) n) as (m2 & E2 & Hok2 & Hw2); [done|done|lia|lia|].
  cbn [n_seq n_ts n_req n_resp n] in E2. rewrite E2. cbn [mbind outcome_bind].
  pose proof (path_size_single n) as Hp1.
  assert (Hsz : path_size (l1 ++ [n]) = path_size l1 + node_size n) by (rewrite path_size_app; lia).
  assert (Hext : set_next_seq (u64 (next_seq ext + 1))
      (set_path (metas_of 0 l1 ++ [mkPathNodeMeta (path_size l1) (node_size n) now (next_seq ext)])
         (u32 (path_size l1 + node_size n)) (set_path (metas_of 0 l1) (path_size l1) ext)) = ext').
  { unfold ext'. rewrite metas_of_app, Hsz, (wrap_small 32) by (unfold PATH_BUFFER_LEN in *; lia). done. }
  rewrite Hext.
  assert (Hd2 : path_data (content m2) ext' (l1 ++ [n])).
  { split; simpl; [done|done| |rewrite length_app; simpl; split; [|lia]; lia]. fold base.
    rewrite path_bytes_app, bytes_at_app. pose proof (ar_range _ Ha).
    unfold PATH_BUFFER_LEN, PATH_BUFFER_OFF, CONTEXT_AREA_DEFAULT_SIZE in *. split.
    - eapply (written_other base); [done| |exact Hw2| |apply (pd_bytes _ _ _ Hd1)].
      + unfold in_area, CONTEXT_AREA_DEFAULT_SIZE. fold (path_size l1). lia.
      + left. fold (path_size l1). lia.
    - rewrite path_bytes_single. fold (path_size l1).
      eapply (written_same base); [done| |exact Hw2].
      unfold in_area, CONTEXT_AREA_DEFAULT_SIZE. fold (node_size n). lia. }
  destruct (sync_header_ok ext' m2 (l1 ++ [n])) as (m3 & E3 & Hok3 & Hr3 & Hs3); [done..|].
  rewrite E3. cbn [mbind outcome_bind]. exists m3. split_and!; [|done|done|].
  - replace (path_meta ext') with (metas_of 0 (l1 ++ [n])) by done.
    rewrite length_metas_of, (wrap_small 64) by (rewrite length_app; simpl; lia). done.
  - intros x Hx Ho1 Ho2. rewrite Hs3 by done. rewrite Hw2 by done.
    rewrite mem_write_out; [by apply Hs1|]. fold (node_size n).
    unfold PATH_BUFFER_LEN in *. fold base. lia.
Qed.

(** A prefix of the path. *)
Lemma path_data_prefix c ext l k :
  path_data c ext l →
  path_data c (set_path (metas_of 0 (take k l)) (path_size (take k l)) ext) (take k l).
Proof.
  intros [Hmeta Hused Hb [Hq1 Hq2]]. rewrite <-(take_drop k l) in Hb, Hq1, Hq2.
  rewrite path_bytes_app, bytes_at_app in Hb. rewrite path_size_app in Hq1. rewrite length_app in Hq2.
  pose proof (path_size_nonneg (drop k l)). split; simpl; [done|done|by apply Hb|lia].
Qed.

Lemma rollback_ok ext m l k :
  let base := context_area_base ext in
  area_ok base → quota_ok (path_quota ext) → u_ok m → path_rep (content m) ext l → 0 ≤ k →
  if Z.of_nat (length l) <? k then rollback ext token k m = Ret (inl NotFound, ext, m)
  else
    let l' := take (Z.to_nat k) l in
    let ext' := set_path (metas_of 0 l') (path_size l') ext in
    ∃ m', rollback ext token k m = Ret (inr tt, ext', m') ∧
      u_ok m' ∧ path_rep (content m') ext' l' ∧ same_elsewhere base (content m) (content m').
Proof.
  intros base Ha Hq Hok [Hd _ _] Hk. pose proof Hd as [Hmeta Hused _ [Hq1 Hq2]]. destruct Hq as [Hqn Hqb].
  unfold rollback. rewrite Hmeta, length_metas_of.
  destruct (Z.ltb_spec (Z.of_nat (length l)) k) as [|Hle]; [done|].
  set (l' := take (Z.to_nat k) l). set (ext' := set_path (metas_of 0 l') (path_size l') ext).
  assert (Hstep : (if k =? 0 then Ret (set_path [] 0 ext)
      else last ← unwrap (metas_of 0 l !! Z.to_nat (k - 1));
           Ret (set_path (take (Z.to_nat k) (metas_of 0 l)) (u32 (offset_in_buffer last + node_len last)) ext))
      = Ret ext').
  { destruct (Z.eqb_spec k 0) as [->|Hne]; [done|].
    destruct (lookup_lt_is_Some_2 l (Z.to_nat (k - 1)) ltac:(lia)) as [n Hn].
    assert (Hl : l = take (Z.to_nat (k - 1)) l ++ n :: drop (S (Z.to_nat (k - 1))) l)
      by (symmetry; by apply take_drop_middle).
    set (l1 := take (Z.to_nat (k - 1)) l) in *. set (l2 := drop _ l) in *.
    assert (Hl1 : length l1 = Z.to_nat (k - 1)) by (unfold l1; rewrite length_take; lia).
    assert (Hl' : l' = l1 ++ [n]).
    { unfold l'. rewrite Hl. replace (Z.to_nat k) with (length (l1 ++ [n])) by (rewrite length_app; simpl; lia).
      rewrite (cons_middle n l1 l2), app_assoc. by apply take_app_length. }
    assert (Hsz : path_size l' = path_size l1 + node_size n).
    { by rewrite Hl', path_size_app, path_size_single. }
    assert (path_size l' ≤ path_size l).
    { rewrite <-(take_drop (Z.to_nat k) l), path_size_app. fold l'. pose proof (path_size_nonneg (drop (Z.to_nat k) l)). lia. }
    rewrite Hl at 1. rewrite metas_of_app, lookup_app_r by (rewrite length_metas_of; lia).
    rewrite length_metas_of, Hl1, Nat.sub_diag. cbn [metas_of lookup list_lookup unwrap mbind outcome_bind offset_in_buffer node_len].
    unfold ext'. rewrite Z.add_0_l, <-Hsz, wrap_small by (pose proof (path_size_nonneg l'); unfold PATH_BUFFER_LEN in *; lia).
    f_equal. f_equal. rewrite Hl, metas_of_app, Hl', metas_of_app. simpl.
    rewrite take_app_ge by (rewrite length_metas_of; lia). rewrite length_metas_of, Hl1.
    replace (Z.to_nat k - Z.to_nat (k - 1))%nat with 1%nat by lia. done. }
  rewrite Hstep. cbn [mbind outcome_bind].
  destruct (sync_header_ok ext' m l') as (m' & E & Hok' & Hr & Hs); [done|done|done|by apply path_data_prefix|].
  rewrite E. cbn [mbind outcome_bind]. exists m'. split_and!; [done..|].
  intros x Hx Ho _. by apply Hs.
Qed.

Lemma clear_ok ext m l :
  let base := context_area_base ext in
  let ext' := set_path [] 0 ext in
  area_ok base → quota_ok (path_quota ext) → u_ok m → path_rep (content m) ext l →
  ∃ m', clear ext token m = Ret (ext', m') ∧
    u_ok m' ∧ path_rep (content m') ext' [] ∧ same_elsewhere base (content m) (content m').
Proof.
  intros base ext' Ha Hq Hok [Hd _ _].
  destruct (sync_header_ok ext' m []) as (m' & E & Hok' & Hr & Hs); [done|done|done|by apply (path_data_prefix _ _ l 0)|].
  exists m'. unfold clear. fold ext'. rewrite E. split_and!; [done..|]. intros x Hx Ho _. by apply Hs.
Qed.
End Refine.

(** ** Runs of path operations *)
Inductive path_op : Type :=
  | OpPush (now : Z) (req resp : list byte)
  | OpRollback (node_count : Z)
  | OpClear.

(** The syscalls admit at most 4096 bytes per summary. *)
Definition path_op_ok (o : path_op) : Prop :=
  match o with
  | OpPush _ req resp => Z.of_nat (length req) ≤ 4096 ∧ Z.of_nat (length resp) ≤ 4096
  | OpRollback k => 0 ≤ k
  | OpClear => True
  end.

Definition path_step {M} `{!UserMem M} (token : Z) (o : path_op) (ext : AgentExt) (m : M)
    : outcome (AgentResult Z * AgentExt * M) :=
  match o with
  | OpPush now req resp => push_node now ext token req resp m
  | OpRollback k =>
      '(r, ext, m) ← rollback ext token k m;
      Ret (match r with inl e => inl e | inr _ => inr 0 end, ext, m)
  | OpClear => '(ext, m) ← clear ext token m; Ret (inr 0, ext, m)
  end.

Fixpoint path_run {M} `{!UserMem M} (token : Z) (os : list path_op) (ext : AgentExt) (m : M)
    : outcome (list (AgentResult Z) * AgentExt * M) :=
  match os with
  | [] => Ret ([], ext, m)
  | o :: os =>
      '(r, ext, m) ← path_step token o ext m;
      '(rs, ext, m) ← path_run token os ext m;
      Ret (r :: rs, ext, m)
  end.

(** The abstract path: its nodes and the next sequence number. *)
Definition spec_step (q : PathQuota) (o : path_op) (st : list Node * Z)
    : AgentResult Z * (list Node * Z) :=
  match o with
  | OpPush now req resp =>
      let n := mkNode st.2 now req resp in
      if max_bytes q <? node_size n then (inl QuotaExceeded, st)
      else
        let l := spec_push q n st.1 in
        (inr (Z.of_nat (length l) - 1), (l, u64 (st.2 + 1)))
  | OpRollback k =>
      if Z.of_nat (length st.1) <? k then (inl NotFound, st)
      else (inr 0, (take (Z.to_nat k) st.1, st.2))
  | OpClear => (inr 0, ([], st.2))
  end.

Fixpoint spec_path_run (q : PathQuota) (os : list path_op) (st : list Node * Z)
    : list (AgentResult Z) * (list Node * Z) :=
  match os with
  | [] => ([], st)
  | o :: os =>
      let '(r, st) := spec_step q o st in
      let '(rs, st) := spec_path_run q os st in
      (r :: rs, st)
  end.

Section Runs.
Context {M : Type} `{UM : !UserMem M} (token : Z) {UL : UserLaws M token}.

(** One operation simulates its specification. *)
Lemma path_step_sim o ext m l :
  let q := path_quota ext in
  let base := context_area_base ext in
  area_ok token base → quota_ok q → u_ok m → path_rep (content m) ext l → path_op_ok o →
  let '(r, (l', s')) := spec_step q o (l, next_seq ext) in
  ∃ ext' m', path_step token o ext m = Ret (r, ext', m') ∧
    context_area_base ext' = base ∧ path_quota ext' = q ∧ next_seq ext' = s' ∧
    u_ok m' ∧ path_rep (content m') ext' l' ∧ same_elsewhere token base (content m) (content m').
Proof.
  intros q base Ha Hq Hok Hr Ho. destruct o as [now req resp|k|]; simpl in *.
  - set (n := mkNode (next_seq ext) now req resp).
    pose proof (node_size_eq n) as Hn. simpl in Hn. unfold NODE_HEADER_SIZE in Hn.
    pose proof (push_node_ok token now ext m l req resp Ha Hq Hok Hr ltac:(fold n; lia)) as Hp.
    fold n in Hp. fold q in Hp. fold base in Hp. destruct (max_bytes q <? node_size n).
    + by exists ext, m.
    + destruct Hp as (m' & E & Hok' & Hr' & Hs'). eexists _, m'. by split_and!.
  - pose proof (rollback_ok token ext m l k Ha Hq Hok Hr Ho) as Hp. fold base in Hp.
    destruct (Z.of_nat (length l) <? k).
    + exists ext, m. by rewrite Hp.
    + destruct Hp as (m' & E & Hok' & Hr' & Hs'). eexists _, m'. rewrite E. by split_and!.
  - destruct (clear_ok token ext m l Ha Hq Hok Hr) as (m' & E & Hok' & Hr' & Hs').
    eexists _, m'. rewrite E. by split_and!.
Qed.
End Runs.

(** C5: the context path refines a list of nodes. Whatever sequence of push,
    rollback and clear an agent performs, the kernel never panics nor runs out
    of a loop, every operation returns exactly what the abstract path returns
    (index, [QuotaExceeded], [NotFound]), the metadata stay the layout of the
    abstract nodes, the path buffer in user memory holds exactly their bytes
    back to back, the header counters agree with it, the quota is respected,
    and no other byte of the agent's memory changes. *)
Theorem context_path_refines {M} `{UM : !UserMem M} token `{UL : !UserLaws M token} os ext m l :
  area_ok token (context_area_base ext) → quota_ok (path_quota ext) → u_ok m →
  path_rep (content m) ext l → Forall path_op_ok os →
  let '(rs, (l', s')) := spec_path_run (path_quota ext) os (l, next_seq ext) in
  ∃ ext' m', path_run token os ext m = Ret (rs, ext', m') ∧
    next_seq ext' = s' ∧ u_ok m' ∧ path_rep (content m') ext' l' ∧
    same_elsewhere token (context_area_base ext) (content m) (content m').
Proof.
  revert ext m l. induction os as [|o os IH]; intros ext m l Ha Hq Hok Hr Ho.
  - simpl. by exists ext, m.
  - apply Forall_cons in Ho as [Ho Hos].
    pose proof (path_step_sim token o ext m l Ha Hq Hok Hr Ho) as Hs. cbn [spec_path_run path_run].
    destruct (spec_step (path_quota ext) o (l, next_seq ext)) as [r [l1 s1]].
    destruct Hs as (ext1 & m1 & E1 & Hb1 & Hq1 & <- & Hok1 & Hr1 & Hs1).
    specialize (IH ext1 m1 l1). rewrite Hb1, Hq1 in IH. specialize (IH Ha Hq Hok1 Hr1 Hos).
    destruct (spec_path_run (path_quota ext) os (l1, next_seq ext1)) as [rs [l2 s2]].
    destruct IH as (ext2 & m2 & E2 & Hn2 & Hok2 & Hr2 & Hs2).
    exists ext2, m2. rewrite E1. cbn [mbind outcome_bind]. rewrite E2. split_and!; [done..|].
    by eapply same_elsewhere_trans.
Qed.

(** ** Which nodes survive an eviction *)
Lemma victim_of_first best i l :
  Forall (λ n, best.2 ≤ n_ts n) l → victim_of best i l = best.1.
Proof.
  revert i. induction l as [|n l IH]; intros i Hl; simpl; [done|].
  apply Forall_cons in Hl as [Hn Hl]. rewrite (proj2 (Z.ltb_ge _ _)) by lia. by apply IH.
Qed.

(** On a path written with a clock that never goes back, both policies evict
    the oldest node. *)
Lemma victim_sorted p l : Sorted Z.le (n_ts <$> l) → victim p l = O.
Proof.
  destruct l as [|n l]; [by destruct p|]. rewrite fmap_cons. intros Hs. destruct p; [done|].
  apply Sorted_extends in Hs; [|intros ???; lia]. rewrite Forall_fmap in Hs.
  by apply victim_of_first.
Qed.

Lemma spec_evict_suffix fuel q size l :
  Sorted Z.le (n_ts <$> l) → fits q size [] = true → length l = fuel →
  ∃ k, spec_evict fuel q size l = drop k l ∧ fits q size (drop k l) = true ∧
    ∀ j, (j < k)%nat → fits q size (drop j l) = false.
Proof.
  revert l. induction fuel as [|fuel IH]; intros l Hs Hf Hlen; simpl.
  - destruct l; [|done]. exists O. split_and!; [done|done|lia].
  - destruct (fits q size l) eqn:E.
    + exists O. split_and!; [done|done|lia].
    + rewrite victim_sorted by done. destruct l as [|n l]; [done|]. simpl in *.
      apply Sorted_inv in Hs as [Hs _].
      destruct (IH l Hs Hf ltac:(lia)) as (k & -> & Hk & Hj). exists (S k).
      split_and!; [done|done|]. intros [|j] Hjk; [done|]. apply Hj. lia.
Qed.

(** C6: what a push forgets. When the clock is monotone, a successful
    [push_node] keeps the longest suffix of the history that leaves room for
    the new node and appends it, under the FIFO and the LRU policy alike: no
    node is evicted needlessly, and never a younger one before an older one. *)
Theorem push_node_keeps_longest_suffix {M} `{UM : !UserMem M} token `{UL : !UserLaws M token}
    now ext m l req resp :
  area_ok token (context_area_base ext) → quota_ok (path_quota ext) → u_ok m →
  path_rep (content m) ext l → Sorted Z.le (n_ts <$> l) →
  let n := mkNode (next_seq ext) now req resp in
  node_size n ≤ max_bytes (path_quota ext) →
  ∃ k ext' m', push_node now ext token req resp m = Ret (inr (Z.of_nat (length (drop k l))), ext', m') ∧
    path_rep (content m') ext' (drop k l ++ [n]) ∧
    fits (path_quota ext) (node_size n) (drop k l) = true ∧
    ∀ j, (j < k)%nat → fits (path_quota ext) (node_size n) (drop j l) = false.
Proof.
  intros Ha Hq Hok Hr Hs n Hn.
  assert (Hq' := Hq). destruct Hq' as [Hqn Hqb]. pose proof (node_size_pos n).
  pose proof (push_node_ok token now ext m l req resp Ha Hq Hok Hr) as Hp. fold n in Hp.
  specialize (Hp ltac:(unfold PATH_BUFFER_LEN in *; lia)).
  rewrite (proj2 (Z.ltb_ge _ _)) in Hp by lia. destruct Hp as (m' & E & Hok' & Hr' & _).
  destruct (spec_evict_suffix (length l) (path_quota ext) (node_size n) l Hs) as (k & Hk & Hf & Hj); [|done|].
  { unfold fits, path_size. simpl. rewrite (proj2 (Z.leb_le _ _)), (proj2 (Z.ltb_lt _ _)) by lia. done. }
  exists k. eexists _, m'. unfold spec_push in *. rewrite Hk in *. rewrite E, length_app. simpl.
  split_and!; [do 4 f_equal; lia|done..].
Qed.

(** ** Witnesses: an agent of the demo platform *)
Definition demo_ext : AgentExt := AgentExt_new ATNormal CONTEXT_AREA_BASE CONTEXT_AREA_DEFAULT_SIZE 2 100.

Lemma demo_area tk :
  @area_ok Mem (@mem_user_mem DemoPlatform.demo) tk
    (@mem_user_laws DemoPlatform.demo _ tk demo_W demo_frame) (context_area_base demo_ext).
Proof.
  split; [by vm_compute|]. intros x Hx. right. change (context_area_base demo_ext) with 0x80000000 in Hx.
  unfold CONTEXT_AREA_DEFAULT_SIZE, PAGE_SIZE in *. simpl.
  split; [apply Z.div_le_lower_bound|apply Z.div_lt_upper_bound]; lia.
Qed.

Lemma demo_quota : quota_ok (path_quota demo_ext).
Proof. by vm_compute. Qed.

Lemma demo_agent :
  ∃ tk m, @uspace DemoPlatform.demo tk demo_W demo_frame m ∧
    path_rep (λ va, m (upa demo_frame va)) demo_ext [].
Proof.
  destruct demo_space as (pt & ph & _ & Hus).
  destruct (@sync_header_ok Mem (@mem_user_mem DemoPlatform.demo) (token pt)
    (@mem_user_laws DemoPlatform.demo _ (token pt) demo_W demo_frame) demo_ext (mem ph) []) as (m' & _ & Hok & Hr & _).
  - apply demo_area.
  - apply demo_quota.
  - exact Hus.
  - split; [done|done|apply bytes_at_nil|by vm_compute].
  - exists (token pt), m'. split; [exact Hok|exact Hr].
Qed.

Definition demo_ops : list path_op :=
  [OpPush 1 [x01; x02] [x03]; OpPush 2 [] [x04]; OpPush 3 [x05] []; OpRollback 1; OpRollback 7;
   OpPush 4 (replicate 90 x06) []; OpClear].

Lemma context_path_refines_witness :
  ∃ tk m, @uspace DemoPlatform.demo tk demo_W demo_frame m ∧
  ∃ ext' m', @path_run Mem (@mem_user_mem DemoPlatform.demo) tk demo_ops demo_ext m =
      Ret ([inr 0; inr 1; inr 1; inr 0; inl NotFound; inl QuotaExceeded; inr 0], ext', m') ∧
    next_seq ext' = 3 ∧ @uspace DemoPlatform.demo tk demo_W demo_frame m' ∧
    path_rep (λ va, m' (upa demo_frame va)) ext' [] ∧
    @same_elsewhere Mem (@mem_user_mem DemoPlatform.demo) tk
      (@mem_user_laws DemoPlatform.demo _ tk demo_W demo_frame) (context_area_base demo_ext)
      (λ va, m (upa demo_frame va)) (λ va, m' (upa demo_frame va)).
Proof.
  destruct demo_agent as (tk & m & Hus & Hr). exists tk, m. split; [done|].
  apply (@context_path_refines Mem (@mem_user_mem DemoPlatform.demo) tk
    (@mem_user_laws DemoPlatform.demo _ tk demo_W demo_frame) demo_ops demo_ext m []).
  - apply demo_area.
  - apply demo_quota.
  - exact Hus.
  - exact Hr.
  - repeat (constructor; [by vm_compute|]). constructor.
Defined.

Lemma push_node_keeps_longest_suffix_witness :
  ∃ tk m, @uspace DemoPlatform.demo tk demo_W demo_frame m ∧
  ∃ k ext' m', @push_node Mem (@mem_user_mem DemoPlatform.demo) 5 demo_ext tk [x01] [x02] m =
      Ret (inr (Z.of_nat (length (drop k (@nil Node)))), ext', m') ∧
    path_rep (λ va, m' (upa demo_frame va)) ext' (drop k [] ++ [mkNode 0 5 [x01] [x02]]) ∧
    fits (path_quota demo_ext) (node_size (mkNode 0 5 [x01] [x02])) (drop k []) = true ∧
    ∀ j, (j < k)%nat → fits (path_quota demo_ext) (node_size (mkNode 0 5 [x01] [x02])) (drop j []) = false.
Proof.
  destruct demo_agent as (tk & m & Hus & Hr). exists tk, m. split; [done|].
  apply (@push_node_keeps_longest_suffix Mem (@mem_user_mem DemoPlatform.demo) tk
    (@mem_user_laws DemoPlatform.demo _ tk demo_W demo_frame) 5 demo_ext m []).
  - apply demo_area.
  - apply demo_quota.
  - exact Hus.
  - exact Hr.
  - constructor.
  - by vm_compute.
Defined.
