(* ===== verification/ContextArea.v ===== *)
(** * The agent context area ([os/src/agent/context_area.rs])

    Allocation in the agent's address space, the header the kernel writes
    into it, and the tool-result ring. *)

From S2P Require Import Prelude Address PhysMem FrameAlloc PageTable MemorySet UserCopy PcbExt ContextPath.

Record AgentContextArea : Type := mkArea { area_base : Z; area_size : Z }.

(** [AgentContextArea::allocate]. *)
Definition allocate `{Platform} (size : Z) (ms : MemorySet) (ph : Phys)
    : outcome (AgentContextArea * MemorySet * Phys) :=
  let aligned := Z.max (Z.land (usize (size + 0xFFF)) (not64 0xFFF)) 0x1000 in
  let base := VirtAddr_from CONTEXT_AREA_BASE in
  let fin := VirtAddr_from (usize (CONTEXT_AREA_BASE + aligned)) in
  '(ms, ph) ← insert_framed_area base fin (Z.lor (Z.lor MP_R MP_W) MP_U) ms ph;
  Ret (mkArea base aligned, ms, ph).

(** [AreaHeader]: field offsets of the [repr(C)] layout. *)
Definition SEQ_OFF : Z := 8.
Definition TR_LEN_FIELD : Z := 20.
Definition TR_WRITE_POS_FIELD : Z := 24.

Section Ring.
Context {M : Type} `{!UserMem M}.

(** The bytes of the initial header: the fields, the reserved array and the
    four bytes of padding [pad] at the end of the struct. *)
Definition header_fields : list byte :=
  to_le_bytes 4 HEADER_MAGIC ++ to_le_bytes 4 HEADER_VERSION ++ to_le_bytes 8 0 ++
  to_le_bytes 4 TOOL_RESULT_OFF ++ to_le_bytes 4 TOOL_RESULT_LEN ++ to_le_bytes 4 0 ++
  to_le_bytes 4 PATH_BUFFER_OFF ++ to_le_bytes 4 PATH_BUFFER_LEN ++ to_le_bytes 4 0 ++
  to_le_bytes 4 0 ++ to_le_bytes 4 HISTORY_OFF ++ to_le_bytes 4 HISTORY_LEN.
Definition header_bytes (pad : list byte) : list byte :=
  header_fields ++ replicate (256 - 64) x00 ++ pad.

Definition init_header (pad : list byte) (base token : Z) (m : M) : outcome M :=
  uwrite token base (header_bytes pad) m.

Definition write_tool_result (base token : Z) (data : list byte) (m : M)
    : outcome (option (Z * Z) * M) :=
  let len := Z.of_nat (length data) in
  if TOOL_RESULT_LEN <? len then Ret (None, m) else
  header_buf ← uread token base (replicate 256 x00) m;
  let cur_pos := from_le_bytes (slice 20 4 header_buf) in
  let start := if TOOL_RESULT_LEN <? usize (cur_pos + len) then 0 else cur_pos in
  let write_addr := usize (base + TOOL_RESULT_OFF + start) in
  m ← uwrite token write_addr data m;
  let new_pos := u32 (start + len) in
  let seq := u64 (from_le_bytes (slice 8 8 header_buf) + 2) in
  m ← uwrite token (usize (base + 8)) (to_le_bytes 8 seq) m;
  m ← uwrite token (usize (base + 20)) (to_le_bytes 4 new_pos) m;
  Ret (Some (u32 (TOOL_RESULT_OFF + start), u32 len), m).
End Ring.

(** ** Specification *)
Section RingProofs.
Context {M : Type} `{UM : !UserMem M} (token : Z) {UL : UserLaws M token}.

Lemma area_write0 base m data :
  area_ok token base → u_ok m → Z.of_nat (length data) ≤ CONTEXT_AREA_DEFAULT_SIZE →
  ∃ m', uwrite token base data m = Ret m' ∧ u_ok m' ∧
    ∀ x, u_win x → content m' x = mem_write (content m) base data x.
Proof.
  intros Ha Hok Hl. pose proof (ar_range _ _ Ha) as Hr. unfold CONTEXT_AREA_DEFAULT_SIZE in *.
  apply uwrite_ok; [done|lia|]. intros x Hx. apply (ar_win _ _ Ha). unfold CONTEXT_AREA_DEFAULT_SIZE. lia.
Qed.

Lemma length_header_bytes pad : length pad = 4%nat → length (header_bytes pad) = 248%nat.
Proof. intros Hp. unfold header_bytes. rewrite !length_app, Hp, length_replicate. reflexivity. Qed.

Lemma init_header_ok pad base m :
  area_ok token base → u_ok m → length pad = 4%nat →
  ∃ m', init_header pad base token m = Ret m' ∧ u_ok m' ∧ bytes_at (content m') base header_fields ∧
    ∀ x, u_win x → ¬ (base ≤ x < base + 248) → content m' x = content m x.
Proof.
  intros Ha Hok Hp. pose proof (length_header_bytes pad Hp) as Hl.
  destruct (area_write0 base m (header_bytes pad) Ha Hok) as (m' & E & Hok' & Hc).
  { rewrite Hl. unfold CONTEXT_AREA_DEFAULT_SIZE. lia. }
  exists m'. split_and!; [done|done| |].
  - assert (Hb : bytes_at (content m') base (header_bytes pad)).
    { eapply written_same; [done| |exact Hc]. split; rewrite ?Hl; unfold CONTEXT_AREA_DEFAULT_SIZE; lia. }
    unfold header_bytes in Hb. by apply bytes_at_app in Hb as [? _].
  - intros x Hx Hout. rewrite Hc by done. apply mem_write_out. rewrite Hl. lia.
Qed.

(** A field of a byte string in memory. *)
Lemma bytes_at_slice c a bs off len :
  bytes_at c a bs → (off + len ≤ length bs)%nat → bytes_at c (a + Z.of_nat off) (slice off len bs).
Proof.
  intros H Hl i b Hb. rewrite lookup_slice in Hb. case_decide; [|done].
  rewrite <-Z.add_assoc, <-Nat2Z.inj_add. by apply H.
Qed.

Lemma mem_read_slice c a n off len :
  (off + len ≤ n)%nat → slice off len (mem_read c a n) = mem_read c (a + Z.of_nat off) len.
Proof.
  intros Hl. apply list_eq. intros i. rewrite lookup_slice. case_decide.
  - rewrite !lookup_mem_read by lia. do 2 f_equal. lia.
  - symmetry. apply lookup_ge_None. rewrite length_mem_read. lia.
Qed.

(** The position [write_tool_result] reads, and where it writes. *)
Definition ring_pos (c : Mem) (base : Z) : Z := from_le_bytes (mem_read c (base + TR_LEN_FIELD) 4).
Definition ring_start (c : Mem) (base len : Z) : Z :=
  if TOOL_RESULT_LEN <? ring_pos c base + len then 0 else ring_pos c base.

Lemma ring_start_range c base len :
  0 ≤ len ≤ TOOL_RESULT_LEN → 0 ≤ ring_start c base len ∧ ring_start c base len + len ≤ TOOL_RESULT_LEN.
Proof.
  intros Hl. unfold ring_start, ring_pos. pose proof (from_le_bytes_range (mem_read c (base + TR_LEN_FIELD) 4)) as Hr.
  destruct (Z.ltb_spec TOOL_RESULT_LEN (from_le_bytes (mem_read c (base + TR_LEN_FIELD) 4) + len)); lia.
Qed.

Lemma write_tool_result_ok base data m :
  area_ok token base → u_ok m → Z.of_nat (length data) ≤ TOOL_RESULT_LEN →
  let len := Z.of_nat (length data) in
  let start := ring_start (content m) base len in
  ∃ m', write_tool_result base token data m = Ret (Some (TOOL_RESULT_OFF + start, len), m') ∧ u_ok m' ∧
    bytes_at (content m') (base + TOOL_RESULT_OFF + start) data ∧
    bytes_at (content m') (base + TR_LEN_FIELD) (to_le_bytes 4 (start + len)) ∧
    (∀ x, u_win x → ¬ (base + 8 ≤ x < base + 16) → ¬ (base + 20 ≤ x < base + 24) →
       ¬ (base + TOOL_RESULT_OFF + start ≤ x < base + TOOL_RESULT_OFF + start + len) →
       content m' x = content m x).
Proof.
  intros Ha Hok Hl len start. pose proof (ar_range _ _ Ha) as Hr.
  pose proof (ring_start_range (content m) base len ltac:(lia)) as Hst. fold start in Hst.
  unfold write_tool_result. fold len. rewrite (proj2 (Z.ltb_ge TOOL_RESULT_LEN len)) by done.
  unfold CONTEXT_AREA_DEFAULT_SIZE, TOOL_RESULT_LEN in *.
  rewrite (uread_ok m base (replicate 256 x00)).
  2-4: try done; try lia; rewrite ?length_replicate; intros x Hx; apply (ar_win _ _ Ha); unfold CONTEXT_AREA_DEFAULT_SIZE; lia.
  cbn [mbind outcome_bind]. rewrite length_replicate, !mem_read_slice by lia.
  change (from_le_bytes (mem_read (content m) (base + Z.of_nat 20) 4)) with (ring_pos (content m) base).
  assert (Hpos : 0 ≤ ring_pos (content m) base < 2 ^ 32).
  { unfold ring_pos. pose proof (from_le_bytes_range (mem_read (content m) (base + TR_LEN_FIELD) 4)) as Hb.
    rewrite length_mem_read in Hb. exact Hb. }
  rewrite (wrap_small 64 (ring_pos (content m) base + len)) by lia.
  change (if 16384 <? ring_pos (content m) base + len then 0 else ring_pos (content m) base) with start.
  set (seq := u64 (from_le_bytes _ + 2)).
  unfold TOOL_RESULT_OFF in *.
  destruct (area_write token base m (base + 0x100 + start) data) as (m1 & E1 & Hok1 & Hc1);
    [done|done|lia|unfold CONTEXT_AREA_DEFAULT_SIZE; lia|].
  rewrite E1. cbn [mbind outcome_bind].
  destruct (area_write token base m1 (base + 8) (to_le_bytes 8 seq)) as (m2 & E2 & Hok2 & Hc2);
    [done|done|lia|rewrite length_to_le_bytes; unfold CONTEXT_AREA_DEFAULT_SIZE; lia|].
  rewrite E2. cbn [mbind outcome_bind].
  rewrite !(wrap_small 32) by lia.
  destruct (area_write token base m2 (base + 20) (to_le_bytes 4 (start + len))) as (m3 & E3 & Hok3 & Hc3);
    [done|done|lia|rewrite length_to_le_bytes; unfold CONTEXT_AREA_DEFAULT_SIZE; lia|].
  rewrite E3. cbn [mbind outcome_bind]. exists m3.
  assert (Hin : in_area base (base + 0x100 + start) data) by (unfold in_area, CONTEXT_AREA_DEFAULT_SIZE; lia).
  split_and!; [done|done| | |].
  - eapply (written_other token base); [done|done|exact Hc3|rewrite length_to_le_bytes; lia|].
    eapply (written_other token base); [done|done|exact Hc2|rewrite length_to_le_bytes; lia|].
    by eapply (written_same token base); [|done|exact Hc1].
  - eapply (written_same token base); [done| |exact Hc3].
    unfold in_area, TR_LEN_FIELD, CONTEXT_AREA_DEFAULT_SIZE. rewrite length_to_le_bytes. lia.
  - intros x Hx H1 H2 H3. rewrite Hc3, mem_write_out, Hc2, mem_write_out, Hc1, mem_write_out
      by (try done; rewrite ?length_to_le_bytes; lia). done.
Qed.
End RingProofs.

(** A fresh agent starts with an empty, consistent path. The header that
    [init_header] writes makes the context area represent the empty path of
    the new [AgentExt] - so every run of path operations from there is
    specified - and carries the documented magic, version and section table. *)
Theorem init_header_starts_empty_path {M} `{UM : !UserMem M} token `{UL : !UserLaws M token}
    pad base size ty maxn maxb m :
  area_ok token base → u_ok m → length pad = 4%nat → 0 ≤ maxn → 0 ≤ maxb →
  ∃ m', init_header pad base token m = Ret m' ∧ u_ok m' ∧
    path_rep (content m') (AgentExt_new ty base size maxn maxb) [] ∧
    bytes_at (content m') base (to_le_bytes 4 HEADER_MAGIC ++ to_le_bytes 4 HEADER_VERSION) ∧
    bytes_at (content m') (base + 16) (to_le_bytes 4 TOOL_RESULT_OFF ++ to_le_bytes 4 TOOL_RESULT_LEN) ∧
    bytes_at (content m') (base + 28) (to_le_bytes 4 PATH_BUFFER_OFF ++ to_le_bytes 4 PATH_BUFFER_LEN) ∧
    bytes_at (content m') (base + 44) (to_le_bytes 4 HISTORY_OFF ++ to_le_bytes 4 HISTORY_LEN) ∧
    (∀ x, u_win x → ¬ (base ≤ x < base + HEADER_LEN) → content m' x = content m x).
Proof.
  intros Ha Hok Hp Hn Hb. destruct (init_header_ok token pad base m Ha Hok Hp) as (m' & E & Hok' & Hh & Hs).
  exists m'. split_and!; [done|done| | | | | |].
  - split; [split; simpl; [done|done|apply bytes_at_nil|done]| |].
    + by apply (bytes_at_slice _ base header_fields 36 4) in Hh; [|vm_compute; lia].
    + by apply (bytes_at_slice _ base header_fields 40 4) in Hh; [|vm_compute; lia].
  - apply (bytes_at_slice _ base header_fields 0 8) in Hh; [|vm_compute; lia]. by rewrite Z.add_0_r in Hh.
  - by apply (bytes_at_slice _ base header_fields 16 8) in Hh; [|vm_compute; lia].
  - by apply (bytes_at_slice _ base header_fields 28 8) in Hh; [|vm_compute; lia].
  - by apply (bytes_at_slice _ base header_fields 44 8) in Hh; [|vm_compute; lia].
  - intros x Hx Hout. apply Hs; [done|]. unfold HEADER_LEN in Hout. lia.
Qed.

(** [write_tool_result] stays inside the ring but keeps its position in
    the wrong field. A result that fits is stored whole inside the tool-result
    section and nothing but that and the header words at offsets 8 and 20
    changes; the position it uses and advances is the word at offset 20, which
    the layout declares to be [tool_result_len] - after the first write of a
    fresh area the section length reads as the size of that result, while
    [tool_result_write_pos] (offset 24) stays 0. *)
Theorem write_tool_result_bounds {M} `{UM : !UserMem M} token `{UL : !UserLaws M token} base data m :
  area_ok token base → u_ok m → bytes_at (content m) base header_fields →
  0 < Z.of_nat (length data) ≤ TOOL_RESULT_LEN →
  let len := Z.of_nat (length data) in
  ∃ m', write_tool_result base token data m = Ret (Some (TOOL_RESULT_OFF, len), m') ∧ u_ok m' ∧
    bytes_at (content m') (base + TOOL_RESULT_OFF) data ∧
    bytes_at (content m') (base + TR_LEN_FIELD) (to_le_bytes 4 len) ∧
    bytes_at (content m') (base + TR_WRITE_POS_FIELD) (to_le_bytes 4 0) ∧
    (∀ x, u_win x → ¬ (base + 8 ≤ x < base + 16) → ¬ (base + 20 ≤ x < base + 24) →
       ¬ (base + TOOL_RESULT_OFF ≤ x < base + TOOL_RESULT_OFF + TOOL_RESULT_LEN) →
       content m' x = content m x).
Proof.
  intros Ha Hok Hh Hl len.
  destruct (write_tool_result_ok token base data m Ha Hok ltac:(lia)) as (m' & E & Hok' & Hd & Hp & Hs).
  assert (Hpos : ring_pos (content m) base = TOOL_RESULT_LEN).
  { pose proof (bytes_at_slice _ base header_fields 20 4 Hh ltac:(vm_compute; lia)) as Hf.
    apply bytes_at_mem_read in Hf. unfold ring_pos. 
    change (length (slice 20 4 header_fields)) with 4%nat in Hf.
    change (base + TR_LEN_FIELD) with (base + Z.of_nat 20). rewrite Hf. by vm_compute. }
  assert (Hst : ring_start (content m) base len = 0).
  { unfold ring_start. rewrite Hpos. by rewrite (proj2 (Z.ltb_lt _ _)) by lia. }
  fold len in E, Hd, Hp, Hs. rewrite Hst in E, Hd, Hp, Hs. rewrite Z.add_0_r in E, Hd. rewrite Z.add_0_l in Hp.
  exists m'. split_and!; try done.
  - apply (bytes_at_ext (content m)).
    2:{ by apply (bytes_at_slice _ base header_fields 24 4) in Hh; [|vm_compute; lia]. }
    rewrite length_to_le_bytes. unfold TR_WRITE_POS_FIELD, TOOL_RESULT_OFF in *. intros x Hx. pose proof (ar_range _ _ Ha).
    apply Hs; [apply (ar_win _ _ Ha); unfold CONTEXT_AREA_DEFAULT_SIZE; lia|lia..].
  - intros x Hx H1 H2 H3. apply Hs; try done. lia.
Qed.

(** ** Witnesses *)
Abbreviation demo_um := (@mem_user_mem DemoPlatform.demo).
Abbreviation demo_ul tk := (@mem_user_laws DemoPlatform.demo _ tk demo_W demo_frame).

Lemma init_header_starts_empty_path_witness :
  ∃ tk m m', @init_header Mem demo_um [x00; x00; x00; x00] CONTEXT_AREA_BASE tk m = Ret m' ∧
    @uspace DemoPlatform.demo tk demo_W demo_frame m' ∧
    path_rep (λ va, m' (upa demo_frame va))
      (AgentExt_new ATNormal CONTEXT_AREA_BASE CONTEXT_AREA_DEFAULT_SIZE 128 16384) [] ∧
    bytes_at (λ va, m' (upa demo_frame va)) CONTEXT_AREA_BASE (to_le_bytes 4 HEADER_MAGIC ++ to_le_bytes 4 HEADER_VERSION) ∧
    bytes_at (λ va, m' (upa demo_frame va)) (CONTEXT_AREA_BASE + 16) (to_le_bytes 4 TOOL_RESULT_OFF ++ to_le_bytes 4 TOOL_RESULT_LEN) ∧
    bytes_at (λ va, m' (upa demo_frame va)) (CONTEXT_AREA_BASE + 28) (to_le_bytes 4 PATH_BUFFER_OFF ++ to_le_bytes 4 PATH_BUFFER_LEN) ∧
    bytes_at (λ va, m' (upa demo_frame va)) (CONTEXT_AREA_BASE + 44) (to_le_bytes 4 HISTORY_OFF ++ to_le_bytes 4 HISTORY_LEN) ∧
    (∀ x, demo_W (x / PAGE_SIZE) → ¬ (CONTEXT_AREA_BASE ≤ x < CONTEXT_AREA_BASE + HEADER_LEN) →
       m' (upa demo_frame x) = m (upa demo_frame x)).
Proof.
  destruct demo_space as (pt & ph & _ & Hus). exists (token pt), (mem ph).
  apply (@init_header_starts_empty_path Mem demo_um (token pt) (demo_ul (token pt)) [x00; x00; x00; x00]).
  - apply (demo_area (token pt)).
  - exact Hus.
  - reflexivity.
  - lia.
  - lia.
Defined.

Lemma write_tool_result_bounds_witness :
  ∃ tk m m', @write_tool_result Mem demo_um CONTEXT_AREA_BASE tk [x01; x02] m = Ret (Some (TOOL_RESULT_OFF, 2), m') ∧
    @uspace DemoPlatform.demo tk demo_W demo_frame m' ∧
    bytes_at (λ va, m' (upa demo_frame va)) (CONTEXT_AREA_BASE + TOOL_RESULT_OFF) [x01; x02] ∧
    bytes_at (λ va, m' (upa demo_frame va)) (CONTEXT_AREA_BASE + TR_LEN_FIELD) (to_le_bytes 4 2) ∧
    bytes_at (λ va, m' (upa demo_frame va)) (CONTEXT_AREA_BASE + TR_WRITE_POS_FIELD) (to_le_bytes 4 0) ∧
    (∀ x, demo_W (x / PAGE_SIZE) → ¬ (CONTEXT_AREA_BASE + 8 ≤ x < CONTEXT_AREA_BASE + 16) →
       ¬ (CONTEXT_AREA_BASE + 20 ≤ x < CONTEXT_AREA_BASE + 24) →
       ¬ (CONTEXT_AREA_BASE + TOOL_RESULT_OFF ≤ x < CONTEXT_AREA_BASE + TOOL_RESULT_OFF + TOOL_RESULT_LEN) →
       m' (upa demo_frame x) = m (upa demo_frame x)).
Proof.
  destruct demo_space as (pt & ph & _ & Hus).
  destruct (@init_header_ok Mem demo_um (token pt) (demo_ul (token pt)) [x00; x00; x00; x00] CONTEXT_AREA_BASE (mem ph))
    as (m & _ & Hok & Hh & _); [apply (demo_area (token pt))|exact Hus|reflexivity|].
  exists (token pt), m.
  apply (@write_tool_result_bounds Mem demo_um (token pt) (demo_ul (token pt)) CONTEXT_AREA_BASE [x01; x02] m).
  - apply (demo_area (token pt)).
  - exact Hok.
  - exact Hh.
  - by vm_compute.
Defined.
