(* ===== verification/Task.v ===== *)
(** * Tasks and the scheduler ([os/src/task/])

    The kernel's global state is one record: the live control blocks by pid,
    the ready queue, the processor, the blocked agents, the pid allocator,
    physical memory and the kernel address space.  An [Arc] to a control block
    is its pid; [strong_count] counts the places of the state that hold one,
    and a control block is dropped, explicitly, where the last one goes.
    A saved [TaskContext] is what the task continues with. *)

From S2P Require Import Prelude Address PhysMem FrameAlloc PageTable MemorySet UserCopy PcbExt FileAttr.

(** ** Pids and kernel stacks ([pid.rs]) *)
Record PidAllocator : Type := mkPidAllocator { pid_current : Z; pid_recycled : list Z }.

Definition PidAllocator_new : PidAllocator := mkPidAllocator 0 [].

Definition pa_alloc (a : PidAllocator) : Z * PidAllocator :=
  match vec_pop (pid_recycled a) with
  | Some (pid, rest) => (pid, mkPidAllocator (pid_current a) rest)
  | None =>
      let cur := usize (pid_current a + 1) in
      (usize (cur - 1), mkPidAllocator cur (pid_recycled a))
  end.

Definition pa_dealloc (pid : Z) (a : PidAllocator) : outcome PidAllocator :=
  _ ← rassert (pid <? pid_current a);
  _ ← rassert (negb (existsb (λ p, p =? pid) (pid_recycled a)));
  Ret (mkPidAllocator (pid_current a) (pid_recycled a ++ [pid])).

Definition kernel_stack_position (app_id : Z) : Z * Z :=
  let top := usize (TRAMPOLINE - app_id * (KERNEL_STACK_SIZE + PAGE_SIZE)) in
  let bottom := usize (top - KERNEL_STACK_SIZE) in
  (bottom, top).

(** [KernelStack::new], [get_top] and its [Drop]. *)
Definition KernelStack_new `{Platform} (pid : Z) (ks : MemorySet) (ph : Phys) : outcome (MemorySet * Phys) :=
  let '(bottom, top) := kernel_stack_position pid in
  insert_framed_area (VirtAddr_from bottom) (VirtAddr_from top) (Z.lor MP_R MP_W) ks ph.

Definition get_top (pid : Z) : Z := (kernel_stack_position pid).2.

Definition KernelStack_drop `{Platform} (pid : Z) (ks : MemorySet) (ph : Phys) : outcome (MemorySet * Phys) :=
  let '(bottom, _) := kernel_stack_position pid in
  vpn ← VirtPageNum_of_VirtAddr (VirtAddr_from bottom);
  remove_area_with_start_vpn vpn ks ph.

(** ** Trap contexts ([trap/context.rs]): the first words of a page *)
Definition X_OFF (i : Z) : Z := 8 * i.
Definition SEPC_OFF : Z := 264.
Definition KERNEL_SP_OFF : Z := 280.

(** [TrapContext::app_init_context]; [sstatus] is the register after
    [set_spp(User)]. *)
Definition app_init_context (sstatus entry sp kernel_satp kernel_sp trap_handler : Z) : list byte :=
  replicate 16 x00 ++ to_le_bytes 8 sp ++ replicate 232 x00 ++
  to_le_bytes 8 sstatus ++ to_le_bytes 8 entry ++ to_le_bytes 8 kernel_satp ++
  to_le_bytes 8 kernel_sp ++ to_le_bytes 8 trap_handler.

(** ** Control blocks ([task.rs]) *)
Inductive TaskStatus : Type := Ready | Running | Zombie | Blocked.

#[global] Instance TaskStatus_eq_dec : EqDecision TaskStatus.
Proof. solve_decision. Defined.

(** Where a task continues when [__switch] returns to it: at [trap_return],
    in the timer branch of [trap_handler], in [sys_yield], inside the loop
    of [sys_agent_wait] with its locals (start time, timeout, deadline), or
    inside the loop of [Stdin::read] with the pieces of the user's buffer. *)
Inductive TaskContext : Type :=
  | goto_trap_return (kstack_ptr : Z)
  | after_timer
  | after_yield
  | in_agent_wait (start_ms timeout_ms : Z) (deadline : option Z)
  | in_stdin_read (buffers : list (Z * Z * Z)).

Inductive FileObj : Type := FStdin | FStdout | FOSInode (handle : Z).

Record TaskControlBlock : Type := mkTCB {
  trap_cx_ppn : Z;
  base_size : Z;
  task_cx : TaskContext;
  task_status : TaskStatus;
  memory_set : MemorySet;
  parent : option Z;
  children : list Z;
  exit_code : Z;
  fd_table : list (option FileObj);
  agent_ext : option AgentExt;
  priority : Z;
}.

Definition DEFAULT_PRIORITY : Z := 16.
Definition MAX_PRIORITY : Z := 255.

Definition set_status (s : TaskStatus) (t : TaskControlBlock) : TaskControlBlock :=
  mkTCB (trap_cx_ppn t) (base_size t) (task_cx t) s (memory_set t) (parent t) (children t)
    (exit_code t) (fd_table t) (agent_ext t) (priority t).
Definition set_cx (c : TaskContext) (t : TaskControlBlock) : TaskControlBlock :=
  mkTCB (trap_cx_ppn t) (base_size t) c (task_status t) (memory_set t) (parent t) (children t)
    (exit_code t) (fd_table t) (agent_ext t) (priority t).
Definition set_memory (ppn : Z) (ms : MemorySet) (t : TaskControlBlock) : TaskControlBlock :=
  mkTCB ppn (base_size t) (task_cx t) (task_status t) ms (parent t) (children t)
    (exit_code t) (fd_table t) (agent_ext t) (priority t).
Definition set_parent (p : option Z) (t : TaskControlBlock) : TaskControlBlock :=
  mkTCB (trap_cx_ppn t) (base_size t) (task_cx t) (task_status t) (memory_set t) p (children t)
    (exit_code t) (fd_table t) (agent_ext t) (priority t).
Definition set_children (cs : list Z) (t : TaskControlBlock) : TaskControlBlock :=
  mkTCB (trap_cx_ppn t) (base_size t) (task_cx t) (task_status t) (memory_set t) (parent t) cs
    (exit_code t) (fd_table t) (agent_ext t) (priority t).
Definition set_exit_code (c : Z) (t : TaskControlBlock) : TaskControlBlock :=
  mkTCB (trap_cx_ppn t) (base_size t) (task_cx t) (task_status t) (memory_set t) (parent t) (children t)
    c (fd_table t) (agent_ext t) (priority t).
Definition set_fds (fds : list (option FileObj)) (t : TaskControlBlock) : TaskControlBlock :=
  mkTCB (trap_cx_ppn t) (base_size t) (task_cx t) (task_status t) (memory_set t) (parent t) (children t)
    (exit_code t) fds (agent_ext t) (priority t).
Definition set_ext (e : option AgentExt) (t : TaskControlBlock) : TaskControlBlock :=
  mkTCB (trap_cx_ppn t) (base_size t) (task_cx t) (task_status t) (memory_set t) (parent t) (children t)
    (exit_code t) (fd_table t) e (priority t).
Definition set_priority (p : Z) (t : TaskControlBlock) : TaskControlBlock :=
  mkTCB (trap_cx_ppn t) (base_size t) (task_cx t) (task_status t) (memory_set t) (parent t) (children t)
    (exit_code t) (fd_table t) (agent_ext t) p.

(** [get_user_token], [is_zombie] and [alloc_fd]. *)
Definition get_user_token (t : TaskControlBlock) : Z := ms_token (memory_set t).
Definition is_zombie (t : TaskControlBlock) : bool := bool_decide (task_status t = Zombie).

Definition alloc_fd (t : TaskControlBlock) : Z * TaskControlBlock :=
  match list_find (λ o, o = None) (fd_table t) with
  | Some (fd, _) => (Z.of_nat fd, t)
  | None =>
      let fds := fd_table t ++ [None] in
      (Z.of_nat (length fds) - 1, set_fds fds t)
  end.

#[global] Instance FileObj_eq_dec : EqDecision FileObj.
Proof. solve_decision. Defined.

(** ** The kernel state *)
Record Kernel : Type := mkKernel {
  tcbs : gmap Z TaskControlBlock;
  ready_queue : list Z;
  processor : option Z;
  blocked : list (Z * option Z);
  pids : PidAllocator;
  phys : Phys;
  kernel_space : MemorySet;
  attr_store : FileAttrStore;
}.

(** [INITPROC] is the first task created, hence pid 0. *)
Definition INITPROC : Z := 0.
Definition IDLE_PID : Z := 0.

Definition with_tcbs (m : gmap Z TaskControlBlock) (k : Kernel) : Kernel :=
  mkKernel m (ready_queue k) (processor k) (blocked k) (pids k) (phys k) (kernel_space k) (attr_store k).
Definition with_ready (q : list Z) (k : Kernel) : Kernel :=
  mkKernel (tcbs k) q (processor k) (blocked k) (pids k) (phys k) (kernel_space k) (attr_store k).
Definition with_processor (p : option Z) (k : Kernel) : Kernel :=
  mkKernel (tcbs k) (ready_queue k) p (blocked k) (pids k) (phys k) (kernel_space k) (attr_store k).
Definition with_blocked (b : list (Z * option Z)) (k : Kernel) : Kernel :=
  mkKernel (tcbs k) (ready_queue k) (processor k) b (pids k) (phys k) (kernel_space k) (attr_store k).
Definition with_pids (a : PidAllocator) (k : Kernel) : Kernel :=
  mkKernel (tcbs k) (ready_queue k) (processor k) (blocked k) a (phys k) (kernel_space k) (attr_store k).
Definition with_phys (ph : Phys) (k : Kernel) : Kernel :=
  mkKernel (tcbs k) (ready_queue k) (processor k) (blocked k) (pids k) ph (kernel_space k) (attr_store k).
Definition with_kspace (ms : MemorySet) (k : Kernel) : Kernel :=
  mkKernel (tcbs k) (ready_queue k) (processor k) (blocked k) (pids k) (phys k) ms (attr_store k).
Definition with_attrs (s : FileAttrStore) (k : Kernel) : Kernel :=
  mkKernel (tcbs k) (ready_queue k) (processor k) (blocked k) (pids k) (phys k) (kernel_space k) s.

(** [task.inner_exclusive_access()]: read, and update, a control block. *)
Definition get_task (pid : Z) (k : Kernel) : outcome TaskControlBlock := unwrap (tcbs k !! pid).
Definition upd_task (pid : Z) (f : TaskControlBlock → TaskControlBlock) (k : Kernel) : Kernel :=
  with_tcbs (alter f pid (tcbs k)) k.

(** The number of [Arc]s the state holds to a task. *)
Definition count_pid (pid : Z) (l : list Z) : nat := length (filter (λ p, p = pid) l).
Definition all_children (m : gmap Z TaskControlBlock) : list Z := map_to_list m ≫= λ p, children p.2.
Definition strong_count (pid : Z) (k : Kernel) : nat :=
  count_pid pid (ready_queue k) + count_pid pid (option_list (processor k)) +
  count_pid pid (blocked k).*1 + count_pid pid (all_children (tcbs k)) +
  (if decide (pid = INITPROC) then 1 else 0).

Section Kernel.
Context {PF : Platform}.

(** ** The task manager ([manager.rs]) and the processor ([processor.rs]) *)
Definition add_task (pid : Z) (k : Kernel) : Kernel := with_ready (ready_queue k ++ [pid]) k.

(** The scan of [TaskManager::fetch] over the rest of the queue. *)
Fixpoint fetch_scan (k : Kernel) (best_idx : nat) (best_prio : Z) (i : nat) (q : list Z) : outcome nat :=
  match q with
  | [] => Ret best_idx
  | pid :: q =>
      t ← get_task pid k;
      if best_prio <? priority t then fetch_scan k i (priority t) (S i) q
      else fetch_scan k best_idx best_prio (S i) q
  end.

Definition fetch_task (k : Kernel) : outcome (option Z * Kernel) :=
  match ready_queue k with
  | [] => Ret (None, k)
  | pid :: q =>
      t ← get_task pid k;
      best_idx ← fetch_scan k 0 (priority t) 1 q;
      Ret (ready_queue k !! best_idx, with_ready (vec_remove best_idx (ready_queue k)) k)
  end.

Definition take_current_task (k : Kernel) : option Z * Kernel := (processor k, with_processor None k).
Definition current_task (k : Kernel) : option Z := processor k.
Definition current_user_token (k : Kernel) : outcome Z :=
  pid ← unwrap (current_task k); t ← get_task pid k; Ret (get_user_token t).

(** One iteration of [run_tasks]. *)
Definition run_tasks_step (k : Kernel) : outcome Kernel :=
  '(o, k) ← fetch_task k;
  match o with
  | None => Ret k
  | Some pid =>
      _ ← get_task pid k;
      Ret (with_processor (Some pid) (upd_task pid (set_status Running) k))
  end.

(** ** Task management ([mod.rs]); [schedule] leaves the processor idle, and
    [cx] is what the suspended task continues with. *)
Definition suspend_current_and_run_next (cx : TaskContext) (k : Kernel) : outcome Kernel :=
  let '(o, k) := take_current_task k in
  pid ← unwrap o;
  _ ← get_task pid k;
  let k := upd_task pid (λ t, set_cx cx (set_status Ready t)) k in
  Ret (add_task pid k).

(** Dropping a control block: pid, kernel stack, address space. *)
Definition drop_task (pid : Z) (k : Kernel) : outcome Kernel :=
  t ← get_task pid k;
  a ← pa_dealloc pid (pids k);
  '(ks, ph) ← KernelStack_drop pid (kernel_space k) (phys k);
  ph ← drop_memory_set (memory_set t) ph;
  Ret (with_tcbs (delete pid (tcbs k)) (with_pids a (with_kspace ks (with_phys ph k)))).

(** Dropping a local [Arc] to [pid]. *)
Definition drop_arc (pid : Z) (k : Kernel) : outcome Kernel :=
  if decide (strong_count pid k = 0%nat) then drop_task pid k else Ret k.

(** The reparenting loop of [exit_current_and_run_next]. *)
Fixpoint reparent (cs : list Z) (k : Kernel) : outcome Kernel :=
  match cs with
  | [] => Ret k
  | c :: cs =>
      _ ← get_task c k;
      let k := upd_task c (set_parent (Some INITPROC)) k in
      _ ← get_task INITPROC k;
      let k := upd_task INITPROC (λ t, set_children (children t ++ [c]) t) k in
      reparent cs k
  end.

(** [exit_current_and_run_next]; [None] is the shutdown of the machine when
    the idle process exits. *)
Definition exit_current_and_run_next (code : Z) (k : Kernel) : outcome (option Kernel) :=
  let '(o, k) := take_current_task k in
  pid ← unwrap o;
  if pid =? IDLE_PID then Ret None else
  t ← get_task pid k;
  let k := upd_task pid (λ t, set_exit_code code (set_status Zombie t)) k in
  k ← reparent (children t) k;
  let k := upd_task pid (set_children []) k in
  t ← get_task pid k;
  '(ms, ph) ← recycle_data_pages (memory_set t) (phys k);
  let k := upd_task pid (set_memory (trap_cx_ppn t) ms) (with_phys ph k) in
  k ← drop_arc pid k;
  Ret (Some k).

(** [snapshot_all_processes]: breadth first from [INITPROC]. *)
Fixpoint snapshot_loop (fuel : nat) (q out : list Z) (k : Kernel) : outcome (list Z) :=
  match q with
  | [] => Ret out
  | pid :: q =>
      match fuel with
      | O => NoFuel
      | S fuel =>
          t ← get_task pid k;
          snapshot_loop fuel (q ++ children t) (out ++ [pid]) k
      end
  end.

Definition snapshot_all_processes (k : Kernel) : outcome (list Z) :=
  snapshot_loop (size (tcbs k)) [INITPROC] [] k.

(** ** Creating tasks ([task.rs]) *)
Definition trap_cx_page (ms : MemorySet) (m : Mem) : outcome Z :=
  vpn ← VirtPageNum_of_VirtAddr (VirtAddr_from TRAP_CONTEXT);
  r ← ms_translate vpn ms m;
  pte ← unwrap r;
  Ret (pte_ppn pte).

(** [TaskControlBlock::new]: the control block, and the state it leaves. *)
Definition TCB_new `{!ElfParser} (sstatus : Z) (elf_data : list byte) (k : Kernel)
    : outcome (Z * Kernel) :=
  '(ms, user_sp, entry_point, ph) ← from_elf elf_data (phys k);
  ppn ← trap_cx_page ms (mem ph);
  let '(pid, a) := pa_alloc (pids k) in
  '(ks, ph) ← KernelStack_new pid (kernel_space k) ph;
  let kernel_stack_top := get_top pid in
  let t := mkTCB ppn user_sp (goto_trap_return kernel_stack_top) Ready ms None [] 0
             [Some FStdin; Some FStdout; Some FStdout] None DEFAULT_PRIORITY in
  m ← set_bytes (mem ph) ppn 0
        (app_init_context sstatus entry_point user_sp (ms_token ks) kernel_stack_top trap_handler_addr);
  Ret (pid, with_tcbs (<[pid := t]> (tcbs k))
              (with_pids a (with_kspace ks (with_phys (mkPhys m (falloc ph)) k)))).

(** [TaskControlBlock::exec]. *)
Definition TCB_exec `{!ElfParser} (sstatus : Z) (pid : Z) (elf_data : list byte) (k : Kernel)
    : outcome Kernel :=
  '(ms, user_sp, entry_point, ph) ← from_elf elf_data (phys k);
  ppn ← trap_cx_page ms (mem ph);
  t ← get_task pid k;
  ph ← drop_memory_set (memory_set t) ph;
  m ← set_bytes (mem ph) ppn 0
        (app_init_context sstatus entry_point user_sp (ms_token (kernel_space k)) (get_top pid) trap_handler_addr);
  Ret (upd_task pid (set_memory ppn ms) (with_phys (mkPhys m (falloc ph)) k)).

(** [TaskControlBlock::fork]. *)
Definition TCB_fork (pid : Z) (k : Kernel) : outcome (Z * Kernel) :=
  t ← get_task pid k;
  '(ms, ph) ← from_existed_user (memory_set t) (phys k);
  ppn ← trap_cx_page ms (mem ph);
  let '(new_pid, a) := pa_alloc (pids k) in
  '(ks, ph) ← KernelStack_new new_pid (kernel_space k) ph;
  let kernel_stack_top := get_top new_pid in
  let new_fd_table := fd_table t in
  let child := mkTCB ppn (base_size t) (goto_trap_return kernel_stack_top) Ready ms (Some pid) [] 0
                 new_fd_table None (priority t) in
  let t := set_children (children t ++ [new_pid]) t in
  m ← set_bytes (mem ph) ppn KERNEL_SP_OFF (to_le_bytes 8 kernel_stack_top);
  Ret (new_pid, with_tcbs (<[new_pid := child]> (<[pid := t]> (tcbs k)))
                  (with_pids a (with_kspace ks (with_phys (mkPhys m (falloc ph)) k)))).

(** ** Process syscalls ([syscall/process.rs]) *)
Definition sys_yield (k : Kernel) : outcome Kernel := suspend_current_and_run_next after_yield k.

Definition sys_getpid (k : Kernel) : outcome (Z * Kernel) :=
  pid ← unwrap (current_task k); Ret (pid, k).

Definition sys_fork (k : Kernel) : outcome (Z * Kernel) :=
  pid ← unwrap (current_task k);
  '(new_pid, k) ← TCB_fork pid k;
  t ← get_task new_pid k;
  m ← set_bytes (mem (phys k)) (trap_cx_ppn t) (X_OFF 10) (to_le_bytes 8 0);
  let k := with_phys (mkPhys m (falloc (phys k))) k in
  Ret (new_pid, add_task new_pid k).

(** [*translated_refmut::<i32>(token, ptr) = v]: the four bytes at the
    physical address of the first one. *)
Definition write_i32 (token ptr v : Z) (m : Mem) : outcome Mem :=
  r ← translate_va (VirtAddr_from ptr) (from_token token) m;
  pa ← unwrap r;
  _ ← rassert (page_writable (pa / PAGE_SIZE) && page_writable ((pa + 3) / PAGE_SIZE));
  Ret (mem_write m pa (to_le_bytes 4 v)).

(** The first zombie child that is wanted. *)
Fixpoint find_zombie (wanted : Z → bool) (i : nat) (cs : list Z) (k : Kernel) : outcome (option nat) :=
  match cs with
  | [] => Ret None
  | c :: cs =>
      tc ← get_task c k;
      if is_zombie tc && wanted c then Ret (Some i) else find_zombie wanted (S i) cs k
  end.

Definition sys_waitpid (pid exit_code_ptr : Z) (k : Kernel) : outcome (Z * Kernel) :=
  cur ← unwrap (current_task k);
  t ← get_task cur k;
  let wanted c := (pid =? -1) || (u64 pid =? c) in
  if negb (existsb wanted (children t)) then Ret (-1, k) else
  pair ← find_zombie wanted 0 (children t) k;
  match pair with
  | None => Ret (-2, k)
  | Some idx =>
      child ← unwrap (children t !! idx);
      let k := upd_task cur (λ t, set_children (vec_remove idx (children t)) t) k in
      _ ← rassert (bool_decide (strong_count child k = 0%nat));
      tc ← get_task child k;
      m ← write_i32 (get_user_token t) exit_code_ptr (exit_code tc) (mem (phys k));
      let k := with_phys (mkPhys m (falloc (phys k))) k in
      k ← drop_task child k;
      Ret (child, k)
  end.
End Kernel.
