(* ===== verification/OsFile.v ===== *)
(** * Open files ([os/src/fs/])

    The machine is the kernel state together with the open [OSInode]s, the
    disk behind the block cache, and what was printed.  An [Arc<OSInode>] is
    its index; dropping one frees memory and nothing else, so objects are
    never removed.  Files read from and write to a [UserBuffer]: the pieces of
    physical pages that [translated_byte_buffer] returns. *)

From S2P Require Import Prelude Address PhysMem FrameAlloc PageTable MemorySet UserCopy Utf8 Task Blocks Layout LayoutLemmas Efs Vfs.

Abbreviation Chunk := (Z * Z * Z)%type.

Record OSInode : Type := mkOSInode { os_readable : bool; os_writable : bool; os_offset : Z; os_inode : Inode }.

Record Machine (S : Type) : Type := mkMachine {
  kern : Kernel;
  os_inodes : list OSInode;
  rootfs : EasyFileSystem;
  disk : S;
  console : list byte;
}.
Arguments mkMachine {S} kern os_inodes rootfs disk console.
Arguments kern {S} m.
Arguments os_inodes {S} m.
Arguments rootfs {S} m.
Arguments disk {S} m.
Arguments console {S} m.

Definition with_kern {S} (k : Kernel) (m : Machine S) : Machine S :=
  mkMachine k (os_inodes m) (rootfs m) (disk m) (console m).
Definition with_files {S} (l : list OSInode) (m : Machine S) : Machine S :=
  mkMachine (kern m) l (rootfs m) (disk m) (console m).
Definition with_disk {S} (s : S) (m : Machine S) : Machine S :=
  mkMachine (kern m) (os_inodes m) (rootfs m) s (console m).
Definition with_console {S} (c : list byte) (m : Machine S) : Machine S :=
  mkMachine (kern m) (os_inodes m) (rootfs m) (disk m) c.
Definition machine_mem {S} (m : Machine S) : Mem := mem (phys (kern m)).
Definition with_machine_mem {S} (x : Mem) (m : Machine S) : Machine S :=
  with_kern (with_phys (mkPhys x (falloc (phys (kern m)))) (kern m)) m.

(** ** Flags *)
Definition O_WRONLY : Z := Z.shiftl 1 0.
Definition O_RDWR : Z := Z.shiftl 1 1.
Definition O_CREATE : Z := Z.shiftl 1 9.
Definition O_TRUNC : Z := Z.shiftl 1 10.
Definition O_ALL : Z := Z.lor (Z.lor O_WRONLY O_RDWR) (Z.lor O_CREATE O_TRUNC).

(** [OpenFlags::from_bits] and [contains]. *)
Definition flags_from_bits (bits : Z) : option Z := if Z.land bits O_ALL =? bits then Some bits else None.
Definition flags_contains (flags f : Z) : bool := Z.land flags f =? f.

Definition read_write (flags : Z) : bool * bool :=
  if flags =? 0 then (true, false)
  else if flags_contains flags O_WRONLY then (false, true)
  else (true, true).

Section Kernel.
Context {PF : Platform}.

(** ** User buffers *)
Definition chunk_len (c : Chunk) : Z := let '(_, a, b) := c in b - a.
Definition UserBuffer_len (cs : list Chunk) : Z := foldr (λ c n, chunk_len c + n) 0 cs.

Definition chunk_bytes (c : Chunk) (x : Mem) : outcome (list byte) :=
  let '(ppn, a, b) := c in get_bytes x ppn a (Z.to_nat (b - a)).
Definition chunk_store (c : Chunk) (data : list byte) (x : Mem) : outcome Mem :=
  let '(ppn, a, b) := c in set_bytes x ppn a data.

(** ** [stdio.rs] *)

(** One turn of the loop of [Stdin::read] that read [c] from the console:
    [None] when the task was suspended. *)
Definition stdin_read_turn (c : Z) (cs : list Chunk) (k : Kernel) : outcome (option Z * Kernel) :=
  if c =? 0 then
    k ← suspend_current_and_run_next (in_stdin_read cs) k; Ret (None, k)
  else
    match cs with
    | [] => Panic
    | (ppn, a, _) :: _ =>
        x ← set_bytes (mem (phys k)) ppn a [byte_of_Z (wrap 8 c)];
        Ret (Some 1, with_phys (mkPhys x (falloc (phys k))) k)
    end.

Definition stdin_read (c : Z) (cs : list Chunk) (k : Kernel) : outcome (option Z * Kernel) :=
  _ ← rassert (UserBuffer_len cs =? 1);
  stdin_read_turn c cs k.

(** The loop of [Stdout::write]: what is printed. *)
Fixpoint stdout_loop (cs : list Chunk) (x : Mem) (out : list byte) : outcome (list byte) :=
  match cs with
  | [] => Ret out
  | c :: cs =>
      bs ← chunk_bytes c x;
      s ← unwrap (from_utf8 bs);
      stdout_loop cs x (out ++ name_of s)
  end.

End Kernel.

(** ** [inode.rs] *)
Section Files.
Context {PF : Platform}.
Context {S : Type} `{!BlockStore S}.

Definition advance (n : Z) (f : OSInode) : OSInode :=
  mkOSInode (os_readable f) (os_writable f) (usize (os_offset f + n)) (os_inode f).

(** The loop of [OSInode::read]; a read of nothing leaves its slice alone. *)
Fixpoint osinode_read (cs : list Chunk) (total : Z) (f : OSInode) (x : Mem) (s : S)
    : outcome (Z * OSInode * Mem * S) :=
  match cs with
  | [] => Ret (total, f, x, s)
  | c :: cs =>
      slice ← chunk_bytes c x;
      '(n, slice, s) ← inode_read_at (os_offset f) slice (os_inode f) s;
      if n =? 0 then Ret (total, f, x, s) else
      x ← chunk_store c slice x;
      osinode_read cs (usize (total + n)) (advance n f) x s
  end.

(** The loop of [OSInode::write]. *)
Fixpoint osinode_write (efs : EasyFileSystem) (cs : list Chunk) (total : Z) (f : OSInode) (x : Mem) (s : S)
    : outcome (Z * OSInode * S) :=
  match cs with
  | [] => Ret (total, f, s)
  | c :: cs =>
      slice ← chunk_bytes c x;
      '(n, s) ← inode_write_at efs (os_offset f) slice (os_inode f) s;
      _ ← rassert (n =? Z.of_nat (length slice));
      osinode_write efs cs (usize (total + n)) (advance n f) x s
  end.

(** [OSInode::read_all]: 512 bytes at a time until nothing comes. *)
Fixpoint read_all (fuel : nat) (buffer v : list byte) (f : OSInode) (s : S) : outcome (list byte * OSInode * S) :=
  match fuel with
  | O => NoFuel
  | Datatypes.S fuel =>
      '(len, buffer, s) ← inode_read_at (os_offset f) buffer (os_inode f) s;
      if len =? 0 then Ret (v, f, s)
      else read_all fuel buffer (v ++ take (Z.to_nat len) buffer) (advance len f) s
  end.

(** [open_file] *)
Definition open_file (efs : EasyFileSystem) (name : string) (flags : Z) (s : S) : outcome (option OSInode * S) :=
  let '(readable, writable) := read_write flags in
  let new inode := mkOSInode readable writable 0 inode in
  if flags_contains flags O_CREATE then
    '(o, s) ← find efs name (root_inode efs) s;
    match o with
    | Some inode => s ← inode_clear efs inode s; Ret (Some (new inode), s)
    | None => '(o, s) ← create efs name (root_inode efs) s; Ret (option_map new o, s)
    end
  else
    '(o, s) ← find efs name (root_inode efs) s;
    match o with
    | Some inode =>
        s ← (if flags_contains flags O_TRUNC then inode_clear efs inode s else Ret s);
        Ret (Some (new inode), s)
    | None => Ret (None, s)
    end.
End Files.
