(* ===== verification/Blocking.v ===== *)
(** * Sleeping agents ([os/src/agent/blocking.rs]) *)

From S2P Require Import Prelude PcbExt Task.

(** [block_current_agent]; [cx] is the loop of [sys_agent_wait] the agent
    will continue in. *)
Definition block_current_agent (wake_deadline_ms : option Z) (cx : TaskContext) (k : Kernel) : outcome Kernel :=
  let '(o, k) := take_current_task k in
  pid ← unwrap o;
  _ ← get_task pid k;
  let k := upd_task pid (λ t, set_cx cx (set_status Blocked t)) k in
  Ret (with_blocked (blocked k ++ [(pid, wake_deadline_ms)]) k).

(** [wake_one]. *)
Definition wake_one (pid : Z) (k : Kernel) : outcome Kernel :=
  _ ← get_task pid k;
  Ret (add_task pid (upd_task pid (set_status Ready) k)).

Definition wake_agent_by_pid (pid : Z) (k : Kernel) : outcome (bool * Kernel) :=
  match list_find (λ e, e.1 = pid) (blocked k) with
  | Some (idx, e) =>
      k ← wake_one e.1 (with_blocked (vec_swap_remove idx (blocked k)) k);
      Ret (true, k)
  | None => Ret (false, k)
  end.

(** The scan of [tick_wake_timeouts]: index [i], the tasks to wake and the
    list after the [swap_remove]s.  Each turn removes an entry or advances. *)
Definition expired (now_ms : Z) (d : option Z) : bool :=
  match d with Some d => d <=? now_ms | None => false end.

Fixpoint timeout_scan (fuel : nat) (now_ms : Z) (i : nat) (l : list (Z * option Z)) (to_wake : list Z)
    : outcome (list Z * list (Z * option Z)) :=
  match l !! i with
  | None => Ret (to_wake, l)
  | Some e =>
      match fuel with
      | O => NoFuel
      | S fuel =>
          if expired now_ms e.2 then timeout_scan fuel now_ms i (vec_swap_remove i l) (to_wake ++ [e.1])
          else timeout_scan fuel now_ms (S i) l to_wake
      end
  end.

Fixpoint wake_all (ps : list Z) (k : Kernel) : outcome Kernel :=
  match ps with
  | [] => Ret k
  | pid :: ps => k ← wake_one pid k; wake_all ps k
  end.

Definition tick_wake_timeouts (now_ms : Z) (k : Kernel) : outcome Kernel :=
  '(to_wake, l) ← timeout_scan (length (blocked k)) now_ms 0 (blocked k) [];
  wake_all to_wake (with_blocked l k).

Definition blocked_count (k : Kernel) : nat := length (blocked k).
