(* ===== verification/EventBus.v ===== *)
(** * Heartbeats, messages and file events ([os/src/agent/event_bus.rs])

    and the waiting loop of [sys_agent_wait] ([os/src/syscall/agent.rs]). *)

From S2P Require Import Prelude PcbExt Task Blocking.

Definition EVENT_HEARTBEAT : Z := Z.shiftl 1 0.
Definition EVENT_MESSAGE : Z := Z.shiftl 1 1.
Definition EVENT_FILE_MODIFIED : Z := Z.shiftl 1 2.

(** A loop over a snapshot that may update the agent extension of each task
    and collect its pid. *)
Fixpoint scan_agents (f : AgentExt → option AgentExt) (ts : list Z) (k : Kernel) : outcome (list Z * Kernel) :=
  match ts with
  | [] => Ret ([], k)
  | pid :: ts =>
      t ← get_task pid k;
      match agent_ext t ≫= f with
      | Some ext =>
          '(ps, k) ← scan_agents f ts (upd_task pid (set_ext (Some ext)) k);
          Ret (pid :: ps, k)
      | None => scan_agents f ts k
      end
  end.

(** [for pid in to_wake_pids { let _ = wake_agent_by_pid(pid); }] *)
Fixpoint wake_pids (ps : list Z) (k : Kernel) : outcome Kernel :=
  match ps with
  | [] => Ret k
  | pid :: ps => '(_, k) ← wake_agent_by_pid pid k; wake_pids ps k
  end.

(** One agent in [tick_all_agents]: the extension when its heartbeat fires. *)
Definition heartbeat_fire (now_ms : Z) (ext : AgentExt) : option AgentExt :=
  if 0 <? heartbeat_interval_ms ext then
    let elapsed := sat_sub now_ms (heartbeat_last_ms ext) in
    if heartbeat_interval_ms ext <=? elapsed
    then Some (set_heartbeat (heartbeat_interval_ms ext) now_ms true ext)
    else None
  else None.

Definition tick_all_agents (now_ms : Z) (k : Kernel) : outcome Kernel :=
  tasks ← snapshot_all_processes k;
  '(ps, k) ← scan_agents (heartbeat_fire now_ms) tasks k;
  wake_pids ps k.

(** The delivery into one mailbox. *)
Definition mailbox_push (payload : list byte) (ext : AgentExt) : outcome AgentExt :=
  mb ← (if mailbox_capacity ext <=? Z.of_nat (length (mailbox ext)) then
          match mailbox ext with
          | [] => Panic
          | _ :: mb => Ret mb
          end
        else Ret (mailbox ext));
  Ret (set_mailbox (mb ++ [payload]) ext).

Definition deliver_message (target_pid : Z) (payload : list byte) (k : Kernel) : outcome (bool * Kernel) :=
  tasks ← snapshot_all_processes k;
  '(delivered, k) ←
    (if bool_decide (target_pid ∈ tasks) then
       t ← get_task target_pid k;
       match agent_ext t with
       | Some ext =>
           ext ← mailbox_push payload ext;
           Ret (true, upd_task target_pid (set_ext (Some ext)) k)
       | None => Ret (false, k)
       end
     else Ret (false, k));
  if delivered : bool then
    '(_, k) ← wake_agent_by_pid target_pid k;
    Ret (true, k)
  else Ret (false, k).

Definition file_event_mark (ext : AgentExt) : option AgentExt :=
  if negb (Z.land (watched_events ext) EVENT_FILE_MODIFIED =? 0)
  then Some (set_file_event true ext) else None.

Definition broadcast_file_event (k : Kernel) : outcome Kernel :=
  tasks ← snapshot_all_processes k;
  '(ps, k) ← scan_agents file_event_mark tasks k;
  wake_pids ps k.

(** ** [sys_agent_wait] *)

(** The pending causes of an agent, and the mask of those it cares about. *)
Definition pending_events (ext : AgentExt) : Z :=
  let c := 0 in
  let c := if heartbeat_pending ext then Z.lor c EVENT_HEARTBEAT else c in
  let c := if bool_decide (mailbox ext = []) then c else Z.lor c EVENT_MESSAGE in
  if file_event_pending ext then Z.lor c EVENT_FILE_MODIFIED else c.

Definition wait_mask (ext : AgentExt) : Z :=
  if watched_events ext =? 0 then Z.lor EVENT_HEARTBEAT EVENT_MESSAGE else watched_events ext.

(** Consuming the triggered events. *)
Definition consume_events (triggered : Z) (ext : AgentExt) : AgentExt :=
  let ext := if negb (Z.land triggered EVENT_HEARTBEAT =? 0)
             then set_heartbeat (heartbeat_interval_ms ext) (heartbeat_last_ms ext) false ext else ext in
  if negb (Z.land triggered EVENT_FILE_MODIFIED =? 0) then set_file_event false ext else ext.

(** The body of the loop; [None] when the agent went to sleep. *)
Definition agent_wait_iter (start_ms timeout_ms : Z) (deadline : option Z) (now : Z) (k : Kernel)
    : outcome (option Z * Kernel) :=
  pid ← unwrap (current_task k);
  t ← get_task pid k;
  match agent_ext t with
  | None => Ret (Some (-4), k)
  | Some ext =>
      let triggered := Z.land (pending_events ext) (wait_mask ext) in
      let ext := consume_events triggered ext in
      let k := upd_task pid (set_ext (Some ext)) k in
      if negb (triggered =? 0) then
        Ret (Some triggered, upd_task pid (set_ext (Some (set_loop_state LIdle ext))) k)
      else if (0 <=? timeout_ms) && (timeout_ms <=? as_i64 (now - start_ms)) then
        Ret (Some 0, upd_task pid (set_ext (Some (set_loop_state LIdle ext))) k)
      else
        k ← block_current_agent deadline (in_agent_wait start_ms timeout_ms deadline) k;
        Ret (None, k)
  end.

(** The entry: [Thinking], the start time and the absolute deadline, then the
    first turn of the loop.  [now0], [now1], [now2] are the three readings of
    the clock. *)
Definition sys_agent_wait (timeout_ms now0 now1 now2 : Z) (k : Kernel) : outcome (option Z * Kernel) :=
  let start_ms := as_i64 now0 in
  pid ← unwrap (current_task k);
  t ← get_task pid k;
  let k := match agent_ext t with
           | Some ext => upd_task pid (set_ext (Some (set_loop_state LThinking ext))) k
           | None => k
           end in
  let deadline := if timeout_ms <? 0 then None
                  else Some (Z.max (as_i64 (as_i64 now1 + timeout_ms)) 0) in
  agent_wait_iter start_ms timeout_ms deadline now2 k.
