(* ===== verification/KernelInv.v ===== *)
(** * The scheduling invariant of the kernel

    Every live task is in exactly one place - ready queue, processor, blocked
    list, or none when it is a zombie - and the live tasks form a tree rooted
    at [INITPROC].  Each operation of [Task], [Blocking] and [EventBus]
    preserves the invariant; its consequences are the theorems. *)

From S2P Require Import Prelude Address PhysMem FrameAlloc PageTable MemorySet PcbExt Task Blocking EventBus.

Definition status_of (k : Kernel) (p : Z) : option TaskStatus := task_status <$> tcbs k !! p.
Definition children_of (k : Kernel) (p : Z) : list Z := from_option children [] (tcbs k !! p).
Definition parent_of (k : Kernel) (p : Z) : option Z := tcbs k !! p ≫= parent.

(** The pid allocator knows exactly the live pids. *)
Record pids_inv (a : PidAllocator) (m : gmap Z TaskControlBlock) : Prop := {
  pi_current : 0 ≤ pid_current a;
  pi_nodup : NoDup (pid_recycled a);
  pi_recycled p : p ∈ pid_recycled a → 0 ≤ p < pid_current a;
  pi_live p : is_Some (m !! p) ↔ 0 ≤ p < pid_current a ∧ p ∉ pid_recycled a;
}.

Record kinv (k : Kernel) : Prop := {
  k_ready p : p ∈ ready_queue k ↔ status_of k p = Some Ready;
  k_proc p : processor k = Some p ↔ status_of k p = Some Running;
  k_blocked p : p ∈ (blocked k).*1 ↔ status_of k p = Some Blocked;
  k_nd_ready : NoDup (ready_queue k);
  k_nd_blocked : NoDup (blocked k).*1;
  k_init : ∃ s, status_of k INITPROC = Some s ∧ s ≠ Zombie;
  k_children p c : c ∈ children_of k p →
    c ≠ INITPROC ∧ is_Some (tcbs k !! c) ∧ parent_of k c = Some p;
  k_nd_children p : NoDup (children_of k p);
  k_parent c : is_Some (tcbs k !! c) → c ≠ INITPROC → ∃ p, c ∈ children_of k p;
  k_rank : ∃ rank : Z → nat, ∀ p c, c ∈ children_of k p → (rank p < rank c)%nat;
  k_zombie p : status_of k p = Some Zombie → children_of k p = [];
  k_pids : pids_inv (pids k) (tcbs k);
}.

(** ** Reading an updated state *)
Lemma tcbs_upd p f k q :
  tcbs (upd_task p f k) !! q = if decide (q = p) then f <$> tcbs k !! q else tcbs k !! q.
Proof.
  unfold upd_task. simpl. case_decide; subst; [apply lookup_alter_eq|by apply lookup_alter_ne].
Qed.

Lemma get_task_Ret p k t : get_task p k = Ret t ↔ tcbs k !! p = Some t.
Proof. apply unwrap_Ret. Qed.

Lemma get_task_status p k s : status_of k p = Some s → ∃ t, get_task p k = Ret t ∧ task_status t = s.
Proof.
  unfold status_of, get_task. destruct (tcbs k !! p) as [t|]; simpl; [|done].
  intros [= <-]. eauto.
Qed.

Lemma status_of_upd p f k q :
  status_of (upd_task p f k) q =
    if decide (q = p) then (λ t, task_status (f t)) <$> tcbs k !! q else status_of k q.
Proof.
  unfold status_of. rewrite tcbs_upd. case_decide; [|done].
  by destruct (tcbs k !! q).
Qed.

Lemma status_of_set p s g k q :
  (∀ t, task_status (g t) = s) → is_Some (tcbs k !! p) →
  status_of (upd_task p g k) q = if decide (q = p) then Some s else status_of k q.
Proof.
  intros Hg [t Ht]. rewrite status_of_upd. case_decide; [|done]. subst. rewrite Ht. simpl. by rewrite Hg.
Qed.

Lemma children_of_upd_same p f k q :
  (∀ t, children (f t) = children t) → children_of (upd_task p f k) q = children_of k q.
Proof.
  intros Hf. unfold children_of. rewrite tcbs_upd. case_decide; [|done].
  destruct (tcbs k !! q); simpl; auto.
Qed.

Lemma parent_of_upd_same p f k q :
  (∀ t, parent (f t) = parent t) → parent_of (upd_task p f k) q = parent_of k q.
Proof.
  intros Hf. unfold parent_of. rewrite tcbs_upd. case_decide; [|done].
  destruct (tcbs k !! q); simpl; auto.
Qed.

Lemma live_upd p f k q : is_Some (tcbs (upd_task p f k) !! q) ↔ is_Some (tcbs k !! q).
Proof.
  rewrite tcbs_upd. case_decide; [|done]. destruct (tcbs k !! q); simpl; split; intros []; eauto; done.
Qed.

Lemma pids_inv_ext a m m' :
  (∀ p, is_Some (m' !! p) ↔ is_Some (m !! p)) → pids_inv a m → pids_inv a m'.
Proof. intros Hm [? ? ? Hl]. split; try done. intros p. by rewrite Hm. Qed.

(** ** The invariant depends on the places, the statuses and the tree only *)

(** [k'] has the tree and the pids of [k]. *)
Record same_tree (k k' : Kernel) : Prop := {
  st_live p : is_Some (tcbs k' !! p) ↔ is_Some (tcbs k !! p);
  st_children p : children_of k' p = children_of k p;
  st_parent p : parent_of k' p = parent_of k p;
  st_pids : pids k' = pids k;
}.

Lemma same_tree_refl k : same_tree k k.
Proof. by split. Qed.

Lemma same_tree_trans k1 k2 k3 : same_tree k1 k2 → same_tree k2 k3 → same_tree k1 k3.
Proof.
  intros [A B C D] [A' B' C' D']. split.
  - intros p. by rewrite A', A.
  - intros p. by rewrite B', B.
  - intros p. by rewrite C', C.
  - by rewrite D', D.
Qed.

Lemma same_tree_upd p f k :
  (∀ t, children (f t) = children t) → (∀ t, parent (f t) = parent t) → same_tree k (upd_task p f k).
Proof.
  intros Hc Hp. split.
  - intros q. apply live_upd.
  - intros q. by apply children_of_upd_same.
  - intros q. by apply parent_of_upd_same.
  - done.
Qed.

Lemma same_tree_alter p f k k' :
  tcbs k' = alter f p (tcbs k) → pids k' = pids k →
  (∀ t, children (f t) = children t) → (∀ t, parent (f t) = parent t) → same_tree k k'.
Proof.
  intros Ht Hpid Hc Hp. destruct (same_tree_upd p f k Hc Hp) as [A B C D].
  unfold children_of, parent_of, upd_task, with_tcbs in *. simpl in *. rewrite <-Ht in *.
  by split.
Qed.

(** A change of place of the tasks, the tree being kept. *)
Lemma kinv_move k k' :
  kinv k → same_tree k k' →
  (∀ p, p ∈ ready_queue k' ↔ status_of k' p = Some Ready) →
  (∀ p, processor k' = Some p ↔ status_of k' p = Some Running) →
  (∀ p, p ∈ (blocked k').*1 ↔ status_of k' p = Some Blocked) →
  NoDup (ready_queue k') → NoDup (blocked k').*1 →
  (∀ p, status_of k' p = Some Zombie → status_of k p = Some Zombie) → kinv k'.
Proof.
  intros Hk [Hl Hc Hp Hpids] Hr Hpr Hb Hnr Hnb Hz. split; try done.
  - destruct (k_init _ Hk) as (s & Hs & Hns).
    assert (Hlive : is_Some (tcbs k' !! INITPROC)).
    { apply Hl. unfold status_of in Hs. destruct (tcbs k !! INITPROC); [eauto|done]. }
    destruct Hlive as [t Ht]. exists (task_status t). unfold status_of. rewrite Ht. split; [done|].
    intros Hzt. assert (Hzk : status_of k INITPROC = Some Zombie)
      by (apply Hz; unfold status_of; rewrite Ht; simpl; congruence). congruence.
  - intros p c. rewrite Hc, Hp, Hl. apply (k_children _ Hk).
  - intros p. rewrite Hc. apply (k_nd_children _ Hk).
  - intros c. rewrite Hl. setoid_rewrite Hc. apply (k_parent _ Hk).
  - destruct (k_rank _ Hk) as [rank Hrank]. exists rank. intros p c. rewrite Hc. apply Hrank.
  - intros p Hzp. rewrite Hc. by apply (k_zombie _ Hk), Hz.
  - rewrite Hpids. eapply pids_inv_ext; [exact Hl|apply (k_pids _ Hk)].
Qed.

(** Updates that change neither places, statuses nor the tree. *)
Record same_sched (k k' : Kernel) : Prop := {
  ss_tree : same_tree k k';
  ss_status p : status_of k' p = status_of k p;
  ss_ready : ready_queue k' = ready_queue k;
  ss_proc : processor k' = processor k;
  ss_blocked : blocked k' = blocked k;
}.

Lemma kinv_same k k' : kinv k → same_sched k k' → kinv k'.
Proof.
  intros Hk [Ht Hs Hr Hp Hb]. apply (kinv_move k); [done|done| | | | | |].
  - intros p. rewrite Hr, Hs. apply (k_ready _ Hk).
  - intros p. rewrite Hp, Hs. apply (k_proc _ Hk).
  - intros p. rewrite Hb, Hs. apply (k_blocked _ Hk).
  - rewrite Hr. apply (k_nd_ready _ Hk).
  - rewrite Hb. apply (k_nd_blocked _ Hk).
  - intros p. by rewrite Hs.
Qed.

Lemma kinv_blocked_perm k bl : kinv k → blocked k ≡ₚ bl → kinv (with_blocked bl k).
Proof.
  intros Hk Hbl. assert (Hb : (blocked k).*1 ≡ₚ bl.*1) by (by rewrite Hbl).
  apply (kinv_move k); [done|by split|apply (k_ready _ Hk)|apply (k_proc _ Hk)| |
    apply (k_nd_ready _ Hk)| |done]; simpl.
  - intros p. rewrite <-(k_blocked _ Hk p). by rewrite Hb.
  - rewrite <-Hb. apply (k_nd_blocked _ Hk).
Qed.

Lemma same_sched_upd p f k :
  (∀ t, children (f t) = children t) → (∀ t, parent (f t) = parent t) →
  (∀ t, task_status (f t) = task_status t) → same_sched k (upd_task p f k).
Proof.
  intros Hc Hp Hs. split; try done; [by apply same_tree_upd|].
  intros q. rewrite status_of_upd. case_decide; [|done]. unfold status_of.
  destruct (tcbs k !! q); simpl; [by rewrite Hs|done].
Qed.

Lemma same_sched_phys ph k : same_sched k (with_phys ph k).
Proof. by split. Qed.
Lemma same_sched_attrs s k : same_sched k (with_attrs s k).
Proof. by split. Qed.

Lemma same_sched_refl k : same_sched k k.
Proof. by split. Qed.

Lemma same_sched_trans k1 k2 k3 : same_sched k1 k2 → same_sched k2 k3 → same_sched k1 k3.
Proof.
  intros [T S R P B] [T' S' R' P' B']. split; try congruence. by eapply same_tree_trans.
Qed.

#[export] Hint Resolve same_tree_refl same_sched_refl same_sched_phys same_sched_attrs : osdb.
#[export] Hint Extern 1 (same_tree _ (upd_task _ _ _)) => apply same_tree_upd; done : osdb.
#[export] Hint Extern 1 (same_sched _ (upd_task _ _ _)) => apply same_sched_upd; done : osdb.

(** ** Moving one task *)

(** [p] gets status [s] and sits in the place of [s]; nobody else moves. *)
Lemma kinv_place k k' p s :
  kinv k → same_tree k k' → s ≠ Zombie →
  (∀ q, status_of k' q = if decide (q = p) then Some s else status_of k q) →
  (∀ q, q ∈ ready_queue k' ↔ (q = p ∧ s = Ready) ∨ (q ≠ p ∧ q ∈ ready_queue k)) →
  (∀ q, processor k' = Some q ↔ (q = p ∧ s = Running) ∨ (q ≠ p ∧ processor k = Some q)) →
  (∀ q, q ∈ (blocked k').*1 ↔ (q = p ∧ s = Blocked) ∨ (q ≠ p ∧ q ∈ (blocked k).*1)) →
  NoDup (ready_queue k') → NoDup (blocked k').*1 → kinv k'.
Proof.
  intros Hk Ht Hns Hst Hr Hp Hb Hnr Hnb. apply (kinv_move k); try done.
  - intros q. rewrite Hr, Hst, (k_ready _ Hk). case_decide; naive_solver.
  - intros q. rewrite Hp, Hst, (k_proc _ Hk). case_decide; naive_solver.
  - intros q. rewrite Hb, Hst, (k_blocked _ Hk). case_decide; naive_solver.
  - intros q. rewrite Hst. case_decide; naive_solver.
Qed.

Section Ops.
Context {PF : Platform}.

(** The processor's task exists and is running, hence nowhere else. *)
Lemma processor_live k p :
  kinv k → processor k = Some p →
  (∃ t, tcbs k !! p = Some t) ∧ status_of k p = Some Running ∧ p ∉ ready_queue k ∧ p ∉ (blocked k).*1.
Proof.
  intros Hk Hp. assert (Hs := Hp). apply (k_proc _ Hk) in Hs. split_and!; [|done| |].
  - unfold status_of in Hs. destruct (tcbs k !! p); [eauto|done].
  - rewrite (k_ready _ Hk). congruence.
  - rewrite (k_blocked _ Hk). congruence.
Qed.

Lemma suspend_ok cx k p :
  kinv k → processor k = Some p →
  ∃ k', suspend_current_and_run_next cx k = Ret k' ∧ kinv k' ∧ processor k' = None ∧
    ready_queue k' = ready_queue k ++ [p] ∧ blocked k' = blocked k ∧
    tcbs k' = alter (λ t, set_cx cx (set_status Ready t)) p (tcbs k).
Proof.
  intros Hk Hp. destruct (processor_live k p Hk Hp) as ([t Ht] & Hs & Hnr & Hnb).
  unfold suspend_current_and_run_next, take_current_task. rewrite Hp. cbn [unwrap mbind outcome_bind].
  unfold get_task. simpl. rewrite Ht. cbn [unwrap mbind outcome_bind].
  eexists. split; [done|]. split_and!; [|done|done|done|done].
  apply (kinv_place k _ p Ready); [done| |done| | | | | |]; simpl.
  - by eapply same_tree_alter.
  - intros q. apply (status_of_set p Ready _ (with_processor None k) q); [done|by eexists].
  - intros q. rewrite elem_of_app, list_elem_of_singleton. naive_solver.
  - intros q. naive_solver.
  - intros q. naive_solver.
  - apply NoDup_app. split_and!; [apply (k_nd_ready _ Hk)| |apply NoDup_singleton]. set_solver.
  - apply (k_nd_blocked _ Hk).
Qed.

Lemma block_ok k p d cx :
  kinv k → processor k = Some p →
  ∃ k', block_current_agent d cx k = Ret k' ∧ kinv k' ∧ processor k' = None ∧
    blocked k' = blocked k ++ [(p, d)] ∧ tcbs k' = alter (λ t, set_cx cx (set_status Blocked t)) p (tcbs k).
Proof.
  intros Hk Hp. destruct (processor_live k p Hk Hp) as ([t Ht] & Hs & Hnr & Hnb).
  unfold block_current_agent, take_current_task. rewrite Hp. cbn [unwrap mbind outcome_bind].
  unfold get_task. simpl. rewrite Ht. cbn [unwrap mbind outcome_bind].
  eexists. split; [done|]. split_and!; [|done|done|done].
  apply (kinv_place k _ p Blocked); [done| |done| | | | | |]; simpl.
  - by eapply same_tree_alter.
  - intros q. apply (status_of_set p Blocked _ (with_processor None k) q); [done|by eexists].
  - intros q. naive_solver.
  - intros q. naive_solver.
  - intros q. rewrite fmap_app. simpl. rewrite elem_of_app, list_elem_of_singleton. naive_solver.
  - apply (k_nd_ready _ Hk).
  - rewrite fmap_app. apply NoDup_app. split_and!; [apply (k_nd_blocked _ Hk)|set_solver|apply NoDup_singleton].
Qed.

(** Waking a task that left the blocked list. *)
Lemma wake_one_ok k bl p d :
  kinv k → (p, d) ∈ blocked k → NoDup bl.*1 →
  (∀ q, q ∈ bl.*1 ↔ q ≠ p ∧ q ∈ (blocked k).*1) →
  ∃ k', wake_one p (with_blocked bl k) = Ret k' ∧ kinv k' ∧ blocked k' = bl ∧
    ready_queue k' = ready_queue k ++ [p] ∧ tcbs k' = alter (set_status Ready) p (tcbs k) ∧ processor k' = processor k.
Proof.
  intros Hk Hin Hnb Hbl.
  assert (Hs : status_of k p = Some Blocked).
  { apply (k_blocked _ Hk), list_elem_of_fmap. by exists (p, d). }
  assert (Hnr : p ∉ ready_queue k) by (rewrite (k_ready _ Hk); congruence).
  assert (Hl := Hs). unfold status_of in Hl. destruct (tcbs k !! p) as [t|] eqn:Ht; [|done].
  unfold wake_one, get_task. simpl. rewrite Ht. cbn [unwrap mbind outcome_bind].
  eexists. split; [done|]. split_and!; try done.
  apply (kinv_place k _ p Ready); [done| |done| | | | | |]; simpl.
  - by eapply same_tree_alter.
  - intros q. apply (status_of_set p Ready _ (with_blocked bl k) q); [done|by eexists].
  - intros q. rewrite elem_of_app, list_elem_of_singleton. naive_solver.
  - intros q. assert (processor k ≠ Some p) by (rewrite (k_proc _ Hk); congruence). naive_solver.
  - intros q. rewrite Hbl. naive_solver.
  - apply NoDup_app. split_and!; [apply (k_nd_ready _ Hk)|set_solver|apply NoDup_singleton].
  - done.
Qed.

(** [swap_remove] of an entry found by pid. *)
Lemma swap_remove_perm {A} (l : list A) i x :
  l !! i = Some x → l ≡ₚ x :: vec_swap_remove i l.
Proof.
  intros Hi. unfold vec_swap_remove. assert (Hlt := lookup_lt_Some _ _ _ Hi).
  destruct (last l) as [y|] eqn:Hlast; [|by apply last_None in Hlast; subst].
  apply last_Some in Hlast as [l' ->]. rewrite length_app in *. simpl in *.
  replace (length l' + 1 - 1)%nat with (length l') by lia.
  destruct (decide (i = length l')) as [->|Hne].
  - rewrite lookup_app_r, Nat.sub_diag in Hi by lia. injection Hi as ->.
    rewrite insert_app_r_alt, Nat.sub_diag by lia. simpl.
    rewrite take_app_length. by rewrite Permutation_app_comm.
  - rewrite lookup_app_l in Hi by lia. rewrite insert_app_l by lia.
    rewrite take_app_length' by (by rewrite length_insert).
    rewrite (insert_take_drop l' i y) by lia.
    rewrite <-(take_drop_middle l' i x Hi) at 1.
    rewrite <-!app_assoc. simpl. rewrite <-Permutation_middle.
    by rewrite (Permutation_app_comm (drop _ _) [y]).
Qed.

Lemma vec_swap_remove_lookup {A} (l : list A) i j x :
  (j < i)%nat → l !! i = Some x → vec_swap_remove i l !! j = l !! j.
Proof.
  intros Hj Hi. assert (Hlt := lookup_lt_Some _ _ _ Hi). unfold vec_swap_remove.
  destruct (last l) as [y|] eqn:Hlast; [|by apply last_None in Hlast; subst].
  rewrite lookup_take_lt by lia. by rewrite list_lookup_insert_ne by lia.
Qed.

Lemma filter_none {A} (l : list A) : filter (λ _ : A, False) l = [].
Proof. by induction l. Qed.

(** The blocked list does not matter for waking a live task. *)
Lemma wake_one_eq k bl p :
  is_Some (tcbs k !! p) →
  wake_one p (with_blocked bl k) = Ret (with_blocked bl (add_task p (upd_task p (set_status Ready) k))).
Proof. intros [t Ht]. unfold wake_one, get_task. simpl. by rewrite Ht. Qed.

Lemma status_live k p s : status_of k p = Some s → is_Some (tcbs k !! p).
Proof. unfold status_of. destruct (tcbs k !! p); [eauto|done]. Qed.

Lemma wake_agent_ok k p :
  kinv k →
  ∃ b k', wake_agent_by_pid p k = Ret (b, k') ∧ kinv k' ∧
    if b : bool then status_of k p = Some Blocked ∧
      ∃ d bl, blocked k ≡ₚ (p, d) :: bl ∧ k' = with_blocked bl (add_task p (upd_task p (set_status Ready) k))
    else status_of k p ≠ Some Blocked ∧ k' = k.
Proof.
  intros Hk. unfold wake_agent_by_pid.
  destruct (list_find (λ e, e.1 = p) (blocked k)) as [[idx [p' d]]|] eqn:Hf.
  - apply list_find_Some in Hf as (Hi & Hp & _). simpl in Hp. subst p'.
    pose proof (swap_remove_perm _ _ _ Hi) as Hperm.
    pose proof (k_nd_blocked _ Hk) as Hnd. rewrite Hperm in Hnd. apply NoDup_cons in Hnd as [Hnin Hnd].
    assert (Hs : status_of k p = Some Blocked).
    { apply (k_blocked _ Hk), list_elem_of_fmap. exists (p, d). split; [done|]. by eapply list_elem_of_lookup_2. }
    destruct (wake_one_ok k (vec_swap_remove idx (blocked k)) p d) as (k' & E & Hk' & _); [done| |done| |].
    { by eapply list_elem_of_lookup_2. }
    { intros q.
      assert (Hmem : q ∈ (blocked k).*1 ↔ q ∈ p :: (vec_swap_remove idx (blocked k)).*1)
        by (apply elem_of_Permutation_proper; by rewrite Hperm at 1).
      rewrite Hmem, elem_of_cons. split; [|naive_solver].
      intros Hq. split; [|by right]. by intros ->. }
    exists true, k'. cbn [fst]. rewrite E. split_and!; [done|done|done|].
    exists d, (vec_swap_remove idx (blocked k)). split; [done|].
    rewrite wake_one_eq in E by (by eapply status_live). by injection E as <-.
  - exists false, k. split_and!; try done. rewrite <-(k_blocked _ Hk).
    intros ([p' d] & -> & Hin)%list_elem_of_fmap. apply list_find_None in Hf.
    rewrite Forall_forall in Hf. by apply (Hf (p', d)).
Qed.

(** [k'] is [k] with the blocked tasks of [ps] woken. *)
Record woken (ps : list Z) (k k' : Kernel) : Prop := {
  wk_tcbs q : tcbs k' !! q =
    if decide (q ∈ ps ∧ status_of k q = Some Blocked) then set_status Ready <$> tcbs k !! q else tcbs k !! q;
  wk_blocked : blocked k' ≡ₚ filter (λ e, e.1 ∉ ps) (blocked k);
  wk_ready : ∃ qs, ready_queue k' = ready_queue k ++ qs;
  wk_proc : processor k' = processor k;
  wk_pids : pids k' = pids k;
  wk_phys : phys k' = phys k;
  wk_kspace : kernel_space k' = kernel_space k;
  wk_attrs : attr_store k' = attr_store k;
}.

Lemma woken_status ps k k' q :
  woken ps k k' → status_of k' q =
    if decide (q ∈ ps ∧ status_of k q = Some Blocked) then Some Ready else status_of k q.
Proof.
  intros Hw. unfold status_of at 1. rewrite (wk_tcbs _ _ _ Hw). case_decide as Hd; [|done].
  destruct Hd as [_ Hs]. apply status_live in Hs as [t ->]. done.
Qed.

Lemma woken_tree ps k k' : woken ps k k' → same_tree k k'.
Proof.
  intros Hw. split; [| | |apply Hw]; intros p; unfold children_of, parent_of;
    rewrite (wk_tcbs _ _ _ Hw); case_decide; try done; destruct (tcbs k !! p); try done.
Qed.

Lemma filter_all {A} (P : A → Prop) `{∀ x, Decision (P x)} (l : list A) :
  (∀ x, x ∈ l → P x) → filter P l = l.
Proof.
  induction l as [|x l IH]; intros Hl; [done|]. rewrite filter_cons_True by (apply Hl; left).
  f_equal. apply IH. intros y Hy. apply Hl. by right.
Qed.

Lemma woken_nil k : woken [] k k.
Proof.
  split; try done.
  - rewrite filter_all; [done|]. by intros x _ ?%elem_of_nil.
  - exists []. by rewrite app_nil_r.
Qed.

Lemma woken_cons p ps k k1 k2 :
  (∃ d bl, blocked k ≡ₚ (p, d) :: bl ∧ k1 = with_blocked bl (add_task p (upd_task p (set_status Ready) k))) →
  NoDup (blocked k).*1 → status_of k p = Some Blocked → woken ps k1 k2 → woken (p :: ps) k k2.
Proof.
  intros (d & bl & Hperm & ->) Hnd Hs Hw.
  assert (Hl := status_live _ _ _ Hs).
  assert (Hst : ∀ q, status_of (with_blocked bl (add_task p (upd_task p (set_status Ready) k))) q =
                  if decide (q = p) then Some Ready else status_of k q).
  { intros q. by apply (status_of_set p Ready (set_status Ready) k q). }
  split; try apply Hw.
  - intros q. rewrite (wk_tcbs _ _ _ Hw), Hst.
    change (tcbs (with_blocked bl _)) with (tcbs (upd_task p (set_status Ready) k)).
    rewrite tcbs_upd.
    destruct (decide (q = p)) as [->|Hne].
    + rewrite decide_False by naive_solver. by rewrite decide_True by (split; [left|done]).
    + apply decide_ext. rewrite elem_of_cons. naive_solver.
  - rewrite (wk_blocked _ _ _ Hw). simpl. rewrite Hperm in Hnd |- *. simpl in Hnd.
    apply NoDup_cons in Hnd as [Hnin Hnd]. rewrite filter_cons_False by (simpl; set_solver).
    apply reflexive_eq, list_filter_iff'. intros [q d'] Hin. simpl.
    assert (q ≠ p); [|set_solver]. intros ->. apply Hnin, list_elem_of_fmap. by exists (p, d').
  - destruct (wk_ready _ _ _ Hw) as [qs Hq]. simpl in Hq. exists (p :: qs). by rewrite Hq, <-app_assoc.
Qed.

Lemma wake_pids_ok ps : ∀ k, kinv k →
  ∃ k', wake_pids ps k = Ret k' ∧ kinv k' ∧ woken ps k k'.
Proof.
  induction ps as [|p ps IH]; intros k Hk; simpl.
  { exists k. auto using woken_nil. }
  destruct (wake_agent_ok k p Hk) as (b & k1 & -> & Hk1 & Hb). cbn [mbind outcome_bind].
  destruct (IH k1 Hk1) as (k2 & E & Hk2 & Hw). exists k2. split_and!; [done|done|].
  destruct b; destruct Hb as [Hs Hb].
  - eapply woken_cons; eauto. apply (k_nd_blocked _ Hk).
  - subst k1. split; try apply Hw.
    + intros q. rewrite (wk_tcbs _ _ _ Hw). apply decide_ext. rewrite elem_of_cons. naive_solver.
    + rewrite (wk_blocked _ _ _ Hw). apply reflexive_eq, list_filter_iff'. intros [q d'] Hin. simpl.
      assert (q ≠ p); [|set_solver]. intros ->. apply Hs, (k_blocked _ Hk), list_elem_of_fmap. by exists (p, d').
Qed.

(** ** Fetching ([TaskManager::fetch]) *)
Definition prio_of (k : Kernel) (p : Z) : Z := from_option priority 0 (tcbs k !! p).

Lemma get_task_live k p : is_Some (tcbs k !! p) → ∃ t, get_task p k = Ret t ∧ tcbs k !! p = Some t.
Proof. intros [t Ht]. exists t. unfold get_task. by rewrite Ht. Qed.

Lemma ready_live k p : kinv k → p ∈ ready_queue k → is_Some (tcbs k !! p).
Proof.
  intros Hk Hp. apply (k_ready _ Hk) in Hp. unfold status_of in Hp.
  destruct (tcbs k !! p); [eauto|done].
Qed.

(** [idx] is the first index of [l] with the greatest priority. *)
Definition first_best (k : Kernel) (l : list Z) (idx : nat) : Prop :=
  ∃ p, l !! idx = Some p ∧
    (∀ j q, l !! j = Some q → prio_of k q ≤ prio_of k p) ∧
    (∀ j q, (j < idx)%nat → l !! j = Some q → prio_of k q < prio_of k p).

Lemma fetch_scan_ok k q : ∀ pre bi bp,
  (∀ p, p ∈ q → is_Some (tcbs k !! p)) → first_best k pre bi →
  bp = prio_of k (default 0 (pre !! bi)) →
  ∃ idx, fetch_scan k bi bp (length pre) q = Ret idx ∧ first_best k (pre ++ q) idx.
Proof.
  induction q as [|x q IH]; intros pre bi bp Hl Hb ->.
  { exists bi. by rewrite app_nil_r. }
  destruct (get_task_live k x) as (t & E & Ht); [apply Hl; left|]. simpl. rewrite E.
  cbn [mbind outcome_bind]. assert (Hpx : priority t = prio_of k x) by (unfold prio_of; by rewrite Ht).
  rewrite Hpx. destruct Hb as (p & Hp & Hmax & Hfst). rewrite Hp. cbn [default from_option id].
  replace (S (length pre)) with (length (pre ++ [x])) by (rewrite length_app; simpl; lia).
  assert (Hl' : ∀ p, p ∈ q → is_Some (tcbs k !! p)) by (intros; apply Hl; by right).
  assert (Hlast : (pre ++ [x]) !! length pre = Some x) by (by rewrite lookup_app_r, Nat.sub_diag).
  assert (Hcase : ∀ j y, (pre ++ [x]) !! j = Some y → pre !! j = Some y ∨ j = length pre ∧ y = x).
  { intros j y [Hj|[Hj Hy]]%lookup_app_Some; [by left|right].
    apply list_lookup_singleton_Some in Hy as [? ->]. split; [lia|done]. }
  rewrite (app_assoc pre [x] q : pre ++ x :: q = _).
  destruct (Z.ltb_spec (prio_of k p) (prio_of k x)).
  - apply IH; [done| |by rewrite Hlast]. exists x. split_and!; [done| |].
    + intros j y [Hj|[_ ->]]%Hcase; [|lia]. apply Hmax in Hj. lia.
    + intros j y Hlt [Hj|[-> _]]%Hcase; [|lia]. apply Hmax in Hj. lia.
  - assert (Hp' : (pre ++ [x]) !! bi = Some p) by (by apply lookup_app_l_Some).
    apply IH; [done| |by rewrite Hp']. exists p. split_and!; [done| |].
    + intros j y [Hj|[_ ->]]%Hcase; [by eapply Hmax|lia].
    + intros j y Hlt [Hj|[-> ->]]%Hcase; [by eapply Hfst|].
      apply lookup_lt_Some in Hp. lia.
Qed.

Lemma fetch_task_ok k :
  kinv k →
  (ready_queue k = [] ∧ fetch_task k = Ret (None, k)) ∨
  ∃ idx p, first_best k (ready_queue k) idx ∧ ready_queue k !! idx = Some p ∧
    fetch_task k = Ret (Some p, with_ready (vec_remove idx (ready_queue k)) k).
Proof.
  intros Hk. unfold fetch_task. destruct (ready_queue k) as [|x q] eqn:Hq; [by left|right].
  destruct (get_task_live k x) as (t & E & Ht); [apply ready_live; [done|rewrite Hq; left]|].
  rewrite E. cbn [mbind outcome_bind].
  destruct (fetch_scan_ok k q [x] 0 (priority t)) as (idx & Es & Hb).
  - intros p Hp. apply ready_live; [done|]. rewrite Hq. by right.
  - exists x. split_and!; [done| |lia]. intros j y Hj%list_lookup_singleton_Some. destruct Hj as [_ ->]. lia.
  - simpl. unfold prio_of. by rewrite Ht.
  - simpl in Es. rewrite Es. cbn [mbind outcome_bind]. destruct Hb as (p & Hp & Hrest).
    exists idx, p. split_and!; [by exists p|done|]. simpl in Hp. by rewrite Hp.
Qed.

Lemma vec_remove_perm {A} (l : list A) i x : l !! i = Some x → l ≡ₚ x :: vec_remove i l.
Proof.
  unfold vec_remove. by apply delete_Permutation.
Qed.

Lemma with_ready_upd k q p f : upd_task p f (with_ready q k) = with_ready q (upd_task p f k).
Proof. done. Qed.

(** One turn of the idle loop keeps the invariant. *)
Lemma run_tasks_ok k :
  kinv k → processor k = None →
  ∃ k', run_tasks_step k = Ret k' ∧ kinv k' ∧ blocked k' = blocked k ∧ same_tree k k' ∧
    match processor k' with
    | None => ready_queue k = [] ∧ k' = k
    | Some p => p ∈ ready_queue k ∧ ready_queue k ≡ₚ p :: ready_queue k' ∧
                tcbs k' = alter (set_status Running) p (tcbs k)
    end.
Proof.
  intros Hk Hp. unfold run_tasks_step.
  destruct (fetch_task_ok k Hk) as [[Hq ->]|(idx & p & _ & Hi & ->)]; cbn [mbind outcome_bind].
  { exists k. rewrite Hp. split_and!; auto with osdb. }
  assert (Hperm := vec_remove_perm _ _ _ Hi).
  assert (Hin : p ∈ ready_queue k) by (by eapply list_elem_of_lookup_2).
  assert (Hl := ready_live k p Hk Hin). destruct (get_task_live k p Hl) as (t & E & Ht).
  unfold get_task in E |- *. simpl. rewrite E. cbn [mbind outcome_bind].
  assert (Hnd := k_nd_ready _ Hk). rewrite Hperm in Hnd. apply NoDup_cons in Hnd as [Hnin Hnd].
  assert (Hs : status_of k p = Some Ready) by (by apply (k_ready _ Hk)).
  assert (Htree : same_tree k (with_processor (Some p) (upd_task p (set_status Running)
                    (with_ready (vec_remove idx (ready_queue k)) k)))) by (by eapply same_tree_alter).
  eexists. split; [done|]. split_and!; [|done|done|by simpl; split_and!].
  apply (kinv_place k _ p Running); [done|done|done| | | | | |]; simpl.
  - intros q. by apply (status_of_set p Running (set_status Running) k q).
  - intros q.
    assert (Hmem : q ∈ ready_queue k ↔ q ∈ p :: vec_remove idx (ready_queue k))
      by (apply elem_of_Permutation_proper; by rewrite Hperm at 1).
    rewrite Hmem, elem_of_cons. split; [|naive_solver]. intros Hq. right. split; [by intros ->|by right].
  - intros q. rewrite Hp. naive_solver.
  - intros q. rewrite (k_blocked _ Hk). split; [|naive_solver].
    intros Hq. right. split; [|done]. intros ->. congruence.
  - done.
  - apply (k_nd_blocked _ Hk).
Qed.

(** ** Timeouts *)

(** Elements before [i] have been checked; those [swap_remove]d are [ws]. *)
Lemma timeout_scan_ok now fuel : ∀ i l tw,
  (length l - i ≤ fuel)%nat →
  (∀ j e, (j < i)%nat → l !! j = Some e → expired now e.2 = false) →
  ∃ ws l', timeout_scan fuel now i l tw = Ret (tw ++ ws.*1, l') ∧ l ≡ₚ ws ++ l' ∧
    (∀ e, e ∈ ws → expired now e.2 = true) ∧ (∀ e, e ∈ l' → expired now e.2 = false).
Proof.
  induction fuel as [|fuel IH]; intros i l tw Hf Hpre; simpl;
    (destruct (l !! i) as [e|] eqn:Hi;
     [|exists [], l; rewrite app_nil_r; split_and!; [done|done|by intros ? ?%elem_of_nil|];
       intros e [j Hj]%list_elem_of_lookup; apply lookup_ge_None in Hi; apply (Hpre j); [|done];
       apply lookup_lt_Some in Hj; lia]).
  - apply lookup_lt_Some in Hi. lia.
  - assert (Hlt := lookup_lt_Some _ _ _ Hi). destruct (expired now e.2) eqn:He.
    + pose proof (swap_remove_perm _ _ _ Hi) as Hperm.
      assert (Hlen : length l = S (length (vec_swap_remove i l))) by (by rewrite Hperm at 1).
      destruct (IH i (vec_swap_remove i l) (tw ++ [e.1])) as (ws & l' & E & Hp & Hws & Hl'); [lia| |].
      { intros j x Hj Hx. apply (Hpre j); [done|]. by rewrite (vec_swap_remove_lookup l i j e) in Hx. }
      exists (e :: ws), l'. rewrite E, <-app_assoc. simpl. split_and!; [done|by rewrite <-Hp| |done].
      intros x [->|Hx]%elem_of_cons; auto.
    + apply IH; [lia|]. intros j x Hj Hx. destruct (decide (j = i)) as [->|]; [congruence|].
      apply (Hpre j); [lia|done].
Qed.

(** Waking the tasks of a scan, one by one, or as [wake_agent_by_pid] does. *)
Lemma wake_all_eq ps : ∀ k bl, kinv k → NoDup ps → (∀ p, p ∈ ps → status_of k p = Some Blocked) →
  ∃ k', wake_pids ps k = Ret k' ∧ wake_all ps (with_blocked bl k) = Ret (with_blocked bl k').
Proof.
  induction ps as [|p ps IH]; intros k bl Hk Hnd Hps; simpl; [by exists k|].
  apply NoDup_cons in Hnd as [Hnin Hnd].
  assert (Hs : status_of k p = Some Blocked) by (apply Hps; left).
  destruct (wake_agent_ok k p Hk) as (b & k1 & -> & Hk1 & Hb). cbn [mbind outcome_bind].
  destruct b; [|naive_solver]. destruct Hb as (_ & d & bl1 & Hperm & ->).
  rewrite wake_one_eq by (by eapply status_live). cbn [mbind outcome_bind].
  destruct (IH _ bl Hk1 Hnd) as (k' & E & E'); [|by exists k'].
  intros q Hq. assert (q ≠ p) by (by intros ->).
  assert (Hst := status_of_set p Ready (set_status Ready) k q (λ _, eq_refl) (status_live _ _ _ Hs)).
  rewrite decide_False in Hst by done. rewrite <-(Hps q) by (by right). exact Hst.
Qed.

Lemma tick_wake_timeouts_ok now k :
  kinv k →
  ∃ k' ps, tick_wake_timeouts now k = Ret k' ∧ kinv k' ∧ woken ps k k' ∧
    ∀ p, p ∈ ps ↔ ∃ d, (p, Some d) ∈ blocked k ∧ d ≤ now.
Proof.
  intros Hk. unfold tick_wake_timeouts.
  destruct (timeout_scan_ok now (length (blocked k)) 0 (blocked k) []) as (ws & l & E & Hp & Hws & Hl);
    [lia|intros; lia|]. rewrite E. cbn [mbind outcome_bind]. simpl.
  assert (Hnd := k_nd_blocked _ Hk). rewrite Hp, fmap_app in Hnd. apply NoDup_app in Hnd as (Hnw & Hdis & Hnl).
  assert (Hb : ∀ p, p ∈ ws.*1 → status_of k p = Some Blocked).
  { intros p Hin. apply (k_blocked _ Hk). apply list_elem_of_fmap in Hin as (e & -> & Hin).
    apply list_elem_of_fmap_2. rewrite Hp. set_solver. }
  destruct (wake_all_eq ws.*1 k l Hk Hnw Hb) as (k' & Ew & ->).
  destruct (wake_pids_ok ws.*1 k Hk) as (k'' & Ew' & Hk' & Hw). rewrite Ew in Ew'. injection Ew' as <-.
  assert (Hbl : blocked k' ≡ₚ l).
  { rewrite (wk_blocked _ _ _ Hw), Hp, filter_app.
    rewrite (list_filter_iff' _ (λ _, False)), filter_none, app_nil_l.
    - apply reflexive_eq, filter_all. intros e He. set_solver.
    - intros e He. assert (e.1 ∈ ws.*1) by (by apply list_elem_of_fmap_2). naive_solver. }
  exists (with_blocked l k'), ws.*1. split_and!; [done| | |].
  - by apply kinv_blocked_perm.
  - split; try apply Hw. simpl. by rewrite <-Hbl, (wk_blocked _ _ _ Hw).
  - intros p. rewrite list_elem_of_fmap. setoid_rewrite Hp. split.
    + intros ([q d] & -> & Hin). apply Hws in Hin as He. simpl in *. destruct d as [d|]; [|done].
      exists d. split; [set_solver|]. by apply Z.leb_le.
    + intros (d & [Hin|Hin]%elem_of_app & Hle); [by exists (p, Some d)|].
      apply Hl in Hin. simpl in Hin. apply Z.leb_gt in Hin. lia.
Qed.
End Ops.
