(* ===== verification/TaskLife.v ===== *)
(** * The process tree: listing, fork, exit and wait

    The tree part of the invariant of [KernelInv]: what the breadth first
    listing returns, and the life of a task from [fork] to [waitpid]. *)

From S2P Require Import Prelude Address PhysMem FrameAlloc PageTable MemorySet PcbExt Task Blocking EventBus KernelInv.

(** ** Consequences of the tree invariant *)
Definition live (k : Kernel) (p : Z) : Prop := is_Some (tcbs k !! p).

Lemma child_live k p c : c ∈ children_of k p → live k p.
Proof. unfold children_of, live. destruct (tcbs k !! p); [eauto|by intros ?%elem_of_nil]. Qed.

Lemma child_unique k p q c : kinv k → c ∈ children_of k p → c ∈ children_of k q → p = q.
Proof.
  intros Hk Hp Hq. apply (k_children _ Hk) in Hp as (_ & _ & Hp).
  apply (k_children _ Hk) in Hq as (_ & _ & Hq). congruence.
Qed.

Lemma init_live k : kinv k → live k INITPROC.
Proof. intros Hk. destruct (k_init _ Hk) as (s & Hs & _). by eapply status_live. Qed.

Lemma get_task_children k p : live k p → ∃ t, get_task p k = Ret t ∧ children t = children_of k p.
Proof.
  intros Hl. destruct (get_task_live k p Hl) as (t & E & Ht). exists t. split; [done|].
  unfold children_of. by rewrite Ht.
Qed.

(** ** [snapshot_all_processes] *)

(** The queue [q] and the output [out] of the breadth first search. *)
Record bfs (k : Kernel) (q out : list Z) : Prop := {
  bfs_nd : NoDup (out ++ q);
  bfs_live p : p ∈ out ++ q → live k p;
  bfs_init : INITPROC ∈ out ++ q;
  bfs_closed p c : p ∈ out → c ∈ children_of k p → c ∈ out ++ q;
  bfs_parent c : c ∈ out ++ q → c = INITPROC ∨ ∃ p, p ∈ out ∧ c ∈ children_of k p;
}.

Lemma bfs_step k p q out :
  kinv k → bfs k (p :: q) out → bfs k (q ++ children_of k p) (out ++ [p]).
Proof.
  intros Hk [Hnd Hl Hi Hc Hp].
  assert (Hpout : p ∉ out).
  { apply NoDup_app in Hnd as (_ & Hd & _). intros Hin. by eapply Hd; [|left]. }
  assert (Hin : ∀ x, x ∈ (out ++ [p]) ++ q ++ children_of k p ↔ x ∈ out ++ p :: q ∨ x ∈ children_of k p)
    by (intros x; set_solver).
  split.
  - rewrite (app_assoc _ q), <-(app_assoc out). apply NoDup_app. split_and!; [done| |apply (k_nd_children _ Hk)].
    intros x Hx Hxc. apply Hp in Hx as [->|(p' & Hp' & Hx)].
    + by apply (k_children _ Hk) in Hxc as [? _].
    + rewrite (child_unique k p' p x) in Hp' by done. done.
  - intros x [Hx|Hx]%Hin; [by apply Hl|]. by apply (k_children _ Hk) in Hx as (_ & ? & _).
  - apply Hin. by left.
  - intros x c Hx Hcx. apply Hin. apply elem_of_app in Hx as [Hx| ->%list_elem_of_singleton]; [left|by right].
    by eapply Hc.
  - intros c [Hx|Hx]%Hin; [|right; exists p; set_solver].
    apply Hp in Hx as [?|(p' & ? & ?)]; [by left|right; exists p'; set_solver].
Qed.

Lemma bfs_length k q out : bfs k q out → (length out + length q ≤ size (tcbs k))%nat.
Proof.
  intros Hb. rewrite <-length_app, <-size_dom. rewrite <-(size_list_to_set (C := gset Z)) by apply Hb.
  apply subseteq_size. intros p Hp%elem_of_list_to_set. by apply elem_of_dom, (bfs_live _ _ _ Hb).
Qed.

Lemma snapshot_loop_ok k : kinv k → ∀ fuel q out,
  bfs k q out → (size (tcbs k) ≤ length out + fuel)%nat →
  ∃ res, snapshot_loop fuel q out k = Ret res ∧ bfs k [] res.
Proof.
  intros Hk. induction fuel as [|fuel IH]; intros [|p q] out Hb Hf; simpl; [by exists out| |by exists out|].
  - apply bfs_length in Hb. simpl in Hb. lia.
  - destruct (get_task_children k p) as (t & -> & Hch).
    { apply (bfs_live _ _ _ Hb). set_solver. }
    cbn [mbind outcome_bind]. rewrite Hch. apply IH; [by apply bfs_step|]. rewrite length_app. simpl. lia.
Qed.

(** A closed listing that holds the root holds every live task. *)
Lemma bfs_complete k out p : kinv k → bfs k [] out → live k p → p ∈ out.
Proof.
  intros Hk [_ _ Hi Hc _]. rewrite app_nil_r in *. destruct (k_rank _ Hk) as [rank Hrank].
  remember (rank p) as n eqn:Hn. revert p Hn.
  induction n as [n IH] using lt_wf_ind. intros p -> Hl.
  destruct (decide (p = INITPROC)) as [->|Hne]; [done|].
  destruct (k_parent _ Hk p Hl Hne) as [q Hq].
  apply (Hc q); [|done].
  eapply IH; [by eapply Hrank|done|by eapply child_live].
Qed.

Lemma snapshot_ok k :
  kinv k → ∃ l, snapshot_all_processes k = Ret l ∧ NoDup l ∧ ∀ p, p ∈ l ↔ live k p.
Proof.
  intros Hk. destruct (snapshot_loop_ok k Hk (size (tcbs k)) [INITPROC] []) as (l & E & Hb).
  - split; simpl.
    + apply NoDup_singleton.
    + intros p ->%list_elem_of_singleton. by apply init_live.
    + by left.
    + by intros p c ?%elem_of_nil.
    + intros c ->%list_elem_of_singleton. by left.
  - simpl. lia.
  - exists l. split_and!; [done|by destruct Hb as [Hnd _ _ _ _]; rewrite app_nil_r in Hnd|].
    intros p. split; [|by apply bfs_complete].
    intros Hp. apply (bfs_live _ _ _ Hb). by rewrite app_nil_r.
Qed.

(** ** The pid allocator *)
Lemma pa_alloc_ok a m pid a' :
  pids_inv a m → pid_current a < 2 ^ 64 - 1 → pa_alloc a = (pid, a') →
  m !! pid = None ∧ 0 ≤ pid ∧ pid_current a' < 2 ^ 64 ∧ ∀ t, pids_inv a' (<[pid := t]> m).
Proof.
  intros [Hc Hnd Hr Hl] Hlt. unfold pa_alloc. destruct (vec_pop (pid_recycled a)) as [[q rest]|] eqn:Hpop.
  - intros [= <- <-]. apply vec_pop_Some in Hpop. rewrite Hpop in *.
    apply NoDup_app in Hnd as (Hnd & Hdis & _).
    assert (Hq : q ∈ rest ++ [q]) by set_solver. assert (Hqr := Hr q Hq).
    assert (Hqn : q ∉ rest) by (intros ?; by eapply Hdis; [|left]).
    assert (Hnone : m !! q = None).
    { destruct (m !! q) eqn:E; [|done]. exfalso. by destruct (proj1 (Hl q)) as [_ ?]; [eauto|]. }
    split_and!; [done|lia|simpl; lia|]. intros t. split; simpl; [done|done| |].
    + intros x Hx. apply Hr. set_solver.
    + intros x. destruct (decide (x = q)) as [->|Hne].
      * rewrite lookup_insert_eq. naive_solver.
      * rewrite lookup_insert_ne, Hl by done. set_solver.
  - intros [= <- <-]. apply vec_pop_None in Hpop. rewrite Hpop in *.
    rewrite (wrap_small 64 (pid_current a + 1)) by lia.
    replace (pid_current a + 1 - 1) with (pid_current a) by lia. rewrite (wrap_small 64 (pid_current a)) by lia.
    assert (Hnone : m !! pid_current a = None).
    { destruct (m !! pid_current a) eqn:E; [|done]. exfalso. destruct (proj1 (Hl (pid_current a))); [eauto|lia]. }
    split_and!; [done|lia|simpl; lia|]. intros t. split; simpl; [lia|constructor| |].
    + by intros x ?%elem_of_nil.
    + intros x. destruct (decide (x = pid_current a)) as [->|Hne].
      * rewrite lookup_insert_eq. split; [|eauto]. split; [lia|by intros ?%elem_of_nil].
      * rewrite lookup_insert_ne, Hl by done. split; intros [? ?]; (split; [lia|done]).
Qed.

Lemma pa_dealloc_ok a m pid :
  pids_inv a m → is_Some (m !! pid) →
  ∃ a', pa_dealloc pid a = Ret a' ∧ pids_inv a' (delete pid m) ∧ pid_current a' = pid_current a.
Proof.
  intros [Hc Hnd Hr Hl] Hlive. destruct (proj1 (Hl pid) Hlive) as [Hpr Hpn]. unfold pa_dealloc.
  rewrite (proj2 (Z.ltb_lt _ _)) by lia. simpl.
  destruct (existsb (λ p, p =? pid) (pid_recycled a)) eqn:E; simpl.
  { apply existsb_exists in E as (x & Hx & ->%Z.eqb_eq). by apply list_elem_of_In in Hx. }
  eexists. split_and!; [done| |done]. split; simpl; [done| | |].
  - apply NoDup_app. split_and!; [done| |apply NoDup_singleton]. set_solver.
  - intros p [?| ->%list_elem_of_singleton]%elem_of_app; auto.
  - intros p. rewrite elem_of_app, list_elem_of_singleton.
    destruct (decide (p = pid)) as [->|Hne].
    + rewrite lookup_delete_eq. split; [by intros []|]. intros [_ ?]. naive_solver.
    + rewrite lookup_delete_ne, Hl by done. naive_solver.
Qed.

(** ** Fork *)

(** A new ready child of [p]. *)
Section Spawn.
Context (k k' : Kernel) (p : Z) (t : TaskControlBlock) (np : Z) (child : TaskControlBlock).
Context (Hk : kinv k) (Ht : tcbs k !! p = Some t) (Hz : task_status t ≠ Zombie) (Hnp : tcbs k !! np = None).
Context (Hcs : task_status child = Ready) (Hcp : parent child = Some p) (Hcc : children child = []).
Context (Htc : tcbs k' = <[np := child]> (<[p := set_children (children t ++ [np]) t]> (tcbs k))).

Lemma spawn_fresh : np ≠ p.
Proof. intros ->. congruence. Qed.

(** A view of the control blocks that the parent's update does not change. *)
Lemma spawn_view {A} (f : TaskControlBlock → A) q :
  f (set_children (children t ++ [np]) t) = f t →
  f <$> tcbs k' !! q = if decide (q = np) then Some (f child) else f <$> tcbs k !! q.
Proof.
  intros Hf. pose proof spawn_fresh. rewrite Htc. case_decide as Hq; [subst q; by rewrite lookup_insert_eq|].
  rewrite lookup_insert_ne by done. destruct (decide (q = p)) as [->|]; [|by rewrite lookup_insert_ne].
  rewrite lookup_insert_eq, Ht. simpl. by rewrite Hf.
Qed.

Lemma spawn_status q : status_of k' q = if decide (q = np) then Some Ready else status_of k q.
Proof. unfold status_of. rewrite spawn_view by done. by rewrite Hcs. Qed.

Lemma spawn_parent q : parent_of k' q = if decide (q = np) then Some p else parent_of k q.
Proof.
  pose proof spawn_fresh. unfold parent_of. rewrite Htc. case_decide as Hq; [subst q; by rewrite lookup_insert_eq|].
  rewrite lookup_insert_ne by done. destruct (decide (q = p)) as [->|]; [|by rewrite lookup_insert_ne].
  by rewrite lookup_insert_eq, Ht.
Qed.

Lemma spawn_live q : live k' q ↔ q = np ∨ live k q.
Proof.
  pose proof (spawn_status q) as Hs. unfold status_of in Hs. unfold live. rewrite <-!(fmap_is_Some task_status), Hs.
  case_decide; [subst; naive_solver|naive_solver].
Qed.

Lemma spawn_children q :
  children_of k' q = if decide (q = p) then children_of k p ++ [np] else if decide (q = np) then [] else children_of k q.
Proof.
  pose proof spawn_fresh. unfold children_of. rewrite Htc, Ht. destruct (decide (q = np)) as [->|].
  - rewrite lookup_insert_eq, decide_False by done. by simpl.
  - rewrite lookup_insert_ne by done. case_decide as Hq; [subst q; by rewrite lookup_insert_eq|]. by rewrite lookup_insert_ne.
Qed.

Lemma spawn_no_child q : np ∉ children_of k q.
Proof. intros Hin. apply (k_children _ Hk) in Hin as (_ & [? ?] & _). congruence. Qed.

Lemma spawn_old_child q c :
  c ∈ children_of k q → c ≠ np ∧ c ≠ INITPROC ∧ live k' c ∧ parent_of k' c = Some q.
Proof.
  intros Hin. assert (c ≠ np) by (intros ->; by eapply spawn_no_child). rewrite spawn_parent, spawn_live.
  rewrite decide_False by done. apply (k_children _ Hk) in Hin. naive_solver.
Qed.

(** Every child is an old child of the same parent, or the new one. *)
Lemma spawn_child_cases q c : c ∈ children_of k' q → c ∈ children_of k q ∨ (q = p ∧ c = np).
Proof.
  rewrite spawn_children. case_decide; [subst; rewrite elem_of_app, list_elem_of_singleton; naive_solver|].
  case_decide; [by intros ?%elem_of_nil|by left].
Qed.

Lemma spawn_rank : ∃ rank : Z → nat, ∀ q c, c ∈ children_of k' q → (rank q < rank c)%nat.
Proof.
  pose proof spawn_fresh. destruct (k_rank _ Hk) as [rank Hrank]. exists (λ x, if decide (x = np) then S (rank p) else rank x).
  intros q c [Hc|[-> ->]]%spawn_child_cases; [|rewrite decide_False, decide_True by done; lia].
  rewrite decide_False by (intros ->; apply (child_live k np c) in Hc as [? ?]; congruence).
  rewrite decide_False by (intros ->; by eapply spawn_no_child). by apply Hrank.
Qed.

Lemma kinv_spawn :
  ready_queue k' = ready_queue k ++ [np] → processor k' = processor k → blocked k' = blocked k →
  (∀ t', pids_inv (pids k') (<[np := t']> (tcbs k))) → kinv k'.
Proof.
  intros Hr Hp Hb Hpids. assert (Hnpk : ∀ s, status_of k np ≠ Some s) by (intros s; unfold status_of; by rewrite Hnp).
  split.
  - intros q. rewrite Hr, spawn_status, elem_of_app, list_elem_of_singleton, (k_ready _ Hk). case_decide; naive_solver.
  - intros q. rewrite Hp, spawn_status, (k_proc _ Hk). case_decide; naive_solver.
  - intros q. rewrite Hb, spawn_status, (k_blocked _ Hk). case_decide; naive_solver.
  - rewrite Hr. apply NoDup_app. split_and!; [apply (k_nd_ready _ Hk)| |apply NoDup_singleton].
    intros q Hq ->%list_elem_of_singleton. apply (k_ready _ Hk) in Hq. by eapply Hnpk.
  - rewrite Hb. apply (k_nd_blocked _ Hk).
  - destruct (k_init _ Hk) as (s & Hs & Hsz). exists s. rewrite spawn_status. case_decide; [subst np; congruence|done].
  - intros q c [Hc|[-> ->]]%spawn_child_cases; [by apply spawn_old_child in Hc as [_ ?]|].
    split_and!; [|by apply spawn_live; left|by rewrite spawn_parent, decide_True].
    intros ->. apply init_live in Hk as [? ?]. congruence.
  - intros q. rewrite spawn_children. repeat case_decide; [|constructor|apply (k_nd_children _ Hk)].
    apply NoDup_app. split_and!; [apply (k_nd_children _ Hk)| |apply NoDup_singleton].
    intros x Hx ->%list_elem_of_singleton. by eapply spawn_no_child.
  - intros c [->|Hl]%spawn_live Hci; [exists p; rewrite spawn_children, decide_True by done; set_solver|].
    destruct (k_parent _ Hk c Hl Hci) as [q Hq]. exists q. rewrite spawn_children. pose proof (child_live _ _ _ Hq) as [? Hqq].
    repeat case_decide; subst; [set_solver|congruence|done].
  - exact spawn_rank.
  - intros q Hq. rewrite spawn_status in Hq. rewrite spawn_children. unfold status_of in Hq.
    repeat case_decide; subst; try done; [rewrite Ht in Hq; naive_solver|by apply (k_zombie _ Hk)].
  - eapply pids_inv_ext; [|apply (Hpids child)]. intros q. fold (live k' q). rewrite spawn_live.
    destruct (decide (q = np)) as [->|Hq]; [rewrite lookup_insert_eq; split; [eauto|by left]|].
    rewrite lookup_insert_ne by done. unfold live. tauto.
Qed.
End Spawn.

(** ** Exit *)

(** The loop hands every child over to [INITPROC]. *)
Lemma reparent_ok cs : ∀ k,
  live k INITPROC → (∀ c, c ∈ cs → live k c ∧ c ≠ INITPROC) →
  ∃ m, reparent cs k = Ret (with_tcbs m k) ∧
    ∀ q, m !! q = if decide (q = INITPROC) then (λ t, set_children (children t ++ cs) t) <$> tcbs k !! q
                  else if decide (q ∈ cs) then set_parent (Some INITPROC) <$> tcbs k !! q else tcbs k !! q.
Proof.
  induction cs as [|c cs IH]; intros k Hi Hcs; simpl.
  - exists (tcbs k). split; [by destruct k|]. intros q. case_decide as Hq.
    + destruct (tcbs k !! q) as [[]|]; simpl; [|done]. unfold set_children. simpl. by rewrite app_nil_r.
    + done.
  - destruct (Hcs c) as [Hc Hci]; [left|].
    destruct (get_task_live k c Hc) as (tc & -> & Htc). cbn [mbind outcome_bind].
    set (k1 := upd_task c (set_parent (Some INITPROC)) k).
    destruct (get_task_live k1 INITPROC) as (ti & -> & Hti); [by apply live_upd|]. cbn [mbind outcome_bind].
    set (k2 := upd_task INITPROC (λ t, set_children (children t ++ [c]) t) k1).
    destruct (IH k2) as (m & E & Hm).
    + by apply live_upd, live_upd.
    + intros x Hx. destruct (Hcs x) as [? ?]; [by right|]. split; [by apply live_upd, live_upd|done].
    + exists m. rewrite E. split; [done|]. intros q. rewrite Hm. subst k2 k1.
      rewrite !tcbs_upd. destruct (decide (q = INITPROC)) as [->|Hq].
      * rewrite decide_False by done. destruct (tcbs k !! INITPROC) as [[]|]; simpl; [|done].
        unfold set_children. simpl. by rewrite <-app_assoc.
      * destruct (decide (q = c)) as [->|Hqc].
        -- rewrite (decide_True (P := c ∈ c :: cs)) by left. case_decide; [|done].
           by destruct (tcbs k !! c) as [[]|].
        -- apply decide_ext. set_solver.
Qed.

(** The effect of an exit on the places and on the tree. *)
Record exited (k k' : Kernel) (p : Z) : Prop := {
  ex_status q : status_of k' q = if decide (q = p) then Some Zombie else status_of k q;
  ex_live q : live k' q ↔ live k q;
  ex_children q : children_of k' q =
    if decide (q = p) then [] else if decide (q = INITPROC) then children_of k INITPROC ++ children_of k p
    else children_of k q;
  ex_parent q : parent_of k' q = if decide (q ∈ children_of k p) then Some INITPROC else parent_of k q;
  ex_ready : ready_queue k' = ready_queue k;
  ex_proc : processor k' = None;
  ex_blocked : blocked k' = blocked k;
  ex_pids : pids k' = pids k;
}.

Lemma exited_child k k' p q c :
  exited k k' p → p ≠ INITPROC →
  c ∈ children_of k' q ↔ q ≠ p ∧ (c ∈ children_of k q ∨ q = INITPROC ∧ c ∈ children_of k p).
Proof.
  intros Hx Hp. rewrite (ex_children _ _ _ Hx). repeat case_decide; subst.
  - rewrite elem_of_nil. naive_solver.
  - rewrite elem_of_app. naive_solver.
  - naive_solver.
Qed.

Lemma kinv_exited k k' p :
  kinv k → processor k = Some p → p ≠ INITPROC → exited k k' p → kinv k'.
Proof.
  intros Hk Hp Hpi Hx. destruct (processor_live k p Hk Hp) as (_ & Hs & Hnr & Hnb).
  assert (Hc : ∀ q c, _) by (intros q c; exact (exited_child k k' p q c Hx Hpi)).
  split.
  - intros q. rewrite (ex_ready _ _ _ Hx), (ex_status _ _ _ Hx), (k_ready _ Hk). case_decide; naive_solver.
  - intros q. rewrite (ex_proc _ _ _ Hx), (ex_status _ _ _ Hx). case_decide; [naive_solver|].
    rewrite <-(k_proc _ Hk). naive_solver.
  - intros q. rewrite (ex_blocked _ _ _ Hx), (ex_status _ _ _ Hx), (k_blocked _ Hk). case_decide; naive_solver.
  - rewrite (ex_ready _ _ _ Hx). apply (k_nd_ready _ Hk).
  - rewrite (ex_blocked _ _ _ Hx). apply (k_nd_blocked _ Hk).
  - rewrite (ex_status _ _ _ Hx), decide_False by done. apply (k_init _ Hk).
  - intros q c [Hq Hin]%Hc. change (is_Some (tcbs k' !! c)) with (live k' c).
    rewrite (ex_live _ _ _ Hx), (ex_parent _ _ _ Hx).
    destruct Hin as [Hin|[-> Hin]]; pose proof (k_children _ Hk _ _ Hin) as (? & ? & ?); split_and!; try done;
      case_decide as Hd; try done. exfalso. apply Hq. by eapply child_unique.
  - intros q. rewrite (ex_children _ _ _ Hx). repeat case_decide; [constructor| |apply (k_nd_children _ Hk)].
    apply NoDup_app. split_and!; try apply (k_nd_children _ Hk). intros x Hxi Hxp.
    apply Hpi. by eapply child_unique.
  - intros c Hl Hci. apply (ex_live _ _ _ Hx) in Hl. destruct (k_parent _ Hk c Hl Hci) as [q Hq].
    destruct (decide (q = p)) as [->|]; [exists INITPROC|exists q]; apply Hc; naive_solver.
  - destruct (k_rank _ Hk) as [rank Hrank].
    exists (λ x, if decide (x = INITPROC) then 0%nat else S (rank x)). intros q c [Hq Hin]%Hc.
    assert (Hci : c ≠ INITPROC)
      by (destruct Hin as [Hin|[_ Hin]]; apply (k_children _ Hk) in Hin; exact (proj1 Hin)).
    rewrite (decide_False _ _ Hci). case_decide; [lia|].
    destruct Hin as [Hin|[? _]]; [|done]. apply Hrank in Hin. lia.
  - intros q. rewrite (ex_status _ _ _ Hx), (ex_children _ _ _ Hx). case_decide; [done|].
    intros Hz. case_decide; [subst|by apply (k_zombie _ Hk)]. destruct (k_init _ Hk) as (s & ? & ?). congruence.
  - rewrite (ex_pids _ _ _ Hx). eapply pids_inv_ext; [|apply (k_pids _ Hk)]. apply (ex_live _ _ _ Hx).
Qed.

(** ** Counting references *)
Lemma count_pid_zero p l : count_pid p l = 0%nat ↔ p ∉ l.
Proof.
  unfold count_pid. rewrite length_zero_iff_nil. induction l as [|x l IH].
  { split; [by intros _ ?%elem_of_nil|done]. }
  rewrite filter_cons, not_elem_of_cons. case_decide; [naive_solver|]. rewrite IH. naive_solver.
Qed.

Lemma elem_of_all_children c k : c ∈ all_children (tcbs k) ↔ ∃ p, c ∈ children_of k p.
Proof.
  unfold all_children, children_of. rewrite list_elem_of_bind. split.
  - intros ([p t] & Hc & Hin). apply elem_of_map_to_list in Hin. exists p. by rewrite Hin.
  - intros (p & Hc). destruct (tcbs k !! p) as [t|] eqn:Ht; [|by apply elem_of_nil in Hc].
    exists (p, t). by rewrite elem_of_map_to_list.
Qed.

(** The last reference to a task is gone when it is in no place and nobody's child. *)
Lemma strong_count_zero p k :
  strong_count p k = 0%nat ↔
    p ∉ ready_queue k ∧ processor k ≠ Some p ∧ p ∉ (blocked k).*1 ∧ (∀ q, p ∉ children_of k q) ∧ p ≠ INITPROC.
Proof.
  unfold strong_count. assert (Hopt : p ∉ option_list (processor k) ↔ processor k ≠ Some p).
  { destruct (processor k) as [q|]; simpl; [rewrite list_elem_of_singleton; naive_solver|].
    split; [done|]. by intros _ ?%elem_of_nil. }
  assert (Hch : p ∉ all_children (tcbs k) ↔ ∀ q, p ∉ children_of k q)
    by (rewrite elem_of_all_children; naive_solver).
  rewrite <-Hopt, <-Hch, <-!count_pid_zero. case_decide; split; intros; destruct_and?; split_and?; try lia; done.
Qed.

Lemma drop_arc_child `{Platform} p q k : p ∈ children_of k q → drop_arc p k = Ret k.
Proof.
  intros Hin. unfold drop_arc. rewrite decide_False; [done|].
  rewrite strong_count_zero. intros (_ & _ & _ & Hn & _). by eapply Hn.
Qed.

Section Life.
Context {PF : Platform}.

(** The control blocks after [p] exited with [code], its space being [ms]. *)
Definition exit_block (code : Z) (t : TaskControlBlock) (ms : MemorySet) : TaskControlBlock :=
  set_memory (trap_cx_ppn t) ms (set_children [] (set_exit_code code (set_status Zombie t))).

Definition exit_map (code : Z) (k k' : Kernel) (p : Z) (t : TaskControlBlock) (ms : MemorySet) : Prop :=
  ∀ q, tcbs k' !! q =
    if decide (q = p) then Some (exit_block code t ms)
    else if decide (q = INITPROC) then (λ t', set_children (children t' ++ children t) t') <$> tcbs k !! q
    else if decide (q ∈ children t) then set_parent (Some INITPROC) <$> tcbs k !! q else tcbs k !! q.

Lemma exit_map_exited code k k' p t ms :
  kinv k → p ≠ INITPROC → tcbs k !! p = Some t → exit_map code k k' p t ms →
  ready_queue k' = ready_queue k → processor k' = None → blocked k' = blocked k → pids k' = pids k →
  exited k k' p.
Proof.
  intros Hk Hp Ht Hm Hr Hpr Hb Hpid.
  assert (Hchp : children_of k p = children t) by (unfold children_of; by rewrite Ht).
  destruct (init_live k Hk) as [ti Hti].
  split; try done; intros q; unfold status_of, live, children_of, parent_of; rewrite Hm.
  - repeat case_decide; try done; by destruct (tcbs k !! q).
  - repeat case_decide; subst; rewrite ?fmap_is_Some; try done.
  - rewrite Ht, Hti. repeat case_decide; subst; rewrite ?Hti; try done. by destruct (tcbs k !! q).
  - rewrite Ht. simpl. rewrite <-Hchp.
    assert (Hcp : q ∈ children_of k p → q ≠ INITPROC ∧ q ≠ p ∧ live k q).
    { intros Hin. split_and!; [| |].
      - by eapply (k_children _ Hk).
      - intros ->. destruct (k_rank _ Hk) as [rank Hrank]. apply Hrank in Hin. lia.
      - by eapply (k_children _ Hk). }
    destruct (decide (q ∈ children_of k p)) as [Hin|Hin].
    + destruct (Hcp Hin) as (? & ? & [tq Hq]). by rewrite !decide_False, Hq by done.
    + repeat case_decide; subst; try done; [by rewrite Ht|by rewrite Hti].
Qed.

(** The body of [exit] up to the dropping of the last local reference. *)
Lemma exit_body code k p t :
  kinv k → processor k = Some p → p ≠ IDLE_PID → tcbs k !! p = Some t →
  ∃ K : MemorySet → Phys → Kernel,
    exit_current_and_run_next code k =
      ('(ms, ph) ← recycle_data_pages (memory_set t) (phys k); k' ← drop_arc p (K ms ph); Ret (Some k')) ∧
    ∀ ms ph, exit_map code k (K ms ph) p t ms ∧
      ready_queue (K ms ph) = ready_queue k ∧ processor (K ms ph) = None ∧ blocked (K ms ph) = blocked k ∧
      pids (K ms ph) = pids k ∧ phys (K ms ph) = ph.
Proof.
  intros Hk Hp Hpi Ht. unfold exit_current_and_run_next, take_current_task. rewrite Hp.
  cbn [unwrap mbind outcome_bind]. rewrite (proj2 (Z.eqb_neq _ _)) by done.
  set (k0 := with_processor None k). assert (Hg : get_task p k0 = Ret t) by (by apply get_task_Ret).
  rewrite Hg. cbn [mbind outcome_bind].
  set (k1 := upd_task p (λ t, set_exit_code code (set_status Zombie t)) k0).
  assert (Hchp : children_of k p = children t) by (unfold children_of; by rewrite Ht).
  destruct (reparent_ok (children t) k1) as (m & -> & Hm).
  { apply live_upd. exact (init_live k Hk). }
  { intros c Hc. rewrite <-Hchp in Hc. apply (k_children _ Hk) in Hc as (? & ? & _).
    split; [by apply live_upd|done]. }
  cbn [mbind outcome_bind]. set (k2 := upd_task p (set_children []) (with_tcbs m k1)).
  assert (Hpc : p ∉ children t).
  { rewrite <-Hchp. intros Hin. destruct (k_rank _ Hk) as [rank Hrank]. apply Hrank in Hin. lia. }
  assert (Hp2 : tcbs k2 !! p = Some (set_children [] (set_exit_code code (set_status Zombie t)))).
  { subst k2. rewrite tcbs_upd, decide_True by done. simpl. rewrite Hm, decide_False, decide_False by done.
    subst k1. rewrite tcbs_upd, decide_True by done. simpl. by rewrite Ht. }
  rewrite (proj2 (get_task_Ret _ _ _) Hp2). cbn [mbind outcome_bind].
  change (memory_set (set_children _ _)) with (memory_set t). change (phys k2) with (phys k).
  exists (λ ms ph, upd_task p (set_memory (trap_cx_ppn t) ms) (with_phys ph k2)).
  split; [reflexivity|]. intros ms ph. split_and!; try done.
  intros q. rewrite tcbs_upd. change (tcbs (with_phys ph k2)) with (tcbs k2).
  destruct (decide (q = p)) as [->|Hq]; [by rewrite Hp2|].
  subst k2. rewrite tcbs_upd, decide_False by done. simpl. rewrite Hm. subst k1.
  by rewrite tcbs_upd, (decide_False (P := q = p)) by done.
Qed.

Lemma exit_ok code k p t :
  kinv k → processor k = Some p → p ≠ IDLE_PID → tcbs k !! p = Some t →
  ∃ K : MemorySet → Phys → Kernel,
    exit_current_and_run_next code k =
      ('(ms, ph) ← recycle_data_pages (memory_set t) (phys k); Ret (Some (K ms ph))) ∧
    ∀ ms ph, exited k (K ms ph) p ∧ kinv (K ms ph) ∧ phys (K ms ph) = ph ∧ exit_map code k (K ms ph) p t ms.
Proof.
  intros Hk Hp Hpi Ht. destruct (exit_body code k p t) as (K & E & HK); [done..|].
  assert (Hex : ∀ ms ph, exited k (K ms ph) p).
  { intros ms ph. destruct (HK ms ph) as (Hm & ? & ? & ? & ? & ?). by eapply exit_map_exited. }
  destruct (k_parent _ Hk p) as [q Hq]; [eauto|done|].
  exists K. split.
  - rewrite E. destruct (recycle_data_pages (memory_set t) (phys k)) as [[ms ph]| |]; [|done|done].
    cbn [mbind outcome_bind]. rewrite (drop_arc_child p q); [done|].
    apply (exited_child k (K ms ph) p); [done|done|]. split; [|by left]. intros ->.
    destruct (k_rank _ Hk) as [rank Hrank]. apply Hrank in Hq. lia.
  - intros ms ph. destruct (HK ms ph) as (Hm & ? & ? & ? & ? & ?). split_and!; [done| |done|done].
    by apply (kinv_exited k _ p).
Qed.

(** ** Wait *)
Definition wants (pid c : Z) : bool := (pid =? -1) || (u64 pid =? c).

(** A zombie that [pid] asks for. *)
Definition reapable (k : Kernel) (pid c : Z) : Prop := status_of k c = Some Zombie ∧ wants pid c = true.

#[global] Instance reapable_dec k pid c : Decision (reapable k pid c).
Proof. unfold reapable. apply _. Defined.

Lemma is_zombie_status k c t :
  tcbs k !! c = Some t → is_zombie t = bool_decide (status_of k c = Some Zombie).
Proof.
  intros Ht. unfold is_zombie, status_of. rewrite Ht. simpl. apply bool_decide_ext. split; congruence.
Qed.

Lemma find_zombie_ok k pid cs : ∀ i,
  (∀ c, c ∈ cs → live k c) →
  find_zombie (wants pid) i cs k = Ret ((λ r, (i + r.1)%nat) <$> list_find (reapable k pid) cs).
Proof.
  induction cs as [|c cs IH]; intros i Hl; simpl; [done|].
  destruct (get_task_live k c) as (t & -> & Ht); [apply Hl; left|]. cbn [mbind outcome_bind].
  rewrite (is_zombie_status _ _ _ Ht). unfold reapable at 1.
  case_decide as Hd.
  - destruct Hd as [Hz ->]. rewrite bool_decide_true by done. simpl. do 2 f_equal. lia.
  - replace (bool_decide (status_of k c = Some Zombie) && wants pid c) with false.
    + rewrite IH by (intros; apply Hl; by right). f_equal.
      destruct (list_find (reapable k pid) cs) as [[j x]|]; simpl; [|done]. f_equal. lia.
    + symmetry. apply andb_false_iff. destruct (wants pid c); [left|by right].
      apply bool_decide_eq_false. naive_solver.
Qed.

(** The effect of reaping [c], the child of [cur] at index [idx]. *)
Section Reap.
Context (k k' : Kernel) (cur : Z) (t : TaskControlBlock) (c : Z) (idx : nat).
Context (Hk : kinv k) (Ht : tcbs k !! cur = Some t) (Hi : children t !! idx = Some c) (Hz : status_of k c = Some Zombie).
Context (Htc : tcbs k' = delete c (<[cur := set_children (delete idx (children t)) t]> (tcbs k))).

Lemma reap_in : c ∈ children_of k cur.
Proof. unfold children_of. rewrite Ht. by eapply list_elem_of_lookup_2. Qed.

Lemma reap_self : c ≠ cur.
Proof. pose proof reap_in as Hin. intros ->. destruct (k_rank _ Hk) as [rank Hrank]. apply Hrank in Hin. lia. Qed.

Lemma reap_rest : children_of k cur ≡ₚ c :: delete idx (children t).
Proof. unfold children_of. rewrite Ht. by apply delete_Permutation. Qed.

Lemma reap_nodup : c ∉ delete idx (children t) ∧ NoDup (delete idx (children t)).
Proof. apply NoDup_cons. rewrite <-reap_rest. apply (k_nd_children _ Hk). Qed.

Lemma reap_status q : status_of k' q = if decide (q = c) then None else status_of k q.
Proof.
  unfold status_of. rewrite Htc. case_decide; [subst; by rewrite lookup_delete_eq|].
  rewrite lookup_delete_ne by done. destruct (decide (q = cur)) as [->|]; [|by rewrite lookup_insert_ne].
  by rewrite lookup_insert_eq, Ht.
Qed.

Lemma reap_parent q : q ≠ c → parent_of k' q = parent_of k q.
Proof.
  intros Hq. unfold parent_of. rewrite Htc. rewrite lookup_delete_ne by done.
  destruct (decide (q = cur)) as [->|]; [|by rewrite lookup_insert_ne]. by rewrite lookup_insert_eq, Ht.
Qed.

Lemma reap_live q : live k' q ↔ q ≠ c ∧ live k q.
Proof.
  pose proof (reap_status q) as Hs. unfold status_of in Hs. unfold live. rewrite <-!(fmap_is_Some task_status), Hs.
  case_decide; [|tauto]. split; [by intros []|]. by intros [? _].
Qed.

Lemma reap_children q x : x ∈ children_of k' q ↔ x ≠ c ∧ x ∈ children_of k q.
Proof.
  destruct reap_nodup as [Hnin _]. unfold children_of at 1. rewrite Htc. destruct (decide (q = c)) as [->|Hqc].
  - rewrite lookup_delete_eq. simpl. rewrite (k_zombie _ Hk) by done. set_solver.
  - rewrite lookup_delete_ne by done. destruct (decide (q = cur)) as [->|Hq].
    + rewrite lookup_insert_eq. simpl. rewrite reap_rest, elem_of_cons. naive_solver.
    + rewrite lookup_insert_ne by done. fold (children_of k q). split; [|tauto].
      intros Hx. split; [|done]. intros ->. apply Hq. eapply child_unique; [done|done|apply reap_in].
Qed.

Lemma reap_nodup_children q : NoDup (children_of k' q).
Proof.
  unfold children_of. rewrite Htc. destruct (decide (q = c)) as [->|Hqc]; [rewrite lookup_delete_eq; constructor|].
  rewrite lookup_delete_ne by done. destruct (decide (q = cur)) as [->|Hq]; [rewrite lookup_insert_eq; apply reap_nodup|].
  rewrite lookup_insert_ne by done. apply (k_nd_children _ Hk).
Qed.

Lemma kinv_reaped :
  ready_queue k' = ready_queue k → processor k' = processor k → blocked k' = blocked k →
  pids_inv (pids k') (delete c (tcbs k)) → kinv k'.
Proof.
  intros Hr Hp Hb Hpids. split.
  - intros q. rewrite Hr, reap_status, (k_ready _ Hk). case_decide; [subst; naive_solver|done].
  - intros q. rewrite Hp, reap_status, (k_proc _ Hk). case_decide; [subst; naive_solver|done].
  - intros q. rewrite Hb, reap_status, (k_blocked _ Hk). case_decide; [subst; naive_solver|done].
  - rewrite Hr. apply (k_nd_ready _ Hk).
  - rewrite Hb. apply (k_nd_blocked _ Hk).
  - rewrite reap_status. destruct (k_children _ Hk _ _ reap_in) as [Hci _]. rewrite decide_False by done. apply (k_init _ Hk).
  - intros q x [Hx Hin']%reap_children. rewrite reap_parent by done. fold (live k' x). rewrite reap_live.
    pose proof (k_children _ Hk _ _ Hin') as (? & ? & ?). done.
  - exact reap_nodup_children.
  - intros x [Hx Hl]%reap_live Hxi. destruct (k_parent _ Hk x Hl Hxi) as [q Hq]. exists q. by apply reap_children.
  - destruct (k_rank _ Hk) as [rank Hrank]. exists rank. intros q x [_ Hx]%reap_children. by apply Hrank.
  - intros q. rewrite reap_status. case_decide; [done|]. intros Hzq. apply elem_of_nil_inv. intros x Hx.
    apply reap_children in Hx as [_ Hx]. rewrite (k_zombie _ Hk) in Hx by done. by apply elem_of_nil in Hx.
  - eapply pids_inv_ext; [|exact Hpids]. intros q. fold (live k' q). rewrite reap_live.
    destruct (decide (q = c)) as [->|Hq]; [rewrite lookup_delete_eq; split; [by intros []|by intros []]|].
    rewrite lookup_delete_ne by done. unfold live. tauto.
Qed.
End Reap.

Lemma existsb_wants pid cs : existsb (wants pid) cs = true ↔ ∃ c, c ∈ cs ∧ wants pid c = true.
Proof. rewrite existsb_exists. by setoid_rewrite list_elem_of_In. Qed.

(** The branches of [sys_waitpid] that change nothing. *)
Lemma waitpid_idle k cur pid ptr :
  kinv k → processor k = Some cur →
  ((∀ c, c ∈ children_of k cur → wants pid c = false) → sys_waitpid pid ptr k = Ret (-1, k)) ∧
  ((∃ c, c ∈ children_of k cur ∧ wants pid c = true) →
   (∀ c, c ∈ children_of k cur → ¬ reapable k pid c) → sys_waitpid pid ptr k = Ret (-2, k)).
Proof.
  intros Hk Hp. destruct (processor_live k cur Hk Hp) as ([t Ht] & _).
  assert (Hch : children_of k cur = children t) by (unfold children_of; by rewrite Ht).
  unfold sys_waitpid, current_task. rewrite Hp, Hch. cbn [unwrap mbind outcome_bind].
  rewrite (proj2 (get_task_Ret _ _ _) Ht). cbn [mbind outcome_bind].
  fold (wants pid). split.
  - intros Hw. destruct (existsb (wants pid) (children t)) eqn:E; [|done].
    apply existsb_wants in E as (c & Hc & Hw'). by rewrite Hw in Hw'.
  - intros Hex Hnr. rewrite (proj2 (existsb_wants _ _) Hex). simpl.
    rewrite find_zombie_ok by (intros c; rewrite <-Hch; apply (k_children _ Hk)).
    destruct (list_find (reapable k pid) (children t)) as [[j x]|] eqn:E; [|done].
    apply list_find_Some in E as (Hj & Hr & _). exfalso. eapply Hnr; [|exact Hr]. by eapply list_elem_of_lookup_2.
Qed.

(** The assertion [Arc::strong_count(&child) == 1] of [sys_waitpid]. *)
Lemma reaped_refs k k1 cur t c idx :
  kinv k → tcbs k !! cur = Some t → children t !! idx = Some c → status_of k c = Some Zombie →
  tcbs k1 = <[cur := set_children (delete idx (children t)) t]> (tcbs k) →
  ready_queue k1 = ready_queue k → processor k1 = processor k → blocked k1 = blocked k →
  strong_count c k1 = 0%nat.
Proof.
  intros Hk Ht Hi Hz Hk1 Hr Hp Hb.
  assert (Hch : children_of k cur = children t) by (unfold children_of; by rewrite Ht).
  assert (Hin : c ∈ children_of k cur) by (rewrite Hch; by eapply list_elem_of_lookup_2).
  assert (Hc := k_children _ Hk _ _ Hin). apply strong_count_zero. rewrite Hr, Hp, Hb. split_and!.
  - rewrite (k_ready _ Hk). congruence.
  - rewrite (k_proc _ Hk). congruence.
  - rewrite (k_blocked _ Hk). congruence.
  - intros q. unfold children_of. rewrite Hk1. destruct (decide (q = cur)) as [->|Hq].
    + rewrite lookup_insert_eq. simpl. assert (Hnd := k_nd_children _ Hk cur).
      rewrite Hch, (delete_Permutation _ _ _ Hi) in Hnd. by apply NoDup_cons in Hnd as [? _].
    + rewrite lookup_insert_ne by done. fold (children_of k q). intros Hq'. apply Hq. by eapply child_unique.
  - apply Hc.
Qed.

(** Reaping the first zombie that is wanted. *)
Lemma waitpid_reap k cur pid ptr t idx c tc :
  kinv k → processor k = Some cur → tcbs k !! cur = Some t → tcbs k !! c = Some tc →
  list_find (reapable k pid) (children t) = Some (idx, c) →
  ∃ K : MemorySet → Phys → Kernel,
    sys_waitpid pid ptr k =
      (m ← write_i32 (get_user_token t) ptr (exit_code tc) (mem (phys k));
       '(ks, ph) ← KernelStack_drop c (kernel_space k) (mkPhys m (falloc (phys k)));
       ph ← drop_memory_set (memory_set tc) ph;
       Ret (c, K ks ph)) ∧
    ∀ ks ph, kinv (K ks ph) ∧ phys (K ks ph) = ph ∧ kernel_space (K ks ph) = ks ∧
      tcbs (K ks ph) = delete c (<[cur := set_children (delete idx (children t)) t]> (tcbs k)) ∧
      ready_queue (K ks ph) = ready_queue k ∧ processor (K ks ph) = processor k ∧ blocked (K ks ph) = blocked k.
Proof.
  intros Hk Hp Ht Htc Hf.
  apply list_find_Some in Hf as Hf'. destruct Hf' as (Hi & [Hz Hwc] & _).
  assert (Hch : children_of k cur = children t) by (unfold children_of; by rewrite Ht).
  assert (Hin : c ∈ children_of k cur) by (rewrite Hch; by eapply list_elem_of_lookup_2).
  unfold sys_waitpid, current_task. rewrite Hp. cbn [unwrap mbind outcome_bind].
  rewrite (proj2 (get_task_Ret _ _ _) Ht). cbn [mbind outcome_bind]. fold (wants pid).
  rewrite (proj2 (existsb_wants pid (children t))) by (exists c; by rewrite <-Hch). cbn [negb].
  rewrite find_zombie_ok by (intros x; rewrite <-Hch; apply (k_children _ Hk)).
  rewrite Hf. cbn [fmap option_fmap option_map fst Nat.add mbind outcome_bind]. rewrite Hi.
  cbn [unwrap mbind outcome_bind].
  set (k1 := upd_task cur (λ t, set_children (vec_remove idx (children t)) t) k).
  assert (Hcc : c ≠ cur) by (intros ->; destruct (k_rank _ Hk) as [rank Hrank]; apply Hrank in Hin; lia).
  assert (Hk1 : tcbs k1 = <[cur := set_children (delete idx (children t)) t]> (tcbs k)).
  { apply map_eq. intros q. subst k1. rewrite tcbs_upd. case_decide as Hq; [subst q|by rewrite lookup_insert_ne].
    by rewrite lookup_insert_eq, Ht. }
  assert (Hsc : strong_count c k1 = 0%nat) by (by apply (reaped_refs k k1 cur t c idx)).
  fold k1. rewrite bool_decide_true by done. cbn [rassert mbind outcome_bind].
  assert (Htc1 : tcbs k1 !! c = Some tc) by (by rewrite Hk1, lookup_insert_ne).
  rewrite (proj2 (get_task_Ret _ _ _) Htc1). cbn [mbind outcome_bind].
  change (mem (phys k1)) with (mem (phys k)).
  destruct (pa_dealloc_ok (pids k) (tcbs k) c (k_pids _ Hk)) as (a & Ea & Ha & _); [eauto|].
  exists (λ ks ph, with_tcbs (delete c (tcbs k1)) (with_pids a (with_kspace ks (with_phys ph k1)))). split.
  - destruct (write_i32 _ _ _ _) as [m| |]; [|done|done]. cbn [mbind outcome_bind].
    set (k2 := with_phys _ k1). unfold drop_task.
    rewrite (proj2 (get_task_Ret c k2 tc) Htc1). cbn [mbind outcome_bind].
    change (pids k2) with (pids k). rewrite Ea. cbn [mbind outcome_bind].
    change (kernel_space k2) with (kernel_space k). change (phys k2) with (mkPhys m (falloc (phys k))).
    destruct (KernelStack_drop _ _ _) as [[ks ph]| |]; [|done|done]. cbn [mbind outcome_bind].
    by destruct (drop_memory_set _ _).
  - intros ks ph. split; [|by rewrite <-Hk1; split_and!].
    apply (kinv_reaped k _ cur t c idx); try done. by rewrite <-Hk1.
Qed.

(** The control block [fork] makes for the child. *)
Definition fork_child (p np : Z) (t : TaskControlBlock) (ms : MemorySet) (ppn : Z) : TaskControlBlock :=
  mkTCB ppn (base_size t) (goto_trap_return (get_top np)) Ready ms (Some p) [] 0 (fd_table t) None (priority t).

(** [sys_fork]: copy the space, map a kernel stack, patch the child's trap
    context ([kernel_sp], and [a0 = 0]); the state [K] it leaves then. *)
Lemma fork_ok k p t np a :
  kinv k → processor k = Some p → tcbs k !! p = Some t → pid_current (pids k) < 2 ^ 64 - 1 →
  pa_alloc (pids k) = (np, a) →
  ∃ K : MemorySet → Z → MemorySet → Phys → Kernel,
    sys_fork k =
      ('(ms, ph) ← from_existed_user (memory_set t) (phys k);
       ppn ← trap_cx_page ms (mem ph);
       '(ks, ph) ← KernelStack_new np (kernel_space k) ph;
       m ← set_bytes (mem ph) ppn KERNEL_SP_OFF (to_le_bytes 8 (get_top np));
       m ← set_bytes m ppn (X_OFF 10) (to_le_bytes 8 0);
       Ret (np, K ms ppn ks (mkPhys m (falloc ph)))) ∧
    tcbs k !! np = None ∧
    ∀ ms ppn ks ph, kinv (K ms ppn ks ph) ∧
      tcbs (K ms ppn ks ph) =
        <[np := fork_child p np t ms ppn]> (<[p := set_children (children t ++ [np]) t]> (tcbs k)) ∧
      ready_queue (K ms ppn ks ph) = ready_queue k ++ [np] ∧ processor (K ms ppn ks ph) = Some p ∧
      blocked (K ms ppn ks ph) = blocked k ∧ phys (K ms ppn ks ph) = ph ∧ kernel_space (K ms ppn ks ph) = ks.
Proof.
  intros Hk Hp Ht Hlt Ha. destruct (processor_live k p Hk Hp) as (_ & Hs & _).
  destruct (pa_alloc_ok _ _ _ _ (k_pids _ Hk) Hlt Ha) as (Hnone & _ & _ & Hpids).
  assert (Hst : task_status t ≠ Zombie) by (unfold status_of in Hs; rewrite Ht in Hs; simpl in Hs; congruence).
  exists (λ ms ppn ks ph, add_task np (with_phys ph (with_tcbs
    (<[np := fork_child p np t ms ppn]> (<[p := set_children (children t ++ [np]) t]> (tcbs k)))
    (with_pids a (with_kspace ks k))))).
  split; [|split; [done|]].
  - unfold sys_fork, current_task. rewrite Hp. cbn [unwrap mbind outcome_bind].
    unfold TCB_fork. rewrite (proj2 (get_task_Ret _ _ _) Ht). cbn [mbind outcome_bind].
    destruct (from_existed_user _ _) as [[ms ph]| |]; [|done|done]. cbn [mbind outcome_bind].
    destruct (trap_cx_page _ _) as [ppn| |]; [|done|done]. cbn [mbind outcome_bind]. rewrite Ha.
    destruct (KernelStack_new _ _ _) as [[ks ph']| |]; [|done|done]. cbn [mbind outcome_bind].
    fold (fork_child p np t ms ppn).
    destruct (set_bytes _ _ _ _) as [m| |]; [|done|done]. cbn [mbind outcome_bind].
    rewrite (proj2 (get_task_Ret np _ (fork_child p np t ms ppn))) by apply lookup_insert_eq.
    cbn [mbind outcome_bind]. by destruct (set_bytes _ _ _ _).
  - intros ms ppn ks ph. split; [|by split_and!].
    by apply (kinv_spawn k _ p t np (fork_child p np t ms ppn)).
Qed.

(** What a successful fork leaves. *)
Lemma fork_inv k p np k' :
  kinv k → processor k = Some p → pid_current (pids k) < 2 ^ 64 - 1 → sys_fork k = Ret (np, k') →
  ∃ t ms ppn, tcbs k !! p = Some t ∧ tcbs k !! np = None ∧ kinv k' ∧
    tcbs k' = <[np := fork_child p np t ms ppn]> (<[p := set_children (children t ++ [np]) t]> (tcbs k)) ∧
    blocked k' = blocked k.
Proof.
  intros Hk Hp Hlt E. destruct (processor_live k p Hk Hp) as ([t Ht] & _).
  destruct (pa_alloc (pids k)) as [np' a] eqn:Ha.
  destruct (fork_ok k p t np' a Hk Hp Ht Hlt Ha) as (K & Ef & Hnone & HK). rewrite Ef in E.
  apply bind_Ret in E as ([ms ph] & _ & E). apply bind_Ret in E as (ppn & _ & E).
  apply bind_Ret in E as ([ks ph'] & _ & E). apply bind_Ret in E as (m & _ & E).
  apply bind_Ret in E as (m' & _ & E). injection E as <- <-.
  destruct (HK ms ppn ks (mkPhys m' (falloc ph'))) as (? & ? & _ & _ & ? & _).
  exists t, ms, ppn. by split_and!.
Qed.
End Life.
