(* ===== verification/AgentSched.v ===== *)
(** * Agents in the scheduler: heartbeats, messages, file events, waiting

    What the loops of [EventBus] do to every agent, and that they keep the
    scheduling invariant; then the invariant of sleeping agents: an agent
    sleeps only while no event it waits for is pending. *)

From S2P Require Import Prelude Address PhysMem FrameAlloc PageTable MemorySet PcbExt Task Blocking EventBus KernelInv TaskLife.

(** ** Updating the extensions of a listing *)

(** The effect of [f] on one control block. *)
Definition ext_upd (f : AgentExt → option AgentExt) (t : TaskControlBlock) : TaskControlBlock :=
  match agent_ext t ≫= f with Some ext => set_ext (Some ext) t | None => t end.

(** The extension of a task, and whether [f] fires on it. *)
Definition ext_of (k : Kernel) (p : Z) : option AgentExt := tcbs k !! p ≫= agent_ext.

Definition fires (f : AgentExt → option AgentExt) (k : Kernel) (p : Z) : Prop :=
  is_Some (ext_of k p ≫= f).

#[global] Instance fires_dec f k p : Decision (fires f k p).
Proof. unfold fires. apply _. Defined.

(** [k'] is [k] with control blocks changed by [g]. *)
Record mapped (g : Z → TaskControlBlock → TaskControlBlock) (k k' : Kernel) : Prop := {
  mp_tcbs q : tcbs k' !! q = g q <$> tcbs k !! q;
  mp_ready : ready_queue k' = ready_queue k;
  mp_proc : processor k' = processor k;
  mp_blocked : blocked k' = blocked k;
  mp_pids : pids k' = pids k;
  mp_phys : phys k' = phys k;
  mp_kspace : kernel_space k' = kernel_space k;
  mp_attrs : attr_store k' = attr_store k;
}.

Lemma mapped_sched g k k' :
  mapped g k k' → (∀ q t, children (g q t) = children t ∧ parent (g q t) = parent t ∧ task_status (g q t) = task_status t) →
  same_sched k k'.
Proof.
  intros Hm Hg. split; [split| | | |]; try apply Hm; intros q;
    unfold status_of, children_of, parent_of; rewrite (mp_tcbs _ _ _ Hm), ?fmap_is_Some;
    destruct (tcbs k !! q) as [t|]; simpl; try done; try (f_equal; apply Hg); apply Hg.
Qed.

Lemma mapped_trans g1 g2 k1 k2 k3 :
  mapped g1 k1 k2 → mapped g2 k2 k3 → mapped (λ q t, g2 q (g1 q t)) k1 k3.
Proof.
  intros [A1 ? ? ? ? ? ? ?] [A2 ? ? ? ? ? ? ?]. split; try congruence.
  intros q. rewrite A2, A1. by destruct (tcbs k1 !! q).
Qed.

Lemma mapped_ext g1 g2 k k' : (∀ q t, tcbs k !! q = Some t → g1 q t = g2 q t) → mapped g1 k k' → mapped g2 k k'.
Proof.
  intros Hg [A ? ? ? ? ? ? ?]. split; try done. intros q. rewrite A.
  destruct (tcbs k !! q) eqn:E; simpl; [|done]. f_equal. by apply Hg.
Qed.

Lemma mapped_refl k : mapped (λ _ t, t) k k.
Proof. split; try done. intros q. by destruct (tcbs k !! q). Qed.

Lemma mapped_upd p f k : mapped (λ q t, if decide (q = p) then f t else t) k (upd_task p f k).
Proof.
  split; try done. intros q. rewrite tcbs_upd. by case_decide; destruct (tcbs k !! q).
Qed.

Lemma ext_upd_keeps f t :
  children (ext_upd f t) = children t ∧ parent (ext_upd f t) = parent t ∧ task_status (ext_upd f t) = task_status t.
Proof. unfold ext_upd. by destruct (agent_ext t ≫= f). Qed.

Lemma scan_agents_ok f ts : ∀ k,
  NoDup ts → (∀ p, p ∈ ts → live k p) →
  ∃ k', scan_agents f ts k = Ret (filter (fires f k) ts, k') ∧
    mapped (λ q t, if decide (q ∈ ts) then ext_upd f t else t) k k'.
Proof.
  induction ts as [|p ts IH]; intros k Hnd Hl; simpl.
  { exists k. split; [done|]. eapply mapped_ext; [|apply mapped_refl].
    done. }
  apply NoDup_cons in Hnd as [Hnin Hnd].
  destruct (get_task_live k p) as (t & -> & Ht); [apply Hl; left|]. cbn [mbind outcome_bind].
  assert (Hfire : fires f k p ↔ is_Some (agent_ext t ≫= f)) by (unfold fires, ext_of; by rewrite Ht).
  rewrite filter_cons. destruct (agent_ext t ≫= f) as [ext|] eqn:Hf.
  - set (k1 := upd_task p (set_ext (Some ext)) k).
    destruct (IH k1) as (k' & E & Hm); [done|intros q Hq; apply live_upd, Hl; by right|].
    rewrite E. cbn [mbind outcome_bind]. rewrite decide_True by (apply Hfire; eauto).
    exists k'. split.
    + do 3 f_equal. apply list_filter_iff'. intros q Hq. assert (q ≠ p) by (by intros ->).
      unfold fires, ext_of. subst k1. by rewrite tcbs_upd, decide_False.
    + eapply mapped_ext; [|eapply mapped_trans; [apply mapped_upd|exact Hm]].
      intros q t' Hq. simpl. destruct (decide (q = p)) as [->|Hqp].
      * rewrite decide_False by done. rewrite decide_True by left. simplify_eq.
        unfold ext_upd. by rewrite Hf.
      * apply decide_ext. rewrite elem_of_cons. naive_solver.
  - destruct (IH k) as (k' & E & Hm); [done|intros q Hq; apply Hl; by right|].
    rewrite decide_False by (rewrite Hfire; by intros [? ?]). exists k'. split; [done|].
    eapply mapped_ext; [|exact Hm]. intros q t' Hq. simpl. destruct (decide (q = p)) as [->|Hqp].
    + rewrite decide_False by done. rewrite decide_True by left. simplify_eq.
      unfold ext_upd. by rewrite Hf.
    + apply decide_ext. rewrite elem_of_cons. naive_solver.
Qed.

Section Agents.
Context {PF : Platform}.

(** Heartbeats and file events: mark the agents [f] fires on, then wake them. *)
Definition fire_and_wake (f : AgentExt → option AgentExt) (k : Kernel) : outcome Kernel :=
  tasks ← snapshot_all_processes k;
  '(ps, k) ← scan_agents f tasks k;
  wake_pids ps k.

Lemma tick_all_agents_fire now k : tick_all_agents now k = fire_and_wake (heartbeat_fire now) k.
Proof. done. Qed.
Lemma broadcast_file_event_fire k : broadcast_file_event k = fire_and_wake file_event_mark k.
Proof. done. Qed.

(** [k'] is [k] after [fire_and_wake f]. *)
Record fired (f : AgentExt → option AgentExt) (k k' : Kernel) : Prop := {
  fd_tcbs q : tcbs k' !! q =
    (λ t, if decide (fires f k q ∧ task_status t = Blocked) then set_status Ready (ext_upd f t) else ext_upd f t)
      <$> tcbs k !! q;
  fd_blocked : blocked k' ≡ₚ filter (λ e, ¬ fires f k e.1) (blocked k);
  fd_proc : processor k' = processor k;
  fd_pids : pids k' = pids k;
  fd_phys : phys k' = phys k;
  fd_kspace : kernel_space k' = kernel_space k;
  fd_attrs : attr_store k' = attr_store k;
}.

Lemma fires_live f k p : fires f k p → live k p.
Proof. unfold fires, ext_of, live. destruct (tcbs k !! p); [eauto|by intros []]. Qed.

Lemma fire_and_wake_ok f k :
  kinv k → ∃ k', fire_and_wake f k = Ret k' ∧ kinv k' ∧ fired f k k'.
Proof.
  intros Hk. unfold fire_and_wake. destruct (snapshot_ok k Hk) as (ts & -> & Hnd & Hts).
  cbn [mbind outcome_bind]. destruct (scan_agents_ok f ts k Hnd) as (k1 & -> & Hm); [intros p; apply Hts|].
  cbn [mbind outcome_bind].
  assert (Hs : same_sched k k1).
  { eapply mapped_sched; [exact Hm|]. intros q t. simpl. case_decide; [apply ext_upd_keeps|done]. }
  assert (Hk1 : kinv k1) by (by apply (kinv_same k)).
  destruct (wake_pids_ok (filter (fires f k) ts) k1 Hk1) as (k' & -> & Hk' & Hw).
  assert (Hin : ∀ q, q ∈ filter (fires f k) ts ↔ fires f k q).
  { intros q. rewrite list_elem_of_filter, Hts. split; [by intros []|]. eauto using fires_live. }
  exists k'. split_and!; [done|done|]. split.
  - intros q. rewrite (wk_tcbs _ _ _ Hw), (mp_tcbs _ _ _ Hm), (ss_status _ _ Hs).
    unfold status_of. destruct (tcbs k !! q) as [t|] eqn:Ht; [|by case_decide]. simpl.
    rewrite (decide_True (P := q ∈ ts)) by (apply Hts; by eexists).
    rewrite (decide_ext _ (fires f k q ∧ task_status t = Blocked)) by (rewrite Hin; naive_solver congruence).
    by case_decide.
  - rewrite (wk_blocked _ _ _ Hw), (ss_blocked _ _ Hs). apply reflexive_eq, list_filter_iff'.
    intros e _. by rewrite Hin.
  - by rewrite (wk_proc _ _ _ Hw), (mp_proc _ _ _ Hm).
  - by rewrite (wk_pids _ _ _ Hw), (mp_pids _ _ _ Hm).
  - by rewrite (wk_phys _ _ _ Hw), (mp_phys _ _ _ Hm).
  - by rewrite (wk_kspace _ _ _ Hw), (mp_kspace _ _ _ Hm).
  - by rewrite (wk_attrs _ _ _ Hw), (mp_attrs _ _ _ Hm).
Qed.

(** ** The invariant of agents *)
Record agents_ok (k : Kernel) : Prop := {
  ag_mailbox p ext : ext_of k p = Some ext →
    0 < mailbox_capacity ext ∧ Z.of_nat (length (mailbox ext)) ≤ mailbox_capacity ext;
  ag_sleep p : status_of k p = Some Blocked →
    ∃ ext, ext_of k p = Some ext ∧ Z.land (pending_events ext) (wait_mask ext) = 0;
  ag_deadline p d : (p, d) ∈ blocked k →
    ∃ start tmo, task_cx <$> tcbs k !! p = Some (in_agent_wait start tmo d);
}.

Record os_inv (k : Kernel) : Prop := { os_kinv : kinv k; os_agents : agents_ok k }.

(** Firing an event on an agent keeps its mailbox. *)
Definition keeps_mailbox (f : AgentExt → option AgentExt) : Prop :=
  ∀ e e', f e = Some e' → mailbox e' = mailbox e ∧ mailbox_capacity e' = mailbox_capacity e.

Lemma ext_of_fired f k k' p ext' :
  fired f k k' → ext_of k' p = Some ext' →
  ∃ ext, ext_of k p = Some ext ∧ (f ext = Some ext' ∨ f ext = None ∧ ext' = ext).
Proof.
  intros Hf. unfold ext_of. rewrite (fd_tcbs _ _ _ Hf). destruct (tcbs k !! p) as [t|]; [|done]. simpl.
  assert (Hcase : agent_ext (if decide (fires f k p ∧ task_status t = Blocked) then set_status Ready (ext_upd f t)
                    else ext_upd f t) = agent_ext (ext_upd f t)) by (by case_decide).
  rewrite Hcase. unfold ext_upd. destruct (agent_ext t) as [e|] eqn:He; simpl; [|congruence].
  destruct (f e) eqn:Hfe; simpl; intros; simplify_eq; eauto.
Qed.

Lemma agents_fired f k k' : agents_ok k → keeps_mailbox f → fired f k k' → agents_ok k'.
Proof.
  intros Ha Hkeep Hf. split.
  - intros p ext' (ext & He & [Hfe|[_ ->]])%(ext_of_fired _ _ _ _ _ Hf); apply (ag_mailbox _ Ha) in He; [|done].
    by destruct (Hkeep _ _ Hfe) as [-> ->].
  - intros p Hs. unfold status_of in Hs. rewrite (fd_tcbs _ _ _ Hf) in Hs.
    destruct (tcbs k !! p) as [t|] eqn:Ht; [|done]. simpl in Hs. case_decide as Hd; [done|].
    destruct (ext_upd_keeps f t) as (_ & _ & Hst). rewrite Hst in Hs. injection Hs as Hb.
    assert (Hnf : ¬ fires f k p) by tauto.
    destruct (ag_sleep _ Ha p) as (ext & He & Hpend); [unfold status_of; rewrite Ht; simpl; congruence|].
    exists ext. split; [|done]. unfold ext_of in *. rewrite (fd_tcbs _ _ _ Hf), Ht in *. simpl in *.
    rewrite decide_False by tauto. unfold ext_upd. rewrite He. simpl.
    unfold fires, ext_of in Hnf. rewrite Ht in Hnf. simpl in Hnf. rewrite He in Hnf. simpl in Hnf.
    destruct (f ext); [by destruct Hnf; eexists|done].
  - intros p d Hin. rewrite (fd_blocked _ _ _ Hf) in Hin. apply list_elem_of_filter in Hin as [_ Hin].
    apply (ag_deadline _ Ha) in Hin as (s & tmo & Hcx). exists s, tmo. rewrite (fd_tcbs _ _ _ Hf).
    destruct (tcbs k !! p) as [t|]; [|done]. simpl in *. rewrite <-Hcx. f_equal.
    unfold ext_upd. by case_decide; destruct (agent_ext t ≫= f).
Qed.

Lemma heartbeat_keeps now : keeps_mailbox (heartbeat_fire now).
Proof. unfold keeps_mailbox, heartbeat_fire. intros e e'. repeat case_match; intros; by simplify_eq. Qed.
Lemma file_event_keeps : keeps_mailbox file_event_mark.
Proof. unfold keeps_mailbox, file_event_mark. intros e e'. repeat case_match; intros; by simplify_eq. Qed.

(** ** Messages *)

(** The mailbox after a delivery: the oldest message makes room. *)
Definition mailbox_after (payload : list byte) (ext : AgentExt) : list (list byte) :=
  (if mailbox_capacity ext <=? Z.of_nat (length (mailbox ext)) then tail (mailbox ext) else mailbox ext) ++ [payload].

Lemma mailbox_push_ok payload ext :
  0 < mailbox_capacity ext → mailbox_push payload ext = Ret (set_mailbox (mailbox_after payload ext) ext).
Proof.
  intros Hc. unfold mailbox_push, mailbox_after. destruct (Z.leb_spec (mailbox_capacity ext) (Z.of_nat (length (mailbox ext)))); [|done].
  destruct (mailbox ext); [simpl in *; lia|done].
Qed.

Lemma mailbox_after_len payload ext :
  0 < mailbox_capacity ext → Z.of_nat (length (mailbox ext)) ≤ mailbox_capacity ext →
  Z.of_nat (length (mailbox_after payload ext)) ≤ mailbox_capacity ext.
Proof.
  intros. unfold mailbox_after. rewrite length_app. simpl.
  destruct (Z.leb_spec (mailbox_capacity ext) (Z.of_nat (length (mailbox ext)))); [|lia].
  destruct (mailbox ext); simpl in *; lia.
Qed.

(** [k'] is [k] where the extension of [p] is [ext] and [p] has been woken. *)
Record delivered (p : Z) (ext : AgentExt) (k k' : Kernel) : Prop := {
  dl_tcbs q : tcbs k' !! q =
    if decide (q = p) then
      (λ t, (if decide (task_status t = Blocked) then set_status Ready else id) (set_ext (Some ext) t)) <$> tcbs k !! q
    else tcbs k !! q;
  dl_blocked : blocked k' ≡ₚ filter (λ e, e.1 ≠ p) (blocked k);
  dl_proc : processor k' = processor k;
  dl_pids : pids k' = pids k;
  dl_phys : phys k' = phys k;
  dl_kspace : kernel_space k' = kernel_space k;
  dl_attrs : attr_store k' = attr_store k;
}.

Lemma wake_delivered p ext k :
  kinv k → live k p →
  ∃ b k', wake_agent_by_pid p (upd_task p (set_ext (Some ext)) k) = Ret (b, k') ∧ kinv k' ∧ delivered p ext k k'.
Proof.
  intros Hk [t Ht]. set (k1 := upd_task p (set_ext (Some ext)) k).
  assert (Hs : same_sched k k1) by (by apply same_sched_upd).
  destruct (wake_agent_ok k1 p) as (b & k' & E & Hk' & Hb); [by apply (kinv_same k)|].
  exists b, k'. split_and!; [done|done|].
  assert (Hst : status_of k1 p = Some (task_status t)).
  { rewrite (ss_status _ _ Hs). unfold status_of. by rewrite Ht. }
  assert (Hfil : status_of k1 p ≠ Some Blocked → filter (λ e, e.1 ≠ p) (blocked k) = blocked k).
  { intros Hnb. apply filter_all. intros [q d] Hin Heq. simpl in Heq. subst q. apply Hnb.
    rewrite (ss_status _ _ Hs). apply (k_blocked _ Hk), list_elem_of_fmap. by exists (p, d). }
  destruct b.
  - destruct Hb as (Hbl & d & bl & Hperm & ->). split; try done; simpl.
    + intros q. destruct (decide (q = p)) as [->|Hq].
      * rewrite lookup_alter_eq, lookup_alter_eq, Ht. simpl. rewrite decide_True; [done|congruence].
      * by rewrite !lookup_alter_ne by done.
    + change (blocked k1) with (blocked k) in Hperm.
      assert (Hnd := k_nd_blocked _ Hk). rewrite Hperm in Hnd. apply NoDup_cons in Hnd as [Hnin _].
      rewrite Hperm, filter_cons_False by (simpl; tauto). rewrite filter_all; [done|].
      intros [q d'] Hin Heq. simpl in Heq. subst q. apply Hnin, list_elem_of_fmap. by exists (p, d').
  - destruct Hb as [Hnb ->]. split; try done.
    + intros q. subst k1. rewrite tcbs_upd. case_decide as Hq; [subst q|done]. rewrite Ht. simpl.
      rewrite decide_False; [done|congruence].
    + by rewrite Hfil.
Qed.

Lemma agents_delivered p ext ext' k k' :
  agents_ok k → ext_of k p = Some ext → delivered p ext' k k' →
  0 < mailbox_capacity ext' → Z.of_nat (length (mailbox ext')) ≤ mailbox_capacity ext' → agents_ok k'.
Proof.
  intros Ha He Hd Hc Hl. split.
  - intros q e. unfold ext_of. rewrite (dl_tcbs _ _ _ _ Hd). case_decide as Hq; [subst q|apply (ag_mailbox _ Ha)].
    destruct (tcbs k !! p) as [t|]; [|done]. simpl. intros Hqe.
    assert (e = ext') as ->; [|done]. by case_decide; simpl in *; simplify_eq.
  - intros q Hs. unfold status_of in Hs. rewrite (dl_tcbs _ _ _ _ Hd) in Hs.
    unfold ext_of. rewrite (dl_tcbs _ _ _ _ Hd). case_decide as Hq; [|by apply (ag_sleep _ Ha)].
    destruct (tcbs k !! q) as [t|]; [|done]. simpl in Hs. case_decide; [done|]. simpl in Hs. congruence.
  - intros q d Hin. rewrite (dl_blocked _ _ _ _ Hd) in Hin. apply list_elem_of_filter in Hin as [Hqp Hin].
    rewrite (dl_tcbs _ _ _ _ Hd), decide_False by done. by apply (ag_deadline _ Ha).
Qed.

Lemma deliver_message_ok target payload k :
  os_inv k →
  ∃ k', deliver_message target payload k = Ret (bool_decide (is_Some (ext_of k target)), k') ∧ os_inv k' ∧
    match ext_of k target with
    | None => k' = k
    | Some ext => delivered target (set_mailbox (mailbox_after payload ext) ext) k k'
    end.
Proof.
  intros [Hk Ha]. unfold deliver_message. destruct (snapshot_ok k Hk) as (ts & -> & _ & Hts).
  cbn [mbind outcome_bind]. destruct (ext_of k target) as [ext|] eqn:Hext.
  - destruct (ag_mailbox _ Ha _ _ Hext) as [Hcap Hlen].
    assert (Hext' := Hext). unfold ext_of in Hext'. destruct (tcbs k !! target) as [t|] eqn:Ht; [|done].
    simpl in Hext'. rewrite bool_decide_true by (apply Hts; by eexists).
    rewrite (proj2 (get_task_Ret _ _ _) Ht). cbn [mbind outcome_bind]. rewrite Hext'.
    rewrite mailbox_push_ok by done. cbn [mbind outcome_bind].
    destruct (wake_delivered target (set_mailbox (mailbox_after payload ext) ext) k) as (b & k' & E & Hk' & Hd);
      [done|by eexists|]. rewrite E. cbn [mbind outcome_bind].
    exists k'. split_and!; [reflexivity|split; [exact Hk'|]|exact Hd].
    eapply agents_delivered; [done|exact Hext|exact Hd|done|]. exact (mailbox_after_len payload ext Hcap Hlen).
  - exists k. split_and!; [|done|done]. unfold ext_of in Hext.
    destruct (tcbs k !! target) as [t|] eqn:Ht.
    + simpl in Hext. rewrite bool_decide_true by (apply Hts; by eexists).
      rewrite (proj2 (get_task_Ret _ _ _) Ht). cbn [mbind outcome_bind]. by rewrite Hext.
    + by rewrite bool_decide_false by (rewrite Hts; intros [? ?]; congruence).
Qed.

(** ** Updates of the running task *)
Definition mailbox_ok (ext : AgentExt) : Prop :=
  0 < mailbox_capacity ext ∧ Z.of_nat (length (mailbox ext)) ≤ mailbox_capacity ext.

(** [f] leaves status and place in the tree alone, and mailboxes bounded. *)
Record task_local (f : TaskControlBlock → TaskControlBlock) : Prop := {
  tl_children t : children (f t) = children t;
  tl_parent t : parent (f t) = parent t;
  tl_status t : task_status (f t) = task_status t;
  tl_mailbox t ext : (∀ e, agent_ext t = Some e → mailbox_ok e) → agent_ext (f t) = Some ext → mailbox_ok ext;
}.

Lemma os_inv_upd p f k : os_inv k → processor k = Some p → task_local f → os_inv (upd_task p f k).
Proof.
  intros [Hk Ha] Hp Hf. assert (Hs : same_sched k (upd_task p f k)) by (apply same_sched_upd; apply Hf).
  assert (Hnb : status_of k p ≠ Some Blocked) by (apply (k_proc _ Hk) in Hp; congruence).
  split; [by apply (kinv_same k)|]. split.
  - intros q ext. unfold ext_of. rewrite tcbs_upd. case_decide as Hq; [subst q|apply (ag_mailbox _ Ha)].
    destruct (tcbs k !! p) as [t|] eqn:Ht; [|done]. simpl. apply (tl_mailbox _ Hf).
    intros e He. apply (ag_mailbox _ Ha p). unfold ext_of. by rewrite Ht.
  - intros q Hq. rewrite (ss_status _ _ Hs) in Hq. unfold ext_of. rewrite tcbs_upd, decide_False by congruence.
    by apply (ag_sleep _ Ha).
  - intros q d Hin. rewrite (ss_blocked _ _ Hs) in Hin. rewrite tcbs_upd. rewrite decide_False.
    + by apply (ag_deadline _ Ha).
    + intros ->. apply Hnb, (k_blocked _ Hk), list_elem_of_fmap. by exists (p, d).
Qed.

Lemma task_local_ext ext : mailbox_ok ext → task_local (set_ext (Some ext)).
Proof. intros. split; try done. intros t e _ [= <-]. done. Qed.

Lemma mailbox_ok_of k p ext : os_inv k → ext_of k p = Some ext → mailbox_ok ext.
Proof. intros [_ Ha]. apply (ag_mailbox _ Ha). Qed.

Lemma ext_of_upd p ext k q :
  live k p → ext_of (upd_task p (set_ext ext) k) q = if decide (q = p) then ext else ext_of k q.
Proof. intros [t Ht]. unfold ext_of. rewrite tcbs_upd. case_decide; [subst; by rewrite Ht|done]. Qed.

Lemma ext_of_task k p ext : ext_of k p = Some ext → ∃ t, get_task p k = Ret t ∧ agent_ext t = Some ext.
Proof.
  unfold ext_of, get_task. destruct (tcbs k !! p) as [t|]; simpl; [|done]. intros He. by exists t.
Qed.

(** ** Waiting *)
Lemma consume_mailbox c ext :
  mailbox (consume_events c ext) = mailbox ext ∧ mailbox_capacity (consume_events c ext) = mailbox_capacity ext.
Proof. unfold consume_events. by repeat case_match. Qed.

Lemma mailbox_ok_consume c ext : mailbox_ok ext → mailbox_ok (consume_events c ext).
Proof. unfold mailbox_ok. by destruct (consume_mailbox c ext) as [-> ->]. Qed.

Lemma mailbox_ok_loop s ext : mailbox_ok ext → mailbox_ok (set_loop_state s ext).
Proof. done. Qed.

(** The wait returns [r] now. *)
Definition wait_returns (p r : Z) (ext : AgentExt) (k : Kernel) : option Z * Kernel :=
  (Some r, upd_task p (set_ext (Some (set_loop_state LIdle ext))) k).

Lemma upd_task_twice p e1 e2 k :
  upd_task p (set_ext e2) (upd_task p (set_ext e1) k) = upd_task p (set_ext e2) k.
Proof.
  unfold upd_task. simpl. unfold with_tcbs. simpl. f_equal. apply map_eq. intros q.
  destruct (decide (q = p)) as [->|]; [|by rewrite !lookup_alter_ne].
  rewrite !lookup_alter_eq. by destruct (tcbs k !! p).
Qed.

Lemma upd_ext_self p ext k : ext_of k p = Some ext → upd_task p (set_ext (Some ext)) k = k.
Proof.
  unfold ext_of. intros He. unfold upd_task, with_tcbs.
  rewrite alter_id; [by destruct k|]. intros x Hx. rewrite Hx in He. simpl in He.
  destruct x. simpl in *. by rewrite He.
Qed.

(** A sleeping agent. *)
Record slept (p : Z) (start_ms tmo : Z) (d : option Z) (k k' : Kernel) : Prop := {
  sl_tcbs : tcbs k' = alter (λ t, set_cx (in_agent_wait start_ms tmo d) (set_status Blocked t)) p (tcbs k);
  sl_blocked : blocked k' = blocked k ++ [(p, d)];
  sl_proc : processor k' = None;
}.

Lemma block_os_inv k p ext start_ms tmo d :
  os_inv k → processor k = Some p → ext_of k p = Some ext → Z.land (pending_events ext) (wait_mask ext) = 0 →
  ∃ k', block_current_agent d (in_agent_wait start_ms tmo d) k = Ret k' ∧ os_inv k' ∧ slept p start_ms tmo d k k'.
Proof.
  intros [Hk Ha] Hp He Hz.
  destruct (block_ok k p d (in_agent_wait start_ms tmo d) Hk Hp) as (k' & E & Hk' & Hpr & Hb & Ht).
  exists k'. split_and!; [done| |by split]. split; [done|].
  assert (Hlk : ∀ q, tcbs k' !! q = if decide (q = p) then (λ t, set_cx (in_agent_wait start_ms tmo d) (set_status Blocked t)) <$> tcbs k !! q
                       else tcbs k !! q).
  { intros q. rewrite Ht. case_decide; [subst; by rewrite lookup_alter_eq|by rewrite lookup_alter_ne]. }
  assert (Hext : ∀ q, ext_of k' q = ext_of k q).
  { intros q. unfold ext_of. rewrite Hlk. case_decide; [|done]. by destruct (tcbs k !! q). }
  split.
  - intros q e. rewrite Hext. apply (ag_mailbox _ Ha).
  - intros q Hs. rewrite Hext. destruct (decide (q = p)) as [->|Hq]; [by exists ext|].
    apply (ag_sleep _ Ha). unfold status_of in *. by rewrite Hlk, decide_False in Hs.
  - intros q d'. rewrite Hb. intros [Hin|[= -> ->]%list_elem_of_singleton]%elem_of_app.
    + rewrite Hlk, decide_False; [by apply (ag_deadline _ Ha)|]. intros ->.
      destruct (processor_live k p Hk Hp) as (_ & _ & _ & Hnb). apply Hnb, list_elem_of_fmap. by exists (p, d').
    + exists start_ms, tmo. rewrite Hlk, decide_True by done.
      apply ext_of_task in He as (t & Hg & _). apply get_task_Ret in Hg. by rewrite Hg.
Qed.

Lemma agent_wait_iter_ok start_ms tmo d now k p ext :
  os_inv k → processor k = Some p → ext_of k p = Some ext →
  let triggered := Z.land (pending_events ext) (wait_mask ext) in
  (triggered ≠ 0 ∧
   agent_wait_iter start_ms tmo d now k = Ret (wait_returns p triggered (consume_events triggered ext) k)) ∨
  (triggered = 0 ∧ 0 ≤ tmo ≤ as_i64 (now - start_ms) ∧
   agent_wait_iter start_ms tmo d now k = Ret (wait_returns p 0 ext k)) ∨
  (triggered = 0 ∧ ¬ (0 ≤ tmo ≤ as_i64 (now - start_ms)) ∧
   ∃ k', agent_wait_iter start_ms tmo d now k = Ret (None, k') ∧ os_inv k' ∧ slept p start_ms tmo d k k').
Proof.
  intros Hos Hp He triggered. destruct (ext_of_task _ _ _ He) as (t & Hg & Hte).
  unfold agent_wait_iter, current_task. rewrite Hp. cbn [unwrap mbind outcome_bind]. rewrite Hg.
  cbn [mbind outcome_bind]. rewrite Hte. fold triggered.
  destruct (Z.eqb_spec triggered 0) as [Hz|Hz]; simpl.
  - assert (Hc : consume_events triggered ext = ext) by (by rewrite Hz).
    rewrite Hc. right. assert (Hself : upd_task p (set_ext (Some ext)) k = k).
    { by apply upd_ext_self. }
    rewrite upd_task_twice, Hself.
    destruct ((0 <=? tmo) && (tmo <=? as_i64 (now - start_ms))) eqn:Hto.
    + left. zify_bool. split_and!; [done|done|done|]. done.
    + right. split; [done|]. split; [intros [? ?]; apply andb_false_iff in Hto; rewrite !Z.leb_gt in Hto; lia|].
      destruct (block_os_inv k p ext start_ms tmo d Hos Hp He Hz) as (k' & -> & Hos' & Hsl). by exists k'.
  - left. split; [done|]. unfold wait_returns. by rewrite upd_task_twice.
Qed.
End Agents.
