(* ===== verification/KernelSteps.v ===== *)
(** * Visits to the kernel

    The idle loop picking a task, which finishes the system call it slept in,
    and the timer interrupt.  These and the process calls keep the invariants
    of [KernelInv] and [AgentSched]. *)

From S2P Require Import Prelude Address PhysMem FrameAlloc PageTable MemorySet PcbExt FileAttr Task OsFile Blocking EventBus KernelInv TaskLife AgentSched.

Section Steps.
Context {PF : Platform}.

(** The end of the system call branch of [trap_handler]: [cx.x[10] = result]. *)
Definition set_return (r : Z) (k : Kernel) : outcome Kernel :=
  pid ← unwrap (current_task k);
  t ← get_task pid k;
  m ← set_bytes (mem (phys k)) (trap_cx_ppn t) (X_OFF 10) (to_le_bytes 8 (u64 r));
  Ret (with_phys (mkPhys m (falloc (phys k))) k).

(** What the task that [__switch] went to does before it is in user mode:
    [now] is the clock, [c] what the console has. *)
Definition resume (now c : Z) (k : Kernel) : outcome Kernel :=
  match current_task k with
  | None => Ret k
  | Some pid =>
      t ← get_task pid k;
      match task_cx t with
      | goto_trap_return _ | after_timer => Ret k
      | after_yield => set_return 0 k
      | in_agent_wait start_ms timeout_ms deadline =>
          '(o, k) ← agent_wait_iter start_ms timeout_ms deadline now k;
          match o with Some r => set_return r k | None => Ret k end
      | in_stdin_read cs =>
          '(o, k) ← stdin_read_turn c cs k;
          match o with Some r => set_return r k | None => Ret k end
      end
  end.

(** One turn of [run_tasks]. *)
Definition idle_turn (now c : Z) (k : Kernel) : outcome Kernel :=
  k ← run_tasks_step k; resume now c k.

(** The [SupervisorTimer] branch of [trap_handler]; the two readings of the clock. *)
Definition timer_interrupt (now now' : Z) (k : Kernel) : outcome Kernel :=
  k ← tick_all_agents now k;
  k ← tick_wake_timeouts now' k;
  suspend_current_and_run_next after_timer k.

(** ** Every step keeps the invariants *)
Lemma agents_ok_same k k' :
  agents_ok k → tcbs k' = tcbs k → blocked k' = blocked k → agents_ok k'.
Proof.
  intros [A B C] Ht Hb. split.
  - intros p ext. unfold ext_of. rewrite Ht. apply A.
  - intros p. unfold status_of, ext_of. rewrite Ht. apply B.
  - intros p d. rewrite Ht, Hb. apply C.
Qed.

Lemma os_inv_phys k ph : os_inv k → os_inv (with_phys ph k).
Proof.
  intros [Hk Ha]. split; [by apply (kinv_same k); auto with osdb|by apply (agents_ok_same k)].
Qed.
Lemma os_inv_attrs k s : os_inv k → os_inv (with_attrs s k).
Proof.
  intros [Hk Ha]. split; [by apply (kinv_same k); auto with osdb|by apply (agents_ok_same k)].
Qed.

Lemma set_return_inv r k k' : set_return r k = Ret k' → ∃ ph, k' = with_phys ph k.
Proof. unfold set_return. intros H. inv_ret. by eexists. Qed.

Lemma set_return_os_inv r k k' : os_inv k → set_return r k = Ret k' → os_inv k'.
Proof. intros Hos [ph ->]%set_return_inv. by apply os_inv_phys. Qed.

(** Steps that keep the agents: every extension, sleeping task and deadline stays. *)
Definition agent_part (t : TaskControlBlock) : option AgentExt * TaskContext := (agent_ext t, task_cx t).

Lemma agent_part_eq (a b : option TaskControlBlock) :
  agent_part <$> a = agent_part <$> b → a ≫= agent_ext = b ≫= agent_ext ∧ task_cx <$> a = task_cx <$> b.
Proof. destruct a as [a|], b as [b|]; simpl; try done. intros [= -> ->]. done. Qed.

Lemma agents_ok_sub k k' :
  agents_ok k →
  (∀ p ext, ext_of k' p = Some ext → ext_of k p = Some ext) →
  (∀ p, status_of k' p = Some Blocked →
     status_of k p = Some Blocked ∧ agent_part <$> tcbs k' !! p = agent_part <$> tcbs k !! p) →
  (∀ e, e ∈ blocked k' → e ∈ blocked k) → (∀ p, p ∈ (blocked k').*1 → status_of k' p = Some Blocked) →
  agents_ok k'.
Proof.
  intros [A B C] He Hs Hb Hbs. split.
  - intros p ext Hp. by eapply A, He.
  - intros p Hp. destruct (Hs p Hp) as [Hp' Ht]. destruct (B p Hp') as (ext & Hext & Hz). exists ext.
    split; [|done]. unfold ext_of in *. by rewrite (proj1 (agent_part_eq _ _ Ht)).
  - intros p d Hin. assert (Hp : status_of k' p = Some Blocked)
      by (apply Hbs, list_elem_of_fmap; by exists (p, d)).
    destruct (Hs p Hp) as [_ Ht]. destruct (C p d (Hb _ Hin)) as (s & tmo & Hcx). exists s, tmo.
    by rewrite (proj2 (agent_part_eq _ _ Ht)).
Qed.

Lemma run_tasks_os_inv k :
  os_inv k → processor k = None → ∃ k', run_tasks_step k = Ret k' ∧ os_inv k'.
Proof.
  intros [Hk Ha] Hp. destruct (run_tasks_ok k Hk Hp) as (k' & E & Hk' & Hb & _ & Hpr).
  exists k'. split; [done|]. split; [done|].
  assert (Hbs : ∀ q, q ∈ (blocked k').*1 → status_of k' q = Some Blocked) by (intros q; apply (k_blocked _ Hk')).
  destruct (processor k') as [p|]; [|by destruct Hpr as [_ ->]].
  destruct Hpr as (_ & _ & Ht). apply (agents_ok_sub k); [done| | |by rewrite Hb|done].
  - intros q ext. unfold ext_of. rewrite Ht. destruct (decide (q = p)) as [->|]; [|by rewrite lookup_alter_ne].
    rewrite lookup_alter_eq. by destruct (tcbs k !! p).
  - intros q. unfold status_of. rewrite Ht. destruct (decide (q = p)) as [->|]; [|by rewrite lookup_alter_ne].
    rewrite lookup_alter_eq. by destruct (tcbs k !! p).
Qed.

Lemma woken_os_inv ps k k' : os_inv k → kinv k' → woken ps k k' → os_inv k'.
Proof.
  intros [Hk Ha] Hk' Hw. split; [done|]. apply (agents_ok_sub k); [done| | | |intros q; apply (k_blocked _ Hk')].
  - intros q ext. unfold ext_of. rewrite (wk_tcbs _ _ _ Hw). case_decide; [|done]. by destruct (tcbs k !! q).
  - intros q. rewrite (woken_status _ _ _ _ Hw), (wk_tcbs _ _ _ Hw). by case_decide.
  - intros e. rewrite (wk_blocked _ _ _ Hw), list_elem_of_filter. tauto.
Qed.

Lemma suspend_os_inv cx k p :
  os_inv k → processor k = Some p → ∃ k', suspend_current_and_run_next cx k = Ret k' ∧ os_inv k'.
Proof.
  intros [Hk Ha] Hp. destruct (suspend_ok cx k p Hk Hp) as (k' & E & Hk' & _ & _ & Hb & Ht).
  exists k'. split; [done|]. split; [done|].
  apply (agents_ok_sub k); [done| | |by rewrite Hb|intros q; apply (k_blocked _ Hk')].
  - intros q ext. unfold ext_of. rewrite Ht. destruct (decide (q = p)) as [->|]; [|by rewrite lookup_alter_ne].
    rewrite lookup_alter_eq. by destruct (tcbs k !! p).
  - intros q. unfold status_of. rewrite Ht. destruct (decide (q = p)) as [->|]; [|by rewrite lookup_alter_ne].
    rewrite lookup_alter_eq. by destruct (tcbs k !! p).
Qed.

Lemma fire_os_inv f k : os_inv k → keeps_mailbox f → ∃ k', fire_and_wake f k = Ret k' ∧ os_inv k' ∧ fired f k k'.
Proof.
  intros [Hk Ha] Hf. destruct (fire_and_wake_ok f k Hk) as (k' & E & Hk' & Hfd).
  exists k'. split_and!; [done|split; [done|by eapply agents_fired]|done].
Qed.

(** A timer interrupt never panics. *)
Lemma timer_os_inv now now' k p :
  os_inv k → processor k = Some p → ∃ k', timer_interrupt now now' k = Ret k' ∧ os_inv k' ∧ processor k' = None.
Proof.
  intros Hos Hp. unfold timer_interrupt.
  destruct (fire_os_inv (heartbeat_fire now) k Hos (heartbeat_keeps now)) as (k1 & E & Hos1 & Hf1).
  rewrite tick_all_agents_fire, E. cbn [mbind outcome_bind].
  destruct (tick_wake_timeouts_ok now' k1 (os_kinv _ Hos1)) as (k2 & ps & -> & Hk2 & Hw & _).
  cbn [mbind outcome_bind]. assert (Hos2 := woken_os_inv _ _ _ Hos1 Hk2 Hw).
  assert (Hp2 : processor k2 = Some p) by (by rewrite (wk_proc _ _ _ Hw), (fd_proc _ _ _ Hf1)).
  destruct (suspend_os_inv after_timer k2 p Hos2 Hp2) as (k3 & E3 & Hos3). exists k3. split_and!; [done|done|].
  destruct (suspend_ok after_timer k2 p Hk2 Hp2) as (k3' & E3' & _ & Hn & _). congruence.
Qed.

Lemma fork_os_inv k p np k' :
  os_inv k → processor k = Some p → pid_current (pids k) < 2 ^ 64 - 1 → sys_fork k = Ret (np, k') → os_inv k'.
Proof.
  intros [Hk Ha] Hp Hlt E.
  destruct (fork_inv k p np k' Hk Hp Hlt E) as (t & ms & ppn & Ht & Hnp & Hk' & Htc & Hb).
  set (child := fork_child p np t ms ppn) in *.
  assert (Hce : agent_ext child = None) by done. assert (Hcs : task_status child = Ready) by done.
  split; [done|]. destruct (processor_live k p Hk Hp) as (_ & Hs & _).
  assert (Hne : np ≠ p) by (intros ->; congruence).
  assert (Hlk : ∀ q, tcbs k' !! q = if decide (q = np) then Some child
                       else if decide (q = p) then Some (set_children (children t ++ [np]) t) else tcbs k !! q).
  { intros q. rewrite Htc. case_decide as Hq; [subst q; by rewrite lookup_insert_eq|].
    rewrite lookup_insert_ne by done. case_decide as Hq'; [subst q; by rewrite lookup_insert_eq|by rewrite lookup_insert_ne]. }
  apply (agents_ok_sub k); [done| | |by rewrite Hb|intros q; apply (k_blocked _ Hk')].
  - intros q ext. unfold ext_of. rewrite Hlk. repeat case_decide; subst; simpl; [congruence|by rewrite Ht|done].
  - intros q. unfold status_of in *. rewrite Hlk. repeat case_decide; subst; simpl; [congruence| |done].
    rewrite Ht in Hs. simpl in Hs. congruence.
Qed.

Lemma exit_os_inv code k p k' :
  os_inv k → processor k = Some p → exit_current_and_run_next code k = Ret (Some k') → os_inv k'.
Proof.
  intros [Hk Ha] Hp E. destruct (processor_live k p Hk Hp) as ([t Ht] & Hs & _).
  destruct (decide (p = IDLE_PID)) as [->|Hpi].
  { unfold exit_current_and_run_next, take_current_task in E. rewrite Hp in E. done. }
  destruct (exit_ok code k p t Hk Hp Hpi Ht) as (K & Ex & HK). rewrite Ex in E.
  apply bind_Ret in E as ([ms ph] & _ & [= <-]). destruct (HK ms ph) as (Hex & Hk' & _ & Hm).
  split; [done|]. apply (agents_ok_sub k); [done| | |by rewrite (ex_blocked _ _ _ Hex)|intros q; apply (k_blocked _ Hk')].
  - intros q ext. unfold ext_of. rewrite Hm. repeat case_decide; subst; [by rewrite Ht|by destruct (tcbs k !! INITPROC)|by destruct (tcbs k !! q)|tauto].
  - intros q Hq. rewrite (ex_status _ _ _ Hex) in Hq. case_decide as Hqp; [done|]. split; [done|].
    rewrite Hm, decide_False by done. repeat case_decide; try done; by destruct (tcbs k !! q).
Qed.

Lemma waitpid_os_inv pid ptr k p r k' :
  os_inv k → processor k = Some p → sys_waitpid pid ptr k = Ret (r, k') → os_inv k'.
Proof.
  intros [Hk Ha] Hp E. destruct (processor_live k p Hk Hp) as ([t Ht] & Hs & _).
  assert (Hch : children_of k p = children t) by (unfold children_of; by rewrite Ht).
  destruct (waitpid_idle k p pid ptr Hk Hp) as [H1 H2].
  destruct (list_find (reapable k pid) (children t)) as [[idx c]|] eqn:Hf.
  - apply list_find_Some in Hf as Hf'. destruct Hf' as (Hi & [Hz _] & _).
    destruct (tcbs k !! c) as [tc|] eqn:Htc; [|unfold status_of in Hz; by rewrite Htc in Hz].
    destruct (waitpid_reap k p pid ptr t idx c tc Hk Hp Ht Htc Hf) as (K & Ew & HK). rewrite Ew in E.
    apply bind_Ret in E as (m & _ & E). apply bind_Ret in E as ([ks ph] & _ & E).
    apply bind_Ret in E as (ph' & _ & [= _ <-]). destruct (HK ks ph') as (Hk' & _ & _ & Hm & _ & _ & Hb).
    split; [done|]. apply (agents_ok_sub k); [done| | |by rewrite Hb|intros q; apply (k_blocked _ Hk')].
    + intros q ext. unfold ext_of. rewrite Hm. destruct (decide (q = c)) as [->|]; [by rewrite lookup_delete_eq|].
      rewrite lookup_delete_ne by done. destruct (decide (q = p)) as [->|]; [|by rewrite lookup_insert_ne].
      by rewrite lookup_insert_eq, Ht.
    + intros q. unfold status_of. rewrite Hm. destruct (decide (q = c)) as [->|]; [by rewrite lookup_delete_eq|].
      rewrite lookup_delete_ne by done. destruct (decide (q = p)) as [->|]; [|by rewrite lookup_insert_ne].
      by rewrite lookup_insert_eq, Ht.
  - apply list_find_None in Hf. rewrite Forall_forall in Hf. rewrite <-Hch in Hf.
    destruct (existsb (wants pid) (children t)) eqn:Ew.
    + apply existsb_wants in Ew. rewrite <-Hch in Ew. rewrite (H2 Ew Hf) in E. by injection E as _ <-.
    + rewrite H1 in E; [by injection E as _ <-|]. intros c Hc. rewrite Hch in Hc.
      destruct (wants pid c) eqn:Hw; [|done]. exfalso.
      assert (existsb (wants pid) (children t) = true); [|congruence]. apply existsb_wants. by exists c.
Qed.

(** The loop of [sys_agent_wait] for a task that is no agent. *)
Lemma agent_wait_iter_none start_ms tmo d now k p :
  os_inv k → processor k = Some p → ext_of k p = None →
  agent_wait_iter start_ms tmo d now k = Ret (Some (-4), k).
Proof.
  intros [Hk Ha] Hp He. destruct (processor_live k p Hk Hp) as ([t Ht] & _).
  unfold agent_wait_iter, current_task. rewrite Hp. cbn [unwrap mbind outcome_bind].
  rewrite (proj2 (get_task_Ret _ _ _) Ht). cbn [mbind outcome_bind]. unfold ext_of in He.
  rewrite Ht in He. simpl in He. by rewrite He.
Qed.

Lemma wait_returns_os_inv p r ext k :
  os_inv k → processor k = Some p → mailbox_ok ext → os_inv (wait_returns p r ext k).2.
Proof. intros Hos Hp Hm. by apply os_inv_upd, task_local_ext, mailbox_ok_loop. Qed.

Lemma agent_wait_iter_os_inv start_ms tmo d now k p :
  os_inv k → processor k = Some p →
  ∃ o k', agent_wait_iter start_ms tmo d now k = Ret (o, k') ∧ os_inv k' ∧
    processor k' = match o with Some _ => Some p | None => None end.
Proof.
  intros Hos Hp. destruct (ext_of k p) as [ext|] eqn:He.
  - assert (Hm := mailbox_ok_of _ _ _ Hos He).
    destruct (agent_wait_iter_ok start_ms tmo d now k p ext Hos Hp He) as [(_ & E)|[(_ & _ & E)|(_ & _ & k' & E & Hos' & Hsl)]].
    + eexists _, _. split; [exact E|]. split; [|exact Hp].
      by apply (wait_returns_os_inv p 0), mailbox_ok_consume.
    + eexists _, _. split; [exact E|]. split; [|exact Hp]. by apply (wait_returns_os_inv p 0).
    + exists None, k'. split_and!; [done|done|apply Hsl].
  - exists (Some (-4)), k. by rewrite (agent_wait_iter_none _ _ _ _ _ p) by done.
Qed.

Lemma sys_agent_wait_os_inv tmo now0 now1 now2 k p o k' :
  os_inv k → processor k = Some p → sys_agent_wait tmo now0 now1 now2 k = Ret (o, k') → os_inv k'.
Proof.
  intros Hos Hp. destruct (processor_live k p (os_kinv _ Hos) Hp) as ([t Ht] & _).
  unfold sys_agent_wait, current_task. rewrite Hp. cbn [unwrap mbind outcome_bind].
  rewrite (proj2 (get_task_Ret _ _ _) Ht). cbn [mbind outcome_bind]. cbv zeta.
  set (k1 := match agent_ext t with Some _ => _ | None => _ end).
  assert (Hos1 : os_inv k1 ∧ processor k1 = Some p).
  { subst k1. destruct (agent_ext t) as [ext|] eqn:He; [|done]. split; [|done].
    apply os_inv_upd; [done|done|]. apply task_local_ext, mailbox_ok_loop, (mailbox_ok_of k p); [done|].
    unfold ext_of. by rewrite Ht. }
  destruct Hos1 as [Hos1 Hp1].
  destruct (agent_wait_iter_os_inv (as_i64 now0) tmo
    (if tmo <? 0 then None else Some (Z.max (as_i64 (as_i64 now1 + tmo)) 0)) now2 k1 p Hos1 Hp1)
    as (o' & k2 & E & Hos2 & _). rewrite E. by intros [= _ <-].
Qed.

Lemma stdin_read_turn_os_inv c cs k p o k' :
  os_inv k → processor k = Some p → stdin_read_turn c cs k = Ret (o, k') → os_inv k'.
Proof.
  intros Hos Hp. unfold stdin_read_turn. destruct (c =? 0).
  - destruct (suspend_os_inv (in_stdin_read cs) k p Hos Hp) as (k1 & -> & Hos1). cbn [mbind outcome_bind]. by intros [= _ <-].
  - destruct cs as [|[[ppn a] b] cs]; [done|]. intros H. apply bind_Ret in H as (x & _ & H). injection H as _ <-. by apply os_inv_phys.
Qed.

Lemma resume_os_inv now c k k' : os_inv k → resume now c k = Ret k' → os_inv k'.
Proof.
  intros Hos. unfold resume, current_task. destruct (processor k) as [p|] eqn:Hp; [|by intros [= <-]].
  destruct (processor_live k p (os_kinv _ Hos) Hp) as ([t Ht] & _).
  rewrite (proj2 (get_task_Ret _ _ _) Ht). cbn [mbind outcome_bind]. destruct (task_cx t).
  - by intros [= <-].
  - by intros [= <-].
  - by apply set_return_os_inv.
  - destruct (agent_wait_iter_os_inv start_ms timeout_ms deadline now k p Hos Hp) as (o & k1 & -> & Hos1 & _).
    cbn [mbind outcome_bind]. destruct o as [r|]; [by apply set_return_os_inv|by intros [= <-]].
  - intros H. apply bind_Ret in H as ([o k1] & E & H). apply (stdin_read_turn_os_inv c buffers k p) in E; [|done|done].
    destruct o as [r|]; [by apply (set_return_os_inv r k1)|by injection H as <-].
Qed.

Lemma idle_turn_os_inv now c k k' : os_inv k → processor k = None → idle_turn now c k = Ret k' → os_inv k'.
Proof.
  intros Hos Hp E. unfold idle_turn in E. destruct (run_tasks_os_inv k Hos Hp) as (k1 & E1 & Hos1). rewrite E1 in E.
  by apply (resume_os_inv now c k1).
Qed.

End Steps.
