(* ===== verification/KernelThms.v ===== *)
(** * Theorems on tasks, scheduling and agents

    The properties of the process tree, the scheduler and the sleeping agents,
    each applied to a small concrete kernel. *)

From S2P Require Import Prelude Address PhysMem FrameAlloc PageTable MemorySet PcbExt FileAttr Task Blocking EventBus KernelInv TaskLife AgentSched KernelSteps.

(** ** A concrete kernel: [INITPROC] is ready, the agent 1 runs, its child 2
    is a zombie and its child 3 an agent that sleeps until 50 ms *)
Module Demo.
Definition ms0 : MemorySet := mkMemorySet (mkPageTable 0x80300 [0x80300]) [].
Definition ext1 : AgentExt := AgentExt_new ATNormal 0 0 4 100.
Definition ext3 : AgentExt := set_heartbeat 10 20 false ext1.
Definition task (cx : TaskContext) (s : TaskStatus) (par : option Z) (cs : list Z) (code prio : Z)
    (ext : option AgentExt) : TaskControlBlock :=
  mkTCB 0x80400 0 cx s ms0 par cs code [Some FStdin; Some FStdout; Some FStdout] ext prio.
Definition t0 := task after_timer Ready None [1] 0 16 None.
Definition t1 := task after_timer Running (Some 0) [2; 3] 0 16 (Some ext1).
Definition t2 := task after_timer Zombie (Some 1) [] 7 16 None.
Definition t3 := task (in_agent_wait 0 50 (Some 50)) Blocked (Some 1) [] 0 20 (Some ext3).
Definition k : Kernel :=
  mkKernel (<[0 := t0]> (<[1 := t1]> (<[2 := t2]> (<[3 := t3]> ∅)))) [0] (Some 1) [(3, Some 50)]
    (mkPidAllocator 4 []) DemoPlatform.boot ms0 FileAttr.new.

Lemma lookup q : tcbs k !! q =
  if decide (q = 0) then Some t0 else if decide (q = 1) then Some t1 else if decide (q = 2) then Some t2
  else if decide (q = 3) then Some t3 else None.
Proof.
  unfold k. simpl. repeat case_decide; subst; try reflexivity.
  by rewrite !lookup_insert_ne by done.
Qed.

Lemma status q : status_of k q =
  if decide (q = 0) then Some Ready else if decide (q = 1) then Some Running else if decide (q = 2) then Some Zombie
  else if decide (q = 3) then Some Blocked else None.
Proof. unfold status_of. rewrite lookup. by repeat case_decide. Qed.

Lemma kids q : children_of k q =
  if decide (q = 0) then [1] else if decide (q = 1) then [2; 3] else [].
Proof. unfold children_of. rewrite lookup. by repeat case_decide. Qed.

Lemma parents q : parent_of k q =
  if decide (q = 0) then None else if decide (q = 1) then Some 0 else if decide (q = 2) then Some 1
  else if decide (q = 3) then Some 1 else None.
Proof. unfold parent_of. rewrite lookup. by repeat case_decide. Qed.

Lemma alive q : is_Some (tcbs k !! q) ↔ 0 ≤ q < 4.
Proof.
  rewrite lookup. repeat case_decide; split; intros Hx; try (by eexists); try lia.
Qed.

Lemma kids_in p c : c ∈ children_of k p ↔ (p = 0 ∧ c = 1) ∨ (p = 1 ∧ (c = 2 ∨ c = 3)).
Proof. rewrite kids. repeat case_decide; subst; set_solver by lia. Qed.

Lemma ok : kinv k.
Proof.
  split.
  - intros p. rewrite status. simpl. rewrite list_elem_of_singleton. repeat case_decide; naive_solver.
  - intros p. rewrite status. simpl. repeat case_decide; naive_solver.
  - intros p. rewrite status. simpl. rewrite list_elem_of_singleton. repeat case_decide; naive_solver.
  - apply NoDup_singleton.
  - apply NoDup_singleton.
  - exists Ready. by rewrite status.
  - intros p c Hc%kids_in. rewrite alive, parents.
    destruct Hc as [[-> ->]|[-> [-> | ->]]]; split_and!; try done; lia.
  - intros p. rewrite kids. repeat case_decide; repeat constructor; set_solver by lia.
  - intros c Hc%alive Hi. setoid_rewrite kids_in.
    unfold INITPROC in Hi. assert (c = 1 ∨ c = 2 ∨ c = 3) as [-> |[-> | ->]] by lia; [exists 0|exists 1|exists 1]; lia.
  - exists Z.to_nat. intros p c Hc%kids_in. lia.
  - intros p. rewrite status, kids. repeat case_decide; subst; done.
  - split; simpl; [lia|constructor|set_solver|]. intros p. rewrite alive. set_solver.
Qed.

Lemma exts q : ext_of k q = if decide (q = 1) then Some ext1 else if decide (q = 3) then Some ext3 else None.
Proof. unfold ext_of. rewrite lookup. repeat case_decide; subst; try done; lia. Qed.

Lemma os : os_inv k.
Proof.
  split; [exact ok|]. split.
  - intros p ext. rewrite exts. repeat case_decide; intros [= <-]; split; (reflexivity || discriminate || done).
  - intros p. rewrite status. repeat case_decide; try done. intros _. exists ext3. subst. by rewrite exts.
  - intros p d [= -> ->]%list_elem_of_singleton. exists 0, 50. by rewrite lookup.
Qed.
End Demo.

Section Theorems.
Context {PF : Platform}.

(** ** The scheduler *)

(** C16: [TaskManager::fetch] takes the ready task of the highest priority,
    the one that is ready longest among those of equal priority, removes
    exactly it, and returns [None] only when nothing is ready. *)
Theorem fetch_task_spec k :
  kinv k →
  (ready_queue k = [] ∧ fetch_task k = Ret (None, k)) ∨
  ∃ idx p, ready_queue k !! idx = Some p ∧
    fetch_task k = Ret (Some p, with_ready (delete idx (ready_queue k)) k) ∧
    (∀ j q, ready_queue k !! j = Some q → prio_of k q ≤ prio_of k p) ∧
    (∀ j q, (j < idx)%nat → ready_queue k !! j = Some q → prio_of k q < prio_of k p).
Proof.
  intros Hk. destruct (fetch_task_ok k Hk) as [?|(idx & p & (p' & Hp' & Hmax & Hfst) & Hp & E)]; [by left|right].
  rewrite Hp in Hp'. injection Hp' as <-. by exists idx, p.
Qed.

(** C11: [snapshot_all_processes] terminates, never fails, and lists every
    process of the system - zombies and the running one included - exactly
    once. *)
Theorem snapshot_lists_every_process k :
  kinv k → ∃ l, snapshot_all_processes k = Ret l ∧ NoDup l ∧ ∀ p, p ∈ l ↔ is_Some (tcbs k !! p).
Proof. exact (snapshot_ok k). Qed.

(** ** Process life *)

(** C9: [sys_fork] makes a child with a pid no live process has. Apart from
    the memory work (copy of the address space, kernel stack, [kernel_sp] and
    [a0 = 0] in the child's trap context) it never fails; it returns the
    child's pid; the child is ready, at the end of the queue, last child of
    its parent, with the parent's files, priority and break, no agent
    extension, and nothing else changes. *)
Theorem sys_fork_spec k p t :
  kinv k → processor k = Some p → tcbs k !! p = Some t → pid_current (pids k) < 2 ^ 64 - 1 →
  ∃ np (K : MemorySet → Z → MemorySet → Phys → Kernel),
    tcbs k !! np = None ∧
    sys_fork k =
      ('(ms, ph) ← from_existed_user (memory_set t) (phys k);
       ppn ← trap_cx_page ms (mem ph);
       '(ks, ph) ← KernelStack_new np (kernel_space k) ph;
       m ← set_bytes (mem ph) ppn KERNEL_SP_OFF (to_le_bytes 8 (get_top np));
       m ← set_bytes m ppn (X_OFF 10) (to_le_bytes 8 0);
       Ret (np, K ms ppn ks (mkPhys m (falloc ph)))) ∧
    ∀ ms ppn ks ph, kinv (K ms ppn ks ph) ∧
      tcbs (K ms ppn ks ph) !! np = Some (mkTCB ppn (base_size t) (goto_trap_return (get_top np)) Ready ms
        (Some p) [] 0 (fd_table t) None (priority t)) ∧
      tcbs (K ms ppn ks ph) !! p = Some (set_children (children t ++ [np]) t) ∧
      (∀ q, q ≠ np → q ≠ p → tcbs (K ms ppn ks ph) !! q = tcbs k !! q) ∧
      ready_queue (K ms ppn ks ph) = ready_queue k ++ [np] ∧ processor (K ms ppn ks ph) = Some p ∧
      blocked (K ms ppn ks ph) = blocked k ∧ phys (K ms ppn ks ph) = ph ∧ kernel_space (K ms ppn ks ph) = ks.
Proof.
  intros Hk Hp Ht Hlt. destruct (pa_alloc (pids k)) as [np a] eqn:Ha.
  destruct (fork_ok k p t np a Hk Hp Ht Hlt Ha) as (K & E & Hnone & HK). exists np, K.
  split; [done|]. split; [done|]. intros ms ppn ks ph.
  destruct (HK ms ppn ks ph) as (Hk' & Htc & Hrest). split; [done|]. rewrite Htc.
  assert (np ≠ p) by (intros ->; congruence). split_and!; try apply Hrest.
  - by rewrite lookup_insert_eq.
  - by rewrite lookup_insert_ne, lookup_insert_eq.
  - intros q Hq Hqp. by rewrite !lookup_insert_ne.
Qed.

(** C8: [exit_current_and_run_next] turns the running task into a zombie that
    keeps its exit code and its parent, hands all its children over to
    [INITPROC] (which gets them after its own, in order, and becomes their
    parent), returns the pages of its address space and frees the processor;
    ready and sleeping tasks stay where they are. Only the idle process stops
    the machine. *)
Theorem exit_spec k p t code :
  kinv k → processor k = Some p → tcbs k !! p = Some t →
  (p = IDLE_PID ∧ exit_current_and_run_next code k = Ret None) ∨
  (p ≠ IDLE_PID ∧ ∃ K : MemorySet → Phys → Kernel,
    exit_current_and_run_next code k =
      ('(ms, ph) ← recycle_data_pages (memory_set t) (phys k); Ret (Some (K ms ph))) ∧
    ∀ ms ph, kinv (K ms ph) ∧
      tcbs (K ms ph) !! p = Some (mkTCB (trap_cx_ppn t) (base_size t) (task_cx t) Zombie ms (parent t) [] code
        (fd_table t) (agent_ext t) (priority t)) ∧
      children_of (K ms ph) INITPROC = children_of k INITPROC ++ children t ∧
      (∀ c, c ∈ children t → parent_of (K ms ph) c = Some INITPROC ∧ status_of (K ms ph) c = status_of k c) ∧
      (∀ q, q ≠ p → q ≠ INITPROC → q ∉ children t → tcbs (K ms ph) !! q = tcbs k !! q) ∧
      processor (K ms ph) = None ∧ ready_queue (K ms ph) = ready_queue k ∧
      blocked (K ms ph) = blocked k ∧ phys (K ms ph) = ph).
Proof.
  intros Hk Hp Ht. destruct (decide (p = IDLE_PID)) as [->|Hpi]; [left|right].
  - split; [done|]. unfold exit_current_and_run_next, take_current_task. by rewrite Hp.
  - split; [done|]. destruct (exit_ok code k p t Hk Hp Hpi Ht) as (K & E & HK). exists K. split; [done|].
    intros ms ph. destruct (HK ms ph) as (Hex & Hk' & Hph & Hm).
    assert (Hch : children_of k p = children t) by (unfold children_of; by rewrite Ht).
    split_and!; try apply Hex; try done.
    + by rewrite Hm, decide_True.
    + rewrite (ex_children _ _ _ Hex), decide_False, decide_True, Hch by done. done.
    + intros c Hc. rewrite (ex_parent _ _ _ Hex), Hch, decide_True by done. split; [done|].
      rewrite (ex_status _ _ _ Hex), decide_False; [done|]. intros ->. rewrite <-Hch in Hc.
      destruct (k_rank _ Hk) as [rank Hrank]. apply Hrank in Hc. lia.
    + intros q Hq Hqi Hqc. by rewrite Hm, !decide_False.
Qed.

(** C7: [sys_waitpid] returns -1 when no child matches, -2 when none of the
    matching children is a zombie, and otherwise reaps the first zombie that
    matches: the assertion on its reference count never fails, its exit code
    goes to the caller's memory, its kernel stack and address space are
    freed, its pid becomes free again, it disappears from its parent's list
    and from the process table, and its pid is returned. *)
Theorem sys_waitpid_spec k p t pid ptr :
  kinv k → processor k = Some p → tcbs k !! p = Some t →
  ((∀ c, c ∈ children t → wants pid c = false) ∧ sys_waitpid pid ptr k = Ret (-1, k)) ∨
  ((∃ c, c ∈ children t ∧ wants pid c = true) ∧
   (∀ c, c ∈ children t → wants pid c = true → status_of k c ≠ Some Zombie) ∧
   sys_waitpid pid ptr k = Ret (-2, k)) ∨
  ∃ idx c tc (K : MemorySet → Phys → Kernel),
    children t !! idx = Some c ∧ tcbs k !! c = Some tc ∧ task_status tc = Zombie ∧ wants pid c = true ∧
    (∀ j c', (j < idx)%nat → children t !! j = Some c' → ¬ (status_of k c' = Some Zombie ∧ wants pid c' = true)) ∧
    sys_waitpid pid ptr k =
      (m ← write_i32 (get_user_token t) ptr (exit_code tc) (mem (phys k));
       '(ks, ph) ← KernelStack_drop c (kernel_space k) (mkPhys m (falloc (phys k)));
       ph ← drop_memory_set (memory_set tc) ph;
       Ret (c, K ks ph)) ∧
    ∀ ks ph, kinv (K ks ph) ∧
      tcbs (K ks ph) = delete c (<[p := set_children (delete idx (children t)) t]> (tcbs k)) ∧
      ready_queue (K ks ph) = ready_queue k ∧ processor (K ks ph) = Some p ∧ blocked (K ks ph) = blocked k ∧
      phys (K ks ph) = ph ∧ kernel_space (K ks ph) = ks.
Proof.
  intros Hk Hp Ht. destruct (waitpid_idle k p pid ptr Hk Hp) as [H1 H2].
  assert (Hch : children_of k p = children t) by (unfold children_of; by rewrite Ht). rewrite Hch in H1, H2.
  destruct (list_find (reapable k pid) (children t)) as [[idx c]|] eqn:Hf.
  - right; right. apply list_find_Some in Hf as Hf'. destruct Hf' as (Hi & [Hz Hw] & Hfst).
    destruct (status_live _ _ _ Hz) as [tc Htc].
    destruct (waitpid_reap k p pid ptr t idx c tc Hk Hp Ht Htc Hf) as (K & E & HK). exists idx, c, tc, K.
    split_and!; try done.
    + unfold status_of in Hz. rewrite Htc in Hz. by injection Hz.
    + intros j c' Hj Hc'. by apply (Hfst j c').
    + intros ks ph. destruct (HK ks ph) as (? & ? & ? & ? & ? & Hpr & ?). rewrite Hpr. by split_and!.
  - apply list_find_None in Hf. rewrite Forall_forall in Hf.
    destruct (existsb (wants pid) (children t)) eqn:Ew; [right; left|left].
    + apply existsb_wants in Ew. split_and!; [done| |by apply H2].
      intros c Hc Hw Hz. by apply (Hf c).
    + assert (Hno : ∀ c, c ∈ children t → wants pid c = false).
      { intros c Hc. destruct (wants pid c) eqn:Hw; [|done].
        assert (existsb (wants pid) (children t) = true); [|congruence]. apply existsb_wants. by exists c. }
      split; [done|]. by apply H1.
Qed.

(** ** Agents *)

(** C13: A message to an agent is never refused and never lost to a sleeping
    receiver: [deliver_message] succeeds exactly when the target exists and
    is an agent; the payload becomes the newest message of its mailbox, the
    oldest one making room only when the mailbox is full, so that the mailbox
    never exceeds its capacity; a sleeping target becomes ready; no other
    task changes. *)
Theorem deliver_message_spec k target payload :
  os_inv k →
  ∃ k', deliver_message target payload k = Ret (bool_decide (is_Some (ext_of k target)), k') ∧ os_inv k' ∧
    (ext_of k target = None → k' = k) ∧
    ∀ ext, ext_of k target = Some ext →
      ∃ ext', ext_of k' target = Some ext' ∧
        mailbox ext' = (if mailbox_capacity ext <=? Z.of_nat (length (mailbox ext)) then tail (mailbox ext)
                        else mailbox ext) ++ [payload] ∧
        Z.of_nat (length (mailbox ext')) ≤ mailbox_capacity ext' ∧
        mailbox_capacity ext' = mailbox_capacity ext ∧
        status_of k' target = (if decide (status_of k target = Some Blocked) then Some Ready else status_of k target) ∧
        (∀ q, q ≠ target → tcbs k' !! q = tcbs k !! q) ∧ processor k' = processor k.
Proof.
  intros Hos. destruct (deliver_message_ok target payload k Hos) as (k' & E & Hos' & Hd).
  exists k'. split; [done|]. split; [done|]. split; [intros Hn; by rewrite Hn in Hd|].
  intros ext He. rewrite He in Hd. destruct (mailbox_ok_of _ _ _ Hos He) as [Hc Hl].
  exists (set_mailbox (mailbox_after payload ext) ext).
  assert (Ht := dl_tcbs _ _ _ _ Hd target). rewrite decide_True in Ht by done.
  assert (He' := He). unfold ext_of in He'. destruct (tcbs k !! target) as [t|] eqn:Hkt; [|done].
  simpl in Ht, He'. split_and!; try done.
  - unfold ext_of. rewrite Ht. simpl. by case_decide.
  - exact (mailbox_after_len payload ext Hc Hl).
  - unfold status_of. rewrite Ht, Hkt. simpl.
    destruct (decide (task_status t = Blocked)) as [Hb|Hb].
    + rewrite decide_True; [done|congruence].
    + rewrite decide_False; [done|congruence].
  - intros q Hq. by rewrite (dl_tcbs _ _ _ _ Hd), decide_False.
  - apply Hd.
Qed.

(** C14: On every timer tick exactly the sleeping agents whose deadline has
    come are woken, each once and at the end of the ready queue; the others
    sleep on, and no control block but for the status of the woken changes.
    The scan with [swap_remove] misses none. *)
Theorem tick_wake_timeouts_spec k now :
  kinv k →
  ∃ k' qs, tick_wake_timeouts now k = Ret k' ∧ kinv k' ∧
    ready_queue k' = ready_queue k ++ qs ∧
    (∀ p, p ∈ qs ↔ ∃ d, (p, Some d) ∈ blocked k ∧ d ≤ now) ∧
    (∀ p d, (p, d) ∈ blocked k' ↔ (p, d) ∈ blocked k ∧ (∀ z, d = Some z → now < z)) ∧
    (∀ p, tcbs k' !! p = if decide (p ∈ qs) then set_status Ready <$> tcbs k !! p else tcbs k !! p) ∧
    processor k' = processor k.
Proof.
  intros Hk. destruct (tick_wake_timeouts_ok now k Hk) as (k' & ps & E & Hk' & Hw & Hps).
  destruct (wk_ready _ _ _ Hw) as [qs Hqs]. exists k', qs.
  assert (Hbl : ∀ p, p ∈ ps → status_of k p = Some Blocked).
  { intros p (d & Hin & _)%Hps. apply (k_blocked _ Hk), list_elem_of_fmap. by exists (p, Some d). }
  assert (Hq : ∀ p, p ∈ qs ↔ p ∈ ps).
  { intros p. assert (Hnd := k_nd_ready _ Hk'). rewrite Hqs in Hnd. apply NoDup_app in Hnd as (_ & Hdis & _).
    assert (Hr : p ∈ ready_queue k' ↔ p ∈ ready_queue k ∨ p ∈ qs) by (by rewrite Hqs, elem_of_app).
    rewrite (k_ready _ Hk'), (k_ready _ Hk), (woken_status _ _ _ _ Hw) in Hr. split; intros Hp.
    - case_decide as Hd; [tauto|]. assert (Hrk : status_of k p = Some Ready) by tauto.
      apply (k_ready _ Hk) in Hrk. by destruct (Hdis p Hrk).
    - assert (Hb := Hbl p Hp). rewrite decide_True in Hr by done. rewrite Hb in Hr. naive_solver. }
  split_and!; try done.
  - intros p. by rewrite Hq.
  - intros p d. rewrite (wk_blocked _ _ _ Hw), list_elem_of_filter. simpl. rewrite Hps. split.
    + intros [Hn Hin]. split; [done|]. intros z ->. apply Z.nle_gt. intros Hle. apply Hn. by exists z.
    + intros [Hin Hz]. split; [|done]. intros (z & Hin' & Hle). assert (d = Some z) as ->; [|specialize (Hz z eq_refl); lia].
      assert (Hnd := k_nd_blocked _ Hk). apply list_elem_of_lookup in Hin as [i Hi], Hin' as [j Hj].
      assert (i = j) as ->.
      { eapply NoDup_lookup; [exact Hnd| |]; rewrite list_lookup_fmap; [by rewrite Hi|by rewrite Hj]. }
      congruence.
  - intros p. rewrite (wk_tcbs _ _ _ Hw). apply decide_ext. rewrite Hq. split; [tauto|]. auto.
  - apply Hw.
Qed.

(** C15: The heartbeat. On every tick the agents whose interval is set and has
    passed since the last beat - and no others - get a pending heartbeat
    stamped with the current time, and those of them that sleep are woken;
    every other task, and every other field, is untouched. *)
Theorem tick_all_agents_spec k now :
  os_inv k →
  ∃ k', tick_all_agents now k = Ret k' ∧ os_inv k' ∧
    ∀ p t, tcbs k !! p = Some t →
      (∀ ext, agent_ext t = Some ext → 0 < heartbeat_interval_ms ext →
         heartbeat_interval_ms ext ≤ Z.max 0 (now - heartbeat_last_ms ext) →
         tcbs k' !! p = Some (set_status (if decide (task_status t = Blocked) then Ready else task_status t)
           (set_ext (Some (set_heartbeat (heartbeat_interval_ms ext) now true ext)) t))) ∧
      ((∀ ext, agent_ext t = Some ext → heartbeat_interval_ms ext ≤ 0 ∨
          Z.max 0 (now - heartbeat_last_ms ext) < heartbeat_interval_ms ext) → tcbs k' !! p = Some t).
Proof.
  intros Hos. destruct (fire_os_inv (heartbeat_fire now) k Hos (heartbeat_keeps now)) as (k' & E & Hos' & Hf).
  rewrite tick_all_agents_fire. exists k'. split; [done|]. split; [done|]. intros p t Ht.
  assert (Hk' := fd_tcbs _ _ _ Hf p). rewrite Ht in Hk'. simpl in Hk'.
  assert (Hfi : fires (heartbeat_fire now) k p ↔ is_Some (agent_ext t ≫= heartbeat_fire now))
    by (unfold fires, ext_of; by rewrite Ht).
  unfold ext_upd in Hk'. split.
  - intros ext He Hi Hel.
    assert (Hfire : agent_ext t ≫= heartbeat_fire now = Some (set_heartbeat (heartbeat_interval_ms ext) now true ext)).
    { rewrite He. simpl. unfold heartbeat_fire, sat_sub.
      by rewrite (proj2 (Z.ltb_lt _ _)), (proj2 (Z.leb_le _ _)) by done. }
    rewrite Hfire in Hk', Hfi. rewrite Hk'. destruct (decide (task_status t = Blocked)) as [Hb|Hb].
    + rewrite decide_True; [done|]. split; [apply Hfi; by eexists|done].
    + rewrite decide_False by tauto. by destruct t.
  - intros Hno. assert (Hn : agent_ext t ≫= heartbeat_fire now = None).
    { destruct (agent_ext t) as [ext|]; [|done]. simpl. unfold heartbeat_fire, sat_sub.
      destruct (Hno ext eq_refl) as [?|?]; [by rewrite (proj2 (Z.ltb_ge _ _))|].
      destruct (0 <? heartbeat_interval_ms ext); [|done]. by rewrite (proj2 (Z.leb_gt _ _)). }
    rewrite Hn in Hk', Hfi. rewrite decide_False in Hk'; [done|]. intros [Hx _]. apply Hfi in Hx. by destruct Hx.
Qed.

End Theorems.

(** ** Witnesses *)
Lemma fetch_task_spec_witness :
  (ready_queue Demo.k = [] ∧ fetch_task Demo.k = Ret (None, Demo.k)) ∨
  ∃ idx p, ready_queue Demo.k !! idx = Some p ∧
    fetch_task Demo.k = Ret (Some p, with_ready (delete idx (ready_queue Demo.k)) Demo.k) ∧
    (∀ j q, ready_queue Demo.k !! j = Some q → prio_of Demo.k q ≤ prio_of Demo.k p) ∧
    (∀ j q, (j < idx)%nat → ready_queue Demo.k !! j = Some q → prio_of Demo.k q < prio_of Demo.k p).
Proof. exact (fetch_task_spec Demo.k Demo.ok). Defined.

Lemma snapshot_lists_every_process_witness :
  snapshot_all_processes Demo.k = Ret [0; 1; 2; 3] ∧
  ∃ l, snapshot_all_processes Demo.k = Ret l ∧ NoDup l ∧ ∀ p, p ∈ l ↔ is_Some (tcbs Demo.k !! p).
Proof. split; [reflexivity|]. exact (snapshot_lists_every_process Demo.k Demo.ok). Defined.

Lemma sys_fork_spec_witness :
  ∃ np (K : MemorySet → Z → MemorySet → Phys → Kernel),
    tcbs Demo.k !! np = None ∧
    @sys_fork DemoPlatform.demo Demo.k =
      ('(ms, ph) ← @from_existed_user DemoPlatform.demo Demo.ms0 DemoPlatform.boot;
       ppn ← @trap_cx_page DemoPlatform.demo ms (mem ph);
       '(ks, ph) ← @KernelStack_new DemoPlatform.demo np Demo.ms0 ph;
       m ← @set_bytes DemoPlatform.demo (mem ph) ppn KERNEL_SP_OFF (to_le_bytes 8 (get_top np));
       m ← @set_bytes DemoPlatform.demo m ppn (X_OFF 10) (to_le_bytes 8 0);
       Ret (np, K ms ppn ks (mkPhys m (falloc ph)))) ∧
    ∀ ms ppn ks ph, kinv (K ms ppn ks ph) ∧
      tcbs (K ms ppn ks ph) !! np = Some (mkTCB ppn 0 (goto_trap_return (get_top np)) Ready ms
        (Some 1) [] 0 (fd_table Demo.t1) None 16) ∧
      tcbs (K ms ppn ks ph) !! 1 = Some (set_children ([2; 3] ++ [np]) Demo.t1) ∧
      (∀ q, q ≠ np → q ≠ 1 → tcbs (K ms ppn ks ph) !! q = tcbs Demo.k !! q) ∧
      ready_queue (K ms ppn ks ph) = [0] ++ [np] ∧ processor (K ms ppn ks ph) = Some 1 ∧
      blocked (K ms ppn ks ph) = blocked Demo.k ∧ phys (K ms ppn ks ph) = ph ∧ kernel_space (K ms ppn ks ph) = ks.
Proof. exact (@sys_fork_spec DemoPlatform.demo Demo.k 1 Demo.t1 Demo.ok eq_refl eq_refl eq_refl). Defined.

Lemma exit_spec_witness :
  (1 = IDLE_PID ∧ @exit_current_and_run_next DemoPlatform.demo 9 Demo.k = Ret None) ∨
  (1 ≠ IDLE_PID ∧ ∃ K : MemorySet → Phys → Kernel,
    @exit_current_and_run_next DemoPlatform.demo 9 Demo.k =
      ('(ms, ph) ← recycle_data_pages Demo.ms0 DemoPlatform.boot; Ret (Some (K ms ph))) ∧
    ∀ ms ph, kinv (K ms ph) ∧
      tcbs (K ms ph) !! 1 = Some (mkTCB 0x80400 0 after_timer Zombie ms (Some 0) [] 9
        (fd_table Demo.t1) (Some Demo.ext1) 16) ∧
      children_of (K ms ph) INITPROC = [1] ++ [2; 3] ∧
      (∀ c, c ∈ [2; 3] → parent_of (K ms ph) c = Some INITPROC ∧ status_of (K ms ph) c = status_of Demo.k c) ∧
      (∀ q, q ≠ 1 → q ≠ INITPROC → q ∉ [2; 3] → tcbs (K ms ph) !! q = tcbs Demo.k !! q) ∧
      processor (K ms ph) = None ∧ ready_queue (K ms ph) = [0] ∧
      blocked (K ms ph) = [(3, Some 50)] ∧ phys (K ms ph) = ph).
Proof. exact (@exit_spec DemoPlatform.demo Demo.k 1 Demo.t1 9 Demo.ok eq_refl eq_refl). Defined.

Lemma sys_waitpid_spec_witness :
  ((∀ c, c ∈ [2; 3] → wants (-1) c = false) ∧ @sys_waitpid DemoPlatform.demo (-1) 0x10000 Demo.k = Ret (-1, Demo.k)) ∨
  ((∃ c, c ∈ [2; 3] ∧ wants (-1) c = true) ∧
   (∀ c, c ∈ [2; 3] → wants (-1) c = true → status_of Demo.k c ≠ Some Zombie) ∧
   @sys_waitpid DemoPlatform.demo (-1) 0x10000 Demo.k = Ret (-2, Demo.k)) ∨
  ∃ idx c tc (K : MemorySet → Phys → Kernel),
    [2; 3] !! idx = Some c ∧ tcbs Demo.k !! c = Some tc ∧ task_status tc = Zombie ∧ wants (-1) c = true ∧
    (∀ j c', (j < idx)%nat → [2; 3] !! j = Some c' → ¬ (status_of Demo.k c' = Some Zombie ∧ wants (-1) c' = true)) ∧
    @sys_waitpid DemoPlatform.demo (-1) 0x10000 Demo.k =
      (m ← @write_i32 DemoPlatform.demo (get_user_token Demo.t1) 0x10000 (exit_code tc) (mem DemoPlatform.boot);
       '(ks, ph) ← @KernelStack_drop DemoPlatform.demo c Demo.ms0 (mkPhys m (falloc DemoPlatform.boot));
       ph ← drop_memory_set (memory_set tc) ph;
       Ret (c, K ks ph)) ∧
    ∀ ks ph, kinv (K ks ph) ∧
      tcbs (K ks ph) = delete c (<[1 := set_children (delete idx [2; 3]) Demo.t1]> (tcbs Demo.k)) ∧
      ready_queue (K ks ph) = [0] ∧ processor (K ks ph) = Some 1 ∧ blocked (K ks ph) = blocked Demo.k ∧
      phys (K ks ph) = ph ∧ kernel_space (K ks ph) = ks.
Proof. exact (@sys_waitpid_spec DemoPlatform.demo Demo.k 1 Demo.t1 (-1) 0x10000 Demo.ok eq_refl eq_refl). Defined.

Lemma deliver_message_spec_witness :
  ∃ k', deliver_message 3 [x41] Demo.k = Ret (bool_decide (is_Some (ext_of Demo.k 3)), k') ∧ os_inv k' ∧
    (ext_of Demo.k 3 = None → k' = Demo.k) ∧
    ∀ ext, ext_of Demo.k 3 = Some ext →
      ∃ ext', ext_of k' 3 = Some ext' ∧
        mailbox ext' = (if mailbox_capacity ext <=? Z.of_nat (length (mailbox ext)) then tail (mailbox ext)
                        else mailbox ext) ++ [[x41]] ∧
        Z.of_nat (length (mailbox ext')) ≤ mailbox_capacity ext' ∧
        mailbox_capacity ext' = mailbox_capacity ext ∧
        status_of k' 3 = (if decide (status_of Demo.k 3 = Some Blocked) then Some Ready else status_of Demo.k 3) ∧
        (∀ q, q ≠ 3 → tcbs k' !! q = tcbs Demo.k !! q) ∧ processor k' = processor Demo.k.
Proof. exact (deliver_message_spec Demo.k 3 [x41] Demo.os). Defined.

Lemma tick_wake_timeouts_spec_witness :
  ∃ k' qs, tick_wake_timeouts 60 Demo.k = Ret k' ∧ kinv k' ∧
    ready_queue k' = [0] ++ qs ∧
    (∀ p, p ∈ qs ↔ ∃ d, (p, Some d) ∈ [(3, Some 50)] ∧ d ≤ 60) ∧
    (∀ p d, (p, d) ∈ blocked k' ↔ (p, d) ∈ [(3, Some 50)] ∧ (∀ z, d = Some z → 60 < z)) ∧
    (∀ p, tcbs k' !! p = if decide (p ∈ qs) then set_status Ready <$> tcbs Demo.k !! p else tcbs Demo.k !! p) ∧
    processor k' = Some 1.
Proof. exact (tick_wake_timeouts_spec Demo.k 60 Demo.ok). Defined.

Lemma tick_all_agents_spec_witness :
  ∃ k', tick_all_agents 30 Demo.k = Ret k' ∧ os_inv k' ∧
    ∀ p t, tcbs Demo.k !! p = Some t →
      (∀ ext, agent_ext t = Some ext → 0 < heartbeat_interval_ms ext →
         heartbeat_interval_ms ext ≤ Z.max 0 (30 - heartbeat_last_ms ext) →
         tcbs k' !! p = Some (set_status (if decide (task_status t = Blocked) then Ready else task_status t)
           (set_ext (Some (set_heartbeat (heartbeat_interval_ms ext) 30 true ext)) t))) ∧
      ((∀ ext, agent_ext t = Some ext → heartbeat_interval_ms ext ≤ 0 ∨
          Z.max 0 (30 - heartbeat_last_ms ext) < heartbeat_interval_ms ext) → tcbs k' !! p = Some t).
Proof. exact (tick_all_agents_spec Demo.k 30 Demo.os). Defined.

