(* ===== verification/Tools.v ===== *)
(** * The kernel tools ([os/src/agent/tool/])

    The five tool handlers and their dispatcher.  postcard's serialisation of
    the results is the parameter [to_allocvec] (its error is discarded by the
    code); [now] is the time register, [get_time]. *)

From stdpp Require Import pretty.
From S2P Require Import Prelude Proto FileAttr PcbExt Utf8 Task EventBus.

Class PostcardVec (T : Type) : Type := to_allocvec : T → option (list byte).

Record DispatchResult : Type := mkDispatchResult { dr_status : ToolStatus; dr_body : list byte }.

(** [postcard::to_allocvec(&v).map_err(|_| InternalError)?] and the Ok result. *)
Definition ok_body {T} `{!PostcardVec T} (v : T) : AgentResult DispatchResult :=
  match to_allocvec v with
  | Some body => inr (mkDispatchResult TSOk body)
  | None => inl InternalError
  end.
Definition no_body (s : ToolStatus) : AgentResult DispatchResult := inr (mkDispatchResult s []).

(** ** Process listings *)
Definition map_status (s : TaskStatus) : ProcStatus :=
  match s with
  | Ready => PSReady
  | Running => PSRunning
  | Zombie => PSZombie
  | Blocked => PSBlocked
  end.

Definition process_info (pid : Z) (t : TaskControlBlock) : ProcessInfo :=
  let pid := u32 pid in
  mkProcessInfo pid ("proc-" +:+ pretty pid) (map_status (task_status t))
    (match agent_ext t with Some _ => true | None => false end).

Fixpoint collect_loop (ts : list Z) (k : Kernel) : outcome (list ProcessInfo) :=
  match ts with
  | [] => Ret []
  | pid :: ts =>
      t ← get_task pid k;
      infos ← collect_loop ts k;
      Ret (process_info pid t :: infos)
  end.

Definition collect_processes (k : Kernel) : outcome (list ProcessInfo) :=
  tasks ← snapshot_all_processes k; collect_loop tasks k.

Definition count_if (f : ProcessInfo → bool) (l : list ProcessInfo) : Z :=
  u32 (Z.of_nat (length (filter (λ p, f p = true) l))).

Definition proc_status_eqb (a b : ProcStatus) : bool := bool_decide (a = b).

(** The filter of [query_process]. *)
Definition process_matches (status : option ProcStatus) (ty : AgentTypeFilter) (p : ProcessInfo) : bool :=
  (match status with None => true | Some s => proc_status_eqb (pi_status p) s end) &&
  (match ty with FilterAny => true | FilterAgent => pi_is_agent p | FilterNormal => negb (pi_is_agent p) end).

Section Handlers.
Context `{!PostcardVec SystemStatusInfo, !PostcardVec (QueryResult ProcessInfo), !PostcardVec ProcessInfo,
  !PostcardVec (QueryResult FileInfo), !PostcardVec (QueryResult ToolDescriptor)}.

(** ** The handlers ([handlers.rs]) *)
Definition system_status (now : Z) (req : ToolRequest) (k : Kernel) : outcome (AgentResult DispatchResult) :=
  procs ← collect_processes k;
  let total := u32 (Z.of_nat (length procs)) in
  let agents := count_if pi_is_agent procs in
  let running := count_if (λ p, proc_status_eqb (pi_status p) PSRunning) procs in
  Ret (ok_body (mkSystemStatusInfo total agents running 0 (u64 now))).

Definition query_process (req : ToolRequest) (k : Kernel) : outcome (AgentResult DispatchResult) :=
  match params req with
  | PQueryProcess status_filter ty_filter =>
      procs ← collect_processes k;
      let procs := filter (λ p, process_matches status_filter ty_filter p = true) procs in
      Ret (ok_body (mkQueryResult procs))
  | _ => Ret (no_body TSBadParams)
  end.

Definition is_agent_target (t : ContextTargetType) : bool :=
  match t with CTAgent => true | _ => false end.

Definition read_context (req : ToolRequest) (k : Kernel) : outcome (AgentResult DispatchResult) :=
  match params req with
  | PReadContext CTFile _ => Ret (no_body TSNotImplemented)
  | PReadContext target_type target_id =>
      procs ← collect_processes k;
      match list_find (λ p, pi_pid p = target_id) procs with
      | Some (_, p) =>
          if is_agent_target target_type && negb (pi_is_agent p) then Ret (no_body TSPermissionDenied)
          else Ret (ok_body p)
      | None => Ret (no_body TSToolNotFound)
      end
  | _ => Ret (no_body TSBadParams)
  end.

Definition send_message (req : ToolRequest) (k : Kernel) : outcome (AgentResult DispatchResult * Kernel) :=
  match params req with
  | PSendMessage target_pid payload =>
      '(ok, k) ← deliver_message target_pid payload k;
      Ret (no_body (if ok : bool then TSOk else TSPermissionDenied), k)
  | _ => Ret (no_body TSBadParams, k)
  end.

(** One item of the answer of [query_file]. *)
Definition file_info (s : FileAttrStore) (n : string) : FileInfo :=
  match get s n with
  | Some a =>
      mkFileInfo 0 n 0 (tags a) (kv a !! "owner")
        (from_utf8_lossy (take (Nat.min (length (digest a)) 48) (digest a)))
  | None => mkFileInfo 0 n 0 [] None ""
  end.

Definition query_file (req : ToolRequest) (k : Kernel) : AgentResult DispatchResult :=
  match params req with
  | PQueryFile tag owner keyword use_index =>
      let store := attr_store k in
      let names := if use_index then query_indexed store tag owner keyword
                   else query_full_scan store tag owner keyword in
      ok_body (mkQueryResult (file_info store <$> names))
  | _ => no_body TSBadParams
  end.

(** ** The dispatcher ([registry.rs]) *)
Definition dispatch (now : Z) (req : ToolRequest) (k : Kernel) : outcome (AgentResult DispatchResult * Kernel) :=
  match tool req with
  | TNSystemStatus => r ← system_status now req k; Ret (r, k)
  | TNQueryProcess => r ← query_process req k; Ret (r, k)
  | TNReadContext => r ← read_context req k; Ret (r, k)
  | TNSendMessage => send_message req k
  | TNQueryFile => Ret (query_file req k, k)
  end.

Definition tool_doc (t : ToolName) : string :=
  match t with
  | TNSystemStatus => "Returns overall system status (proc count, memory, uptime)."
  | TNQueryProcess => "Filter processes by status / agent type."
  | TNReadContext => "Read structured info about a process / file / agent by id."
  | TNSendMessage => "Send an opaque byte payload to another process (task-5)."
  | TNQueryFile => "Query files by tag / owner / keyword (task-4)."
  end.

(** [ToolDispatcher::list]: an empty body when serialisation fails. *)
Definition tool_list : list byte :=
  default [] (to_allocvec (mkQueryResult ((λ t, mkToolDescriptor (as_str t) (tool_doc t)) <$> ALL))).
End Handlers.

(** A serialiser for concrete runs: every value is one byte. *)
Module DemoVec.
#[export] Instance any (T : Type) : PostcardVec T := λ _, Some [x01].
End DemoVec.
