(* ===== verification/AgentCalls.v ===== *)
(** * The agent system calls ([os/src/syscall/agent.rs])

    All calls but [sys_agent_wait] (in [EventBus]).  User memory is the
    memory of the running task's token; [now] is a reading of the clock, in the
    unit the code uses: ticks of the time register ([get_time]) in tool calls
    and in pushes, milliseconds ([get_time_ms]) in heartbeats and waits. *)

From S2P Require Import Prelude Address PhysMem FrameAlloc PageTable MemorySet Proto FileAttr PcbExt UserCopy Utf8 ContextPath ContextArea Task EventBus Tools.

Section Calls.
Context {PF : Platform}.

(** ** User memory of the running task *)
Definition with_mem (m : Mem) (k : Kernel) : Kernel := with_phys (mkPhys m (falloc (phys k))) k.

Definition cur_task (k : Kernel) : outcome (Z * TaskControlBlock) :=
  pid ← unwrap (current_task k); t ← get_task pid k; Ret (pid, t).

(** [vec![0u8; len]] filled by [read_user_bytes]. *)
Definition copy_from_user (token va len : Z) (k : Kernel) : outcome (list byte) :=
  uread token va (replicate (Z.to_nat len) x00) (mem (phys k)).
Definition copy_to_user (token va : Z) (data : list byte) (k : Kernel) : outcome Kernel :=
  m ← uwrite token va data (mem (phys k)); Ret (with_mem m k).

(** [if ptr != 0 { write_user_bytes(token, ptr, data) }] *)
Definition copy_to_user_opt (token ptr : Z) (data : list byte) (k : Kernel) : outcome Kernel :=
  if ptr =? 0 then Ret k else copy_to_user token ptr data k.

(** ** Becoming an agent, and describing one *)
Definition sys_agent_create (pad : list byte) (k : Kernel) : outcome (Z * Kernel) :=
  '(pid, t) ← cur_task k;
  match agent_ext t with
  | Some _ => Ret (0, k)
  | None =>
      '(area, ms, ph) ← allocate CONTEXT_AREA_DEFAULT_SIZE (memory_set t) (phys k);
      m ← init_header pad (area_base area) (ms_token ms) (mem ph);
      let ext := AgentExt_new ATNormal (area_base area) (area_size area) 128 (16 * 1024) in
      let t := set_ext (Some ext) (set_memory (trap_cx_ppn t) ms t) in
      Ret (0, with_phys (mkPhys m (falloc ph)) (upd_task pid (λ _, t) k))
  end.

Definition agent_type_code (ty : AgentType) : Z := match ty with ATNormal => 1 | ATSystem => 2 end.
Definition loop_state_code (s : LoopState) : Z :=
  match s with LIdle => 0 | LThinking => 1 | LCalling => 2 | LObserving => 3 | LDone => 4 end.

Definition info_bytes (ext : AgentExt) : list byte :=
  to_le_bytes 4 (agent_type_code (agent_type ext)) ++ to_le_bytes 4 (u32 (context_area_size ext)) ++
  to_le_bytes 4 (u32 (Z.of_nat (length (path_meta ext)))) ++ to_le_bytes 4 (loop_state_code (loop_state ext)).

(** The copy loop of [sys_agent_info]. *)
Fixpoint info_chunks (cs : list (Z * Z * Z)) (buf : list byte) (written : nat) (m : Mem) : outcome (nat * Mem) :=
  match cs with
  | [] => Ret (written, m)
  | (ppn, a, b) :: cs =>
      let n := Nat.min (Z.to_nat (b - a)) (length buf - written) in
      m ← set_bytes m ppn a (slice written n buf);
      let written := (written + n)%nat in
      if (length buf <=? written)%nat then Ret (written, m) else info_chunks cs buf written m
  end.

Definition sys_agent_info (info_ptr info_len : Z) (k : Kernel) : outcome (Z * Kernel) :=
  '(pid, t) ← cur_task k;
  match agent_ext t with
  | None => Ret (-4, k)
  | Some ext =>
      let buf := info_bytes ext in
      chunks ← translated_byte_buffer (get_user_token t) info_ptr
                 (Z.min info_len (Z.of_nat (length buf))) (mem (phys k));
      '(written, m) ← info_chunks chunks buf 0 (mem (phys k));
      Ret (Z.of_nat written, with_mem m k)
  end.

(** ** Tools *)
Section ToolCalls.
Context `{!PostcardVec SystemStatusInfo, !PostcardVec (QueryResult ProcessInfo), !PostcardVec ProcessInfo,
  !PostcardVec (QueryResult FileInfo), !PostcardVec (QueryResult ToolDescriptor), !PostcardVec (list (Z * Z * Z * Z))}.
Context {E : Type} `{!PostcardCodec E ToolRequest}.

Definition tool_status_code (s : ToolStatus) : Z :=
  match s with
  | TSOk => 0
  | TSToolNotFound => 100
  | TSBadParams => 101
  | TSPermissionDenied => 102
  | TSQuotaExceeded => 103
  | TSInternalError => 104
  | TSNotImplemented => 105
  end.

Definition set_loop (s : LoopState) (t : TaskControlBlock) : TaskControlBlock :=
  match agent_ext t with Some ext => set_ext (Some (set_loop_state s ext)) t | None => t end.

(** The token of the running task, read again after the tool has run. *)
Definition cur_token (k : Kernel) : outcome Z := '(_, t) ← cur_task k; Ret (get_user_token t).

(** Storing the body: offset and length reported to the user, or the early return. *)
Definition store_result (area_base : Z) (dr : DispatchResult) (k : Kernel) : outcome (option (Z * Z) * Kernel) :=
  if bool_decide (dr_status dr = TSOk) && negb (bool_decide (dr_body dr = [])) then
    if TOOL_RESULT_LEN <? Z.of_nat (length (dr_body dr)) then Ret (None, k) else
    token ← cur_token k;
    k ← copy_to_user token (usize (area_base + TOOL_RESULT_OFF)) (dr_body dr) k;
    Ret (Some (TOOL_RESULT_OFF, u32 (Z.of_nat (length (dr_body dr)))), k)
  else Ret (Some (0, 0), k).

Definition sys_tool_call (now req_ptr req_len out_offset_ptr out_len_ptr : Z) (k : Kernel) : outcome (Z * Kernel) :=
  if (req_ptr =? 0) || (req_len =? 0) || (64 * 1024 <? req_len) then Ret (-1, k) else
  '(pid, t) ← cur_task k;
  match agent_ext t with
  | None => Ret (-4, k)
  | Some ext =>
      let token := get_user_token t in
      let k := upd_task pid (set_loop LCalling) k in
      let area_base := context_area_base ext in
      req_buf ← copy_from_user token req_ptr req_len k;
      match decode_request (E := E) req_buf with
      | inl _ => Ret (-3, k)
      | inr req =>
          '(r, k) ← dispatch now req k;
          match r with
          | inl e => Ret (into_isize e, k)
          | inr dr =>
              '(o, k) ← store_result area_base dr k;
              match o with
              | None => Ret (-5, k)
              | Some (offset, length) =>
                  let resp := mkToolResponse (req_id req) (dr_status dr) offset length in
                  token ← cur_token k;
                  k ← copy_to_user_opt token out_offset_ptr (to_le_bytes 4 (result_offset resp)) k;
                  token ← cur_token k;
                  k ← copy_to_user_opt token out_len_ptr (to_le_bytes 4 (result_len resp)) k;
                  pid ← unwrap (current_task k);
                  let k := upd_task pid (set_loop LObserving) k in
                  Ret (tool_status_code (resp_status resp), k)
              end
          end
      end
  end.

Definition sys_tool_list (buf_ptr buf_len : Z) (k : Kernel) : outcome (Z * Kernel) :=
  if buf_ptr =? 0 then Ret (-1, k) else
  let body := tool_list in
  if buf_len <? Z.of_nat (length body) then Ret (-2, k) else
  '(_, t) ← cur_task k;
  k ← copy_to_user (get_user_token t) buf_ptr body k;
  Ret (Z.of_nat (length body), k).

(** ** The context path *)

(** [vec![0u8; len]], filled when both length and pointer are not zero. *)
Definition read_optional (token ptr len : Z) (k : Kernel) : outcome (list byte) :=
  if (0 <? len) && negb (ptr =? 0) then copy_from_user token ptr len k
  else Ret (replicate (Z.to_nat len) x00).

Definition sys_context_push (now req_ptr req_len resp_ptr resp_len : Z) (k : Kernel) : outcome (Z * Kernel) :=
  if (4096 <? req_len) || (4096 <? resp_len) then Ret (-2, k) else
  '(pid, t) ← cur_task k;
  let token := get_user_token t in
  req_buf ← read_optional token req_ptr req_len k;
  resp_buf ← read_optional token resp_ptr resp_len k;
  match agent_ext t with
  | None => Ret (-4, k)
  | Some ext =>
      '(r, ext, m) ← push_node now ext token req_buf resp_buf (mem (phys k));
      let k := with_mem m (upd_task pid (set_ext (Some ext)) k) in
      Ret (match r with inr idx => as_i64 idx | inl e => into_isize e end, k)
  end.

Definition sys_context_query (out_offset_ptr out_len_ptr : Z) (k : Kernel) : outcome (Z * Kernel) :=
  '(pid, t) ← cur_task k;
  let token := get_user_token t in
  match agent_ext t with
  | None => Ret (-4, k)
  | Some ext =>
      match serialize_meta (λ l, match to_allocvec l with Some b => inr b | None => inl tt end) ext with
      | inl e => Ret (into_isize e, k)
      | inr body =>
          if TOOL_RESULT_LEN <? Z.of_nat (length body) then Ret (-5, k) else
          let area_base := context_area_base ext in
          k ← copy_to_user token (usize (area_base + TOOL_RESULT_OFF)) body k;
          k ← copy_to_user_opt token out_offset_ptr (to_le_bytes 4 TOOL_RESULT_OFF) k;
          k ← copy_to_user_opt token out_len_ptr (to_le_bytes 4 (u32 (Z.of_nat (length body)))) k;
          Ret (0, k)
      end
  end.

Definition sys_context_rollback (node_count : Z) (k : Kernel) : outcome (Z * Kernel) :=
  '(pid, t) ← cur_task k;
  match agent_ext t with
  | None => Ret (-4, k)
  | Some ext =>
      '(r, ext, m) ← rollback ext (get_user_token t) node_count (mem (phys k));
      let k := with_mem m (upd_task pid (set_ext (Some ext)) k) in
      Ret (match r with inr _ => 0 | inl e => into_isize e end, k)
  end.

Definition sys_context_clear (k : Kernel) : outcome (Z * Kernel) :=
  '(pid, t) ← cur_task k;
  match agent_ext t with
  | None => Ret (-4, k)
  | Some ext =>
      '(ext, m) ← clear ext (get_user_token t) (mem (phys k));
      Ret (0, with_mem m (upd_task pid (set_ext (Some ext)) k))
  end.
End ToolCalls.

(** ** Loop state, priority, heartbeat, events *)

(** [let ext = match inner.agent_ext.as_mut() { Some(e) => e, None => return -4 }; ...; 0] *)
Definition with_ext (f : AgentExt → AgentExt) (k : Kernel) : outcome (Z * Kernel) :=
  '(pid, t) ← cur_task k;
  match agent_ext t with
  | None => Ret (-4, k)
  | Some ext => Ret (0, upd_task pid (set_ext (Some (f ext))) k)
  end.

Definition loop_state_of (state_code : Z) : option LoopState :=
  if state_code =? 0 then Some LIdle else if state_code =? 1 then Some LThinking
  else if state_code =? 2 then Some LCalling else if state_code =? 3 then Some LObserving
  else if state_code =? 4 then Some LDone else None.

Definition sys_agent_set_loop_state (state_code : Z) (k : Kernel) : outcome (Z * Kernel) :=
  match loop_state_of state_code with
  | None => Ret (-1, k)
  | Some new_state => with_ext (set_loop_state new_state) k
  end.

Definition sys_agent_set_priority (priority : Z) (k : Kernel) : outcome (Z * Kernel) :=
  let p := Z.min priority MAX_PRIORITY in
  '(pid, _) ← cur_task k;
  Ret (p, upd_task pid (set_priority p) k).

Definition sys_agent_heartbeat_set (now interval_ms : Z) (k : Kernel) : outcome (Z * Kernel) :=
  with_ext (set_heartbeat interval_ms now false) k.

Definition sys_agent_heartbeat_stop (k : Kernel) : outcome (Z * Kernel) :=
  with_ext (λ e, set_heartbeat 0 (heartbeat_last_ms e) false e) k.

Definition sys_agent_watch (event_mask : Z) (k : Kernel) : outcome (Z * Kernel) :=
  with_ext (λ e, set_watched (Z.lor (watched_events e) event_mask) e) k.

(** [!(event_mask as u32)] is the complement in 32 bits. *)
Definition sys_agent_unwatch (event_mask : Z) (k : Kernel) : outcome (Z * Kernel) :=
  with_ext (λ e, set_watched (Z.land (watched_events e) (2 ^ 32 - 1 - u32 event_mask)) e) k.

(** ** File attributes *)
Definition bad_names (name_ptr name_len tag_len : Z) : bool :=
  (name_ptr =? 0) || (name_len =? 0) || (256 <? name_len) || (256 <? tag_len).

Definition sys_file_attr_set (name_ptr name_len tag_ptr tag_len : Z) (k : Kernel) : outcome (Z * Kernel) :=
  if bad_names name_ptr name_len tag_len then Ret (-1, k) else
  '(_, t) ← cur_task k;
  let token := get_user_token t in
  name_buf ← copy_from_user token name_ptr name_len k;
  tag_buf ← read_optional token tag_ptr tag_len k;
  match from_utf8 name_buf with
  | None => Ret (-7, k)
  | Some name =>
      match from_utf8 tag_buf with
      | None => Ret (-7, k)
      | Some tag =>
          let k := with_attrs (add_tag name tag (attr_store k)) k in
          k ← broadcast_file_event k;
          Ret (0, k)
      end
  end.

(** The deletion itself: [None] when the tag is not UTF-8. *)
Definition attr_delete (token : Z) (name : string) (tag_ptr tag_len : Z) (k : Kernel)
    : outcome (option (bool * FileAttrStore)) :=
  if tag_len =? 0 then Ret (Some (remove_file name (attr_store k))) else
  tag_buf ← copy_from_user token tag_ptr tag_len k;
  match from_utf8 tag_buf with
  | None => Ret None
  | Some tag => Ret (Some (remove_tag name tag (attr_store k)))
  end.

Definition sys_file_attr_del (name_ptr name_len tag_ptr tag_len : Z) (k : Kernel) : outcome (Z * Kernel) :=
  if bad_names name_ptr name_len tag_len then Ret (-1, k) else
  '(_, t) ← cur_task k;
  let token := get_user_token t in
  name_buf ← copy_from_user token name_ptr name_len k;
  match from_utf8 name_buf with
  | None => Ret (-7, k)
  | Some name =>
      r ← attr_delete token name tag_ptr tag_len k;
      match r with
      | None => Ret (-7, k)
      | Some (changed, store) =>
          let k := with_attrs store k in
          if changed : bool then k ← broadcast_file_event k; Ret (1, k) else Ret (0, k)
      end
  end.

Definition sys_file_attr_bench (start finish n iters use_index : Z) (k : Kernel) : outcome (Z * Kernel) :=
  Ret (as_i64 (run_benchmark (Z.to_nat n) (Z.to_nat iters) (negb (use_index =? 0)) start finish).2, k).

(** ** The mailbox *)
Definition sys_mailbox_recv (buf_ptr buf_len : Z) (k : Kernel) : outcome (Z * Kernel) :=
  if buf_ptr =? 0 then Ret (-1, k) else
  '(pid, t) ← cur_task k;
  let token := get_user_token t in
  match agent_ext t with
  | None => Ret (-4, k)
  | Some ext =>
      match mailbox ext with
      | [] => Ret (-6, k)
      | msg :: rest =>
          let k := upd_task pid (set_ext (Some (set_mailbox rest ext))) k in
          let n := Z.min buf_len (Z.of_nat (length msg)) in
          k ← copy_to_user token buf_ptr (take (Z.to_nat n) msg) k;
          Ret (n, k)
      end
  end.
End Calls.
