(* ===== verification/CallThms.v ===== *)
(** * Theorems on the tools and the agent system calls *)

From S2P Require Import Prelude Address PhysMem FrameAlloc PageTable MemorySet Proto FileAttr PcbExt UserCopy Utf8 ContextPath ContextArea Task Blocking EventBus KernelInv TaskLife AgentSched KernelSteps Tools AgentCalls KernelThms.

(** ** Every call keeps the kernel's invariant *)
Definition mailbox_same (e e' : AgentExt) : Prop :=
  mailbox e' = mailbox e ∧ mailbox_capacity e' = mailbox_capacity e.

Lemma mailbox_same_ok e e' : mailbox_same e e' → mailbox_ok e → mailbox_ok e'.
Proof. unfold mailbox_same, mailbox_ok. by intros [-> ->]. Qed.

Section PathMailbox.
Context {M : Type} `{!UserMem M}.

Lemma evict_one_mailbox e tk m r e' m' : evict_one e tk m = Ret (r, e', m') → mailbox_same e e'.
Proof.
  unfold evict_one. destruct (pick_victim e); [|by intros [= <- <- <-]].
  intros H. apply bind_Ret in H as (v & _ & H). apply bind_Ret in H as (m1 & _ & H). by injection H as <- <- <-.
Qed.

Lemma evict_loop_mailbox fuel sz tk : ∀ e m r e' m',
  evict_loop fuel sz e tk m = Ret (r, e', m') → mailbox_same e e'.
Proof.
  induction fuel as [|fuel IH]; intros e m r e' m'; simpl; destruct (needs_evict sz e);
    try (by intros [= <- <- <-]); destruct (path_meta e); try (by intros [= <- <- <-]); try done.
  intros H. apply bind_Ret in H as ([[r1 e1] m1] & E1 & H). apply evict_one_mailbox in E1 as [A B].
  destruct r1; [by injection H as <- <- <-|]. apply IH in H as [C D]. split; congruence.
Qed.

Lemma push_node_mailbox now e tk rq rs m r e' m' :
  push_node now e tk rq rs m = Ret (r, e', m') → mailbox_same e e'.
Proof.
  unfold push_node. destruct (_ <? _); [by intros [= <- <- <-]|].
  destruct (_ <? _); [by intros [= <- <- <-]|].
  intros H. apply bind_Ret in H as ([[r1 e1] m1] & E1 & H). apply evict_loop_mailbox in E1 as [A B].
  destruct r1; [by injection H as <- <- <-|]. apply bind_Ret in H as (m2 & _ & H).
  apply bind_Ret in H as (m3 & _ & H). by injection H as <- <- <-.
Qed.

Lemma rollback_mailbox e tk n m r e' m' : rollback e tk n m = Ret (r, e', m') → mailbox_same e e'.
Proof.
  unfold rollback. destruct (_ <? _); [by intros [= <- <- <-]|].
  intros H. apply bind_Ret in H as (e1 & E1 & H). apply bind_Ret in H as (m1 & _ & H).
  injection H as <- <- <-. destruct (n =? 0); [by injection E1 as <-|].
  apply bind_Ret in E1 as (l & _ & E1). by injection E1 as <-.
Qed.

Lemma clear_mailbox e tk m e' m' : clear e tk m = Ret (e', m') → mailbox_same e e'.
Proof. unfold clear. intros H. apply bind_Ret in H as (m1 & _ & H). by injection H as <- <-. Qed.
End PathMailbox.

Section Preserve.
Context {PF : Platform}.

Lemma cur_task_Ret k p t : processor k = Some p → tcbs k !! p = Some t → cur_task k = Ret (p, t).
Proof.
  intros Hp Ht. unfold cur_task, current_task. rewrite Hp. cbn [unwrap mbind outcome_bind].
  by rewrite (proj2 (get_task_Ret _ _ _) Ht).
Qed.

Lemma cur_task_inv k p t : cur_task k = Ret (p, t) → processor k = Some p ∧ tcbs k !! p = Some t.
Proof.
  unfold cur_task, current_task. intros H. apply bind_Ret in H as (p' & E & H). apply unwrap_Ret in E.
  apply bind_Ret in H as (t' & E' & H). apply get_task_Ret in E'. by injection H as <- <-.
Qed.

Lemma upd_task_const p g k t : tcbs k !! p = Some t → upd_task p (λ _, g t) k = upd_task p g k.
Proof.
  intros Ht. unfold upd_task, with_tcbs. f_equal. apply map_eq. intros q.
  destruct (decide (q = p)) as [->|]; [|by rewrite !lookup_alter_ne]. by rewrite !lookup_alter_eq, Ht.
Qed.

(** Setting the extension of the running task to one with the same mailbox. *)
Lemma set_ext_os_inv k p t ext ext' :
  os_inv k → cur_task k = Ret (p, t) → agent_ext t = Some ext → mailbox_same ext ext' →
  os_inv (upd_task p (set_ext (Some ext')) k).
Proof.
  intros Hos Hc He Hm. apply cur_task_inv in Hc as [Hp Ht]. apply os_inv_upd; [done|done|].
  apply task_local_ext. eapply mailbox_same_ok; [done|]. apply (mailbox_ok_of k p); [done|].
  unfold ext_of. by rewrite Ht.
Qed.

Lemma copy_to_user_inv tk va d k k' : copy_to_user tk va d k = Ret k' → ∃ ph, k' = with_phys ph k.
Proof. unfold copy_to_user, with_mem. intros H. apply bind_Ret in H as (m & _ & H). injection H as <-. by eexists. Qed.

Lemma copy_to_user_opt_inv tk va d k k' : copy_to_user_opt tk va d k = Ret k' → ∃ ph, k' = with_phys ph k.
Proof.
  unfold copy_to_user_opt. destruct (va =? 0); [|apply copy_to_user_inv].
  intros [= <-]. exists (phys k). by destruct k.
Qed.

Lemma copy_os_inv tk va d k k' : os_inv k → copy_to_user tk va d k = Ret k' → os_inv k'.
Proof. intros Hos [ph ->]%copy_to_user_inv. by apply os_inv_phys. Qed.
Lemma copy_opt_os_inv tk va d k k' : os_inv k → copy_to_user_opt tk va d k = Ret k' → os_inv k'.
Proof. intros Hos [ph ->]%copy_to_user_opt_inv. by apply os_inv_phys. Qed.

Lemma set_loop_local s : task_local (set_loop s).
Proof.
  unfold set_loop. split; intros t; try (by destruct (agent_ext t)).
  intros ext He. destruct (agent_ext t) as [e|] eqn:E; simpl; [|congruence].
  intros [= <-]. by apply mailbox_ok_loop, He.
Qed.

Lemma with_ext_os_inv f k r k' :
  os_inv k → (∀ e, mailbox_same e (f e)) → with_ext f k = Ret (r, k') → os_inv k'.
Proof.
  intros Hos Hf H. unfold with_ext in H. apply bind_Ret in H as ([p t] & Hc & H).
  destruct (agent_ext t) as [ext|] eqn:He; [|by injection H as <- <-]. injection H as <- <-.
  by eapply set_ext_os_inv.
Qed.

Lemma broadcast_os_inv k k' : os_inv k → broadcast_file_event k = Ret k' → os_inv k'.
Proof.
  intros Hos E. destruct (fire_os_inv file_event_mark k Hos file_event_keeps) as (k1 & E1 & Hos1 & _).
  rewrite broadcast_file_event_fire in E. congruence.
Qed.

Lemma create_os_inv pad k r k' : os_inv k → sys_agent_create pad k = Ret (r, k') → os_inv k'.
Proof.
  intros Hos H. unfold sys_agent_create in H. apply bind_Ret in H as ([p t] & Hc & H).
  destruct (agent_ext t) eqn:He; [by injection H as <- <-|].
  apply bind_Ret in H as ([[area ms] ph] & _ & H). apply bind_Ret in H as (m & _ & H). injection H as <- <-.
  apply cur_task_inv in Hc as [Hp Ht]. apply os_inv_phys.
  set (ext := AgentExt_new _ _ _ _ _).
  rewrite (upd_task_const p (λ t, set_ext (Some ext) (set_memory (trap_cx_ppn t) ms t)) k t Ht).
  apply os_inv_upd; [done|done|]. split; try done. intros t' e _ [= <-]. unfold mailbox_ok. simpl. lia.
Qed.

Context `{!PostcardVec SystemStatusInfo, !PostcardVec (QueryResult ProcessInfo), !PostcardVec ProcessInfo,
  !PostcardVec (QueryResult FileInfo), !PostcardVec (QueryResult ToolDescriptor), !PostcardVec (list (Z * Z * Z * Z))}.
Context {E : Type} `{!PostcardCodec E ToolRequest}.

Lemma dispatch_os_inv now req k r k' : os_inv k → dispatch now req k = Ret (r, k') → os_inv k'.
Proof.
  intros Hos. unfold dispatch. destruct (tool req).
  1-3: intros H; apply bind_Ret in H as (x & _ & H); by injection H as <- <-.
  - unfold send_message. destruct (params req); try (by intros [= <- <-]). intros H.
    apply bind_Ret in H as ([b k1] & E1 & H). injection H as <- <-.
    destruct (deliver_message_ok target_pid payload k Hos) as (k2 & E2 & Hos2 & _). congruence.
  - by intros [= <- <-].
Qed.

Lemma store_result_os_inv b dr k o k' : os_inv k → store_result b dr k = Ret (o, k') → os_inv k'.
Proof.
  intros Hos. unfold store_result. destruct (_ && _); [|by intros [= <- <-]].
  destruct (_ <? _); [by intros [= <- <-]|]. intros H. apply bind_Ret in H as (tk & _ & H).
  apply bind_Ret in H as (k1 & E1 & H). injection H as <- <-. by eapply copy_os_inv.
Qed.

Lemma tool_call_os_inv now a b c d k r k' :
  os_inv k → sys_tool_call (E := E) now a b c d k = Ret (r, k') → os_inv k'.
Proof.
  intros Hos. unfold sys_tool_call. destruct (_ || _); [by intros [= <- <-]|]. intros H.
  apply bind_Ret in H as ([p t] & Hc & H). destruct (agent_ext t) as [ext|] eqn:He; [|by injection H as <- <-].
  assert (Hos1 : os_inv (upd_task p (set_loop LCalling) k)).
  { apply cur_task_inv in Hc as [Hp _]. by apply os_inv_upd, set_loop_local. }
  apply bind_Ret in H as (buf & _ & H). destruct (decode_request buf) as [e|req]; [by injection H as <- <-|].
  apply bind_Ret in H as ([dr k1] & Ed & H). apply (dispatch_os_inv _ _ _ _ _ Hos1) in Ed.
  destruct dr as [e|dr]; [by injection H as <- <-|].
  apply bind_Ret in H as ([o k2] & Es & H). apply (store_result_os_inv _ _ _ _ _ Ed) in Es.
  destruct o as [[off len]|]; [|by injection H as <- <-].
  apply bind_Ret in H as (tk & _ & H). apply bind_Ret in H as (k3 & E3 & H).
  apply (copy_opt_os_inv _ _ _ _ _ Es) in E3.
  apply bind_Ret in H as (tk' & _ & H). apply bind_Ret in H as (k4 & E4 & H).
  apply (copy_opt_os_inv _ _ _ _ _ E3) in E4.
  apply bind_Ret in H as (p' & Hp' & H). apply unwrap_Ret in Hp'. injection H as <- <-.
  by apply os_inv_upd, set_loop_local.
Qed.

Lemma tool_list_os_inv a b k r k' : os_inv k → sys_tool_list a b k = Ret (r, k') → os_inv k'.
Proof.
  intros Hos. unfold sys_tool_list. destruct (_ =? _); [by intros [= <- <-]|].
  destruct (_ <? _); [by intros [= <- <-]|]. intros H. apply bind_Ret in H as ([p t] & Hc & H).
  apply bind_Ret in H as (k1 & E1 & H). injection H as <- <-. by eapply copy_os_inv.
Qed.

Lemma agent_info_os_inv a b k r k' : os_inv k → sys_agent_info a b k = Ret (r, k') → os_inv k'.
Proof.
  intros Hos. unfold sys_agent_info. intros H. apply bind_Ret in H as ([p t] & Hc & H).
  destruct (agent_ext t); [|by injection H as <- <-]. apply bind_Ret in H as (cs & _ & H).
  apply bind_Ret in H as ([w m] & _ & H). injection H as <- <-. by apply os_inv_phys.
Qed.

Lemma context_push_os_inv now a b c d k r k' :
  os_inv k → sys_context_push now a b c d k = Ret (r, k') → os_inv k'.
Proof.
  intros Hos. unfold sys_context_push. destruct (_ || _); [by intros [= <- <-]|]. intros H.
  apply bind_Ret in H as ([p t] & Hc & H). apply bind_Ret in H as (b1 & _ & H). apply bind_Ret in H as (b2 & _ & H).
  destruct (agent_ext t) as [ext|] eqn:He; [|by injection H as <- <-].
  apply bind_Ret in H as ([[r1 ext1] m1] & Ep & H). injection H as <- <-. apply os_inv_phys.
  eapply set_ext_os_inv; [done|exact Hc|exact He|]. by eapply push_node_mailbox.
Qed.

Lemma context_query_os_inv a b k r k' : os_inv k → sys_context_query a b k = Ret (r, k') → os_inv k'.
Proof.
  intros Hos. unfold sys_context_query. intros H. apply bind_Ret in H as ([p t] & Hc & H).
  destruct (agent_ext t) as [ext|]; [|by injection H as <- <-].
  destruct (serialize_meta _ ext) as [e|body]; [by injection H as <- <-|].
  destruct (_ <? _); [by injection H as <- <-|].
  apply bind_Ret in H as (k1 & E1 & H). apply (copy_os_inv _ _ _ _ _ Hos) in E1.
  apply bind_Ret in H as (k2 & E2 & H). apply (copy_opt_os_inv _ _ _ _ _ E1) in E2.
  apply bind_Ret in H as (k3 & E3 & H). injection H as <- <-. by eapply copy_opt_os_inv.
Qed.

Lemma context_rollback_os_inv n k r k' : os_inv k → sys_context_rollback n k = Ret (r, k') → os_inv k'.
Proof.
  intros Hos. unfold sys_context_rollback. intros H. apply bind_Ret in H as ([p t] & Hc & H).
  destruct (agent_ext t) as [ext|] eqn:He; [|by injection H as <- <-].
  apply bind_Ret in H as ([[r1 ext1] m1] & Ep & H). injection H as <- <-. apply os_inv_phys.
  eapply set_ext_os_inv; [done|exact Hc|exact He|]. by eapply rollback_mailbox.
Qed.

Lemma context_clear_os_inv k r k' : os_inv k → sys_context_clear k = Ret (r, k') → os_inv k'.
Proof.
  intros Hos. unfold sys_context_clear. intros H. apply bind_Ret in H as ([p t] & Hc & H).
  destruct (agent_ext t) as [ext|] eqn:He; [|by injection H as <- <-].
  apply bind_Ret in H as ([ext1 m1] & Ep & H). injection H as <- <-. apply os_inv_phys.
  eapply set_ext_os_inv; [done|exact Hc|exact He|]. by eapply clear_mailbox.
Qed.

Lemma set_priority_os_inv n k r k' : os_inv k → sys_agent_set_priority n k = Ret (r, k') → os_inv k'.
Proof.
  intros Hos. unfold sys_agent_set_priority. intros H. apply bind_Ret in H as ([p t] & Hc & H). injection H as <- <-.
  apply cur_task_inv in Hc as [Hp _]. apply os_inv_upd; [done|done|]. split; try done. intros t' e Ht' He. by apply Ht'.
Qed.

Lemma attr_set_os_inv a b c d k r k' : os_inv k → sys_file_attr_set a b c d k = Ret (r, k') → os_inv k'.
Proof.
  intros Hos. unfold sys_file_attr_set. destruct (bad_names _ _ _); [by intros [= <- <-]|]. intros H.
  apply bind_Ret in H as ([p t] & Hc & H). apply bind_Ret in H as (b1 & _ & H). apply bind_Ret in H as (b2 & _ & H).
  destruct (from_utf8 b1); [|by injection H as <- <-]. destruct (from_utf8 b2); [|by injection H as <- <-].
  apply bind_Ret in H as (k1 & E1 & H). injection H as <- <-. by eapply broadcast_os_inv; [|exact E1]; apply os_inv_attrs.
Qed.

Lemma attr_del_os_inv a b c d k r k' : os_inv k → sys_file_attr_del a b c d k = Ret (r, k') → os_inv k'.
Proof.
  intros Hos. unfold sys_file_attr_del. destruct (bad_names _ _ _); [by intros [= <- <-]|]. intros H.
  apply bind_Ret in H as ([p t] & Hc & H). apply bind_Ret in H as (b1 & _ & H).
  destruct (from_utf8 b1); [|by injection H as <- <-]. apply bind_Ret in H as (o & _ & H).
  destruct o as [[ch st]|]; [|by injection H as <- <-]. destruct ch.
  - apply bind_Ret in H as (k1 & E1 & H). injection H as <- <-.
    by eapply broadcast_os_inv; [|exact E1]; apply os_inv_attrs.
  - injection H as <- <-. by apply os_inv_attrs.
Qed.

Lemma mailbox_recv_os_inv a b k r k' : os_inv k → sys_mailbox_recv a b k = Ret (r, k') → os_inv k'.
Proof.
  intros Hos. unfold sys_mailbox_recv. destruct (_ =? _); [by intros [= <- <-]|]. intros H.
  apply bind_Ret in H as ([p t] & Hc & H). destruct (agent_ext t) as [ext|] eqn:He; [|by injection H as <- <-].
  destruct (mailbox ext) as [|msg rest] eqn:Hm; [by injection H as <- <-|].
  apply bind_Ret in H as (k1 & E1 & H). injection H as <- <-. eapply copy_os_inv; [|exact E1].
  apply cur_task_inv in Hc as [Hp Ht]. apply os_inv_upd; [done|done|]. apply task_local_ext.
  destruct (mailbox_ok_of k p ext Hos) as [A B]; [unfold ext_of; by rewrite Ht|].
  rewrite Hm in B. simpl in B. split; simpl; [done|lia].
Qed.

(** The calls, with their arguments and readings of the clock. *)
Inductive agent_call : (Kernel → outcome (Z * Kernel)) → Prop :=
  | call_create pad : agent_call (sys_agent_create pad)
  | call_info p n : agent_call (sys_agent_info p n)
  | call_tool now a b c d : agent_call (sys_tool_call (E := E) now a b c d)
  | call_tool_list a b : agent_call (sys_tool_list a b)
  | call_push now a b c d : agent_call (sys_context_push now a b c d)
  | call_query a b : agent_call (sys_context_query a b)
  | call_rollback n : agent_call (sys_context_rollback n)
  | call_clear : agent_call sys_context_clear
  | call_loop_state s : agent_call (sys_agent_set_loop_state s)
  | call_priority p : agent_call (sys_agent_set_priority p)
  | call_heartbeat now i : agent_call (sys_agent_heartbeat_set now i)
  | call_heartbeat_stop : agent_call sys_agent_heartbeat_stop
  | call_watch m : agent_call (sys_agent_watch m)
  | call_unwatch m : agent_call (sys_agent_unwatch m)
  | call_attr_set a b c d : agent_call (sys_file_attr_set a b c d)
  | call_attr_del a b c d : agent_call (sys_file_attr_del a b c d)
  | call_bench s f n i u : agent_call (sys_file_attr_bench s f n i u)
  | call_recv a b : agent_call (sys_mailbox_recv a b).

Lemma agent_call_os_inv c k r k' : agent_call c → os_inv k → c k = Ret (r, k') → os_inv k'.
Proof.
  intros Hc Hos. destruct Hc.
  - exact (create_os_inv pad k r k' Hos).
  - exact (agent_info_os_inv _ _ k r k' Hos).
  - exact (tool_call_os_inv _ _ _ _ _ k r k' Hos).
  - exact (tool_list_os_inv _ _ k r k' Hos).
  - exact (context_push_os_inv _ _ _ _ _ k r k' Hos).
  - exact (context_query_os_inv _ _ k r k' Hos).
  - exact (context_rollback_os_inv _ k r k' Hos).
  - exact (context_clear_os_inv k r k' Hos).
  - unfold sys_agent_set_loop_state. destruct (loop_state_of s); [|by intros [= <- <-]].
    apply with_ext_os_inv; [done|]. by intros e.
  - exact (set_priority_os_inv _ k r k' Hos).
  - apply with_ext_os_inv; [done|]. by intros e.
  - apply with_ext_os_inv; [done|]. by intros e.
  - apply with_ext_os_inv; [done|]. by intros e.
  - apply with_ext_os_inv; [done|]. by intros e.
  - exact (attr_set_os_inv _ _ _ _ k r k' Hos).
  - exact (attr_del_os_inv _ _ _ _ k r k' Hos).
  - unfold sys_file_attr_bench. by intros [= <- <-].
  - exact (mailbox_recv_os_inv _ _ k r k' Hos).
Qed.

End Preserve.
