(* ===== verification/Syscall.v ===== *)
(** * System calls and traps ([os/src/syscall/], [os/src/trap/mod.rs])

    A trap enters the kernel on behalf of the running task; the number and the
    arguments of a system call come from its trap context in memory.  [Env] is
    what the hardware and the console answer during the trap.  The result of a
    call is its return value, or nothing when the task was switched away. *)

From S2P Require Import Prelude Address PhysMem FrameAlloc PageTable MemorySet Proto FileAttr PcbExt UserCopy Utf8 ContextPath ContextArea Task Blocks Layout LayoutLemmas Efs Vfs OsFile Blocking EventBus KernelSteps Tools AgentCalls.

(** ** What comes from outside *)

(** Readings of the time register, in order, in ticks ([get_time_ms] converts
    one); the answer of [console_getchar]; the [sstatus] register; the padding
    bytes of a header on the stack; and a bound for the loops over a string or
    a file. *)
Record Env : Type := mkEnv {
  time0 : Z;
  time1 : Z;
  time2 : Z;
  getchar : Z;
  sstatus : Z;
  padding : list byte;
  loop_fuel : nat;
}.

Definition MSEC_PER_SEC : Z := 1000.
Definition get_time_ms (time : Z) : Z := time / (CLOCK_FREQ / MSEC_PER_SEC).

Definition as_i32 (z : Z) : Z := let u := u32 z in if u <? 2 ^ 31 then u else u - 2 ^ 32.

(** The [String] of characters with the given codes. *)
Definition latin1_utf8 (bs : list byte) : list byte :=
  bs ≫= λ b, let z := Z_of_byte b in
    if z <? 128 then [b] else [byte_of_Z (192 + z / 64); byte_of_Z (128 + z mod 64)].
Definition string_of_chars (bs : list byte) : string := String.string_of_list_byte (latin1_utf8 bs).

(** System call numbers. *)
Definition SYSCALL_OPEN : Z := 56.
Definition SYSCALL_CLOSE : Z := 57.
Definition SYSCALL_READ : Z := 63.
Definition SYSCALL_WRITE : Z := 64.
Definition SYSCALL_EXIT : Z := 93.
Definition SYSCALL_YIELD : Z := 124.
Definition SYSCALL_GET_TIME : Z := 169.
Definition SYSCALL_GETPID : Z := 172.
Definition SYSCALL_FORK : Z := 220.
Definition SYSCALL_EXEC : Z := 221.
Definition SYSCALL_WAITPID : Z := 260.
Definition SYSCALL_AGENT_CREATE : Z := 500.
Definition SYSCALL_AGENT_INFO : Z := 501.
Definition SYSCALL_TOOL_CALL : Z := 510.
Definition SYSCALL_TOOL_LIST : Z := 511.
Definition SYSCALL_CONTEXT_PUSH : Z := 520.
Definition SYSCALL_CONTEXT_QUERY : Z := 521.
Definition SYSCALL_CONTEXT_ROLLBACK : Z := 522.
Definition SYSCALL_CONTEXT_CLEAR : Z := 523.
Definition SYSCALL_AGENT_HEARTBEAT_SET : Z := 530.
Definition SYSCALL_AGENT_HEARTBEAT_STOP : Z := 531.
Definition SYSCALL_AGENT_WATCH : Z := 532.
Definition SYSCALL_AGENT_WAIT : Z := 533.
Definition SYSCALL_AGENT_UNWATCH : Z := 534.
Definition SYSCALL_MAILBOX_RECV : Z := 535.
Definition SYSCALL_AGENT_SET_LOOP_STATE : Z := 536.
Definition SYSCALL_FILE_ATTR_DEL : Z := 537.
Definition SYSCALL_FILE_ATTR_SET : Z := 538.
Definition SYSCALL_AGENT_SET_PRIORITY : Z := 539.
Definition SYSCALL_FILE_ATTR_BENCH : Z := 540.

Section Syscalls.
Context {PF : Platform} {S : Type} `{!BlockStore S, !ElfParser}.
Implicit Types m : Machine S.

(** The current task of the machine, and its user token. *)
Definition task_of (m : Machine S) : outcome (Z * TaskControlBlock) := cur_task (kern m).

(** ** File calls ([syscall/fs.rs]) *)

(** The trait [File]: its three implementations. *)
Definition file_readable (f : FileObj) (m : Machine S) : outcome bool :=
  match f with
  | FStdin => Ret true
  | FStdout => Ret false
  | FOSInode h => o ← unwrap (os_inodes m !! Z.to_nat h); Ret (os_readable o)
  end.

Definition file_writable (f : FileObj) (m : Machine S) : outcome bool :=
  match f with
  | FStdin => Ret false
  | FStdout => Ret true
  | FOSInode h => o ← unwrap (os_inodes m !! Z.to_nat h); Ret (os_writable o)
  end.

Definition file_read (c : Z) (f : FileObj) (cs : list Chunk) (m : Machine S) : outcome (option Z * Machine S) :=
  match f with
  | FStdin => '(o, k) ← stdin_read c cs (kern m); Ret (o, with_kern k m)
  | FStdout => Panic
  | FOSInode h =>
      o ← unwrap (os_inodes m !! Z.to_nat h);
      '(n, o, x, s) ← osinode_read cs 0 o (machine_mem m) (disk m);
      Ret (Some n, with_machine_mem x (with_disk s (with_files (<[Z.to_nat h := o]> (os_inodes m)) m)))
  end.

Definition file_write (f : FileObj) (cs : list Chunk) (m : Machine S) : outcome (Z * Machine S) :=
  match f with
  | FStdin => Panic
  | FStdout => out ← stdout_loop cs (machine_mem m) (console m); Ret (UserBuffer_len cs, with_console out m)
  | FOSInode h =>
      o ← unwrap (os_inodes m !! Z.to_nat h);
      '(n, o, s) ← osinode_write (rootfs m) cs 0 o (machine_mem m) (disk m);
      Ret (n, with_disk s (with_files (<[Z.to_nat h := o]> (os_inodes m)) m))
  end.

(** [inner.fd_table[fd]], when [fd] is in range and open. *)
Definition fd_lookup (fd : Z) (t : TaskControlBlock) : option FileObj :=
  if Z.of_nat (length (fd_table t)) <=? fd then None else mjoin (fd_table t !! Z.to_nat fd).

Definition sys_write (fd buf len : Z) (m : Machine S) : outcome (Z * Machine S) :=
  '(_, t) ← task_of m;
  match fd_lookup fd t with
  | None => Ret (-1, m)
  | Some file =>
      w ← file_writable file m;
      if negb w then Ret (-1, m) else
      cs ← translated_byte_buffer (get_user_token t) buf len (machine_mem m);
      file_write file cs m
  end.

Definition sys_read (c fd buf len : Z) (m : Machine S) : outcome (option Z * Machine S) :=
  '(_, t) ← task_of m;
  match fd_lookup fd t with
  | None => Ret (Some (-1), m)
  | Some file =>
      r ← file_readable file m;
      if negb r then Ret (Some (-1), m) else
      cs ← translated_byte_buffer (get_user_token t) buf len (machine_mem m);
      file_read c file cs m
  end.

(** [path] in user memory. *)
Definition user_path (fuel : nat) (token path : Z) (m : Machine S) : outcome string :=
  chars ← translated_str fuel token path (machine_mem m); Ret (string_of_chars chars).

(** Putting an open file in the first free descriptor. *)
Definition install_fd (pid : Z) (f : FileObj) (k : Kernel) : outcome (Z * Kernel) :=
  t ← get_task pid k;
  let '(fd, t) := alloc_fd t in
  Ret (fd, upd_task pid (λ _, set_fds (<[Z.to_nat fd := Some f]> (fd_table t)) t) k).

Definition sys_open (fuel : nat) (path flags : Z) (m : Machine S) : outcome (Z * Machine S) :=
  '(pid, t) ← task_of m;
  path ← user_path fuel (get_user_token t) path m;
  flags ← unwrap (flags_from_bits flags);
  '(o, s) ← open_file (rootfs m) path flags (disk m);
  let m := with_disk s m in
  match o with
  | Some inode =>
      let h := Z.of_nat (length (os_inodes m)) in
      '(fd, k) ← install_fd pid (FOSInode h) (kern m);
      Ret (fd, with_kern k (with_files (os_inodes m ++ [inode]) m))
  | None => Ret (-1, m)
  end.

Definition sys_close (fd : Z) (m : Machine S) : outcome (Z * Machine S) :=
  '(pid, t) ← task_of m;
  match fd_lookup fd t with
  | None => Ret (-1, m)
  | Some _ => Ret (0, with_kern (upd_task pid (λ t, set_fds (<[Z.to_nat fd := None]> (fd_table t)) t) (kern m)) m)
  end.

(** ** Process calls ([syscall/process.rs]) *)
Definition sys_exec (fuel : nat) (sst path : Z) (m : Machine S) : outcome (Z * Machine S) :=
  '(pid, t) ← task_of m;
  path ← user_path fuel (get_user_token t) path m;
  '(o, s) ← open_file (rootfs m) path 0 (disk m);
  match o with
  | Some app_inode =>
      '(all_data, _, s) ← read_all fuel (replicate 512 x00) [] app_inode s;
      k ← TCB_exec sst pid all_data (kern m);
      Ret (0, with_disk s (with_kern k m))
  | None => Ret (-1, with_disk s m)
  end.

Definition sys_get_time (time : Z) (m : Machine S) : outcome (Z * Machine S) := Ret (as_i64 (get_time_ms time), m).

(** ** Dispatch ([syscall/mod.rs]) *)
Inductive sys_result : Type :=
  | Returned (r : Z)
  | Switched
  | Shutdown.

(** A call on the kernel state alone. *)
Definition on_kern (f : Kernel → outcome (Z * Kernel)) (m : Machine S) : outcome (sys_result * Machine S) :=
  '(r, k) ← f (kern m); Ret (Returned r, with_kern k m).
Definition on_machine (f : Machine S → outcome (Z * Machine S)) (m : Machine S) : outcome (sys_result * Machine S) :=
  '(r, m) ← f m; Ret (Returned r, m).
Definition may_switch (o : option Z) : sys_result := match o with Some r => Returned r | None => Switched end.

Definition sys_exit (code : Z) (m : Machine S) : outcome (sys_result * Machine S) :=
  o ← exit_current_and_run_next code (kern m);
  match o with
  | Some k => Ret (Switched, with_kern k m)
  | None => Ret (Shutdown, m)
  end.

Context `{!PostcardVec SystemStatusInfo, !PostcardVec (QueryResult ProcessInfo), !PostcardVec ProcessInfo,
  !PostcardVec (QueryResult FileInfo), !PostcardVec (QueryResult ToolDescriptor), !PostcardVec (list (Z * Z * Z * Z))}.
Context {E : Type} `{!PostcardCodec E ToolRequest}.

Definition syscall (e : Env) (id : Z) (args : Z → Z) (m : Machine S) : outcome (sys_result * Machine S) :=
  let now := get_time_ms (time0 e) in
  if id =? SYSCALL_OPEN then on_machine (sys_open (loop_fuel e) (args 0) (u32 (args 1))) m else
  if id =? SYSCALL_CLOSE then on_machine (sys_close (args 0)) m else
  if id =? SYSCALL_READ then '(o, m) ← sys_read (getchar e) (args 0) (args 1) (args 2) m; Ret (may_switch o, m) else
  if id =? SYSCALL_WRITE then on_machine (sys_write (args 0) (args 1) (args 2)) m else
  if id =? SYSCALL_EXIT then sys_exit (as_i32 (args 0)) m else
  if id =? SYSCALL_YIELD then k ← sys_yield (kern m); Ret (Switched, with_kern k m) else
  if id =? SYSCALL_GET_TIME then on_machine (sys_get_time (time0 e)) m else
  if id =? SYSCALL_GETPID then on_kern sys_getpid m else
  if id =? SYSCALL_FORK then on_kern sys_fork m else
  if id =? SYSCALL_EXEC then on_machine (sys_exec (loop_fuel e) (sstatus e) (args 0)) m else
  if id =? SYSCALL_WAITPID then on_kern (sys_waitpid (as_i64 (args 0)) (args 1)) m else
  if id =? SYSCALL_AGENT_CREATE then on_kern (sys_agent_create (padding e)) m else
  if id =? SYSCALL_AGENT_INFO then on_kern (sys_agent_info (args 1) (args 2)) m else
  if id =? SYSCALL_TOOL_CALL then on_kern (sys_tool_call (E := E) (time0 e) (args 0) (args 1) (args 2) (args 3)) m else
  if id =? SYSCALL_TOOL_LIST then on_kern (sys_tool_list (args 0) (args 1)) m else
  if id =? SYSCALL_CONTEXT_PUSH then on_kern (sys_context_push (time0 e) (args 0) (args 1) (args 2) (args 3)) m else
  if id =? SYSCALL_CONTEXT_QUERY then on_kern (sys_context_query (args 2) (args 3)) m else
  if id =? SYSCALL_CONTEXT_ROLLBACK then on_kern (sys_context_rollback (args 0)) m else
  if id =? SYSCALL_CONTEXT_CLEAR then on_kern sys_context_clear m else
  if id =? SYSCALL_AGENT_HEARTBEAT_SET then on_kern (sys_agent_heartbeat_set now (args 0)) m else
  if id =? SYSCALL_AGENT_HEARTBEAT_STOP then on_kern sys_agent_heartbeat_stop m else
  if id =? SYSCALL_AGENT_WATCH then on_kern (sys_agent_watch (u32 (args 0))) m else
  if id =? SYSCALL_AGENT_WAIT then
    '(o, k) ← sys_agent_wait (as_i64 (args 0)) now (get_time_ms (time1 e)) (get_time_ms (time2 e)) (kern m);
    Ret (may_switch o, with_kern k m)
  else
  if id =? SYSCALL_AGENT_UNWATCH then on_kern (sys_agent_unwatch (args 0)) m else
  if id =? SYSCALL_MAILBOX_RECV then on_kern (sys_mailbox_recv (args 0) (args 1)) m else
  if id =? SYSCALL_AGENT_SET_LOOP_STATE then on_kern (sys_agent_set_loop_state (u32 (args 0))) m else
  if id =? SYSCALL_FILE_ATTR_DEL then on_kern (sys_file_attr_del (args 0) (args 1) (args 2) (args 3)) m else
  if id =? SYSCALL_FILE_ATTR_SET then on_kern (sys_file_attr_set (args 0) (args 1) (args 2) (args 3)) m else
  if id =? SYSCALL_AGENT_SET_PRIORITY then on_kern (sys_agent_set_priority (args 0)) m else
  if id =? SYSCALL_FILE_ATTR_BENCH then on_kern (sys_file_attr_bench (time0 e) (time1 e) (args 0) (args 1) (args 2)) m else
  Panic.

(** ** Traps ([trap/mod.rs]) *)
Inductive Trap : Type :=
  | UserEnvCall
  | StoreFault | StorePageFault | InstructionFault | InstructionPageFault | LoadFault | LoadPageFault
  | IllegalInstruction
  | SupervisorTimer
  | OtherTrap.

(** Words of the running task's trap context. *)
Definition read_cx (off : Z) (k : Kernel) : outcome Z :=
  '(_, t) ← cur_task k;
  bs ← get_bytes (mem (phys k)) (trap_cx_ppn t) off 8;
  Ret (from_le_bytes bs).

Definition write_cx (off v : Z) (k : Kernel) : outcome Kernel :=
  '(_, t) ← cur_task k;
  x ← set_bytes (mem (phys k)) (trap_cx_ppn t) off (to_le_bytes 8 v);
  Ret (with_phys (mkPhys x (falloc (phys k))) k).

Definition trap_args (k : Kernel) : outcome (list Z) :=
  x0 ← read_cx (X_OFF 10) k; x1 ← read_cx (X_OFF 11) k; x2 ← read_cx (X_OFF 12) k;
  x3 ← read_cx (X_OFF 13) k; x4 ← read_cx (X_OFF 14) k; x5 ← read_cx (X_OFF 15) k;
  Ret [x0; x1; x2; x3; x4; x5].

(** The system call branch; [None] when the machine shut down. *)
Definition env_call (e : Env) (m : Machine S) : outcome (option (Machine S)) :=
  sepc ← read_cx SEPC_OFF (kern m);
  k ← write_cx SEPC_OFF (u64 (sepc + 4)) (kern m);
  id ← read_cx (X_OFF 17) k;
  args ← trap_args k;
  '(r, m) ← syscall e id (λ i, nth (Z.to_nat i) args 0) (with_kern k m);
  match r with
  | Returned r => k ← set_return r (kern m); Ret (Some (with_kern k m))
  | Switched => Ret (Some m)
  | Shutdown => Ret None
  end.

Definition kill (code : Z) (m : Machine S) : outcome (option (Machine S)) :=
  o ← exit_current_and_run_next code (kern m);
  Ret (option_map (λ k, with_kern k m) o).

Definition trap_handler (e : Env) (tr : Trap) (m : Machine S) : outcome (option (Machine S)) :=
  match tr with
  | UserEnvCall => env_call e m
  | StoreFault | StorePageFault | InstructionFault | InstructionPageFault | LoadFault | LoadPageFault => kill (-2) m
  | IllegalInstruction => kill (-3) m
  | SupervisorTimer =>
      k ← timer_interrupt (get_time_ms (time0 e)) (get_time_ms (time1 e)) (kern m);
      Ret (Some (with_kern k m))
  | OtherTrap => Panic
  end.

(** ** The machine: the idle loop, user code, and traps

    User code changes memory (its own pages, its registers in the trap
    context when it traps); which bytes does not matter to the kernel's
    invariants, so any change of memory is allowed. *)
Inductive mstep : Machine S → Machine S → Prop :=
  | ms_idle e m k' :
      processor (kern m) = None → idle_turn (get_time_ms (time0 e)) (getchar e) (kern m) = Ret k' →
      mstep m (with_kern k' m)
  | ms_user p x m : processor (kern m) = Some p → mstep m (with_machine_mem x m)
  | ms_trap p e tr m m' :
      processor (kern m) = Some p → pid_current (pids (kern m)) < 2 ^ 64 - 1 →
      trap_handler e tr m = Ret (Some m') → mstep m m'.
End Syscalls.
