(* ===== verification/SysThms.v ===== *)
(** * Theorems on system calls and the whole machine *)

From S2P Require Import Prelude Address PhysMem FrameAlloc PageTable MemorySet Proto FileAttr PcbExt UserCopy Utf8 ContextPath ContextArea Task Blocks BlockCache Layout LayoutLemmas Efs Vfs MemDisk OsFile Blocking EventBus KernelInv TaskLife AgentSched KernelSteps Tools AgentCalls KernelThms CallThms Syscall FsThms.

(** ** Every trap keeps the kernel's invariant *)
Section Preserve.
Context {PF : Platform} {S : Type} `{!BlockStore S} {EP : ElfParser}.
Context `{!PostcardVec SystemStatusInfo, !PostcardVec (QueryResult ProcessInfo), !PostcardVec ProcessInfo,
  !PostcardVec (QueryResult FileInfo), !PostcardVec (QueryResult ToolDescriptor), !PostcardVec (list (Z * Z * Z * Z))}.
Context {E : Type} `{!PostcardCodec E ToolRequest}.
Implicit Types m : Machine S.

(** A change of the running task that keeps status, family and extension. *)
Lemma task_local_plain f :
  (∀ t, children (f t) = children t) → (∀ t, parent (f t) = parent t) → (∀ t, task_status (f t) = task_status t) →
  (∀ t, agent_ext (f t) = agent_ext t) → task_local f.
Proof. intros A B C D. split; [done..|]. intros t e He. rewrite D. apply He. Qed.

Lemma install_fd_os_inv pid f k fd k' :
  os_inv k → processor k = Some pid → install_fd pid f k = Ret (fd, k') → os_inv k'.
Proof.
  intros Hos Hp H. unfold install_fd in H. apply bind_Ret in H as (t & Ht & H). apply get_task_Ret in Ht.
  destruct (alloc_fd t) as [fd' t'] eqn:Ea. injection H as <- <-.
  assert (Hk : upd_task pid (λ _, set_fds (<[Z.to_nat fd' := Some f]> (fd_table t')) t') k =
    upd_task pid (λ t, set_fds (<[Z.to_nat (alloc_fd t).1 := Some f]> (fd_table (alloc_fd t).2)) (alloc_fd t).2) k).
  { rewrite <-(upd_task_const pid (λ t, set_fds _ (alloc_fd t).2) k t Ht). by rewrite Ea. }
  rewrite Hk. apply os_inv_upd; [done|done|].
  assert (Ha : ∀ t, (alloc_fd t).2 = t ∨ (alloc_fd t).2 = set_fds (fd_table t ++ [None]) t).
  { intros u. unfold alloc_fd. destruct (list_find _ _) as [[i o]|]; [by left|by right]. }
  apply task_local_plain; intros u; simpl; by destruct (Ha u) as [->| ->].
Qed.

Lemma task_of_inv m p t : task_of m = Ret (p, t) → processor (kern m) = Some p ∧ tcbs (kern m) !! p = Some t.
Proof. apply cur_task_inv. Qed.

Lemma sys_open_os_inv fuel path flags m r m' :
  os_inv (kern m) → sys_open fuel path flags m = Ret (r, m') → os_inv (kern m').
Proof.
  intros Hos H. unfold sys_open in H. apply bind_Ret in H as ([p t] & Hc & H). apply bind_Ret in H as (nm & _ & H).
  apply bind_Ret in H as (fl & _ & H). apply bind_Ret in H as ([o s] & _ & H). destruct o as [ino|]; [|by injection H as <- <-].
  apply bind_Ret in H as ([fd k] & Ei & H). injection H as <- <-. apply task_of_inv in Hc as [Hp _].
  by eapply (install_fd_os_inv p).
Qed.

Lemma sys_close_os_inv fd m r m' : os_inv (kern m) → sys_close fd m = Ret (r, m') → os_inv (kern m').
Proof.
  intros Hos H. unfold sys_close in H. apply bind_Ret in H as ([p t] & Hc & H). destruct (fd_lookup fd t); [|by injection H as <- <-].
  injection H as <- <-. apply task_of_inv in Hc as [Hp _]. apply os_inv_upd; [done|done|]. by apply task_local_plain.
Qed.

Lemma sys_write_kern fd buf len m r m' : sys_write fd buf len m = Ret (r, m') → kern m' = kern m.
Proof.
  intros H. unfold sys_write in H. apply bind_Ret in H as ([p t] & _ & H). destruct (fd_lookup fd t) as [f|]; [|by injection H as <- <-].
  apply bind_Ret in H as (w & _ & H). destruct w; [|by injection H as <- <-]. apply bind_Ret in H as (cs & _ & H).
  destruct f; simpl in H; [done| |].
  - apply bind_Ret in H as (out & _ & H). by injection H as <- <-.
  - apply bind_Ret in H as (o & _ & H). apply bind_Ret in H as ([[n o'] s] & _ & H). by injection H as <- <-.
Qed.

Lemma sys_read_os_inv c fd buf len m o m' : os_inv (kern m) → sys_read c fd buf len m = Ret (o, m') → os_inv (kern m').
Proof.
  intros Hos H. unfold sys_read in H. apply bind_Ret in H as ([p t] & Hc & H). apply task_of_inv in Hc as [Hp _].
  destruct (fd_lookup fd t) as [f|]; [|by injection H as <- <-].
  apply bind_Ret in H as (w & _ & H). destruct w; [|by injection H as <- <-]. apply bind_Ret in H as (cs & _ & H).
  destruct f; simpl in H; [|done|].
  - apply bind_Ret in H as ([o' k] & Er & H). injection H as <- <-. unfold stdin_read in Er.
    apply bind_Ret in Er as (u & _ & Er). by eapply stdin_read_turn_os_inv.
  - apply bind_Ret in H as (f & _ & H). apply bind_Ret in H as ([[[n f'] x] s] & _ & H). injection H as <- <-.
    by apply os_inv_phys.
Qed.

Lemma TCB_exec_os_inv sst pid data k k' :
  os_inv k → processor k = Some pid → TCB_exec sst pid data k = Ret k' → os_inv k'.
Proof.
  intros Hos Hp H. unfold TCB_exec in H. apply bind_Ret in H as ([[[ms sp] entry] ph] & _ & H).
  apply bind_Ret in H as (ppn & _ & H). apply bind_Ret in H as (t & _ & H). apply bind_Ret in H as (ph' & _ & H).
  apply bind_Ret in H as (x & _ & H). injection H as <-. apply os_inv_upd; [by apply os_inv_phys|done|].
  by apply task_local_plain.
Qed.

Lemma sys_exec_os_inv fuel sst path m r m' :
  os_inv (kern m) → sys_exec fuel sst path m = Ret (r, m') → os_inv (kern m').
Proof.
  intros Hos H. unfold sys_exec in H. apply bind_Ret in H as ([p t] & Hc & H). apply bind_Ret in H as (nm & _ & H).
  apply bind_Ret in H as ([o s] & _ & H). destruct o as [ino|]; [|by injection H as <- <-].
  apply bind_Ret in H as ([[data ino'] s'] & _ & H). apply bind_Ret in H as (k & Ee & H). injection H as <- <-.
  apply task_of_inv in Hc as [Hp _]. by eapply (TCB_exec_os_inv _ p).
Qed.

(** Calls on the kernel alone. *)
Definition keeps_inv (c : Kernel → outcome (Z * Kernel)) : Prop := ∀ k r k', os_inv k → c k = Ret (r, k') → os_inv k'.

Lemma agent_call_keeps c : agent_call (E := E) c → keeps_inv c.
Proof. intros Hc k r k' Hos H. by eapply agent_call_os_inv. Qed.

Lemma on_kern_os_inv c m r m' : keeps_inv c → os_inv (kern m) → on_kern c m = Ret (r, m') → os_inv (kern m').
Proof. intros Hc Hos H. unfold on_kern in H. apply bind_Ret in H as ([r' k] & Ec & H). injection H as _ <-. by eapply Hc. Qed.

Lemma on_machine_os_inv (f : Machine S → outcome (Z * Machine S)) m r m' :
  (∀ r m', f m = Ret (r, m') → os_inv (kern m')) → on_machine f m = Ret (r, m') → os_inv (kern m').
Proof. intros Hf H. unfold on_machine in H. apply bind_Ret in H as ([r' m1] & Ef & H). injection H as _ <-. by eapply Hf. Qed.

Lemma exit_kern_os_inv code k p k' :
  os_inv k → processor k = Some p → exit_current_and_run_next code k = Ret (Some k') → os_inv k'.
Proof. apply exit_os_inv. Qed.

Lemma syscall_os_inv e id args m p r m' :
  os_inv (kern m) → processor (kern m) = Some p → pid_current (pids (kern m)) < 2 ^ 64 - 1 →
  syscall (E := E) e id args m = Ret (r, m') → os_inv (kern m').
Proof.
  intros Hos Hp Hlt. unfold syscall.
  destruct (_ =? SYSCALL_OPEN); [apply on_machine_os_inv; intros ? ?; by apply sys_open_os_inv|].
  destruct (_ =? SYSCALL_CLOSE); [apply on_machine_os_inv; intros ? ?; by apply sys_close_os_inv|].
  destruct (_ =? SYSCALL_READ).
  { intros H. apply bind_Ret in H as ([o m1] & Er & H). injection H as _ <-. by eapply sys_read_os_inv. }
  destruct (_ =? SYSCALL_WRITE); [apply on_machine_os_inv; intros r1 m1 Ew; by rewrite (sys_write_kern _ _ _ _ _ _ Ew)|].
  destruct (_ =? SYSCALL_EXIT).
  { intros H. unfold sys_exit in H. apply bind_Ret in H as (o & Ex & H). destruct o as [k|]; injection H as _ <-; [by eapply exit_os_inv|done]. }
  destruct (_ =? SYSCALL_YIELD).
  { intros H. apply bind_Ret in H as (k & Ey & H). injection H as _ <-. unfold sys_yield in Ey.
    destruct (suspend_os_inv after_yield (kern m) p Hos Hp) as (k1 & E1 & Hos1). simpl. congruence. }
  destruct (_ =? SYSCALL_GET_TIME); [apply on_machine_os_inv; intros r1 m1 [= _ <-]; done|].
  destruct (_ =? SYSCALL_GETPID).
  { apply on_kern_os_inv; [|done]. intros k r1 k1 Hk. unfold sys_getpid. intros H. apply bind_Ret in H as (x & _ & H). by injection H as _ <-. }
  destruct (_ =? SYSCALL_FORK).
  { intros H. unfold on_kern in H. apply bind_Ret in H as ([np k] & Ef & H). injection H as _ <-. by eapply fork_os_inv. }
  destruct (_ =? SYSCALL_EXEC); [apply on_machine_os_inv; intros ? ?; by apply sys_exec_os_inv|].
  destruct (_ =? SYSCALL_WAITPID).
  { intros H. unfold on_kern in H. apply bind_Ret in H as ([rc k] & Ef & H). injection H as _ <-. by eapply waitpid_os_inv. }
  repeat (destruct (_ =? _);
    [first [apply on_kern_os_inv; [apply agent_call_keeps; constructor|exact Hos]
           |intros H; apply bind_Ret in H as ([o k] & Ew & H); injection H as _ <-; by eapply sys_agent_wait_os_inv]|]).
  done.
Qed.

Lemma write_cx_os_inv off v k k' :
  os_inv k → write_cx off v k = Ret k' → os_inv k' ∧ processor k' = processor k ∧ pids k' = pids k.
Proof.
  intros Hos H. unfold write_cx in H. apply bind_Ret in H as ([p t] & _ & H). apply bind_Ret in H as (x & _ & H).
  injection H as <-. split; [by apply os_inv_phys|done].
Qed.

Lemma kill_os_inv code m p m' :
  os_inv (kern m) → processor (kern m) = Some p → kill code m = Ret (Some m') → os_inv (kern m').
Proof.
  intros Hos Hp H. unfold kill in H. apply bind_Ret in H as (o & Ex & H). destruct o as [k|]; [|done].
  injection H as <-. by eapply exit_os_inv.
Qed.

Lemma trap_os_inv e tr m p m' :
  os_inv (kern m) → processor (kern m) = Some p → pid_current (pids (kern m)) < 2 ^ 64 - 1 →
  trap_handler (E := E) e tr m = Ret (Some m') → os_inv (kern m').
Proof.
  intros Hos Hp Hlt. destruct tr; cbn [trap_handler]; try by apply (kill_os_inv _ _ p); try done.
  - unfold env_call. intros H. apply bind_Ret in H as (sepc & _ & H). apply bind_Ret in H as (k & Ew & H).
    apply bind_Ret in H as (id & _ & H). apply bind_Ret in H as (args & _ & H). apply bind_Ret in H as ([r m1] & Es & H).
    destruct (write_cx_os_inv _ _ _ _ Hos Ew) as (Hk & Hpk & Hpids).
    assert (Hm1 : os_inv (kern m1)).
    { eapply (syscall_os_inv e id _ (with_kern k m) p); [exact Hk|simpl; congruence|simpl; by rewrite Hpids|exact Es]. }
    destruct r; [|by injection H as <-|done]. apply bind_Ret in H as (k2 & Er & H). injection H as <-. by eapply set_return_os_inv.
  - intros H. apply bind_Ret in H as (k & Et & H). injection H as <-.
    destruct (timer_os_inv (get_time_ms (time0 e)) (get_time_ms (time1 e)) (kern m) p Hos Hp) as (k1 & E1 & Hos1 & _).
    simpl. congruence.
  - done.
Qed.

Lemma mstep_os_inv m m' : os_inv (kern m) → mstep (E := E) m m' → os_inv (kern m').
Proof.
  intros Hos Hst. destruct Hst as [e m k' Hp Hi|p x m Hp|p e tr m m' Hp Hlt Ht].
  - by eapply idle_turn_os_inv.
  - by apply os_inv_phys.
  - by eapply trap_os_inv.
Qed.

Lemma rtc_machine_inv m0 m : os_inv (kern m0) → rtc (mstep (E := E)) m0 m → os_inv (kern m).
Proof. intros Hos Hr. induction Hr as [|m0 m1 m2 Hst _ IH]; [done|]. by apply IH, (mstep_os_inv m0). Qed.

(** ** The machine *)

(** C1: Every state the machine reaches satisfies the kernel's invariant:
    whatever user code does, and whatever sequence of traps (system calls with
    any number and arguments, page faults, timer interrupts) and scheduling
    decisions happens, each task is in exactly the place its status says
    (ready queue, processor, sleeping list) and in it once, the live tasks
    form a tree rooted at [INITPROC] that is nobody's zombie, the pid
    allocator knows exactly the live pids, mailboxes stay within their
    capacity, and no agent sleeps on an event that is pending. *)
Theorem reachable_os_inv m0 m : os_inv (kern m0) → rtc (mstep (E := E)) m0 m → os_inv (kern m).
Proof. exact (rtc_machine_inv m0 m). Qed.

(** C2: No wake-up is lost. In every reachable state an agent that sleeps is
    neither ready nor running, has exactly one entry in the sleeping list,
    whose deadline is the one of the [sys_agent_wait] it is in, and none of
    the events it waits for is pending. *)
Theorem sleeping_agents_miss_no_event m0 m p :
  os_inv (kern m0) → rtc (mstep (E := E)) m0 m → status_of (kern m) p = Some Blocked →
  let k := kern m in
  p ∉ ready_queue k ∧ processor k ≠ Some p ∧
  ∃ d start_ms tmo ext, (p, d) ∈ blocked k ∧ (∀ d', (p, d') ∈ blocked k → d' = d) ∧
    task_cx <$> tcbs k !! p = Some (in_agent_wait start_ms tmo d) ∧
    ext_of k p = Some ext ∧ Z.land (pending_events ext) (wait_mask ext) = 0.
Proof.
  intros Hos Hr Hs k. destruct (rtc_machine_inv _ _ Hos Hr) as [Hk Ha]. fold k in Hk, Ha, Hs.
  split; [rewrite (k_ready _ Hk); congruence|]. split; [rewrite (k_proc _ Hk); congruence|].
  assert (Hb := Hs). apply (k_blocked _ Hk), list_elem_of_fmap in Hb as ([q d] & Hq & Hin). simpl in Hq. subst q.
  destruct (ag_deadline _ Ha p d Hin) as (s & tmo & Hcx). destruct (ag_sleep _ Ha p Hs) as (ext & He & Hz).
  exists d, s, tmo, ext. split_and!; try done. intros d' Hin'.
  destruct (ag_deadline _ Ha p d' Hin') as (s' & tmo' & Hcx'). rewrite Hcx in Hcx'. by injection Hcx'.
Qed.

(** C17: With an idle processor and an empty ready queue the machine makes no
    step any more: the idle loop neither looks at the deadlines of the
    sleeping agents nor takes timer interrupts, so agents whose time-out has
    expired sleep for ever. *)
Theorem idle_without_ready_is_stuck m m' :
  processor (kern m) = None → ready_queue (kern m) = [] →
  (∀ now c, idle_turn now c (kern m) = Ret (kern m)) ∧ (mstep (E := E) m m' → m' = m).
Proof.
  intros Hp Hq. assert (Hi : ∀ now c, idle_turn now c (kern m) = Ret (kern m)).
  { intros now c. unfold idle_turn, run_tasks_step, fetch_task. rewrite Hq. cbn [mbind outcome_bind].
    unfold resume, current_task. by rewrite Hp. }
  split; [done|]. intros Hst. destruct Hst as [e m k' _ E1|p x m Hp'|p e tr m m' Hp' _ _]; [|congruence..].
  rewrite Hi in E1. injection E1 as <-. by destruct m.
Qed.
End Preserve.

(** ** Witnesses *)
Import DemoVec.
Module DemoElf.
#[export] Instance none : ElfParser := {| ElfFile_new _ := None |}.
End DemoElf.
Import DemoElf.

Module DemoMachine.
Definition of_kernel (k : Kernel) : Machine (Store MemDisk) := mkMachine k [] FsThms.Sample.efs0 FsThms.Sample.store0 [].
Definition m : Machine (Store MemDisk) := of_kernel Demo.k.
Definition env : Env := mkEnv 0 0 0 0 0 [] 0.
Definition step : Machine (Store MemDisk) → Machine (Store MemDisk) → Prop := mstep (PF := DemoPlatform.demo) (E := unit).

Lemma tick : ∃ m', rtc step m m' ∧ processor (kern m') = None.
Proof.
  destruct (timer_os_inv (get_time_ms 0) (get_time_ms 0) Demo.k 1 Demo.os eq_refl) as (k' & Et & _ & Hp).
  exists (with_kern k' m). split; [|done]. apply rtc_once. apply (ms_trap 1 env SupervisorTimer); [done|done|].
  cbn [trap_handler time0 time1 env m of_kernel kern]. by rewrite Et.
Qed.

(** All tasks asleep: [INITPROC] is an agent that sleeps until 50 ms. *)
Definition asleep : Machine (Store MemDisk) := of_kernel
  (mkKernel (<[0 := Demo.task (in_agent_wait 0 50 (Some 50)) Blocked None [] 0 16 (Some Demo.ext1)]> ∅)
    [] None [(0, Some 50)] (mkPidAllocator 1 []) DemoPlatform.boot Demo.ms0 FileAttr.new).
End DemoMachine.

Lemma reachable_os_inv_witness : ∃ m' : Machine (Store MemDisk), processor (kern m') = None ∧ os_inv (kern m').
Proof.
  destruct DemoMachine.tick as (m' & Hr & Hp). exists m'. split; [exact Hp|].
  exact (reachable_os_inv (PF := DemoPlatform.demo) (E := unit) DemoMachine.m m' Demo.os Hr).
Defined.

Lemma sleeping_agents_miss_no_event_witness :
  let k := kern (with_machine_mem (λ _, x00) DemoMachine.m) in
  3 ∉ ready_queue k ∧ processor k ≠ Some 3 ∧
  ∃ d start_ms tmo ext, (3, d) ∈ blocked k ∧ (∀ d', (3, d') ∈ blocked k → d' = d) ∧
    task_cx <$> tcbs k !! 3 = Some (in_agent_wait start_ms tmo d) ∧
    ext_of k 3 = Some ext ∧ Z.land (pending_events ext) (wait_mask ext) = 0.
Proof.
  apply (sleeping_agents_miss_no_event (PF := DemoPlatform.demo) (E := unit) DemoMachine.m
    (with_machine_mem (λ _, x00) DemoMachine.m) 3 Demo.os).
  - apply rtc_once. by apply (ms_user 1).
  - unfold status_of. by rewrite Demo.lookup.
Defined.

Lemma idle_without_ready_is_stuck_witness :
  (∀ now c, @idle_turn DemoPlatform.demo now c (kern DemoMachine.asleep) = Ret (kern DemoMachine.asleep)) ∧
  (DemoMachine.step DemoMachine.asleep DemoMachine.asleep → DemoMachine.asleep = DemoMachine.asleep).
Proof.
  exact (idle_without_ready_is_stuck (PF := DemoPlatform.demo) (E := unit) DemoMachine.asleep DemoMachine.asleep eq_refl eq_refl).
Defined.
