(* ===== verification/SysFiles.v ===== *)
(** * Reading and writing files through system calls

    The whole path of [read] and [write]: descriptor, open file and its
    offset, the user's buffer across page boundaries, and the file on disk. *)

From stdpp Require Import functions gmap.
From S2P Require Import Prelude Address PhysMem FrameAlloc PageTable MemorySet UserCopy Utf8 Task Blocks BlockCache Words Bitmap Layout LayoutLemmas InodeMap InodeIO Efs Vfs MemDisk FsInv FsOps FsFile FsDir FsSpec FsBoot OsFile KernelInv AgentSched AgentCalls KernelThms CallThms Syscall.

(** ** Writing at an offset, in pieces *)
Definition file_write_data (off : nat) (bs data : list byte) : list byte :=
  match bs with [] => data | _ => write_data off bs data end.

Lemma lookup_write_data off bs data j :
  write_data off bs data !! j =
    if decide (off ≤ j < off + length bs)%nat then bs !! (j - off)%nat
    else if decide (j < length data)%nat then data !! j
    else if decide (j < off)%nat then Some x00 else None.
Proof.
  unfold write_data. rewrite lookup_splice by (rewrite length_app, length_replicate; lia). case_decide; [done|].
  case_decide; [by apply lookup_app_l|]. rewrite lookup_app_r by lia. case_decide.
  - apply lookup_replicate_2. lia.
  - apply lookup_ge_None. rewrite length_replicate. lia.
Qed.

Lemma write_data_app off a b data :
  write_data (off + length a) b (write_data off a data) = write_data off (a ++ b) data.
Proof.
  apply list_eq. intros j. rewrite !lookup_write_data, length_write_data, !length_app.
  destruct (decide (off + length a ≤ j < off + length a + length b)%nat).
  - rewrite decide_True by lia. rewrite lookup_app_r by lia. f_equal. lia.
  - destruct (decide (off ≤ j < off + length a)%nat).
    + rewrite decide_True by lia. rewrite decide_True by lia. by rewrite lookup_app_l by lia.
    + rewrite (decide_False (P := (off ≤ j < off + (length a + length b))%nat)) by lia.
      destruct (decide (j < length data)%nat); [by rewrite decide_True by lia|].
      destruct (decide (j < off)%nat); repeat case_decide; try done; lia.
Qed.

Lemma write_data_nil_past off a data : write_data (off + length a) [] (write_data off a data) = write_data off a data.
Proof. rewrite write_data_app. by rewrite app_nil_r. Qed.

Lemma file_write_data_app off a b data :
  a ≠ [] → file_write_data (off + length a) b (write_data off a data) = write_data off (a ++ b) data.
Proof.
  intros Ha. destruct b as [|x b]; simpl; [by rewrite app_nil_r|]. apply write_data_app.
Qed.

(** ** One piece of a user buffer *)
Section Chunk.
Context {PF : Platform} {PFL : PlatformLaws} (token : Z) (W : Z → Prop) (frame : Z → Z).

(** The bytes of user memory. *)
Definition user_bytes (x : Mem) (va : Z) : byte := x (upa frame va).

Lemma chunk_bytes_ok x a b s :
  uspace token W frame x → a = s mod PAGE_SIZE → a < b ≤ PAGE_SIZE → W (s / PAGE_SIZE) →
  chunk_bytes (frame (s / PAGE_SIZE), a, b) x = Ret (mem_read (user_bytes x) s (Z.to_nat (b - a))).
Proof.
  intros Hus Ha Hab HW. set (n := Z.to_nat (b - a)).
  assert (Hcov : covers W frame [(frame (s / PAGE_SIZE), a, b)] s (s + (b - a))) by (by constructor; [| |lia|by right; lia| |constructor]).
  pose proof (read_chunks_covers token W frame x _ s _ (replicate n x00) 0 Hus Hcov) as Hr.
  rewrite length_replicate in Hr. specialize (Hr ltac:(lia) ltac:(lia)). cbn [read_chunks] in Hr.
  rewrite length_replicate, Nat.sub_0_r in Hr. fold n in Hr. rewrite Nat.min_id in Hr.
  unfold chunk_bytes. fold n. unfold get_bytes in *. destruct (rassert _); [|done..]. cbn [mbind outcome_bind] in *.
  f_equal. assert (Hs : ∀ l : list byte, length l = n → splice 0 l (replicate n x00) = l).
  { intros l Hl. unfold splice. rewrite drop_ge by (rewrite length_replicate; lia). by rewrite app_nil_r. }
  rewrite !Hs in Hr by apply length_mem_read. destruct (_ <=? _)%nat; by injection Hr.
Qed.

Lemma chunk_store_ok x a b s data :
  uspace token W frame x → a = s mod PAGE_SIZE → a < b ≤ PAGE_SIZE → W (s / PAGE_SIZE) → length data = Z.to_nat (b - a) →
  ∃ x', chunk_store (frame (s / PAGE_SIZE), a, b) data x = Ret x' ∧ uspace token W frame x' ∧
    ∀ va, W (va / PAGE_SIZE) → user_bytes x' va = mem_write (user_bytes x) s data va.
Proof.
  intros Hus Ha Hab HW Hl.
  assert (Hcov : covers W frame [(frame (s / PAGE_SIZE), a, b)] s (s + (b - a))) by (by constructor; [| |lia|by right; lia| |constructor]).
  destruct (write_chunks_covers token W frame _ s _ data 0 x Hus Hcov) as (x' & E & Hus' & Hc & _); [lia|lia|].
  cbn [write_chunks] in E. rewrite Nat.sub_0_r, <-Hl, Nat.min_id in E.
  assert (Hsl : slice 0 (length data) data = data) by (unfold slice; rewrite drop_0; apply take_ge; lia). rewrite Hsl in E.
  exists x'. split; [|split; [done|]; intros va Hva; rewrite drop_0 in Hc; by apply Hc].
  unfold chunk_store. destruct (set_bytes _ _ _ _); [|done..]. cbn [mbind outcome_bind] in E. destruct (_ <=? _)%nat; by injection E as ->.
Qed.
End Chunk.

(** ** The loops of [OSInode] *)
Section Loops.
Context {PF : Platform} {PFL : PlatformLaws} (token : Z) (W : Z → Prop) (frame : Z → Z).
Context {S : Type} `{!BlockStore S, !StoreLaws S}.
Context (efs : EasyFileSystem) (total : Z) (G : geometry efs total).
Implicit Types s : S.

Lemma length_file s D i e : disk_rep efs total s D → D !! i = Some e → Z.of_nat (length e.2) ≤ MAX_BLOCKS * BLOCK_SZ.
Proof.
  intros HD Hi. destruct (fs_rep_inode efs total G s (files_of D) (file_inode i) File e.2) as (m & ds & ms & _ & _ & II & _ & _ & Hsz & _);
    [apply HD|by rewrite lookup_files, Hi|]. rewrite Hsz. apply II.
Qed.

(** A shorter version of a file fits where a longer one does. *)
Lemma fits_shorter D i e d1 d2 :
  D !! i = Some e → (length d1 ≤ length d2)%nat → Z.of_nat (length d2) ≤ MAX_BLOCKS * BLOCK_SZ →
  fits efs total (<[i := (e.1, d2)]> D) → fits efs total (<[i := (e.1, d1)]> D).
Proof.
  intros Hi Hle Hm [F1 F2 F3]. unfold dir_size in *. split; unfold dir_size; rewrite ?length_insert in *; try done.
  rewrite !(disk_blocks_insert D i e) in * by done. cbn [snd] in *.
  pose proof (blocks_mono (Z.of_nat (length d1)) (Z.of_nat (length d2)) ltac:(lia) Hm). lia.
Qed.

Lemma mem_read_app c va n k : mem_read c va (n + k) = mem_read c va n ++ mem_read c (va + Z.of_nat n) k.
Proof.
  unfold mem_read. rewrite <-fmap_app. f_equal. replace (Z.of_nat (n + k)) with (Z.of_nat n + Z.of_nat k) by lia. apply seqZ_app; lia.
Qed.

Lemma osinode_write_ok i x cs va fin :
  covers W frame cs va fin → ∀ D e s t f off,
  uspace token W frame x → disk_rep efs total s D → D !! i = Some e →
  os_inode f = inode_at efs (file_inode i) → os_offset f = Z.of_nat off →
  0 ≤ t → t + (fin - va) < 2 ^ 63 → Z.of_nat off + (fin - va) ≤ MAX_BLOCKS * BLOCK_SZ →
  let bs := mem_read (user_bytes frame x) va (Z.to_nat (fin - va)) in
  let D' := <[i := (e.1, file_write_data off bs e.2)]> D in
  fits efs total D' →
  ∃ s', osinode_write efs cs t f x s =
      Ret (t + (fin - va), mkOSInode (os_readable f) (os_writable f) (os_offset f + (fin - va)) (os_inode f), s') ∧
    disk_rep efs total s' D'.
Proof.
  induction 1 as [va|a b cs va fin Ha Hab Hfin Hmx HW Hcov IH]; intros D e s t f off Hus HD Hi Hino Hoff Ht0 Ht Hmax bs D' Hfits; cbn [osinode_write].
  { exists s. rewrite Z.sub_diag, !Z.add_0_r. split; [by destruct f|]. unfold D', bs. rewrite Z.sub_diag. simpl.
    rewrite list_insert_id; [done|]. by destruct e. }
  rewrite (chunk_bytes_ok token W frame x a b va) by done. cbn [mbind outcome_bind].
  set (n := Z.to_nat (b - a)) in *. assert (Hn : (0 < n)%nat ∧ Z.of_nat n = b - a) by lia.
  set (b1 := mem_read (user_bytes frame x) va n) in *. assert (Hb1 : length b1 = n) by apply length_mem_read.
  assert (Hbs : bs = b1 ++ mem_read (user_bytes frame x) (va + (b - a)) (Z.to_nat (fin - (va + (b - a))))).
  { unfold bs, b1. replace (Z.to_nat (fin - va)) with (n + Z.to_nat (fin - (va + (b - a))))%nat by lia.
    rewrite mem_read_app. do 2 f_equal. lia. }
  set (b2 := mem_read _ (va + (b - a)) _) in *. assert (Hb1n : b1 ≠ []) by (intros Hnil; rewrite Hnil in Hb1; simpl in Hb1; lia).
  assert (Hall : file_write_data off bs e.2 = file_write_data (off + n) b2 (write_data off b1 e.2)).
  { rewrite <-Hb1, file_write_data_app, Hbs by done. destruct b1; done. }
  pose proof (length_file s D i e HD Hi) as He. assert (Hlb2 : length b2 = Z.to_nat (fin - (va + (b - a)))) by apply length_mem_read.
  assert (Hl1 : length (write_data off b1 e.2) = Nat.max (length e.2) (off + n)) by (by rewrite length_write_data, Hb1).
  assert (Hl2 : length (file_write_data off bs e.2) = Nat.max (length e.2) (off + Z.to_nat (fin - va))).
  { rewrite Hbs. destruct b1 as [|y b1]; [done|]. cbn [app file_write_data]. rewrite length_write_data. cbn [length] in *. rewrite length_app. lia. }
  set (D1 := <[i := (e.1, write_data off b1 e.2)]> D).
  destruct (write_refines efs total G s D i e (os_offset f) b1 HD Hi) as (s1 & E1 & HD1); [lia|done|lia| |].
  { rewrite Hoff, Nat2Z.id. apply (fits_shorter D i e _ (file_write_data off bs e.2)); [done|lia|lia|exact Hfits]. }
  rewrite Hino, E1. cbn [mbind outcome_bind]. rewrite Z.eqb_refl. cbn [rassert mbind outcome_bind].
  rewrite Hoff, Nat2Z.id in HD1. fold D1 in HD1. rewrite Hb1.
  assert (Hi1 : D1 !! i = Some (e.1, write_data off b1 e.2)) by (apply list_lookup_insert_eq; by eapply lookup_lt_Some).
  assert (HD' : D' = <[i := (e.1, file_write_data (off + n) b2 (write_data off b1 e.2))]> D1).
  { unfold D', D1. by rewrite list_insert_insert_eq, Hall. }
  assert (Hmm : MAX_BLOCKS * BLOCK_SZ < 2 ^ 63) by done.
  rewrite (wrap_small 64 (t + _)) by lia.
  destruct (IH D1 (e.1, write_data off b1 e.2) s1 (t + Z.of_nat n) (advance (Z.of_nat n) f) (off + n)%nat) as (s2 & E2 & HD2);
    try done; try lia.
  { simpl. rewrite wrap_small by lia. lia. }
  { fold b2. cbn [fst snd]. by rewrite <-HD'. }
  exists s2. rewrite E2. fold b2 in HD2. cbn [fst snd] in HD2. rewrite <-HD' in HD2. split; [|done].
  simpl. rewrite wrap_small by lia. rewrite Hino. destruct Hn as [Hn1 Hn2]. f_equal. f_equal. f_equal; [lia|]. f_equal. lia.
Qed.

Lemma mem_write_nil c va u : mem_write c va [] u = c u.
Proof. apply mem_write_out. simpl. lia. Qed.

Lemma mem_write_cat c va k d1 d2 u :
  Z.of_nat (length d1) = k → mem_write (mem_write c va d1) (va + k) d2 u = mem_write c va (d1 ++ d2) u.
Proof. intros <-. apply mem_write_app. Qed.

(** Writing back the bytes that were there changes nothing. *)
Lemma mem_write_splice c va k d u :
  (length d ≤ k)%nat → mem_write c va (splice 0 d (mem_read c va k)) u = mem_write c va d u.
Proof.
  intros Hd. set (l := splice 0 d _). assert (Hl : length l = k) by (unfold l, splice; simpl; rewrite length_app, length_drop, length_mem_read; lia).
  destruct (decide (va ≤ u < va + Z.of_nat k)) as [Hu|Hu]; [|by rewrite !mem_write_out by lia].
  pose proof (mem_write_in c va l u ltac:(lia)) as Hw. unfold l at 1 in Hw. rewrite lookup_splice in Hw by (rewrite length_mem_read; lia).
  case_decide as Hc.
  - pose proof (mem_write_in c va d u ltac:(lia)) as Hw'. replace (Z.to_nat (u - va) - 0)%nat with (Z.to_nat (u - va)) in Hw by lia. congruence.
  - rewrite (mem_write_out c va d) by lia. rewrite lookup_mem_read in Hw by lia. injection Hw as Hw. rewrite <-Hw. f_equal. lia.
Qed.

Lemma slice_cat {A} off n k (l : list A) : slice off n l ++ slice (off + n) k l = slice off (n + k) l.
Proof. unfold slice. rewrite <-drop_drop. by rewrite take_take_drop. Qed.

(** The number of bytes a read of [k] bytes at [off] gives. *)
Definition read_len (k : Z) (off : nat) (data : list byte) : Z := Z.max 0 (Z.min k (Z.of_nat (length data) - Z.of_nat off)).

Lemma osinode_read_ok D i e cs va fin :
  D !! i = Some e → covers W frame cs va fin → ∀ x s t f off,
  uspace token W frame x → disk_rep efs total s D →
  os_inode f = inode_at efs (file_inode i) → os_offset f = Z.of_nat off →
  0 ≤ t → t + (fin - va) < 2 ^ 63 → Z.of_nat off + (fin - va) < 2 ^ 63 →
  let n := read_len (fin - va) off e.2 in
  ∃ s' x', osinode_read cs t f x s =
      Ret (t + n, mkOSInode (os_readable f) (os_writable f) (os_offset f + n) (os_inode f), x', s') ∧
    uspace token W frame x' ∧ disk_rep efs total s' D ∧
    ∀ u, W (u / PAGE_SIZE) → user_bytes frame x' u = mem_write (user_bytes frame x) va (slice off (Z.to_nat n) e.2) u.
Proof.
  intros Hi. induction 1 as [va|a b cs va fin Ha Hab Hfin Hmx HW Hcov IH]; intros x s t f off Hus HD Hino Hoff Ht0 Ht Hmax n; cbn [osinode_read].
  { assert (n = 0) as -> by (unfold n, read_len; lia). exists s, x. rewrite !Z.add_0_r. split; [by destruct f|].
    split_and!; [done..|]. intros u _. by rewrite mem_write_nil. }
  rewrite (chunk_bytes_ok token W frame x a b va) by done. cbn [mbind outcome_bind].
  set (k := Z.to_nat (b - a)) in *. assert (Hk : Z.of_nat k = b - a) by lia. set (buf := mem_read _ va k).
  assert (Hbuf : length buf = k) by apply length_mem_read.
  destruct (read_refines efs total G s D i e (os_offset f) buf HD Hi) as (s1 & E1 & HD1); [lia|lia|].
  rewrite Hino, E1. clear E1. cbn [mbind outcome_bind]. rewrite Hbuf, Hoff, Hk, Nat2Z.id. fold (read_len (b - a) off e.2).
  set (n1 := read_len (b - a) off e.2). destruct (Z.eqb_spec n1 0) as [Hn1|Hn1].
  { assert (n = 0) as -> by (unfold n, n1, read_len in *; lia). exists s1, x. rewrite <-Hino, !Z.add_0_r, <-Hoff. split; [by destruct f|].
    split_and!; [done..|]. intros u _. by rewrite mem_write_nil. }
  assert (Hd1 : length (slice off (Z.to_nat n1) e.2) = Z.to_nat n1) by (apply length_slice; unfold n1, read_len in *; lia).
  set (d1 := slice off _ _) in *. assert (Hn1k : 0 < n1 ≤ b - a) by (unfold n1, read_len in *; lia).
  destruct (chunk_store_ok token W frame x a b va (splice 0 d1 buf) Hus Ha Hab HW) as (x1 & Ex & Hus1 & Hc1).
  { unfold splice. simpl. rewrite length_app, length_drop. lia. }
  rewrite Ex. clear Ex. cbn [mbind outcome_bind]. rewrite (wrap_small 64) by lia.
  destruct (IH x1 s1 (t + n1) (advance n1 f) (off + Z.to_nat n1)%nat) as (s2 & x2 & E2 & Hus2 & HD2 & Hc2); try done; try lia.
  { simpl. rewrite (wrap_small 64) by lia. lia. }
  set (n2 := read_len _ (off + _) _) in *. assert (Hn : n = n1 + n2) by (unfold n, n2, n1, read_len in *; lia).
  exists s2, x2. rewrite E2. split; [|split_and!; [done..|]].
  { simpl. rewrite Hino, (wrap_small 64) by lia. f_equal. f_equal. f_equal. f_equal; [lia|f_equal; lia]. }
  intros u Hu. rewrite Hc2 by done. rewrite (mem_write_ext _ (mem_write (user_bytes frame x) va d1)).
  2: { rewrite Hc1 by done. apply mem_write_splice. lia. }
  destruct (decide (n2 = 0)) as [Hz|Hz]; [rewrite Hz, mem_write_nil, Hn, Hz, Z.add_0_r; done|].
  rewrite mem_write_cat by (unfold n2, n1, read_len in *; lia). f_equal. unfold d1. rewrite slice_cat. f_equal. unfold n2, read_len in *; lia.
Qed.
End Loops.

(** ** Opening a file *)

(** The place of a file on the disk. *)
Definition file_index (name : string) (D : FsSpec.disk) : option nat := fst <$> list_find (λ e, e.1 = name) D.

Definition truncate (i : nat) (D : FsSpec.disk) : FsSpec.disk := match D !! i with Some e => <[i := (e.1, [])]> D | None => D end.

(** What opening [name] does to the disk, and the file it opens. *)
Definition spec_open (D : FsSpec.disk) (name : string) (flags : Z) : option (nat * FsSpec.disk) :=
  match file_index name D with
  | Some i => Some (i, if flags_contains flags O_CREATE || flags_contains flags O_TRUNC then truncate i D else D)
  | None => if flags_contains flags O_CREATE then Some (length D, D ++ [(name, [])]) else None
  end.

Lemma dir_find_index name D : dir_find name (entries D) = file_inode <$> file_index name D.
Proof.
  unfold entries, file_index. assert (Hk : ∀ k, dir_find name (imap (λ i e, (e.1, file_inode (k + i))) D) =
    (λ i, file_inode (k + i)) <$> (fst <$> list_find (λ e, e.1 = name) D)); [|apply (Hk 0%nat)].
  induction D as [|e D IH]; intros k; [done|]. rewrite imap_cons. cbn [dir_find list_find fst snd].
  case_bool_decide; case_decide; try done.
  specialize (IH (Datatypes.S k)). rewrite (imap_ext _ (λ i x, (x.1, file_inode (Datatypes.S k + i)))), IH;
    [|intros; cbn; do 2 f_equal; lia]. destruct (list_find _ D) as [[i x]|]; [|done]. cbn. do 2 f_equal. lia.
Qed.

Lemma file_index_Some name D i : file_index name D = Some i → ∃ data, D !! i = Some (name, data).
Proof.
  unfold file_index. destruct (list_find _ D) as [[j [n data]]|] eqn:Hf; [|done]. intros [= ->].
  apply list_find_Some in Hf as (Hi & <- & _). by exists data.
Qed.

Lemma spec_open_create D name flags i D' :
  flags_contains flags O_CREATE = true → spec_open D name flags = Some (i, D') → D' !! i = Some (name, []).
Proof.
  intros Hc. unfold spec_open. rewrite Hc. destruct (file_index name D) as [j|] eqn:Hf; intros [= <- <-].
  - apply file_index_Some in Hf as [data Hj]. cbn [orb]. unfold truncate. rewrite Hj.
    apply list_lookup_insert_eq. by eapply lookup_lt_Some.
  - by apply list_lookup_middle.
Qed.

(** Characters of a path. *)
Definition ascii (name : string) : Prop := Forall (λ b, 0 < Z_of_byte b < 128) (name_of name).

Lemma string_of_chars_ascii name : ascii name → string_of_chars (name_of name) = name.
Proof.
  intros Ha. unfold string_of_chars. assert (Hl : latin1_utf8 (name_of name) = name_of name).
  { induction Ha as [|b bs Hb _ IH]; [done|]. unfold latin1_utf8 in *. cbn [mbind list_bind]. rewrite IH.
    by rewrite (proj2 (Z.ltb_lt _ _)) by lia. }
  rewrite Hl. apply string_of_name.
Qed.

Section Open.
Context {S : Type} `{!BlockStore S, !StoreLaws S}.
Context (efs : EasyFileSystem) (total : Z) (G : geometry efs total).

Lemma truncate_refines s D i e :
  disk_rep efs total s D → D !! i = Some e →
  ∃ s', inode_clear efs (inode_at efs (file_inode i)) s = Ret s' ∧ disk_rep efs total s' (truncate i D).
Proof. intros HD Hi. unfold truncate. rewrite Hi. by apply clear_refines. Qed.

Definition opened (flags : Z) (i : nat) : OSInode :=
  mkOSInode (read_write flags).1 (read_write flags).2 0 (inode_at efs (file_inode i)).

Lemma open_file_ok s D name flags :
  disk_rep efs total s D →
  (file_index name D = None → flags_contains flags O_CREATE = true → name_ok name ∧ fits efs total (D ++ [(name, [])])) →
  ∃ s', open_file efs name flags s = Ret (option_map (opened flags) (fst <$> spec_open D name flags), s') ∧
    disk_rep efs total s' (from_option snd D (spec_open D name flags)).
Proof.
  intros HD Hnew. unfold open_file, spec_open, opened. destruct (read_write flags) as [r w]; cbn [fst snd].
  destruct (find_refines efs total G s D name HD) as (s1 & E1 & HD1). rewrite E1, dir_find_index. cbn [mbind outcome_bind].
  destruct (file_index name D) as [i|] eqn:Hf; cbn [fmap option_fmap option_map].
  - destruct (file_index_Some _ _ _ Hf) as [data Hi]. destruct (truncate_refines s1 D i _ HD1 Hi) as (s2 & E2 & HD2).
    destruct (flags_contains flags O_CREATE); cbn [orb]; [rewrite E2; by exists s2|].
    destruct (flags_contains flags O_TRUNC); [rewrite E2; by exists s2|by exists s1].
  - destruct (flags_contains flags O_CREATE); [|by exists s1]. destruct Hnew as [Hn Hfit]; [done..|].
    destruct (create_refines efs total G s1 D name HD1) as (s2 & E2 & HD2); [by rewrite dir_find_index, Hf|done|done|].
    rewrite E2. by exists s2.
Qed.
End Open.

(** ** System calls on open files *)
Section Calls.
Context {PF : Platform} {PFL : PlatformLaws} {S : Type} `{!BlockStore S, !StoreLaws S}.
Implicit Types m : Machine S.

(** The running task [t] has file [i] of the disk open as descriptor [fd], at
    offset [off]: [f] is the [OSInode], with handle [h]. *)
Record fd_open m (p : Z) (t : TaskControlBlock) (fd h : Z) (f : OSInode) (i off : nat) : Prop := {
  fo_task : task_of m = Ret (p, t);
  fo_fd : fd_lookup fd t = Some (FOSInode h);
  fo_object : os_inodes m !! Z.to_nat h = Some f;
  fo_inode : os_inode f = inode_at (rootfs m) (file_inode i);
  fo_offset : os_offset f = Z.of_nat off;
}.

(** The open file after [n] bytes. *)
Definition seek (n : Z) (f : OSInode) : OSInode := mkOSInode (os_readable f) (os_writable f) (os_offset f + n) (os_inode f).
Definition with_object (h : Z) (f : OSInode) m : Machine S := with_files (<[Z.to_nat h := f]> (os_inodes m)) m.

Lemma fd_open_write m p t fd h f i off n s :
  fd_open m p t fd h f i off → fd_open (with_disk s (with_object h (seek (Z.of_nat n) f) m)) p t fd h (seek (Z.of_nat n) f) i (off + n).
Proof.
  intros [A B C D F]. split; [done|done| |done|simpl; lia]. apply list_lookup_insert_eq. by eapply lookup_lt_Some.
Qed.

Context (total : Z) (W : Z → Prop) (frame : Z → Z).

Lemma sys_write_ok m D p t fd h f i off e buf len :
  geometry (rootfs m) total → fd_open m p t fd h f i off → os_writable f = true →
  uspace (get_user_token t) W frame (machine_mem m) → 0 ≤ buf → 0 ≤ len → in_W W buf len →
  disk_rep (rootfs m) total (disk m) D → D !! i = Some e →
  let bs := mem_read (user_bytes frame (machine_mem m)) buf (Z.to_nat len) in
  let D' := <[i := (e.1, file_write_data off bs e.2)]> D in
  Z.of_nat off + len ≤ MAX_BLOCKS * BLOCK_SZ → fits (rootfs m) total D' →
  ∃ s', sys_write fd buf len m = Ret (len, with_disk s' (with_object h (seek len f) m)) ∧ disk_rep (rootfs m) total s' D'.
Proof.
  intros G [Ht Hfd Hh Hino Hoff] Hw Hus Hb Hl HW HD Hi bs D' Hmax Hfits. unfold sys_write. rewrite Ht. cbn [mbind outcome_bind].
  rewrite Hfd. unfold file_writable. rewrite Hh. cbn [unwrap mbind outcome_bind]. rewrite Hw. cbn [negb].
  destruct (translated_byte_buffer_covers _ W frame (machine_mem m) buf len Hus) as (cs & -> & Hcov); [done|done|done| |].
  { destruct (decide (len = 0)); [by left|right]. eapply in_W_bound; [done| |done]. lia. }
  cbn [mbind outcome_bind]. unfold file_write. rewrite Hh. cbn [unwrap mbind outcome_bind].
  pose proof (osinode_write_ok (get_user_token t) W frame (rootfs m) total G i _ cs buf _ Hcov D e (disk m) 0 f off Hus HD Hi Hino Hoff) as Hs.
  rewrite Z.add_simpl_l in Hs. assert (Hmb : MAX_BLOCKS * BLOCK_SZ < 2 ^ 63) by done.
  destruct Hs as (s' & -> & HD'); [lia|lia|lia|exact Hfits|]. by exists s'.
Qed.

Lemma sys_read_ok c m D p t fd h f i off e buf len :
  geometry (rootfs m) total → fd_open m p t fd h f i off → os_readable f = true →
  uspace (get_user_token t) W frame (machine_mem m) → 0 ≤ buf → 0 ≤ len → in_W W buf len →
  disk_rep (rootfs m) total (disk m) D → D !! i = Some e → Z.of_nat off + len < 2 ^ 63 →
  let n := read_len len off e.2 in
  ∃ s' x', sys_read c fd buf len m = Ret (Some n, with_machine_mem x' (with_disk s' (with_object h (seek n f) m))) ∧
    uspace (get_user_token t) W frame x' ∧ disk_rep (rootfs m) total s' D ∧
    ∀ u, W (u / PAGE_SIZE) → user_bytes frame x' u = mem_write (user_bytes frame (machine_mem m)) buf (slice off (Z.to_nat n) e.2) u.
Proof.
  intros G [Ht Hfd Hh Hino Hoff] Hr Hus Hb Hl HW HD Hi Hmax n. unfold sys_read. rewrite Ht. cbn [mbind outcome_bind].
  rewrite Hfd. unfold file_readable. rewrite Hh. cbn [unwrap mbind outcome_bind]. rewrite Hr. cbn [negb].
  destruct (translated_byte_buffer_covers _ W frame (machine_mem m) buf len Hus) as (cs & -> & Hcov); [done|done|done| |].
  { destruct (decide (len = 0)); [by left|right]. eapply in_W_bound; [done| |done]. lia. }
  cbn [mbind outcome_bind]. unfold file_read. rewrite Hh. cbn [unwrap mbind outcome_bind].
  pose proof (osinode_read_ok (get_user_token t) W frame (rootfs m) total G D i e cs buf _ Hi Hcov (machine_mem m) (disk m) 0 f off Hus HD Hino Hoff) as Hs.
  rewrite Z.add_simpl_l in Hs. fold n in Hs. destruct Hs as (s' & x' & -> & Hus' & HD' & Hc); [lia|lia|lia|]. by exists s', x'.
Qed.

(** A descriptor that is not open, or open the other way round. *)
Lemma fd_errors c m p t fd buf len :
  task_of m = Ret (p, t) →
  (fd_lookup fd t = None → sys_write fd buf len m = Ret (-1, m) ∧ sys_read c fd buf len m = Ret (Some (-1), m) ∧ sys_close fd m = Ret (-1, m)) ∧
  (∀ h f, fd_lookup fd t = Some (FOSInode h) → os_inodes m !! Z.to_nat h = Some f →
     (os_writable f = false → sys_write fd buf len m = Ret (-1, m)) ∧ (os_readable f = false → sys_read c fd buf len m = Ret (Some (-1), m))).
Proof.
  intros Ht. unfold sys_write, sys_read, sys_close. rewrite Ht. cbn [mbind outcome_bind]. split; [by intros ->|].
  intros h f -> Hh. unfold file_writable, file_readable. rewrite Hh. cbn [unwrap mbind outcome_bind]. by split; intros ->.
Qed.

(** *** The standard streams *)

(** The bytes of a buffer that lie in page [v]. *)
Definition page_part (c : Z → byte) (buf len v : Z) : list byte :=
  let lo := Z.max buf (v * PAGE_SIZE) in
  mem_read c lo (Z.to_nat (Z.min (buf + len) ((v + 1) * PAGE_SIZE) - lo)).

Lemma UserBuffer_len_covers cs va fin : covers W frame cs va fin → UserBuffer_len cs = fin - va.
Proof. induction 1 as [va|a b cs va fin Ha Hab Hfin Hmx HW Hcov IH]; simpl in *; [lia|]. rewrite IH. lia. Qed.

(** The first chunk of a buffer is the part in its first page; the others are
    the parts of the rest. *)
Lemma page_part_first (c : Z → byte) s b fin :
  s mod PAGE_SIZE < b ≤ PAGE_SIZE → s + (b - s mod PAGE_SIZE) ≤ fin → b = PAGE_SIZE ∨ s + (b - s mod PAGE_SIZE) = fin →
  page_part c s (fin - s) (s / PAGE_SIZE) = mem_read c s (Z.to_nat (b - s mod PAGE_SIZE)).
Proof.
  intros Hb Hf Hm. pose proof (page_split s) as [Hs Hmod]. unfold page_part. unfold PAGE_SIZE in *. f_equal; lia.
Qed.

Lemma page_part_rest (c : Z → byte) s b fin v :
  s mod PAGE_SIZE < b ≤ PAGE_SIZE → s + (b - s mod PAGE_SIZE) ≤ fin → b = PAGE_SIZE ∨ s + (b - s mod PAGE_SIZE) = fin →
  let s' := s + (b - s mod PAGE_SIZE) in
  page_part c s' (fin - s') v = if decide (v = s / PAGE_SIZE) then [] else page_part c s (fin - s) v.
Proof.
  intros Hb Hf Hm s'. pose proof (page_split s) as [Hs Hmod]. unfold page_part, s', PAGE_SIZE in *. case_decide as Hv.
  - subst v. replace (Z.to_nat _) with 0%nat by lia. done.
  - destruct (decide (v < s / 4096)).
    + replace (Z.to_nat _) with 0%nat by lia. by replace (Z.to_nat _) with 0%nat by lia.
    + f_equal; [lia|]. f_equal. lia.
Qed.

Lemma page_part_ascii (c : Z → byte) buf len v :
  0 ≤ len → Forall (λ b, Z_of_byte b < 128) (mem_read c buf (Z.to_nat len)) → utf8_valid (page_part c buf len v) = true.
Proof.
  intros Hl Ha. apply utf8_valid_ascii. rewrite Forall_lookup in Ha |- *. unfold page_part. cbv zeta.
  intros i b Hi. pose proof (lookup_lt_Some _ _ _ Hi) as Hlt. rewrite length_mem_read in Hlt. rewrite lookup_mem_read in Hi by done.
  injection Hi as <-. apply (Ha (Z.to_nat (Z.max buf (v * PAGE_SIZE) + Z.of_nat i - buf))).
  rewrite lookup_mem_read by (unfold PAGE_SIZE in *; lia). do 2 f_equal. lia.
Qed.

(** [print!] of the pieces: all of them, when each is UTF-8 text. *)
Lemma stdout_loop_ok token x cs va fin :
  covers W frame cs va fin → uspace token W frame x → ∀ out,
  let c := user_bytes frame x in
  ((∀ v, utf8_valid (page_part c va (fin - va) v) = true) →
     stdout_loop cs x out = Ret (out ++ mem_read c va (Z.to_nat (fin - va)))) ∧
  ((∃ v, utf8_valid (page_part c va (fin - va) v) = false) → stdout_loop cs x out = Panic).
Proof.
  intros Hcov Hus. induction Hcov as [va|a b cs va fin -> Hab Hfin Hmx HW Hcov IH]; intros out c; cbn [stdout_loop].
  - rewrite Z.sub_diag. split; [by rewrite app_nil_r|]. intros [v Hv]. unfold page_part in Hv.
    replace (Z.to_nat _) with 0%nat in Hv by (unfold PAGE_SIZE in *; lia). done.
  - rewrite (chunk_bytes_ok token W frame x (va mod PAGE_SIZE) b va) by done. cbn [mbind outcome_bind]. fold c.
    pose proof (page_part_first c va b fin ltac:(lia) Hfin Hmx) as H1.
    pose proof (λ v, page_part_rest c va b fin v ltac:(lia) Hfin Hmx) as H2. cbv zeta in H2.
    set (bs := mem_read c va (Z.to_nat (b - va mod PAGE_SIZE))) in *.
    assert (Hcat : mem_read c va (Z.to_nat (fin - va)) =
      bs ++ mem_read c (va + (b - va mod PAGE_SIZE)) (Z.to_nat (fin - (va + (b - va mod PAGE_SIZE))))).
    { replace (Z.to_nat (fin - va)) with (Z.to_nat (b - va mod PAGE_SIZE) + Z.to_nat (fin - (va + (b - va mod PAGE_SIZE))))%nat by lia.
      rewrite mem_read_app. do 2 f_equal. lia. }
    unfold from_utf8. split.
    + intros Hall. rewrite <-H1, Hall. cbn [unwrap mbind outcome_bind].
      unfold name_of. rewrite String.list_byte_of_string_of_list_byte, H1, (proj1 (IH _)).
      * by rewrite Hcat, app_assoc.
      * intros v. rewrite H2. case_decide; [done|apply Hall].
    + intros [v Hv]. destruct (utf8_valid bs) eqn:Eb; [|done]. cbn [unwrap mbind outcome_bind]. apply IH.
      exists v. rewrite H2. case_decide as Hd; [|done]. subst v. rewrite H1, Eb in Hv. done.
Qed.

Section Streams.
Context (m : Machine S) (p : Z) (t : TaskControlBlock) (fd buf len : Z).
Context (Ht : task_of m = Ret (p, t)).

(** Standard input cannot be written, standard output cannot be read. *)
Lemma stream_errors c :
  (fd_lookup fd t = Some FStdin → sys_write fd buf len m = Ret (-1, m)) ∧
  (fd_lookup fd t = Some FStdout → sys_read c fd buf len m = Ret (Some (-1), m)).
Proof. unfold sys_write, sys_read. rewrite Ht. cbn [mbind outcome_bind]. by split; intros ->. Qed.

Context (Hus : uspace (get_user_token t) W frame (machine_mem m)) (Hb : 0 ≤ buf) (Hl : 0 ≤ len) (HW : in_W W buf len).

Lemma buffer_chunks : ∃ cs, translated_byte_buffer (get_user_token t) buf len (machine_mem m) = Ret cs ∧ covers W frame cs buf (buf + len).
Proof.
  apply translated_byte_buffer_covers; [done|done|done|done|].
  destruct (decide (len = 0)); [by left|right]. eapply in_W_bound; [done| |done]. lia.
Qed.

Lemma stdout_write_ok :
  fd_lookup fd t = Some FStdout →
  let c := user_bytes frame (machine_mem m) in
  ((∀ v, utf8_valid (page_part c buf len v) = true) →
     sys_write fd buf len m = Ret (len, with_console (console m ++ mem_read c buf (Z.to_nat len)) m)) ∧
  ((∃ v, utf8_valid (page_part c buf len v) = false) → sys_write fd buf len m = Panic).
Proof.
  intros Hfd c. unfold sys_write. rewrite Ht. cbn [mbind outcome_bind]. rewrite Hfd. cbn [file_writable mbind outcome_bind negb].
  destruct buffer_chunks as (cs & -> & Hcov). cbn [mbind outcome_bind file_write].
  destruct (stdout_loop_ok (get_user_token t) _ _ _ _ Hcov Hus (console m)) as [H1 H2]. rewrite Z.add_simpl_l in H1, H2.
  split; intros H; [rewrite H1 by done|by rewrite H2].
  cbn [mbind outcome_bind]. rewrite (UserBuffer_len_covers _ _ _ Hcov), Z.add_simpl_l. done.
Qed.

Lemma stdin_read_len c : fd_lookup fd t = Some FStdin → len ≠ 1 → sys_read c fd buf len m = Panic.
Proof.
  intros Hfd Hne. unfold sys_read. rewrite Ht. cbn [mbind outcome_bind]. rewrite Hfd. cbn [file_readable mbind outcome_bind negb].
  destruct buffer_chunks as (cs & -> & Hcov). cbn [mbind outcome_bind file_read]. unfold stdin_read.
  rewrite (UserBuffer_len_covers _ _ _ Hcov), Z.add_simpl_l. by rewrite (proj2 (Z.eqb_neq _ _)).
Qed.
End Streams.

(** The task waits for a character: ready, at the end of the queue. *)
Definition waits_for_key (p : Z) (cs : list Chunk) (k : Kernel) : Kernel :=
  add_task p (upd_task p (λ t, set_cx (in_stdin_read cs) (set_status Ready t)) (with_processor None k)).

(** One byte of standard input: none yet, or a character. *)
Lemma stdin_read_ok m p t c fd buf :
  task_of m = Ret (p, t) → fd_lookup fd t = Some FStdin → uspace (get_user_token t) W frame (machine_mem m) →
  0 ≤ buf → W (buf / PAGE_SIZE) →
  let cs := [(frame (buf / PAGE_SIZE), buf mod PAGE_SIZE, buf mod PAGE_SIZE + 1)] in
  (c = 0 → sys_read c fd buf 1 m = Ret (None, with_kern (waits_for_key p cs (kern m)) m)) ∧
  (c ≠ 0 → ∃ x', sys_read c fd buf 1 m = Ret (Some 1, with_machine_mem x' m) ∧ uspace (get_user_token t) W frame x' ∧
     ∀ u, W (u / PAGE_SIZE) → user_bytes frame x' u = mem_write (user_bytes frame (machine_mem m)) buf [byte_of_Z (wrap 8 c)] u).
Proof.
  intros Ht Hfd Hus Hb HWb cs. assert (HW : in_W W buf 1) by (intros x Hx; by replace x with buf by lia).
  pose proof (page_split buf) as [_ Hmod].
  unfold sys_read. rewrite Ht. cbn [mbind outcome_bind]. rewrite Hfd. cbn [file_readable mbind outcome_bind negb].
  destruct (buffer_chunks m t buf 1 Hus Hb ltac:(lia) HW) as (cs' & -> & Hcov). cbn [mbind outcome_bind file_read].
  assert (cs' = cs) as ->.
  { inversion Hcov as [|a b cs1 ? ? Ha Hab Hf _ _ Hc1]; [lia|]. subst. assert (b = buf mod PAGE_SIZE + 1) as -> by lia.
    inversion Hc1; [done|lia]. }
  unfold stdin_read. rewrite (UserBuffer_len_covers _ _ _ Hcov), Z.add_simpl_l. cbn [rassert Z.eqb Pos.eqb mbind outcome_bind].
  unfold stdin_read_turn. split.
  - intros ->. rewrite Z.eqb_refl. destruct (cur_task_inv _ _ _ Ht) as [Hp Htp].
    unfold suspend_current_and_run_next, take_current_task. rewrite Hp. cbn [unwrap mbind outcome_bind].
    unfold get_task. cbn [with_processor tcbs]. by rewrite Htp.
  - intros Hc. rewrite (proj2 (Z.eqb_neq _ _)) by done. unfold cs.
    destruct (chunk_store_ok (get_user_token t) W frame (machine_mem m) (buf mod PAGE_SIZE) (buf mod PAGE_SIZE + 1) buf [byte_of_Z (wrap 8 c)])
      as (x' & E & Hus' & Hx); try done; [lia|simpl; lia|].
    cbn [chunk_store] in E. unfold machine_mem in E. rewrite E. cbn [mbind outcome_bind]. by exists x'.
Qed.

(** *** Opening *)
Lemma fd_lookup_Some fd t f : fd_lookup fd t = Some f ↔ fd < Z.of_nat (length (fd_table t)) ∧ fd_table t !! Z.to_nat fd = Some (Some f).
Proof.
  unfold fd_lookup. destruct (Z.leb_spec (Z.of_nat (length (fd_table t))) fd); [split; [done|lia]|].
  destruct (fd_table t !! Z.to_nat fd) as [[g|]|]; simpl; split; intros H'; destruct_and?; simplify_eq; done.
Qed.

Lemma fd_lookup_None fd t : 0 ≤ fd → (fd_table t !! Z.to_nat fd = None ∨ fd_table t !! Z.to_nat fd = Some None) → fd_lookup fd t = None.
Proof. intros H0 H. unfold fd_lookup. destruct (_ <=? _); [done|]. by destruct H as [-> | ->]. Qed.

(** [alloc_fd] takes the lowest free descriptor, a new one at the end of the
    table when all are in use. *)
Lemma alloc_fd_ok t fd t1 f :
  alloc_fd t = (fd, t1) →
  let t' := set_fds (<[Z.to_nat fd := Some f]> (fd_table t1)) t1 in
  (0 ≤ fd ∧ fd_lookup fd t = None ∧ ∀ j, 0 ≤ j < fd → is_Some (fd_lookup j t)) ∧
  fd_lookup fd t' = Some f ∧ (∀ j, 0 ≤ j → j ≠ fd → fd_lookup j t' = fd_lookup j t) ∧
  t' = set_fds (fd_table t') t ∧ length (fd_table t') = Nat.max (length (fd_table t)) (Z.to_nat fd + 1).
Proof.
  unfold alloc_fd. destruct (list_find _ _) as [[k o]|] eqn:Hf; intros [= <- <-].
  - apply list_find_Some in Hf as (Hk & -> & Hbefore). pose proof (lookup_lt_Some _ _ _ Hk).
    split_and!; [lia|apply fd_lookup_None; [lia|right; by rewrite Nat2Z.id]| | | |done|].
    + intros j Hj. destruct (lookup_lt_is_Some_2 (fd_table t) (Z.to_nat j)) as [o Ho]; [lia|].
      destruct o as [g|]; [exists g; apply fd_lookup_Some; split; [lia|done]|]. exfalso. eapply Hbefore; [exact Ho|lia|done].
    + apply fd_lookup_Some. simpl. rewrite length_insert, Nat2Z.id, list_lookup_insert_eq by done. split; [lia|done].
    + intros j Hj Hne. unfold fd_lookup. cbn [fd_table set_fds]. rewrite length_insert, list_lookup_insert_ne by lia. done.
    + cbn [fd_table set_fds]. rewrite length_insert. lia.
  - apply list_find_None in Hf. cbn [fd_table set_fds]. rewrite length_app. cbn [length]. set (n := length (fd_table t)).
    replace (Z.of_nat (n + 1) - 1) with (Z.of_nat n) by lia. rewrite Nat2Z.id. split_and!; [lia| | | | |done|].
    + apply fd_lookup_None; [lia|left]. rewrite Nat2Z.id. by apply lookup_ge_None_2.
    + intros j Hj. destruct (lookup_lt_is_Some_2 (fd_table t) (Z.to_nat j)) as [o Ho]; [lia|].
      destruct o as [g|]; [exists g; apply fd_lookup_Some; split; [lia|done]|]. exfalso.
      by apply (proj1 (Forall_lookup _ _) Hf _ _ Ho).
    + apply fd_lookup_Some. simpl. rewrite length_insert, length_app. simpl. split; [lia|].
      rewrite Nat2Z.id, list_lookup_insert_eq; [done|]. rewrite length_app. simpl. lia.
    + intros j Hj Hne. unfold fd_lookup. cbn [fd_table set_fds]. rewrite length_insert, length_app. cbn [length]. fold n.
      rewrite list_lookup_insert_ne by lia.
      destruct (Z.leb_spec (Z.of_nat (n + 1)) j), (Z.leb_spec (Z.of_nat n) j); try lia; [done|].
      by rewrite lookup_app_l by lia.
    + rewrite length_insert, length_app. cbn [length]. lia.
Qed.

(** [m'], where the running task [t] became [t'], has file [i] open from its
    start as [fd], the lowest descriptor that was free; the other descriptors,
    the rest of the table's owner, the objects there were, the other tasks,
    memory and console are as before. *)
Record opened_as m p t flags i D' fd m' t' h : Prop := {
  oa_lowest : 0 ≤ fd ∧ fd_lookup fd t = None ∧ ∀ j, 0 ≤ j < fd → is_Some (fd_lookup j t);
  oa_open : fd_open m' p t' fd h (opened (rootfs m) flags i) i 0;
  oa_fds j : 0 ≤ j → j ≠ fd → fd_lookup j t' = fd_lookup j t;
  oa_length : length (fd_table t') = Nat.max (length (fd_table t)) (Z.to_nat fd + 1);
  oa_task : t' = set_fds (fd_table t') t;
  oa_handle : h = Z.of_nat (length (os_inodes m));
  oa_state : m' = with_kern (upd_task p (λ _, t') (kern m))
    (with_files (os_inodes m ++ [opened (rootfs m) flags i]) (with_disk (disk m') m));
  oa_disk : disk_rep (rootfs m) total (disk m') D';
}.

Lemma opened_token m p t flags i D' fd m' t' h : opened_as m p t flags i D' fd m' t' h → get_user_token t' = get_user_token t.
Proof. intros H. by rewrite (oa_task _ _ _ _ _ _ _ _ _ _ H). Qed.

Lemma opened_machine m p t flags i D' fd m' t' h :
  opened_as m p t flags i D' fd m' t' h → machine_mem m' = machine_mem m ∧ rootfs m' = rootfs m.
Proof. intros H. by rewrite (oa_state _ _ _ _ _ _ _ _ _ _ H). Qed.

(** The path at [path] in user memory is [name]. *)
Definition path_is m token path (name : string) : Prop :=
  uspace token W frame (machine_mem m) ∧ 0 ≤ path ∧ in_W W path (Z.of_nat (length (name_of name)) + 1) ∧ ascii name ∧
  mem_read (user_bytes frame (machine_mem m)) path (length (name_of name) + 1) = name_of name ++ [x00].

Lemma user_path_ok fuel m token path name :
  path_is m token path name → (length (name_of name) < fuel)%nat → user_path fuel token path m = Ret name.
Proof.
  intros (Hus & Hp & HW & Ha & Hm) Hf. unfold user_path. rewrite (translated_str_ok token W frame _ (name_of name)); try done.
  - cbn [mbind outcome_bind]. by rewrite string_of_chars_ascii.
  - eapply Forall_impl; [exact Ha|]. cbn. intros b [Hb _] ->. by vm_compute in Hb.
Qed.

Lemma sys_open_ok m D p t fuel path flags name :
  geometry (rootfs m) total → task_of m = Ret (p, t) → path_is m (get_user_token t) path name → (length (name_of name) < fuel)%nat →
  flags_from_bits flags = Some flags → disk_rep (rootfs m) total (disk m) D →
  (file_index name D = None → flags_contains flags O_CREATE = true → name_ok name ∧ fits (rootfs m) total (D ++ [(name, [])])) →
  match spec_open D name flags with
  | Some (i, D') => ∃ fd m' t' h, sys_open fuel path flags m = Ret (fd, m') ∧ opened_as m p t flags i D' fd m' t' h
  | None => ∃ s', sys_open fuel path flags m = Ret (-1, with_disk s' m) ∧ disk_rep (rootfs m) total s' D
  end.
Proof.
  intros G Ht Hpath Hfuel Hflags HD Hnew. unfold sys_open. rewrite Ht. cbn [mbind outcome_bind].
  rewrite (user_path_ok fuel m _ path name) by done. cbn [mbind outcome_bind]. rewrite Hflags. cbn [unwrap mbind outcome_bind].
  destruct (open_file_ok (rootfs m) total G (disk m) D name flags HD Hnew) as (s' & -> & HD'). cbn [mbind outcome_bind].
  destruct (spec_open D name flags) as [[i D']|]; cbn [fmap option_fmap option_map fst snd from_option] in *; [|by exists s'].
  unfold install_fd. destruct (cur_task_inv _ _ _ Ht) as [Hp Htp]. change (kern (with_disk s' m)) with (kern m).
  rewrite (proj2 (get_task_Ret _ _ _) Htp). cbn [mbind outcome_bind].
  set (h := Z.of_nat (length (os_inodes (with_disk s' m)))). destruct (alloc_fd t) as [fd t1] eqn:Ea.
  destruct (alloc_fd_ok t fd t1 (FOSInode h) Ea) as (Hlow & Hn & Ho & Htask' & Hlen). eexists fd, _, _, h. split; [reflexivity|].
  split; [done| |done|done|done|done|done|done].
  split; [|done| |done|done].
  - apply cur_task_Ret; [done|]. simpl. unfold upd_task. simpl. by rewrite lookup_alter_eq, Htp.
  - unfold h. rewrite Nat2Z.id. by apply list_lookup_middle.
Qed.

(** Unknown bits in the flags: [from_bits(flags).unwrap()]. *)
Lemma sys_open_bad_flags m p t fuel path flags name :
  task_of m = Ret (p, t) → path_is m (get_user_token t) path name → (length (name_of name) < fuel)%nat →
  flags_from_bits flags = None → sys_open fuel path flags m = Panic.
Proof.
  intros Ht Hpath Hfuel Hf. unfold sys_open. rewrite Ht. cbn [mbind outcome_bind].
  rewrite (user_path_ok fuel m _ path name) by done. cbn [mbind outcome_bind]. by rewrite Hf.
Qed.

(** *** The whole content of a file *)
Lemma file_index_unique D i name data : NoDup D.*1 → D !! i = Some (name, data) → file_index name D = Some i.
Proof.
  intros Hn Hi. unfold file_index. rewrite (proj2 (list_find_Some _ D i (name, data))); [done|]. split; [done|]. split; [done|].
  intros j [n d] Hj Hlt Hname. cbn in Hname. subst n.
  assert (j = i); [|lia]. eapply (NoDup_lookup _ _ _ name Hn); rewrite list_lookup_fmap; [by rewrite Hj|by rewrite Hi].
Qed.

Lemma read_all_ok efs D i e :
  geometry efs total → D !! i = Some e → ∀ fuel off (buffer v : list byte) f s,
  disk_rep efs total s D → os_inode f = inode_at efs (file_inode i) → os_offset f = Z.of_nat off → length buffer = 512%nat →
  (off ≤ length e.2)%nat → (length e.2 + 512 ≤ off + 512 * fuel)%nat →
  ∃ f' s', read_all fuel buffer v f s = Ret (v ++ drop off e.2, f', s') ∧ disk_rep efs total s' D.
Proof.
  intros G Hi. induction fuel as [|fuel IH]; intros off buffer v f s HD Hino Hoff Hb Ho Hf; [lia|]. cbn [read_all].
  pose proof (length_file efs total G s D i e HD Hi) as He. assert (Hmb : MAX_BLOCKS * BLOCK_SZ < 2 ^ 62) by done.
  destruct (read_refines efs total G s D i e (os_offset f) buffer HD Hi) as (s1 & E1 & HD1); [lia|rewrite Hb; lia|].
  rewrite Hino, E1. clear E1. cbn [mbind outcome_bind]. rewrite Hb, Hoff, Nat2Z.id.
  set (n := Z.max 0 _). destruct (Z.eqb_spec n 0) as [Hn|Hn].
  { exists f, s1. rewrite drop_ge, app_nil_r by lia. done. }
  set (d := slice off (Z.to_nat n) e.2). assert (Hd : length d = Z.to_nat n) by (apply length_slice; lia).
  assert (Hsp : length (splice 0 d buffer) = 512%nat) by (rewrite length_splice; [done|rewrite Hd, Hb; lia]).
  assert (Htk : take (Z.to_nat n) (splice 0 d buffer) = d) by (unfold splice; simpl; rewrite <-Hd; apply take_app_length).
  rewrite Htk. destruct (IH (off + Z.to_nat n)%nat (splice 0 d buffer) (v ++ d) (advance n f) s1) as (f2 & s2 & E2 & HD2); try done; try lia.
  { simpl. rewrite (wrap_small 64) by lia. lia. }
  exists f2, s2. split; [|done]. rewrite E2. do 3 f_equal. rewrite <-app_assoc. f_equal. unfold d, slice.
  rewrite <-drop_drop. by rewrite take_drop.
Qed.

(** [exec] hands the loader exactly the bytes of the file. *)
Lemma sys_exec_ok `{!ElfParser} m D p t fuel sst path name i data :
  geometry (rootfs m) total → task_of m = Ret (p, t) → path_is m (get_user_token t) path name →
  (length (name_of name) < fuel)%nat → (length data + 512 ≤ 512 * fuel)%nat →
  disk_rep (rootfs m) total (disk m) D → D !! i = Some (name, data) →
  ∃ s', disk_rep (rootfs m) total s' D ∧
    sys_exec fuel sst path m = (k ← TCB_exec sst p data (kern m); Ret (0, with_disk s' (with_kern k m))).
Proof.
  intros G Ht Hpath Hf1 Hf2 HD Hi. unfold sys_exec. rewrite Ht. cbn [mbind outcome_bind].
  rewrite (user_path_ok fuel m _ path name) by done. cbn [mbind outcome_bind].
  pose proof (file_index_unique D i name data (dr_unique _ _ _ _ HD) Hi) as Hidx.
  destruct (open_file_ok (rootfs m) total G (disk m) D name 0 HD) as (s1 & E1 & HD1); [congruence|].
  rewrite E1. clear E1. unfold spec_open in *. rewrite Hidx in *. cbn [fmap option_fmap option_map mbind outcome_bind fst snd from_option] in *.
  destruct (read_all_ok (rootfs m) D i (name, data) G Hi fuel 0%nat (replicate 512 x00) [] (opened (rootfs m) 0 i) s1) as (f' & s2 & E2 & HD2); try done.
  { cbn [snd]. lia. }
  rewrite E2. cbn [mbind outcome_bind]. exists s2. split; [done|]. done.
Qed.
End Calls.
