(* ===== verification/SysFileThms.v ===== *)
(** * Theorems on the file calls *)

From stdpp Require Import gmap.
Local Ltac Zify.zify_post_hook ::= Z.to_euclidean_division_equations.
From S2P Require Import Prelude Address PhysMem FrameAlloc PageTable MemorySet UserCopy Utf8 Task Blocks BlockCache Layout LayoutLemmas InodeMap InodeIO Efs Vfs MemDisk FsInv FsFile FsDir FsSpec FsBoot FsThms OsFile KernelThms AgentCalls CallThms Syscall SysThms SysFiles.

Section Theorems.
Context {PF : Platform} {PFL : PlatformLaws} {S : Type} `{!BlockStore S, !StoreLaws S}.
Implicit Types m : Machine S.


(** C21: [read], for each kind of descriptor. One that is not open, standard
    output, and a file not open for reading give -1 and change nothing. A
    file gives the number of bytes between its offset and its end or the
    length of the buffer, whichever is less; those bytes, and no others,
    change in the caller's memory, across whatever pages the buffer spans; the
    offset advances by them and the files stay as they are. Standard input is
    read one byte at a time, any other length panics the kernel: a character
    is stored in the buffer, and as long as there is none the task goes to
    the end of the ready queue and waits for it. *)
Theorem sys_read_spec total W frame c m p t fd buf len :
  task_of m = Ret (p, t) →
  (fd_lookup fd t = None → sys_read c fd buf len m = Ret (Some (-1), m)) ∧
  (fd_lookup fd t = Some FStdout → sys_read c fd buf len m = Ret (Some (-1), m)) ∧
  (∀ h f, fd_lookup fd t = Some (FOSInode h) → os_inodes m !! Z.to_nat h = Some f → os_readable f = false →
     sys_read c fd buf len m = Ret (Some (-1), m)) ∧
  (uspace (get_user_token t) W frame (machine_mem m) → 0 ≤ buf → 0 ≤ len → in_W W buf len →
   (∀ D h f i off e, fd_open m p t fd h f i off → os_readable f = true → geometry (rootfs m) total →
      disk_rep (rootfs m) total (disk m) D → D !! i = Some e → Z.of_nat off + len < 2 ^ 63 →
      let n := Z.max 0 (Z.min len (Z.of_nat (length e.2) - Z.of_nat off)) in
      ∃ s' x', sys_read c fd buf len m = Ret (Some n, with_machine_mem x' (with_disk s' (with_object h (seek n f) m))) ∧
        uspace (get_user_token t) W frame x' ∧ disk_rep (rootfs m) total s' D ∧
        ∀ u, W (u / PAGE_SIZE) → user_bytes frame x' u =
          mem_write (user_bytes frame (machine_mem m)) buf (slice off (Z.to_nat n) e.2) u) ∧
   (fd_lookup fd t = Some FStdin →
      (len ≠ 1 → sys_read c fd buf len m = Panic) ∧
      (len = 1 → c = 0 → sys_read c fd buf len m = Ret (None, with_kern
         (waits_for_key p [(frame (buf / PAGE_SIZE), buf mod PAGE_SIZE, buf mod PAGE_SIZE + 1)] (kern m)) m)) ∧
      (len = 1 → c ≠ 0 → ∃ x', sys_read c fd buf len m = Ret (Some 1, with_machine_mem x' m) ∧
         uspace (get_user_token t) W frame x' ∧
         ∀ u, W (u / PAGE_SIZE) → user_bytes frame x' u =
           mem_write (user_bytes frame (machine_mem m)) buf [byte_of_Z (wrap 8 c)] u))).
Proof.
  intros Ht. destruct (fd_errors c m p t fd buf len Ht) as [He Hr].
  split; [intros Hf; apply (He Hf)|]. split; [by apply (stream_errors m p t fd buf len Ht c)|].
  split; [intros h f H1 H2 H3; by apply (Hr h f H1 H2)|]. intros Hus Hb Hl HW. split.
  - intros D h f i off e Ho Hrd G HD Hi Hm. by eapply sys_read_ok.
  - intros Hf. split; [by eapply stdin_read_len|].
    assert (Hone : len = 1 → W (buf / PAGE_SIZE)) by (intros ->; apply HW; lia).
    split; intros -> Hc; by apply (stdin_read_ok W frame m p t c fd buf); auto.
Qed.


(** C19: what is written is read back. Opening a file for writing with
    [CREATE], writing a buffer, opening the file again and reading as many
    bytes succeeds with two different descriptors and leaves exactly the
    written bytes in the second buffer, nothing else of the caller's memory
    having changed; the file then holds those bytes and the other files what
    they held. *)
Theorem written_file_is_read_back total W frame m D p t fuel c path name i D1 src dst len :
  geometry (rootfs m) total → task_of m = Ret (p, t) → path_is W frame m (get_user_token t) path name →
  (length (name_of name) < fuel)%nat → disk_rep (rootfs m) total (disk m) D →
  name_ok name → spec_open D name (Z.lor O_CREATE O_WRONLY) = Some (i, D1) →
  let bs := mem_read (user_bytes frame (machine_mem m)) src (Z.to_nat len) in
  let D2 := <[i := (name, bs)]> D1 in
  fits (rootfs m) total D1 → fits (rootfs m) total D2 →
  0 ≤ src → 0 ≤ dst → 0 < len ≤ MAX_BLOCKS * BLOCK_SZ → in_W W src len → in_W W dst len →
  ∃ fd fd' m1 m2 m3 m4, fd' ≠ fd ∧
    sys_open fuel path (Z.lor O_CREATE O_WRONLY) m = Ret (fd, m1) ∧ sys_write fd src len m1 = Ret (len, m2) ∧
    sys_open fuel path 0 m2 = Ret (fd', m3) ∧ sys_read c fd' dst len m3 = Ret (Some len, m4) ∧
    disk_rep (rootfs m) total (disk m4) D2 ∧
    ∀ u, W (u / PAGE_SIZE) → user_bytes frame (machine_mem m4) u = mem_write (user_bytes frame (machine_mem m)) dst bs u.
Proof.
  intros G Ht Hpath Hfuel HD Hname Hspec bs D2 Hf1 Hf2 Hs Hd Hl HWs HWd.
  assert (Hi1 : D1 !! i = Some (name, [])) by (eapply spec_open_create; [|exact Hspec]; reflexivity).
  assert (Hbs : file_write_data 0 bs [] = bs).
  { assert (length bs = Z.to_nat len) by apply length_mem_read. destruct bs as [|b bs']; [simpl in *; lia|].
    unfold file_write_data, write_data, splice. cbn [app take length]. rewrite drop_ge; [by rewrite app_nil_r|].
    rewrite length_replicate. simpl. lia. }
  pose proof (sys_open_ok total W frame m D p t fuel path (Z.lor O_CREATE O_WRONLY) name G Ht Hpath Hfuel eq_refl HD) as Ho.
  rewrite Hspec in Ho. destruct Ho as (fd & m1 & t1 & h1 & E1 & Ho1).
  { intros Hnone _. split; [done|]. unfold spec_open in Hspec. rewrite Hnone in Hspec. by injection Hspec as _ ->. }
  pose proof (oa_open _ _ _ _ _ _ _ _ _ _ _ Ho1) as Hop1. pose proof (oa_disk _ _ _ _ _ _ _ _ _ _ _ Ho1) as HD1.
  pose proof (opened_token _ _ _ _ _ _ _ _ _ _ _ Ho1) as Htok1. destruct (opened_machine _ _ _ _ _ _ _ _ _ _ _ Ho1) as [Hm1 Hr1].
  rewrite <-Hr1 in *. pose proof Hpath as (Hus & _). rewrite <-Htok1, <-Hm1 in Hus.
  destruct (sys_write_ok total W frame m1 D1 p t1 fd h1 _ i 0 (name, []) src len G Hop1) as (s2 & E2 & HD2); try done; try lia.
  { cbn [fst snd]. rewrite Hm1. fold bs. by rewrite Hbs. }
  cbn [fst snd] in HD2. rewrite Hm1 in HD2. fold bs in HD2. rewrite Hbs in HD2. fold D2 in HD2.
  set (f2 := seek len _) in E2. set (m2 := with_disk s2 (with_object h1 f2 m1)) in *.
  assert (Hop2 : fd_open m2 p t1 fd h1 f2 i (0 + Z.to_nat len)).
  { pose proof (fd_open_write m1 p t1 fd h1 _ i 0 (Z.to_nat len) s2 Hop1) as Hw. by rewrite Z2Nat.id in Hw by lia. }
  assert (Hi2 : D2 !! i = Some (name, bs)) by (apply list_lookup_insert_eq; by eapply lookup_lt_Some).
  assert (Hspec2 : spec_open D2 name 0 = Some (i, D2)).
  { unfold spec_open. by rewrite (file_index_unique D2 i name bs (dr_unique _ _ _ _ HD2) Hi2). }
  assert (Hpath2 : path_is W frame m2 (get_user_token t1) path name).
  { unfold path_is. change (machine_mem m2) with (machine_mem m1). rewrite Hm1, Htok1. exact Hpath. }
  pose proof (sys_open_ok total W frame m2 D2 p t1 fuel path 0 name G (fo_task _ _ _ _ _ _ _ _ Hop2) Hpath2 Hfuel eq_refl HD2) as Ho.
  rewrite Hspec2 in Ho. destruct Ho as (fd' & m3 & t3 & h3 & E3 & Ho3); [by rewrite (file_index_unique D2 i name bs (dr_unique _ _ _ _ HD2) Hi2)|].
  destruct (oa_lowest _ _ _ _ _ _ _ _ _ _ _ Ho3) as (_ & Hnew & _).
  pose proof (oa_open _ _ _ _ _ _ _ _ _ _ _ Ho3) as Hop3. pose proof (oa_disk _ _ _ _ _ _ _ _ _ _ _ Ho3) as HD3.
  pose proof (opened_token _ _ _ _ _ _ _ _ _ _ _ Ho3) as Htok3. destruct (opened_machine _ _ _ _ _ _ _ _ _ _ _ Ho3) as [Hm3 Hr3].
  change (rootfs m2) with (rootfs m1) in *. change (machine_mem m2) with (machine_mem m1) in *. rewrite <-Htok3, <-Hm3 in Hus.
  rewrite <-Hr3 in G, HD3.
  destruct (sys_read_ok total W frame c m3 D2 p t3 fd' h3 _ i 0 (name, bs) dst len G Hop3) as (s4 & x4 & E4 & _ & HD4 & Hmem4); try done; try lia.
  { assert (MAX_BLOCKS * BLOCK_SZ < 2 ^ 63) by done. lia. }
  assert (Hlen : length bs = Z.to_nat len) by apply length_mem_read.
  assert (Hn : read_len len 0 bs = len) by (unfold read_len; lia). cbn [snd] in E4, Hmem4. rewrite Hn in E4, Hmem4.
  eexists fd, fd', m1, m2, m3, _. split_and!; [|exact E1|exact E2|exact E3|exact E4|by rewrite <-Hr3|].
  - intros ->. pose proof (fo_fd _ _ _ _ _ _ _ _ Hop2). congruence.
  - intros u Hu. rewrite <-Hm1, <-Hm3. transitivity (user_bytes frame x4 u); [done|]. rewrite Hmem4 by done.
    f_equal. unfold slice. rewrite drop_0. apply take_ge. lia.
Qed.
End Theorems.

(** ** Witnesses *)
Module DemoFile.
Definition name : string := "note"%string.
Definition text : list byte := FsThms.Sample.text.
Definition D0 : FsSpec.disk := [(name, text)].
Definition object : OSInode := mkOSInode true true 1 (inode_at FsThms.Sample.efs0 1).
Definition task (pt : PageTable) : TaskControlBlock :=
  mkTCB 0x80400 0 after_timer Running (mkMemorySet pt []) None [] 0 [Some FStdin; Some FStdout; Some FStdout; Some (FOSInode 0)] None 16.
Definition machine (pt : PageTable) (x : Mem) (s : Store MemDisk) : Machine (Store MemDisk) :=
  mkMachine (mkKernel {[1 := task pt]} [] (Some 1) [] (mkPidAllocator 2 []) (mkPhys x (falloc DemoPlatform.boot)) Demo.ms0 FileAttr.new)
    [object] FsThms.Sample.efs0 s [].

(** A disk with one file. *)
Lemma one_file : ∃ s : Store MemDisk, disk_rep FsThms.Sample.efs0 1040 s D0.
Proof.
  destruct FsThms.Sample.empty0 as (s0 & HD). pose proof FsThms.Sample.geometry0 as G.
  destruct (create_refines _ 1040 G s0 [] name HD) as (s1 & _ & HD1); [done|by apply (bool_decide_unpack _); vm_compute|by apply (bool_decide_unpack _); vm_compute|].
  destruct (write_refines _ 1040 G s1 [(name, [])] 0 (name, []) 0 text HD1) as (s2 & _ & HD2); try done.
  by exists s2.
Qed.

(** A running task with that file open, and its name in its memory. *)
Lemma holds : ∃ (m : Machine (Store MemDisk)) t,
  rootfs m = FsThms.Sample.efs0 ∧ task_of m = Ret (1, t) ∧ disk_rep (rootfs m) 1040 (disk m) D0 ∧
  path_is (PF := DemoPlatform.demo) demo_W demo_frame m (get_user_token t) 0x5ffe name ∧ fd_open m 1 t 3 0 object 0 1 ∧ fd_lookup 9 t = None ∧
  fd_lookup 0 t = Some FStdin ∧ fd_lookup 1 t = Some FStdout.
Proof.
  destruct demo_space as (pt & ph & _ & Hus). destruct one_file as (s & HD).
  assert (HW : in_W demo_W 0x5ffe (Z.of_nat (length (name_of name ++ [x00])))).
  { intros x Hx. simpl in Hx. left. unfold PAGE_SIZE. lia. }
  destruct (write_user_bytes_law (PF := DemoPlatform.demo) _ demo_W demo_frame _ 0x5ffe _ Hus ltac:(lia) HW) as (x & _ & Hus' & Hx).
  exists (machine pt x s), (task pt). split_and!; [done|done|done| |by split|done|done|done].
  split; [exact Hus'|]. split; [lia|]. split; [exact HW|]. split; [by repeat constructor|].
  rewrite <-(mem_read_write_same (λ v, mem ph (upa demo_frame v)) 0x5ffe (name_of name ++ [x00])).
  apply mem_read_ext. intros y Hy. apply Hx, HW. exact Hy.
Qed.
End DemoFile.
Import DemoFile DemoElf.
Abbreviation pages a n := (in_W demo_W a n).

Lemma pages_low a n : 0x5000 ≤ a → 0 ≤ n → a + n ≤ 0x7000 → pages a n.
Proof. intros H1 H2 H3 x Hx. left. unfold PAGE_SIZE. lia. Qed.


(** The task reads a file and its keyboard; descriptor 1 cannot be read. *)
Lemma sys_read_spec_witness :
  ∃ (m : Machine (Store MemDisk)) t,
    sys_read (PF := DemoPlatform.demo) 0 9 0x5fff 8 m = Ret (Some (-1), m) ∧
    sys_read (PF := DemoPlatform.demo) 0 1 0x5fff 8 m = Ret (Some (-1), m) ∧
    sys_read (PF := DemoPlatform.demo) 0 0 0x5fff 8 m = Panic ∧
    ∃ s' x', sys_read (PF := DemoPlatform.demo) 0 3 0x5fff 8 m =
        Ret (Some 4, with_machine_mem x' (with_disk s' (with_object 0 (seek 4 object) m))) ∧
      uspace (H := DemoPlatform.demo) (get_user_token t) demo_W demo_frame x' ∧ disk_rep (rootfs m) 1040 s' D0 ∧
      ∀ u, demo_W (u / PAGE_SIZE) → user_bytes demo_frame x' u =
        mem_write (user_bytes demo_frame (machine_mem m)) 0x5fff [x65; x6c; x6c; x6f] u.
Proof.
  destruct holds as (m & t & Hr & Ht & HD & Hpath & Hop & Hno & Hin & Hout). exists m, t.
  destruct (sys_read_spec (PF := DemoPlatform.demo) 1040 demo_W demo_frame 0 m 1 t 9 0x5fff 8 Ht) as (He & _).
  destruct (sys_read_spec (PF := DemoPlatform.demo) 1040 demo_W demo_frame 0 m 1 t 1 0x5fff 8 Ht) as (_ & He1 & _).
  destruct (sys_read_spec (PF := DemoPlatform.demo) 1040 demo_W demo_frame 0 m 1 t 0 0x5fff 8 Ht) as (_ & _ & _ & Hs).
  destruct (sys_read_spec (PF := DemoPlatform.demo) 1040 demo_W demo_frame 0 m 1 t 3 0x5fff 8 Ht) as (_ & _ & _ & Hok).
  assert (HW : pages 0x5fff 8) by (apply pages_low; lia). destruct Hpath as (Hus & _).
  split; [by apply He|]. split; [by apply He1|]. split; [by apply (Hs Hus)|].
  apply (Hok Hus ltac:(lia) ltac:(lia) HW) with (D := D0) (h := 0) (f := object) (i := 0%nat) (off := 1%nat) (e := (name, text)); try done.
  rewrite Hr. apply FsThms.Sample.geometry0.
Defined.


Lemma written_file_is_read_back_witness :
  ∃ (m : Machine (Store MemDisk)) bs fd fd' m1 m2 m3 m4, fd' ≠ fd ∧
    sys_open (PF := DemoPlatform.demo) 10 0x5ffe (Z.lor O_CREATE O_WRONLY) m = Ret (fd, m1) ∧
    sys_write (PF := DemoPlatform.demo) fd 0x5100 600 m1 = Ret (600, m2) ∧
    sys_open (PF := DemoPlatform.demo) 10 0x5ffe 0 m2 = Ret (fd', m3) ∧
    sys_read (PF := DemoPlatform.demo) 0 fd' 0x6100 600 m3 = Ret (Some 600, m4) ∧
    disk_rep (rootfs m) 1040 (disk m4) [(name, bs)] ∧
    ∀ u, demo_W (u / PAGE_SIZE) → user_bytes demo_frame (machine_mem m4) u = mem_write (user_bytes demo_frame (machine_mem m)) 0x6100 bs u.
Proof.
  destruct holds as (m & t & Hr & Ht & HD & Hpath & _). exists m, (mem_read (user_bytes demo_frame (machine_mem m)) 0x5100 600).
  apply (written_file_is_read_back (PF := DemoPlatform.demo) 1040 demo_W demo_frame m D0 1 t 10 0 0x5ffe name 0 [(name, [])] 0x5100 0x6100 600);
    try done; try (apply pages_low; lia).
  - rewrite Hr. apply FsThms.Sample.geometry0.
  - vm_compute. lia.
  - by apply (bool_decide_unpack _); vm_compute.
  - rewrite Hr. by apply (bool_decide_unpack _); vm_compute.
  - rewrite Hr. by split; vm_compute.
Defined.
