(* ===== verification/UserLib.v ===== *)
(** * The user library ([user/src/lib.rs])

    The parts of the library that do more than trap: tool calls, the view of
    the context area that needs no system call, and the waiting loops.  A user
    program reads and writes its own memory through the page tables of the
    running task. *)

From S2P Require Import Prelude Address PhysMem FrameAlloc PageTable MemorySet Proto FileAttr PcbExt UserCopy ContextPath ContextArea Task Blocking EventBus Tools AgentCalls.

(** Reading back what [postcard::to_allocvec] wrote. *)
Class PostcardRead (T : Type) : Type := from_allocvec : list byte → option T.

(** ** Data *)
Definition AGENT_CONTEXT_BASE : Z := 0x80000000.

Record ToolCallOutcome : Type := mkOutcome { status_code : Z; oc_offset : Z; oc_len : Z }.
Definition is_ok (o : ToolCallOutcome) : bool := status_code o =? 0.

Record AgentInfo : Type := mkAgentInfo { ai_type : Z; ai_area_size : Z; ai_node_count : Z; ai_loop_state : Z }.
Definition AgentInfo_of_bytes (bs : list byte) : AgentInfo :=
  let field i := from_le_bytes (slice (4 * i) 4 bs) in mkAgentInfo (field 0%nat) (field 1%nat) (field 2%nat) (field 3%nat).

(** A deserialised [PathNodeMeta]: offset, length, sequence number, time. *)
Abbreviation MetaTuple := (Z * Z * Z * Z)%type.

(** [read_path_node_zero_copy]: [c] is the memory of the process. *)
Definition read_path_node_zero_copy (meta : MetaTuple) (c : Mem) : option (list byte * list byte) :=
  let '(offset, len, _, _) := meta in
  if len <? NODE_HEADER_SIZE then None else
  let base := usize (AGENT_CONTEXT_BASE + PATH_BUFFER_OFF + offset) in
  let header := mem_read c base (Z.to_nat NODE_HEADER_SIZE) in
  let req_len := from_le_bytes (slice 16 4 header) in
  let resp_len := from_le_bytes (slice 20 4 header) in
  let req := mem_read c (usize (base + NODE_HEADER_SIZE)) (Z.to_nat req_len) in
  let resp := mem_read c (usize (base + NODE_HEADER_SIZE + req_len)) (Z.to_nat resp_len) in
  Some (req, resp).

Section Lib.
Context {PF : Platform}.

(** Loads and stores of the running program. *)
Definition load (va : Z) (n : Z) (k : Kernel) : outcome (list byte) :=
  '(_, t) ← cur_task k; copy_from_user (get_user_token t) va n k.
Definition store (va : Z) (data : list byte) (k : Kernel) : outcome Kernel :=
  '(_, t) ← cur_task k; copy_to_user (get_user_token t) va data k.
Definition load_u32 (va : Z) (k : Kernel) : outcome Z := bs ← load va 4 k; Ret (from_le_bytes bs).
Definition store_u32 (va v : Z) (k : Kernel) : outcome Kernel := store va (to_le_bytes 4 v) k.

(** [ToolCallOutcome::result_bytes]. *)
Definition result_bytes (o : ToolCallOutcome) (k : Kernel) : outcome (list byte) :=
  if oc_len o =? 0 then Ret [] else load (usize (AGENT_CONTEXT_BASE + oc_offset o)) (oc_len o) k.

Section Calls.
Context `{!PostcardVec SystemStatusInfo, !PostcardVec (QueryResult ProcessInfo), !PostcardVec ProcessInfo,
  !PostcardVec (QueryResult FileInfo), !PostcardVec (QueryResult ToolDescriptor), !PostcardVec (list MetaTuple), !PostcardRead (list MetaTuple)}.
Context {E : Type} (full : E) `{!PostcardCodec E ToolRequest}.

(** The stack slots of [tool_call]: the request buffer and the two results. *)
Record Slots : Type := mkSlots { buf_va : Z; offset_va : Z; len_va : Z }.

(** What [tool_call] leaves on the stack before it traps. *)
Definition prepare (sl : Slots) (out : list byte) (k : Kernel) : outcome Kernel :=
  k ← store (buf_va sl) out k; k ← store_u32 (offset_va sl) 0 k; store_u32 (len_va sl) 0 k.

Definition tool_call (sl : Slots) (now : Z) (req : ToolRequest) (k : Kernel) : outcome ((Z + ToolCallOutcome) * Kernel) :=
  r ← encode_request full req (replicate 1024 x00);
  match r with
  | inl _ => Ret (inl (-100), k)
  | inr (n, out) =>
      k ← prepare sl out k;
      '(r, k) ← sys_tool_call (E := E) now (buf_va sl) (Z.of_nat n) (offset_va sl) (len_va sl) k;
      if r <? 0 then Ret (inl r, k) else
      offset ← load_u32 (offset_va sl) k; len ← load_u32 (len_va sl) k;
      Ret (inr (mkOutcome r offset len), k)
  end.

(** [context_query_meta]. *)
Definition context_query_meta (offset_va len_va : Z) (k : Kernel) : outcome ((Z + list MetaTuple) * Kernel) :=
  k ← store_u32 offset_va 0 k; k ← store_u32 len_va 0 k;
  '(r, k) ← sys_context_query offset_va len_va k;
  if r <? 0 then Ret (inl r, k) else
  offset ← load_u32 offset_va k; len ← load_u32 len_va k;
  bytes ← load (usize (AGENT_CONTEXT_BASE + offset)) len k;
  Ret (match from_allocvec bytes with Some l => inr l | None => inl (-100) end, k).
End Calls.

(** [agent_info]. *)
Definition agent_info (info_va : Z) (k : Kernel) : outcome ((Z + AgentInfo) * Kernel) :=
  k ← store info_va (replicate 16 x00) k;
  '(r, k) ← sys_agent_info info_va 16 k;
  if r <? 0 then Ret (inl r, k) else bs ← load info_va 16 k; Ret (inr (AgentInfo_of_bytes bs), k).
End Lib.
