(* ===== verification/UserLibThms.v ===== *)
(** * Theorems on the user library

    Kernel and user library agree: what one writes the other reads. *)

From stdpp Require Import gmap.
From S2P Require Import Prelude Address PhysMem FrameAlloc PageTable MemorySet Proto FileAttr PcbExt UserCopy ContextPath ContextArea Task Blocking EventBus KernelInv TaskLife AgentSched KernelThms Tools AgentCalls CallThms UserLib.

(** ** The memory of the running process *)
Section Process.
Context {PF : Platform} {PFL : PlatformLaws} (token : Z) (W : Z → Prop) (frame : Z → Z).

Definition view (k : Kernel) : Mem := λ va, mem (phys k) (upa frame va).

(** [p] runs with the address space of [token]. *)
Record runs (k : Kernel) (p : Z) : Prop := {
  ru_proc : processor k = Some p;
  ru_token : get_user_token <$> tcbs k !! p = Some token;
  ru_space : uspace token W frame (mem (phys k));
}.

(** A change that leaves the memory and the address spaces alone. *)
Definition same_user (k k' : Kernel) : Prop :=
  processor k' = processor k ∧ phys k' = phys k ∧ ∀ q, get_user_token <$> tcbs k' !! q = get_user_token <$> tcbs k !! q.

#[export] Instance same_user_preorder : PreOrder same_user.
Proof. split; [done|]. intros k1 k2 k3 (A & B & C) (A' & B' & C'). split_and!; [congruence..|]. intros q. by rewrite C'. Qed.

Lemma runs_same k k' p : same_user k k' → runs k p → runs k' p ∧ view k' = view k.
Proof. intros (A & B & C) [D E F]. split; [split; [congruence|by rewrite C|by rewrite B]|]. unfold view. by rewrite B. Qed.

Lemma runs_cur k p : runs k p → ∃ t, tcbs k !! p = Some t ∧ cur_task k = Ret (p, t) ∧ get_user_token t = token.
Proof.
  intros [A B _]. destruct (tcbs k !! p) as [t|] eqn:Ht; [|done]. injection B as B. exists t.
  split_and!; [done|by apply cur_task_Ret|done].
Qed.

Lemma cur_token_ok k p : runs k p → cur_token k = Ret token.
Proof. intros Hr. destruct (runs_cur k p Hr) as (t & _ & Hc & <-). unfold cur_token. by rewrite Hc. Qed.

Lemma same_user_upd f p k : (∀ t, get_user_token (f t) = get_user_token t) → same_user k (upd_task p f k).
Proof.
  intros Hf. split_and!; [done..|]. intros q. unfold upd_task. simpl. destruct (decide (q = p)) as [->|Hq].
  - rewrite lookup_alter_eq. destruct (tcbs k !! p); [|done]. cbn. by rewrite Hf.
  - by rewrite lookup_alter_ne.
Qed.

Lemma set_loop_token s t : get_user_token (set_loop s t) = get_user_token t.
Proof. unfold set_loop. by destruct (agent_ext t). Qed.

(** ** Stores and loads *)

(** [k'] is [k] with [data] at [va]. *)
Definition wrote (k : Kernel) (va : Z) (data : list byte) (k' : Kernel) : Prop :=
  (∃ m, k' = with_mem m k) ∧ uspace token W frame (mem (phys k')) ∧
  ∀ u, W (u / PAGE_SIZE) → view k' u = mem_write (view k) va data u.

Lemma copy_to_user_ok k va data :
  uspace token W frame (mem (phys k)) → 0 ≤ va → in_W W va (Z.of_nat (length data)) →
  ∃ k', copy_to_user token va data k = Ret k' ∧ wrote k va data k'.
Proof.
  intros Hus Hva HW. destruct (write_user_bytes_law token W frame (mem (phys k)) va data Hus Hva HW) as (m & E & Hus' & Hm).
  exists (with_mem m k). unfold copy_to_user, uwrite. cbn [mem_user_mem]. rewrite E. split; [done|]. split; [by exists m|]. by split.
Qed.

Lemma copy_from_user_ok k va n :
  uspace token W frame (mem (phys k)) → 0 ≤ va → 0 ≤ n → in_W W va n →
  copy_from_user token va n k = Ret (mem_read (view k) va (Z.to_nat n)).
Proof.
  intros Hus Hva Hn HW. unfold copy_from_user, uread. cbn [mem_user_mem].
  rewrite (read_user_bytes_ok token W frame); rewrite ?length_replicate; [done|done|done|]. by rewrite Z2Nat.id.
Qed.

Lemma runs_wrote k p va data k' : runs k p → wrote k va data k' → runs k' p.
Proof. intros [A B C] ((m & ->) & D & _). by split. Qed.

Lemma wrote_task k p va data k' : wrote k va data k' → tcbs k' !! p = tcbs k !! p.
Proof. by intros ((m & ->) & _). Qed.

Lemma store_ok k p va data :
  runs k p → 0 ≤ va → in_W W va (Z.of_nat (length data)) → ∃ k', store va data k = Ret k' ∧ wrote k va data k'.
Proof.
  intros Hr Hva HW. destruct (runs_cur k p Hr) as (t & _ & Hc & Ht). unfold store. rewrite Hc. cbn [mbind outcome_bind].
  rewrite Ht. apply copy_to_user_ok; [apply Hr|done|done].
Qed.

Lemma load_ok k p va n :
  runs k p → 0 ≤ va → 0 ≤ n → in_W W va n → load va n k = Ret (mem_read (view k) va (Z.to_nat n)).
Proof.
  intros Hr Hva Hn HW. destruct (runs_cur k p Hr) as (t & _ & Hc & Ht). unfold load. rewrite Hc. cbn [mbind outcome_bind].
  rewrite Ht. apply copy_from_user_ok; [apply Hr|done..].
Qed.

Lemma wrote_read k va data k' : wrote k va data k' → in_W W va (Z.of_nat (length data)) → mem_read (view k') va (length data) = data.
Proof.
  intros (_ & _ & Hw) HW. rewrite <-(mem_read_write_same (view k) va data) at 2. apply mem_read_ext. intros x Hx. by apply Hw, HW.
Qed.

Lemma wrote_other k va data k' a n :
  wrote k va data k' → in_W W a (Z.of_nat n) → (a + Z.of_nat n ≤ va ∨ va + Z.of_nat (length data) ≤ a) →
  mem_read (view k') a n = mem_read (view k) a n.
Proof.
  intros (_ & _ & Hw) HW Hd. apply mem_read_ext. intros x Hx. rewrite Hw by (by apply HW). apply mem_write_out. lia.
Qed.

(** ** A tool call leaves the caller's address space alone *)
Lemma wake_same_user q k b k' : wake_agent_by_pid q k = Ret (b, k') → same_user k k'.
Proof.
  unfold wake_agent_by_pid. destruct (list_find _ _) as [[i e]|]; [|by intros [= <- <-]].
  intros H. apply bind_Ret in H as (k1 & Ew & H). injection H as <- <-. unfold wake_one in Ew.
  apply bind_Ret in Ew as (t & _ & Ew). injection Ew as <-.
  transitivity (with_blocked (vec_swap_remove i (blocked k)) k); [by split_and!|].
  etransitivity; [by apply (same_user_upd (set_status Ready))|by split_and!].
Qed.

Lemma deliver_same_user q payload k b k' : deliver_message q payload k = Ret (b, k') → same_user k k'.
Proof.
  unfold deliver_message. intros H. apply bind_Ret in H as (ts & _ & H). apply bind_Ret in H as ([d k1] & Ed & H).
  assert (Hk1 : same_user k k1).
  { destruct (bool_decide _); [|by injection Ed as _ <-]. apply bind_Ret in Ed as (t & _ & Ed).
    destruct (agent_ext t); [|by injection Ed as _ <-]. apply bind_Ret in Ed as (ext & _ & Ed). injection Ed as _ <-.
    by apply same_user_upd. }
  destruct d; [|by injection H as _ <-]. apply bind_Ret in H as ([b' k2] & Ew & H). injection H as _ <-.
  etransitivity; [exact Hk1|by eapply wake_same_user].
Qed.

Context `{!PostcardVec SystemStatusInfo, !PostcardVec (QueryResult ProcessInfo), !PostcardVec ProcessInfo,
  !PostcardVec (QueryResult FileInfo), !PostcardVec (QueryResult ToolDescriptor), !PostcardVec (list MetaTuple), !PostcardRead (list MetaTuple)}.

Lemma dispatch_same_user now req k r k' : dispatch now req k = Ret (r, k') → same_user k k'.
Proof.
  unfold dispatch. destruct (tool req); intros H; try (apply bind_Ret in H as (x & _ & H); by injection H as _ <-).
  - unfold send_message in H. destruct (params req); try (by injection H as _ <-).
    apply bind_Ret in H as ([b k1] & Ed & H). injection H as _ <-. by eapply deliver_same_user.
  - by injection H as _ <-.
Qed.

(** ** The stack slots *)
Record slots_ok (sl : Slots) : Prop := {
  sl_buf : 0 < buf_va sl ∧ in_W W (buf_va sl) 1024;
  sl_off : 0 < offset_va sl ∧ in_W W (offset_va sl) 4;
  sl_len : 0 < len_va sl ∧ in_W W (len_va sl) 4;
  sl_disjoint : (offset_va sl + 4 ≤ buf_va sl ∨ buf_va sl + 1024 ≤ offset_va sl) ∧
    (len_va sl + 4 ≤ buf_va sl ∨ buf_va sl + 1024 ≤ len_va sl) ∧
    (len_va sl + 4 ≤ offset_va sl ∨ offset_va sl + 4 ≤ len_va sl);
  sl_area : in_W W AGENT_CONTEXT_BASE CONTEXT_AREA_DEFAULT_SIZE;
  sl_outside : (offset_va sl + 4 ≤ AGENT_CONTEXT_BASE ∨ AGENT_CONTEXT_BASE + CONTEXT_AREA_DEFAULT_SIZE ≤ offset_va sl) ∧
    (len_va sl + 4 ≤ AGENT_CONTEXT_BASE ∨ AGENT_CONTEXT_BASE + CONTEXT_AREA_DEFAULT_SIZE ≤ len_va sl);
}.

Lemma in_W_sub a n b k : in_W W a n → a ≤ b → b + k ≤ a + n → in_W W b k.
Proof. intros H H1 H2 x Hx. apply H. lia. Qed.

Lemma prepare_ok k p sl out :
  runs k p → slots_ok sl → length out = 1024%nat →
  ∃ k1 m, prepare sl out k = Ret k1 ∧ k1 = with_mem m k ∧ runs k1 p ∧ mem_read (view k1) (buf_va sl) 1024 = out.
Proof.
  intros Hr Hs Hl. destruct (sl_buf _ Hs) as [Hb HbW], (sl_off _ Hs) as [Ho HoW], (sl_len _ Hs) as [Hn HnW].
  destruct (sl_disjoint _ Hs) as (D1 & D2 & _). unfold prepare, store_u32.
  destruct (store_ok k p (buf_va sl) out Hr) as (ka & -> & Hwa); [lia|by rewrite Hl|]. pose proof (runs_wrote _ _ _ _ _ Hr Hwa) as Hra.
  cbn [mbind outcome_bind]. destruct (store_ok ka p (offset_va sl) (to_le_bytes 4 0) Hra) as (kb & -> & Hwb); [lia|done|].
  pose proof (runs_wrote _ _ _ _ _ Hra Hwb) as Hrb. cbn [mbind outcome_bind].
  destruct (store_ok kb p (len_va sl) (to_le_bytes 4 0) Hrb) as (kc & -> & Hwc); [lia|done|].
  pose proof (runs_wrote _ _ _ _ _ Hrb Hwc) as Hrc.
  assert (Hm : ∃ m, kc = with_mem m k).
  { destruct Hwa as ((ma & ->) & _), Hwb as ((mb & ->) & _), Hwc as ((mc & ->) & _). by exists mc. }
  destruct Hm as [m Hm]. exists kc, m. split_and!; [done|done|done|].
  rewrite (wrote_other _ _ _ _ _ _ Hwc), (wrote_other _ _ _ _ _ _ Hwb); rewrite ?length_to_le_bytes; try done; try lia.
  rewrite <-Hl. apply (wrote_read k (buf_va sl) out ka); [done|by rewrite Hl].
Qed.

(** The bytes a tool call answers with. *)
Definition answer (dr : DispatchResult) : list byte := if bool_decide (dr_status dr = TSOk) then dr_body dr else [].

Lemma store_result_ok k p dr :
  runs k p → in_W W AGENT_CONTEXT_BASE CONTEXT_AREA_DEFAULT_SIZE → Z.of_nat (length (answer dr)) ≤ TOOL_RESULT_LEN →
  ∃ k', store_result AGENT_CONTEXT_BASE dr k =
      Ret (Some (if bool_decide (answer dr = []) then (0, 0) else (TOOL_RESULT_OFF, Z.of_nat (length (answer dr)))), k') ∧
    runs k' p ∧ mem_read (view k') (AGENT_CONTEXT_BASE + TOOL_RESULT_OFF) (length (answer dr)) = answer dr.
Proof.
  intros Hr Ha Hl. unfold store_result, answer in *. destruct (bool_decide (dr_status dr = TSOk)); cbn [andb] in *; [|by exists k].
  case_bool_decide as Hb; cbn [negb]; [exists k; by rewrite Hb|].
  rewrite (proj2 (Z.ltb_ge _ _)), (cur_token_ok k p Hr) by lia. cbn [mbind outcome_bind].
  unfold TOOL_RESULT_LEN, CONTEXT_AREA_DEFAULT_SIZE, AGENT_CONTEXT_BASE, TOOL_RESULT_OFF in *.
  rewrite (wrap_small 64), (wrap_small 32) by lia.
  assert (HW : in_W W (0x80000000 + 0x100) (Z.of_nat (length (dr_body dr)))) by (apply (in_W_sub _ _ _ _ Ha); lia).
  destruct (copy_to_user_ok k (0x80000000 + 0x100) (dr_body dr)) as (k' & -> & Hw); [apply Hr|lia|done|].
  exists k'. split; [done|]. split; [by eapply runs_wrote|]. by eapply wrote_read.
Qed.

(** Writing one of the two results. *)
Lemma copy_slot_ok k p va v :
  runs k p → 0 < va → in_W W va 4 → ∃ k', copy_to_user_opt token va (to_le_bytes 4 v) k = Ret k' ∧ wrote k va (to_le_bytes 4 v) k'.
Proof.
  intros Hr Hva HW. unfold copy_to_user_opt. rewrite (proj2 (Z.eqb_neq _ _)) by lia.
  apply copy_to_user_ok; [apply Hr|lia|done].
Qed.

Lemma load_slot_ok k p va v :
  runs k p → 0 < va → in_W W va 4 → 0 ≤ v < 2 ^ 32 → mem_read (view k) va 4 = to_le_bytes 4 v → load_u32 va k = Ret v.
Proof.
  intros Hr Hva HW Hv Hm. unfold load_u32. rewrite (load_ok k p) by (done || lia). cbn [mbind outcome_bind].
  change (Z.to_nat 4) with 4%nat. rewrite Hm, from_to_le_bytes. by rewrite Z.mod_small.
Qed.

Lemma store_result_big k base dr :
  TOOL_RESULT_LEN < Z.of_nat (length (answer dr)) → store_result base dr k = Ret (None, k).
Proof.
  unfold store_result, answer. intros Hl. destruct (bool_decide (dr_status dr = TSOk)); [|by unfold TOOL_RESULT_LEN in Hl].
  cbn [andb]. rewrite bool_decide_false by (intros Hnil; rewrite Hnil in Hl; unfold TOOL_RESULT_LEN in Hl; simpl in Hl; lia).
  by rewrite (proj2 (Z.ltb_lt _ _)).
Qed.

(** The kernel's side, from the decoded request on. *)
Definition answered (sl : Slots) (p : Z) (dr : DispatchResult) (k : Kernel) : Prop :=
  runs k p ∧ load_u32 (offset_va sl) k = Ret (if bool_decide (answer dr = []) then 0 else TOOL_RESULT_OFF) ∧
  load_u32 (len_va sl) k = Ret (Z.of_nat (length (answer dr))) ∧
  mem_read (view k) (AGENT_CONTEXT_BASE + TOOL_RESULT_OFF) (length (answer dr)) = answer dr.

Lemma results_ok k p sl dr :
  runs k p → slots_ok sl → Z.of_nat (length (answer dr)) ≤ TOOL_RESULT_LEN →
  ∃ k1 off k2 k3, store_result AGENT_CONTEXT_BASE dr k = Ret (Some (off, Z.of_nat (length (answer dr))), k1) ∧ runs k1 p ∧
    copy_to_user_opt token (offset_va sl) (to_le_bytes 4 off) k1 = Ret k2 ∧ runs k2 p ∧
    copy_to_user_opt token (len_va sl) (to_le_bytes 4 (Z.of_nat (length (answer dr)))) k2 = Ret k3 ∧ answered sl p dr k3.
Proof.
  intros Hr Hs Hl. destruct (store_result_ok k p dr Hr (sl_area _ Hs) Hl) as (k1 & E1 & Hr1 & Hm1).
  set (off := if bool_decide (answer dr = []) then 0 else TOOL_RESULT_OFF).
  assert (Hp : (if bool_decide (answer dr = []) then (0, 0) else (TOOL_RESULT_OFF, Z.of_nat (length (answer dr)))) = (off, Z.of_nat (length (answer dr)))).
  { unfold off. case_bool_decide as Hn; [by rewrite Hn|done]. }
  rewrite Hp in E1. destruct (sl_off _ Hs) as [Ho HoW], (sl_len _ Hs) as [Hn HnW], (sl_disjoint _ Hs) as (_ & _ & D3), (sl_outside _ Hs) as [O1 O2].
  destruct (copy_slot_ok k1 p (offset_va sl) off Hr1 Ho HoW) as (k2 & E2 & Hw2). pose proof (runs_wrote _ _ _ _ _ Hr1 Hw2) as Hr2.
  destruct (copy_slot_ok k2 p (len_va sl) (Z.of_nat (length (answer dr))) Hr2 Hn HnW) as (k3 & E3 & Hw3).
  pose proof (runs_wrote _ _ _ _ _ Hr2 Hw3) as Hr3. exists k1, off, k2, k3. split_and!; try done.
  assert (Hall : TOOL_RESULT_OFF + TOOL_RESULT_LEN ≤ CONTEXT_AREA_DEFAULT_SIZE ∧ TOOL_RESULT_LEN < 2 ^ 32 ∧ 0 < TOOL_RESULT_OFF < 2 ^ 32) by done.
  assert (HWa : in_W W (AGENT_CONTEXT_BASE + TOOL_RESULT_OFF) (Z.of_nat (length (answer dr)))).
  { apply (in_W_sub _ _ _ _ (sl_area _ Hs)); lia. }
  split_and!; [done| | |].
  - apply (load_slot_ok k3 p); [done|done|done|unfold off; case_bool_decide; lia|].
    rewrite (wrote_other _ _ _ _ _ _ Hw3) by (done || rewrite length_to_le_bytes; lia).
    by apply (wrote_read k1 (offset_va sl) (to_le_bytes 4 off) k2).
  - apply (load_slot_ok k3 p); [done|done|done|lia|]. by apply (wrote_read k2 (len_va sl) (to_le_bytes 4 _) k3).
  - rewrite (wrote_other _ _ _ _ _ _ Hw3), (wrote_other _ _ _ _ _ _ Hw2); rewrite ?length_to_le_bytes; try done; lia.
Qed.

Context {E : Type} (full : E) `{PostcardLaws E ToolRequest}.

Lemma answered_same sl p dr k k' : slots_ok sl → same_user k k' → answered sl p dr k → answered sl p dr k'.
Proof.
  intros Hs Hsame (Hr & Ho & Hn & Hm). destruct (runs_same k k' p Hsame Hr) as [Hr' Hv].
  destruct (sl_off _ Hs) as [Ho1 Ho2], (sl_len _ Hs) as [Hn1 Hn2].
  assert (Hload : ∀ va, 0 < va → in_W W va 4 → load_u32 va k' = load_u32 va k).
  { intros va H1 H2. unfold load_u32. by rewrite (load_ok k' p), (load_ok k p), Hv by (done || lia). }
  split_and!; [done|by rewrite Hload|by rewrite Hload|by rewrite Hv].
Qed.

Lemma sys_tool_call_ok now sl n k p t ext req r k2 :
  runs k p → slots_ok sl → tcbs k !! p = Some t → agent_ext t = Some ext → context_area_base ext = AGENT_CONTEXT_BASE →
  0 < n ≤ 1024 → decode_request (E := E) (mem_read (view k) (buf_va sl) (Z.to_nat n)) = inr req →
  dispatch now req (upd_task p (set_loop LCalling) k) = Ret (r, k2) →
  match r with
  | inl e => sys_tool_call (E := E) now (buf_va sl) n (offset_va sl) (len_va sl) k = Ret (into_isize e, k2)
  | inr dr =>
      if TOOL_RESULT_LEN <? Z.of_nat (length (answer dr))
      then sys_tool_call (E := E) now (buf_va sl) n (offset_va sl) (len_va sl) k = Ret (-5, k2)
      else ∃ k', sys_tool_call (E := E) now (buf_va sl) n (offset_va sl) (len_va sl) k =
          Ret (tool_status_code (dr_status dr), k') ∧ answered sl p dr k'
  end.
Proof.
  intros Hr Hs Ht He Hbase Hn Hdec Hdisp. destruct (sl_buf _ Hs) as [Hb HbW].
  set (call := sys_tool_call _ _ _ _ _ _). assert (Hcall : call = sys_tool_call (E := E) now (buf_va sl) n (offset_va sl) (len_va sl) k) by done.
  unfold sys_tool_call in Hcall. rewrite (proj2 (Z.eqb_neq (buf_va sl) 0)), (proj2 (Z.eqb_neq n 0)), (proj2 (Z.ltb_ge (64 * 1024) n)) in Hcall by lia.
  cbn [orb] in Hcall. destruct (runs_cur k p Hr) as (t' & Ht' & Hc & Htok). assert (t' = t) as -> by congruence.
  rewrite Hc in Hcall. cbn [mbind outcome_bind] in Hcall. rewrite He, Htok, Hbase in Hcall.
  assert (Hs1 : same_user k (upd_task p (set_loop LCalling) k)) by apply same_user_upd, set_loop_token.
  destruct (runs_same _ _ p Hs1 Hr) as [Hr1 Hv1].
  assert (Hreq : copy_from_user token (buf_va sl) n (upd_task p (set_loop LCalling) k) = Ret (mem_read (view k) (buf_va sl) (Z.to_nat n))).
  { rewrite <-Hv1. apply copy_from_user_ok; [apply (ru_space _ _ Hr1)|lia|lia|apply (in_W_sub _ _ _ _ HbW); lia]. }
  rewrite Hreq in Hcall.
  cbn [mbind outcome_bind] in Hcall. rewrite Hdec, Hdisp in Hcall. cbn [mbind outcome_bind] in Hcall.
  destruct r as [e|dr]; [exact Hcall|]. destruct (runs_same _ _ p (dispatch_same_user _ _ _ _ _ Hdisp) Hr1) as [Hr2 _].
  destruct (Z.ltb_spec TOOL_RESULT_LEN (Z.of_nat (length (answer dr)))) as [Hbig|Hfit].
  { by rewrite store_result_big in Hcall by done. }
  destruct (results_ok k2 p sl dr Hr2 Hs Hfit) as (k3 & off & k4 & k5 & E3 & Hr3 & E4 & Hr4 & E5 & Hans).
  rewrite E3 in Hcall. cbn [mbind outcome_bind] in Hcall.
  rewrite (cur_token_ok k3 p Hr3) in Hcall. cbn [mbind outcome_bind result_offset result_len] in Hcall.
  rewrite E4 in Hcall. cbn [mbind outcome_bind] in Hcall. rewrite (cur_token_ok k4 p Hr4) in Hcall. cbn [mbind outcome_bind] in Hcall.
  rewrite E5 in Hcall. cbn [mbind outcome_bind] in Hcall.
  unfold current_task in Hcall. rewrite (ru_proc _ _ (proj1 Hans)) in Hcall. cbn [unwrap mbind outcome_bind] in Hcall.
  eexists. split; [exact Hcall|]. eapply answered_same; [done| |exact Hans]. apply same_user_upd, set_loop_token.
Qed.

(** ** The history without a system call per node *)
Definition meta_tuple (n : PathNodeMeta) : MetaTuple := (offset_in_buffer n, node_len n, node_seq n, write_time n).

(** A piece of the node header or body. *)
Lemma node_piece c a n off len :
  bytes_at c a (node_bytes n) → (off + len ≤ length (node_bytes n))%nat →
  mem_read c (a + Z.of_nat off) len = slice off len (node_bytes n).
Proof.
  intros Hb Hl. pose proof (bytes_at_slice c a _ off len Hb Hl) as Hs. apply bytes_at_mem_read in Hs.
  by rewrite length_slice in Hs by done.
Qed.

Lemma zero_copy_node c off n :
  0 ≤ off → off + node_size n ≤ PATH_BUFFER_LEN → bytes_at c (AGENT_CONTEXT_BASE + PATH_BUFFER_OFF + off) (node_bytes n) →
  read_path_node_zero_copy (off, node_size n, n_seq n, n_ts n) c = Some (n_req n, n_resp n).
Proof.
  intros Ho Hsz Hb. pose proof (node_size_eq n) as Hn. unfold read_path_node_zero_copy.
  unfold NODE_HEADER_SIZE, PATH_BUFFER_LEN in *. rewrite (proj2 (Z.ltb_ge _ _)) by lia.
  set (q := Z.of_nat (length (n_req n))) in *. set (r := Z.of_nat (length (n_resp n))) in *.
  rewrite (wrap_small 64 (_ + off)) by (unfold AGENT_CONTEXT_BASE, PATH_BUFFER_OFF; lia).
  set (base := AGENT_CONTEXT_BASE + PATH_BUFFER_OFF + off) in *.
  assert (Hbase : 0 ≤ base < 2 ^ 40) by (unfold base, AGENT_CONTEXT_BASE, PATH_BUFFER_OFF; lia).
  change (Z.to_nat (8 + 8 + 4 + 4)) with 24%nat.
  assert (Hlen : Z.of_nat (length (node_bytes n)) = 24 + q + r) by exact Hn.
  assert (Hfield : ∀ o bs, slice o 4 (node_bytes n) = bs → (o + 4 ≤ 24)%nat → slice o 4 (mem_read c base 24) = bs).
  { intros o bs <- Hle. rewrite mem_read_slice by lia. apply node_piece; [done|lia]. }
  rewrite (Hfield 16%nat (to_le_bytes 4 q)), (Hfield 20%nat (to_le_bytes 4 r)) by (reflexivity || lia).
  rewrite !from_to_le_bytes, !Z.mod_small, !(wrap_small 64) by lia. unfold q, r. rewrite !Nat2Z.id. f_equal.
  assert (Hhd : node_bytes n = (to_le_bytes 8 (n_seq n) ++ to_le_bytes 8 (n_ts n) ++ to_le_bytes 4 q ++ to_le_bytes 4 r) ++ n_req n ++ n_resp n).
  { unfold node_bytes. by rewrite <-!app_assoc. }
  rewrite Hhd in Hb. apply bytes_at_app in Hb as [_ Hb]. rewrite !length_app, !length_to_le_bytes in Hb.
  apply bytes_at_app in Hb as [H1 H2]. apply bytes_at_mem_read in H1, H2. f_equal; [exact H1|].
  exact H2.
Qed.

Lemma zero_copy_path c l : ∀ off,
  0 ≤ off → off + path_size l ≤ PATH_BUFFER_LEN → bytes_at c (AGENT_CONTEXT_BASE + PATH_BUFFER_OFF + off) (path_bytes l) →
  mapM (λ t, read_path_node_zero_copy t c) (meta_tuple <$> metas_of off l) = Some ((λ n, (n_req n, n_resp n)) <$> l).
Proof.
  induction l as [|n l IH]; intros off Ho Hsz Hb; [done|]. rewrite path_size_cons in Hsz.
  unfold path_bytes in Hb. rewrite bind_cons in Hb. apply bytes_at_app in Hb as [Hn Hl].
  pose proof (path_size_nonneg l). pose proof (node_size_pos n). cbn [metas_of fmap list_fmap mapM].
  change (meta_tuple _) with (off, node_size n, n_seq n, n_ts n). rewrite zero_copy_node by (done || lia). cbn [mbind option_bind]. rewrite IH; [done|lia|lia|].
  unfold path_bytes. by rewrite Z.add_assoc.
Qed.

(** The answer of [sys_context_query], in the area and the two slots. *)
Lemma sys_context_query_ok k p t ext l sl body :
  runs k p → slots_ok sl → tcbs k !! p = Some t → agent_ext t = Some ext → context_area_base ext = AGENT_CONTEXT_BASE →
  path_data (view k) ext l → path_size l ≤ PATH_BUFFER_LEN →
  to_allocvec (meta_tuple <$> metas_of 0 l) = Some body → Z.of_nat (length body) ≤ TOOL_RESULT_LEN →
  ∃ k', sys_context_query (offset_va sl) (len_va sl) k = Ret (0, k') ∧ runs k' p ∧
    load_u32 (offset_va sl) k' = Ret TOOL_RESULT_OFF ∧ load_u32 (len_va sl) k' = Ret (Z.of_nat (length body)) ∧
    mem_read (view k') (AGENT_CONTEXT_BASE + TOOL_RESULT_OFF) (length body) = body ∧
    bytes_at (view k') (AGENT_CONTEXT_BASE + PATH_BUFFER_OFF) (path_bytes l).
Proof.
  intros Hr Hs Ht He Hbase [Hm _ Hb _] Hsz Hbody Hfit. unfold sys_context_query, serialize_meta.
  destruct (runs_cur k p Hr) as (t' & Ht' & Hc & Htok). assert (t' = t) as -> by congruence.
  rewrite Hc. cbn [mbind outcome_bind]. rewrite He, Htok, Hm. fold meta_tuple. rewrite Hbody.
  rewrite (proj2 (Z.ltb_ge _ _)), Hbase by done. rewrite Hbase in Hb.
  unfold TOOL_RESULT_LEN, CONTEXT_AREA_DEFAULT_SIZE, PATH_BUFFER_LEN in *. pose proof (sl_area _ Hs) as Harea.
  pose proof (sl_outside _ Hs) as [O1 O2]. unfold CONTEXT_AREA_DEFAULT_SIZE, AGENT_CONTEXT_BASE in *.
  assert (HWb : in_W W (0x80000000 + TOOL_RESULT_OFF) (Z.of_nat (length body))).
  { apply (in_W_sub _ _ _ _ Harea); unfold TOOL_RESULT_OFF; lia. }
  assert (HWp : in_W W (0x80000000 + PATH_BUFFER_OFF) (Z.of_nat (length (path_bytes l)))).
  { apply (in_W_sub _ _ _ _ Harea); unfold PATH_BUFFER_OFF; [lia|]. unfold path_size in Hsz. lia. }
  rewrite (wrap_small 64) by (unfold TOOL_RESULT_OFF; lia). rewrite (wrap_small 32) by lia.
  destruct (copy_to_user_ok k (0x80000000 + TOOL_RESULT_OFF) body) as (k1 & -> & Hw1); [apply Hr|unfold TOOL_RESULT_OFF; lia|done|].
  pose proof (runs_wrote _ _ _ _ _ Hr Hw1) as Hr1. cbn [mbind outcome_bind].
  destruct (sl_off _ Hs) as [Ho HoW], (sl_len _ Hs) as [Hn HnW], (sl_disjoint _ Hs) as (_ & _ & D3).
  destruct (copy_slot_ok k1 p (offset_va sl) TOOL_RESULT_OFF Hr1 Ho HoW) as (k2 & -> & Hw2). pose proof (runs_wrote _ _ _ _ _ Hr1 Hw2) as Hr2.
  cbn [mbind outcome_bind].
  destruct (copy_slot_ok k2 p (len_va sl) (Z.of_nat (length body)) Hr2 Hn HnW) as (k3 & -> & Hw3). pose proof (runs_wrote _ _ _ _ _ Hr2 Hw3) as Hr3.
  cbn [mbind outcome_bind]. exists k3. split_and!; [done|done| | | |].
  - apply (load_slot_ok k3 p); [done|done|done|done|].
    rewrite (wrote_other _ _ _ _ _ _ Hw3) by (done || rewrite length_to_le_bytes; lia). by apply (wrote_read k1 (offset_va sl) (to_le_bytes 4 _) k2).
  - apply (load_slot_ok k3 p); [done|done|done|lia|]. by apply (wrote_read k2 (len_va sl) (to_le_bytes 4 _) k3).
  - rewrite (wrote_other _ _ _ _ _ _ Hw3), (wrote_other _ _ _ _ _ _ Hw2); rewrite ?length_to_le_bytes; unfold TOOL_RESULT_OFF in *; try done; try lia.
    by apply (wrote_read k _ body k1).
  - apply bytes_at_mem_read. apply bytes_at_mem_read in Hb. unfold path_size, TOOL_RESULT_OFF, PATH_BUFFER_OFF in *.
    rewrite (wrote_other _ _ _ _ _ _ Hw3), (wrote_other _ _ _ _ _ _ Hw2), (wrote_other _ _ _ _ _ _ Hw1);
      rewrite ?length_to_le_bytes; try done; lia.
Qed.
End Process.

(** ** Describing an agent *)
Section Info.
Context {PF : Platform} {PFL : PlatformLaws} (token : Z) (W : Z → Prop) (frame : Z → Z).

(** The loop of [sys_agent_info] copies like [write_user_bytes] and counts. *)
Lemma info_chunks_write cs s e buf pos m m' :
  covers W frame cs s e → e - s = Z.of_nat (length buf - pos) → (pos ≤ length buf)%nat →
  write_chunks cs buf pos m = Ret m' → info_chunks cs buf pos m = Ret (length buf, m').
Proof.
  intros Hc. revert pos m. induction Hc as [s|a b cs s e Ha Hab He Hmx HW Hc IH]; intros pos m Hl Hp; cbn [write_chunks info_chunks].
  - intros [= <-]. f_equal. f_equal. lia.
  - intros H. apply bind_Ret in H as (m1 & Es & H). rewrite Es. cbn [mbind outcome_bind].
    destruct (Nat.leb_spec (length buf) (pos + Nat.min (Z.to_nat (b - a)) (length buf - pos))) as [Hle|Hgt].
    + injection H as <-. f_equal. f_equal. lia.
    + apply IH; [lia|lia|exact H].
Qed.

(** [agent_info] gives the kernel's view of the agent: kind, size of the area,
    number of path nodes, state of the loop. *)
Lemma agent_info_ok k p t ext va :
  runs token W frame k p → tcbs k !! p = Some t → agent_ext t = Some ext → 0 ≤ va → in_W W va 16 →
  ∃ k', agent_info va k = Ret (inr (mkAgentInfo (agent_type_code (agent_type ext)) (u32 (context_area_size ext))
    (u32 (Z.of_nat (length (path_meta ext)))) (loop_state_code (loop_state ext))), k') ∧ runs token W frame k' p.
Proof.
  intros Hr Ht He Hva HW. unfold agent_info.
  destruct (store_ok token W frame k p va (replicate 16 x00) Hr Hva HW) as (k1 & -> & Hw1). pose proof (runs_wrote _ _ _ _ _ _ _ _ Hr Hw1) as Hr1.
  cbn [mbind outcome_bind]. unfold sys_agent_info. destruct (runs_cur _ _ _ _ _ Hr1) as (t' & Ht' & Hc & Htok).
  rewrite (wrote_task _ _ _ _ _ _ _ _ Hw1) in Ht'. assert (t' = t) as -> by congruence.
  rewrite Hc. cbn [mbind outcome_bind]. rewrite He. set (buf := info_bytes ext).
  assert (Hl : length buf = 16%nat) by reflexivity. rewrite Hl, Htok. change (Z.min 16 (Z.of_nat 16)) with 16.
  destruct (translated_byte_buffer_covers token W frame (mem (phys k1)) va 16) as (cs & -> & Hcov); [apply Hr1|done|done|done| |].
  { right. eapply in_W_bound; [apply (ru_space _ _ _ _ _ Hr1)|lia|done]. }
  cbn [mbind outcome_bind]. destruct (write_chunks_covers token W frame cs va (va + 16) buf 0 (mem (phys k1))) as (m & E & Hus & Hm & _);
    [apply Hr1|done|lia|rewrite Hl; lia|].
  rewrite (info_chunks_write cs va (va + 16) buf 0 (mem (phys k1)) m Hcov) by (done || rewrite ?Hl; lia).
  cbn [mbind outcome_bind]. rewrite Hl. cbn [Z.of_nat Z.ltb Z.compare].
  assert (Hr2 : runs token W frame (with_mem m k1) p) by (destruct Hr1 as [A B _]; by split).
  rewrite (load_ok token W frame _ p) by (done || lia). cbn [mbind outcome_bind]. change (Z.to_nat 16) with 16%nat.
  assert (Hread : mem_read (view frame (with_mem m k1)) va 16 = buf).
  { rewrite <-(mem_read_write_same (view frame k1) va buf), Hl. apply mem_read_ext. intros x Hx. rewrite drop_0 in Hm. apply Hm, HW. lia. }
  rewrite Hread. eexists. split; [|exact Hr2]. do 3 f_equal. clear. unfold AgentInfo_of_bytes.
  assert (Hf : ∀ i z, slice (4 * i) 4 buf = to_le_bytes 4 z → 0 ≤ z < 2 ^ 32 → from_le_bytes (slice (4 * i) 4 buf) = z).
  { intros i z -> Hz. rewrite from_to_le_bytes. by apply Z.mod_small. }
  f_equal; (apply Hf; [reflexivity|]); first [apply Z.mod_pos_bound; done|destruct (agent_type ext); done|destruct (loop_state ext); done].
Qed.
End Info.

(** ** Theorems *)
Section Theorems.
Context {PF : Platform} {PFL : PlatformLaws} (token : Z) (W : Z → Prop) (frame : Z → Z).
Context `{!PostcardVec SystemStatusInfo, !PostcardVec (QueryResult ProcessInfo), !PostcardVec ProcessInfo,
  !PostcardVec (QueryResult FileInfo), !PostcardVec (QueryResult ToolDescriptor), !PostcardVec (list MetaTuple), !PostcardRead (list MetaTuple)}.
Context {E : Type} (full : E) `{PostcardLaws E ToolRequest}.

(** C25: a tool call is the tool. For an agent whose context area is mapped,
    calling [tool_call] runs the requested tool on the request the program
    built: the encoded frame in its stack buffer decodes to that very request
    in the kernel, an error of the tool is the error of the call, an answer
    too large for the ring is error -5, and otherwise the program gets the
    status of the tool and reads, without another system call, exactly the
    bytes the tool answered. *)
Theorem tool_call_runs_the_tool k p t ext sl req n out :
  runs token W frame k p → slots_ok W sl → tcbs k !! p = Some t → agent_ext t = Some ext → context_area_base ext = AGENT_CONTEXT_BASE →
  encode_request full req (replicate 1024 x00) = Ret (inr (n, out)) →
  ∃ m, let k1 := with_mem m k in prepare sl out k = Ret k1 ∧
  ∀ now r k2, dispatch now req (upd_task p (set_loop LCalling) k1) = Ret (r, k2) →
  match r with
  | inl e => tool_call full sl now req k = Ret (inl (into_isize e), k2)
  | inr dr =>
      if TOOL_RESULT_LEN <? Z.of_nat (length (answer dr)) then tool_call full sl now req k = Ret (inl (-5), k2)
      else ∃ o k', tool_call full sl now req k = Ret (inr o, k') ∧
        status_code o = tool_status_code (dr_status dr) ∧ result_bytes o k' = Ret (answer dr)
  end.
Proof.
  intros Hr Hs Ht He Hbase Henc. destruct (encode_request_frame full req _ n out Henc) as (body & Hts & Hn & Hle & Hout).
  rewrite length_replicate in *.
  assert (Hl : length out = 1024%nat).
  { rewrite Hout, !length_app, length_drop, length_replicate, !length_to_le_bytes. unfold FRAME_HEADER_SIZE in *. lia. }
  destruct (prepare_ok token W frame k p sl out Hr Hs Hl) as (k1 & m & E1 & Hk1 & Hr1 & Hbuf).
  exists m. cbv zeta. rewrite <-Hk1. split; [done|]. intros now r k2 Hdisp. unfold tool_call. rewrite Henc. cbn [mbind outcome_bind]. rewrite E1. cbn [mbind outcome_bind].
  assert (Hdec : decode_request (E := E) (mem_read (view frame k1) (buf_va sl) (Z.to_nat (Z.of_nat n))) = inr req).
  { rewrite Nat2Z.id. replace (mem_read _ _ n) with (take n out).
    - rewrite <-(app_nil_r (take n out)), Hout. rewrite !(app_assoc _ _ (drop n _)), take_app_length'.
      + rewrite <-!app_assoc. by eapply decode_request_frame.
      + rewrite !length_app, !length_to_le_bytes. unfold FRAME_HEADER_SIZE in *. lia.
    - rewrite <-Hbuf. rewrite <-(drop_0 (mem_read _ _ 1024)). fold (slice 0 n (mem_read (view frame k1) (buf_va sl) 1024)).
      rewrite mem_read_slice by lia. f_equal. lia. }
  assert (Ht1 : tcbs k1 !! p = Some t) by (rewrite Hk1; done).
  pose proof (sys_tool_call_ok token W frame now sl (Z.of_nat n) k1 p t ext req r k2 Hr1 Hs Ht1 He Hbase) as Hcall.
  specialize (Hcall ltac:(unfold FRAME_HEADER_SIZE in *; lia) Hdec Hdisp). destruct r as [e|dr].
  { rewrite Hcall. cbn [mbind outcome_bind]. by destruct e. }
  destruct (Z.ltb_spec TOOL_RESULT_LEN (Z.of_nat (length (answer dr)))) as [_|Hfit]; [by rewrite Hcall|]. destruct Hcall as (k' & -> & Hr' & Ho & Hln & Hm). cbn [mbind outcome_bind].
  rewrite (proj2 (Z.ltb_ge _ _)) by (destruct (dr_status dr); vm_compute; congruence). rewrite Ho, Hln. cbn [mbind outcome_bind].
  eexists _, k'. split; [reflexivity|]. split; [done|]. unfold result_bytes. cbn [oc_len oc_offset].
  destruct (decide (answer dr = [])) as [Ha|Ha]; [by rewrite Ha|].
  rewrite bool_decide_false by done. assert (Hpos : 0 < Z.of_nat (length (answer dr))) by (destruct (answer dr); [done|simpl; lia]).
  rewrite (proj2 (Z.eqb_neq _ _)) by lia. rewrite (wrap_small 64) by done.
  rewrite (load_ok token W frame k' p); [by rewrite Nat2Z.id, Hm|done|done|lia|].
  apply (in_W_sub _ _ _ _ _ (sl_area _ _ Hs)); [done|]. unfold TOOL_RESULT_LEN, CONTEXT_AREA_DEFAULT_SIZE, TOOL_RESULT_OFF in *. lia.
Qed.

(** C26: the history of an agent is read without a system call per node. When
    the kernel's metadata and the context area hold a path, one
    [context_query_meta] gives the metadata of every node, and
    [read_path_node_zero_copy] on each of them gives exactly the request and
    response summaries that were pushed, oldest first. *)
Theorem history_is_read_without_copying k p t ext l sl body :
  runs token W frame k p → slots_ok W sl → tcbs k !! p = Some t → agent_ext t = Some ext → context_area_base ext = AGENT_CONTEXT_BASE →
  path_data (view frame k) ext l → path_size l ≤ PATH_BUFFER_LEN →
  let metas := (λ n, (offset_in_buffer n, node_len n, node_seq n, write_time n)) <$> path_meta ext in
  to_allocvec metas = Some body → Z.of_nat (length body) ≤ TOOL_RESULT_LEN → from_allocvec body = Some metas →
  ∃ k', context_query_meta (offset_va sl) (len_va sl) k = Ret (inr metas, k') ∧
    mapM (λ meta, read_path_node_zero_copy meta (view frame k')) metas = Some ((λ n, (n_req n, n_resp n)) <$> l).
Proof.
  intros Hr Hs Ht He Hbase Hd Hsz metas Hbody Hfit Hback. unfold context_query_meta, store_u32.
  destruct (sl_off _ _ Hs) as [Ho HoW], (sl_len _ _ Hs) as [Hn HnW], (sl_outside _ _ Hs) as [O1 O2].
  destruct (store_ok token W frame k p (offset_va sl) (to_le_bytes 4 0) Hr) as (k1 & -> & Hw1); [lia|done|].
  pose proof (runs_wrote _ _ _ _ _ _ _ _ Hr Hw1) as Hr1. cbn [mbind outcome_bind].
  destruct (store_ok token W frame k1 p (len_va sl) (to_le_bytes 4 0) Hr1) as (k2 & -> & Hw2); [lia|done|].
  pose proof (runs_wrote _ _ _ _ _ _ _ _ Hr1 Hw2) as Hr2. cbn [mbind outcome_bind].
  assert (Hm : path_meta ext = metas_of 0 l) by apply Hd.
  assert (Hmetas : metas = meta_tuple <$> metas_of 0 l) by (unfold metas; by rewrite Hm).
  assert (HWp : in_W W (AGENT_CONTEXT_BASE + PATH_BUFFER_OFF) (Z.of_nat (length (path_bytes l)))).
  { apply (in_W_sub _ _ _ _ _ (sl_area _ _ Hs)); unfold PATH_BUFFER_OFF, CONTEXT_AREA_DEFAULT_SIZE, PATH_BUFFER_LEN, path_size in *; lia. }
  assert (Hd2 : path_data (view frame k2) ext l).
  { destruct Hd as [A B C D]. split; [done|done| |done]. rewrite Hbase in *. apply bytes_at_mem_read. apply bytes_at_mem_read in C.
    unfold path_size, PATH_BUFFER_LEN, PATH_BUFFER_OFF, CONTEXT_AREA_DEFAULT_SIZE in *.
    rewrite (wrote_other _ _ _ _ _ _ _ _ _ Hw2), (wrote_other _ _ _ _ _ _ _ _ _ Hw1); rewrite ?length_to_le_bytes; try done; lia. }
  assert (Ht2 : tcbs k2 !! p = Some t) by (by rewrite (wrote_task _ _ _ _ _ _ _ _ Hw2), (wrote_task _ _ _ _ _ _ _ _ Hw1)).
  rewrite Hmetas in Hbody. destruct (sys_context_query_ok token W frame k2 p t ext l sl body Hr2 Hs Ht2 He Hbase Hd2 Hsz Hbody Hfit)
    as (k3 & -> & Hr3 & Eo & En & Hb & Hp).
  cbn [mbind outcome_bind Z.ltb Z.compare]. rewrite Eo, En. cbn [mbind outcome_bind].
  rewrite (wrap_small 64) by done. rewrite (load_ok token W frame k3 p), Nat2Z.id, Hb; [|done|done|lia|].
  - cbn [mbind outcome_bind]. rewrite Hback. exists k3. split; [done|]. rewrite Hmetas.
    apply zero_copy_path; [lia|lia|]. by rewrite Z.add_0_r.
  - apply (in_W_sub _ _ _ _ _ (sl_area _ _ Hs)); [done|]. unfold TOOL_RESULT_LEN, CONTEXT_AREA_DEFAULT_SIZE, TOOL_RESULT_OFF in *. lia.
Qed.
End Theorems.

Local Ltac Zify.zify_post_hook ::= Z.to_euclidean_division_equations.

(** ** Witnesses: an agent of the demo platform *)
Module MetaCodec.
Definition encode (l : list MetaTuple) : list byte :=
  l ≫= λ '(a, b, c, d), to_le_bytes 8 a ++ to_le_bytes 8 b ++ to_le_bytes 8 c ++ to_le_bytes 8 d.
Fixpoint decode (fuel : nat) (bs : list byte) : list MetaTuple :=
  match fuel with
  | O => []
  | S fuel =>
      (from_le_bytes (slice 0 8 bs), from_le_bytes (slice 8 8 bs), from_le_bytes (slice 16 8 bs), from_le_bytes (slice 24 8 bs))
        :: decode fuel (drop 32 bs)
  end.
#[export] Instance to_vec : PostcardVec (list MetaTuple) := λ l, Some (encode l).
#[export] Instance of_vec : PostcardRead (list MetaTuple) := λ bs, Some (decode (length bs / 32) bs).
End MetaCodec.

Module DemoAgent.
Import DemoVec MetaCodec.
Definition nodes : list Node := [mkNode 0 5 [x61] [x62; x63]; mkNode 1 9 [x64; x65] []].
Definition slots : Slots := mkSlots 0x5000 0x5800 0x5804.
Definition ext : AgentExt :=
  set_path (metas_of 0 nodes) (path_size nodes) (AgentExt_new ATNormal CONTEXT_AREA_BASE CONTEXT_AREA_DEFAULT_SIZE 128 16384).
Definition task (pt : PageTable) : TaskControlBlock :=
  mkTCB 0x80400 0 after_timer Running (mkMemorySet pt []) None [] 0 [Some FStdin; Some FStdout; Some FStdout] (Some ext) 16.
Definition kernel (pt : PageTable) (m : Mem) : Kernel :=
  mkKernel {[0 := task pt]} [] (Some 0) [] (mkPidAllocator 1 []) (mkPhys m (falloc DemoPlatform.boot)) Demo.ms0 FileAttr.new.

Lemma slots_fit : slots_ok demo_W slots.
Proof.
  assert (Hlow : ∀ a n, 0x5000 ≤ a → a + n ≤ 0x7000 → in_W demo_W a n).
  { intros a n H1 H2 x Hx. left. unfold PAGE_SIZE. lia. }
  split; cbn [slots buf_va offset_va len_va]; try (split; [lia|apply Hlow; lia]); try lia.
  - intros x Hx. right. unfold AGENT_CONTEXT_BASE, CONTEXT_AREA_DEFAULT_SIZE, PAGE_SIZE in *. lia.
  - unfold AGENT_CONTEXT_BASE, CONTEXT_AREA_DEFAULT_SIZE. lia.
Qed.

(** It runs, and its area holds the nodes. *)
Lemma running : ∃ pt m, @runs DemoPlatform.demo (token pt) demo_W demo_frame (kernel pt m) 0 ∧
  path_data (view demo_frame (kernel pt m)) ext nodes.
Proof.
  destruct demo_space as (pt & ph & _ & Hus).
  assert (HW : in_W demo_W (CONTEXT_AREA_BASE + PATH_BUFFER_OFF) (Z.of_nat (length (path_bytes nodes)))).
  { assert (Z.of_nat (length (path_bytes nodes)) = 53) as -> by reflexivity. intros x Hx. right.
    unfold CONTEXT_AREA_BASE, PATH_BUFFER_OFF, PAGE_SIZE in *. lia. }
  destruct (write_user_bytes_law (PF := DemoPlatform.demo) _ demo_W demo_frame _ (CONTEXT_AREA_BASE + PATH_BUFFER_OFF) _ Hus ltac:(done) HW)
    as (m & _ & Hus' & Hm).
  exists pt, m. split; [split; [reflexivity|reflexivity|exact Hus']|]. split; [reflexivity|reflexivity| |by vm_compute].
  apply (bytes_at_ext _ _ _ _ (λ x Hx, Hm x (HW x Hx))). apply bytes_at_write.
Qed.
End DemoAgent.

Section WitnessSection.
Import DemoVec MetaCodec.

Lemma tool_call_runs_the_tool_witness :
  ∃ k o k', tool_call (PF := DemoPlatform.demo) (E := unit) tt DemoAgent.slots 5 (mkToolRequest 7 TNSystemStatus PSystemStatus) k = Ret (inr o, k') ∧
    status_code o = 0 ∧ result_bytes (PF := DemoPlatform.demo) o k' = Ret [x01].
Proof.
  destruct DemoAgent.running as (pt & m & Hr & _).
  destruct (tool_call_runs_the_tool (PF := DemoPlatform.demo) (token pt) demo_W demo_frame (E := unit) tt (DemoAgent.kernel pt m) 0 (DemoAgent.task pt)
    DemoAgent.ext DemoAgent.slots (mkToolRequest 7 TNSystemStatus PSystemStatus) 7
    (to_le_bytes 4 PROTO_MAGIC ++ to_le_bytes 2 PROTO_VERSION ++ [x07] ++ replicate 1017 x00)) as (m' & _ & Hcall);
    [exact Hr|exact DemoAgent.slots_fit|done|done|done|by vm_compute|].
  destruct (Hcall 5 (inr (mkDispatchResult TSOk [x01])) (upd_task 0 (set_loop LCalling) (with_mem m' (DemoAgent.kernel pt m)))) as (o & k' & E & Ho & Hb);
    [vm_compute; reflexivity|].
  exists (DemoAgent.kernel pt m), o, k'. split; [exact E|]. by split.
Defined.

Lemma history_is_read_without_copying_witness :
  ∃ k k', context_query_meta (PF := DemoPlatform.demo) 0x5800 0x5804 k = Ret (inr [(0, 27, 0, 5); (27, 26, 1, 9)], k') ∧
    mapM (λ meta, read_path_node_zero_copy meta (view demo_frame k')) [(0, 27, 0, 5); (27, 26, 1, 9)] =
      Some [([x61], [x62; x63]); ([x64; x65], [])].
Proof.
  destruct DemoAgent.running as (pt & m & Hr & Hd). exists (DemoAgent.kernel pt m).
  apply (history_is_read_without_copying (PF := DemoPlatform.demo) (token pt) demo_W demo_frame (DemoAgent.kernel pt m) 0 (DemoAgent.task pt)
    DemoAgent.ext DemoAgent.nodes DemoAgent.slots (MetaCodec.encode [(0, 27, 0, 5); (27, 26, 1, 9)]));
    [exact Hr|exact DemoAgent.slots_fit|done|done|done|exact Hd|by vm_compute|done|by vm_compute|by vm_compute].
Defined.
End WitnessSection.
