(* ===== verification/Pack.v ===== *)
(** * The disk image ([easy-fs-fuse/src/main.rs])

    The host tool that makes the disk image, and what the kernel finds on it
    when it boots.  [host] is the content of the host's files, [d] the image
    file as a block device. *)

From stdpp Require Import functions gmap.
From S2P Require Import Prelude Utf8 Blocks BlockCache Words Bitmap Layout LayoutLemmas InodeMap InodeIO Efs Vfs MemDisk FsInv FsOps FsFile FsDir FsCreate FsSpec FsBoot FsThms Durable PhysMem UserCopy OsFile Syscall SysFiles.

(** ** The tool *)
Definition IMAGE_BLOCKS : Z := 16 * 2048.

(** [name_with_ext.drain(name_with_ext.find('.').unwrap()..)] *)
Definition app_name (file_name : string) : outcome string :=
  i ← unwrap (String.index 0 "." file_name); Ret (String.substring 0 i file_name).

Section Pack.
Context {S : Type} `{!BlockStore S}.

Definition pack_one (efs : EasyFileSystem) (app : string) (all_data : list byte) (s : S) : outcome S :=
  '(inode, s) ← create efs app (root_inode efs) s;
  inode ← unwrap inode;
  '(_, s) ← inode_write_at efs 0 all_data inode s;
  Ret s.

Fixpoint pack_loop (efs : EasyFileSystem) (host : string → list byte) (apps : list string) (s : S) : outcome S :=
  match apps with
  | [] => Ret s
  | app :: apps => s ← pack_one efs app (host app) s; pack_loop efs host apps s
  end.

Definition easy_fs_pack (dir : list string) (host : string → list byte) (s : S) : outcome S :=
  '(efs, s) ← efs_create IMAGE_BLOCKS 1 s;
  apps ← mapM app_name dir;
  pack_loop efs host apps s.
End Pack.

(** ** The image as a run of operations *)
Section PackProofs.
Context {D : Type} `{!BlockDevice D, !DeviceLaws D}.
Context (efs : EasyFileSystem) (total : Z) (G : geometry efs total) (host : string → list byte).

Definition file_of (app : string) : string * list byte := (app, host app).

(** What the image must hold for every step to be possible. *)
Record packable (apps : list string) : Prop := {
  pk_unique : NoDup apps;
  pk_apps : Forall (λ app, name_ok app ∧ host app ≠ [] ∧ Z.of_nat (length (host app)) ≤ MAX_BLOCKS * BLOCK_SZ) apps;
  pk_fits : fits efs total (file_of <$> apps);
}.

Lemma file_blocks_app F1 F2 : file_blocks (F1 ++ F2) = file_blocks F1 + file_blocks F2.
Proof. induction F1 as [|e F1 IH]; simpl; [done|]. rewrite IH. lia. Qed.

Lemma file_blocks_nonneg F : 0 ≤ file_blocks F.
Proof.
  induction F as [|e F IH]; simpl; [done|]. assert (0 ≤ total_blocks (Z.of_nat (length e.2))); [|lia].
  unfold total_blocks, wrap. by apply Z.mod_pos_bound.
Qed.

(** Fewer files, or the last one still empty, fit as well. *)
Lemma fits_app F1 F2 : fits efs total (F1 ++ F2) → fits efs total F1.
Proof.
  intros [A B C]. unfold disk_blocks, dir_size in *. rewrite length_app in *. rewrite file_blocks_app in C.
  pose proof (file_blocks_nonneg F2). pose proof (blocks_mono (32 * Z.of_nat (length F1)) (32 * Z.of_nat (length F1 + length F2)) ltac:(lia) B).
  split; unfold disk_blocks, dir_size; lia.
Qed.

Lemma file_blocks_single app bs : file_blocks [(app, bs)] = total_blocks (Z.of_nat (length bs)).
Proof. cbn [file_blocks foldr snd]. lia. Qed.

Lemma fits_empty F app : fits efs total (F ++ [file_of app]) → fits efs total (F ++ [(app, [])]).
Proof.
  intros [A B C]. unfold disk_blocks, dir_size, file_of in *. rewrite !length_app, !file_blocks_app, !file_blocks_single in *. cbn [length] in *.
  assert (0 ≤ total_blocks (Z.of_nat (length (host app)))) by (unfold total_blocks, wrap; by apply Z.mod_pos_bound).
  assert (total_blocks (Z.of_nat 0) = 0) by done.
  split; unfold disk_blocks, dir_size; rewrite ?length_app, ?file_blocks_app, ?file_blocks_single; cbn [length]; lia.
Qed.

Lemma write_data_fresh bs : bs ≠ [] → write_data 0 bs [] = bs.
Proof.
  intros Hb. unfold write_data, splice. cbn [app take]. rewrite drop_ge; [by rewrite app_nil_r|].
  rewrite length_replicate. simpl. lia.
Qed.

Lemma pack_one_ok (s : Store D) done_ app :
  disk_rep efs total s (file_of <$> done_) → packable (done_ ++ [app]) →
  ∃ s', pack_one efs app (host app) s = Ret s' ∧ disk_rep efs total s' (file_of <$> (done_ ++ [app])) ∧ clean s'.
Proof.
  intros HD [Hn Ha Hf]. rewrite fmap_app in *. cbn [fmap list_fmap] in *. apply Forall_app in Ha as [_ Ha]. apply Forall_singleton in Ha as (Hname & Hne & Hlen).
  assert (Hnew : dir_find app (FsSpec.entries (file_of <$> done_)) = None).
  { apply dir_find_None. rewrite entries_names, <-list_fmap_compose. change (fst ∘ file_of) with (@id string). rewrite list_fmap_id.
    apply NoDup_app in Hn as (_ & Hn & _). intros Hin. apply (Hn _ Hin). by apply list_elem_of_singleton. }
  destruct (create_refines efs total G s _ app HD Hnew Hname (fits_empty _ _ Hf)) as (s1 & E1 & HD1).
  unfold pack_one. rewrite E1. cbn [mbind outcome_bind unwrap]. set (F := file_of <$> done_) in *.
  assert (Hi : (F ++ [(app, [])]) !! length F = Some (app, [])) by (by apply list_lookup_middle).
  assert (Hins : <[length F := (app, write_data 0 (host app) [])]> (F ++ [(app, [])]) = F ++ [file_of app]).
  { rewrite write_data_fresh by done. rewrite <-(Nat.add_0_r (length F)). by rewrite insert_app_r. }
  destruct (write_refines efs total G s1 _ (length F) (app, []) 0 (host app) HD1 Hi) as (s2 & E2 & HD2); [done|done|lia| |].
  { cbn [fst snd]. change (Z.to_nat 0) with 0%nat. by rewrite Hins. }
  cbn [fst snd] in HD2. change (Z.to_nat 0) with 0%nat in HD2. rewrite Hins in HD2. rewrite E2. cbn [mbind outcome_bind].
  exists s2. split_and!; [done|done|by eapply inode_write_clean].
Qed.

Lemma pack_loop_ok apps : ∀ done_ (s : Store D),
  disk_rep efs total s (file_of <$> done_) → clean s → packable (done_ ++ apps) →
  ∃ s', pack_loop efs host apps s = Ret s' ∧ disk_rep efs total s' (file_of <$> (done_ ++ apps)) ∧ clean s'.
Proof.
  induction apps as [|app apps IH]; intros done_ s HD Hc Hp; cbn [pack_loop].
  - rewrite app_nil_r in *. by exists s.
  - rewrite (cons_middle app done_ apps), (app_assoc done_) in *.
    assert (Hp1 : packable (done_ ++ [app])).
    { destruct Hp as [A B C]. apply NoDup_app in A as (A & _ & _). apply Forall_app in B as [B _]. rewrite fmap_app in C.
      split; [done|done|by eapply fits_app]. }
    destruct (pack_one_ok s done_ app HD Hp1) as (s1 & -> & HD1 & Hc1). cbn [mbind outcome_bind]. by apply (IH (done_ ++ [app])).
Qed.
End PackProofs.

(** ** Booting from the image *)

(** What [exec] of [name] reads, as the bytes of the file: [open_file] then
    [read_all]. *)
Definition load_program {S} `{!BlockStore S} (fuel : nat) (efs : EasyFileSystem) (name : string) (s : S) : outcome (option (list byte)) :=
  '(o, s) ← open_file efs name 0 s;
  match o with
  | Some f => '(data, _, _) ← read_all fuel (replicate 512 x00) [] f s; Ret (Some data)
  | None => Ret None
  end.

Lemma load_program_ok {S} `{!BlockStore S, !StoreLaws S} efs total (G : geometry efs total) s F fuel name data :
  disk_rep efs total s F → (name, data) ∈ F → (length data + 512 ≤ 512 * fuel)%nat →
  load_program fuel efs name s = Ret (Some data).
Proof.
  intros HD Hin Hf. apply list_elem_of_lookup in Hin as [i Hi].
  pose proof (file_index_unique F i name data (dr_unique _ _ _ _ HD) Hi) as Hidx. unfold load_program.
  destruct (open_file_ok efs total G s F name 0 HD) as (s1 & -> & HD1); [congruence|].
  unfold spec_open in *. rewrite Hidx in *. cbn [fmap option_fmap option_map mbind outcome_bind fst snd from_option] in *.
  destruct (read_all_ok total efs F i (name, data) G Hi fuel 0%nat (replicate 512 x00) [] (opened efs 0 i) s1) as (f' & s2 & -> & _); try done.
  cbn [snd]. lia.
Qed.

Lemma load_program_none {S} `{!BlockStore S, !StoreLaws S} efs total (G : geometry efs total) s F fuel name :
  disk_rep efs total s F → name ∉ F.*1 → load_program fuel efs name s = Ret None.
Proof.
  intros HD Hin. unfold load_program. destruct (open_file_ok efs total G s F name 0 HD) as (s1 & -> & HD1); [done|].
  unfold spec_open. assert (Hidx : file_index name F = None).
  { pose proof (dir_find_index name F) as Hd. rewrite (proj2 (dir_find_None _ _)) in Hd by (by rewrite entries_names).
    by destruct (file_index name F). }
  by rewrite Hidx.
Qed.

(** The name of a host file: the program's name, a dot and an extension. *)
Definition host_name (app : string * string) : string := String.append app.1 (String.append "." app.2).

Lemma index_dot name ext :
  String.index 0 "." name = None → String.index 0 "." (host_name (name, ext)) = Some (String.length name).
Proof.
  unfold host_name. cbn [fst snd]. assert (Hrest : String.index 0 "." (String.append "." ext) = Some 0%nat) by (cbn; by destruct ext).
  revert Hrest. generalize (String.append "." ext). intros rest Hrest. induction name as [|c name IH]; [done|].
  change (String.append (String.String c name) rest) with (String.String c (String.append name rest)).
  revert IH. cbn [String.length String.index String.prefix].
  destruct (Ascii.ascii_dec _ c); [by destruct name|]. intros IH.
  destruct (String.index 0 _ name) eqn:En; [done|]. intros _. by rewrite IH.
Qed.

Lemma substring_append name rest : String.substring 0 (String.length name) (String.append name rest) = name.
Proof.
  induction name as [|c name IH]; [by destruct rest|].
  change (String.String c (String.substring 0 (String.length name) (String.append name rest)) = String.String c name). by rewrite IH.
Qed.

Lemma app_name_ok app : String.index 0 "." app.1 = None → app_name (host_name app) = Ret app.1.
Proof.
  destruct app as [name ext]. intros H. unfold app_name. rewrite index_dot by exact H.
  cbn [unwrap mbind outcome_bind]. unfold host_name. by rewrite substring_append.
Qed.

Lemma app_names_ok apps :
  Forall (λ app, String.index 0 "." app.1 = None) apps → mapM app_name (host_name <$> apps) = Ret apps.*1.
Proof.
  intros Hno. induction Hno as [|app apps Hn _ IH]; [done|].
  trans (n ← app_name (host_name app); l ← mapM app_name (host_name <$> apps); mret (n :: l)); [done|].
  by rewrite app_name_ok, IH.
Qed.

(** The packed image holds the host's files, and opens. *)
Lemma pack_image_ok {D : Type} `{!BlockDevice D, !DeviceLaws D} (d : D) host (files : list (string * string)) :
  IMAGE_BLOCKS ≤ dev_size d → Forall (λ app, String.index 0 "." app.1 = None) files →
  let efs := (layout_of IMAGE_BLOCKS 1).1 in
  packable efs IMAGE_BLOCKS host files.*1 →
  geometry efs IMAGE_BLOCKS ∧
  ∃ s s', easy_fs_pack (host_name <$> files) host (BlockCacheManager_new d) = Ret s ∧
    efs_open (BlockCacheManager_new (device s)) = Ret (efs, s') ∧
    disk_rep efs IMAGE_BLOCKS s' (file_of host <$> files.*1).
Proof.
  intros Hd Hdir%app_names_ok efs Hp. assert (Hsz : size_ok IMAGE_BLOCKS 1) by (unfold size_ok, IMAGE_BLOCKS; lia).
  destruct (layout_ok IMAGE_BLOCKS 1 Hsz) as (G & _). fold efs in G. split; [done|].
  destruct (BlockCacheManager_new_ok d) as (Hwf & Hh & _).
  destruct (efs_create_ok IMAGE_BLOCKS 1 (BlockCacheManager_new d) Hsz Hwf Hh Hd) as (s1 & E1 & HD1). fold efs in E1, HD1.
  destruct (pack_loop_ok efs IMAGE_BLOCKS G host files.*1 [] s1 HD1 (efs_create_clean _ _ _ _ _ E1) Hp) as (s & E2 & HD & Hc).
  destruct (reopen_clean efs IMAGE_BLOCKS s _ G HD Hc) as (s' & E3 & HD' & _). exists s, s'.
  unfold easy_fs_pack. rewrite E1. cbn [mbind outcome_bind]. rewrite Hdir. cbn [mbind outcome_bind]. by split_and!.
Qed.

(** C24: The kernel boots from the image the tool made. Whatever programs the
    host packs (files [name.extension] with no dot in the name), as long as
    they fit on the disk and their names are distinct, the tool does not panic;
    the kernel that opens the image file afterwards finds the file system the
    tool created, loading any packed program by its name without extension
    gives exactly the bytes of the host's file, and any other name is not
    found. *)
Theorem packed_image_boots {D : Type} `{!BlockDevice D, !DeviceLaws D} (d : D) host (files : list (string * string)) :
  IMAGE_BLOCKS ≤ dev_size d → Forall (λ app, String.index 0 "." app.1 = None) files →
  let efs := (layout_of IMAGE_BLOCKS 1).1 in
  let dir := host_name <$> files in
  let apps := files.*1 in
  packable efs IMAGE_BLOCKS host apps →
  ∃ s s', easy_fs_pack dir host (BlockCacheManager_new d) = Ret s ∧
    efs_open (BlockCacheManager_new (device s)) = Ret (efs, s') ∧
    (∀ app fuel, app ∈ apps → (length (host app) + 512 ≤ 512 * fuel)%nat → load_program fuel efs app s' = Ret (Some (host app))) ∧
    (∀ name fuel, name ∉ apps → load_program fuel efs name s' = Ret None).
Proof.
  intros Hd Hdir efs dir apps Hp. destruct (pack_image_ok d host files Hd Hdir Hp) as (G & s & s' & E & E' & HD').
  fold efs in G, E', HD'. exists s, s'. split_and!; [done|done| |].
  - intros app fuel Hin Hf. eapply load_program_ok; [done|exact HD'| |done]. apply list_elem_of_fmap. by exists app.
  - intros name fuel Hin. eapply load_program_none; [done|exact HD'|]. simpl. rewrite <-list_fmap_compose.
    change (fst ∘ file_of host) with (@id string). by rewrite list_fmap_id.
Qed.

(** ** Witness *)
Section PackWitness.
Definition demo_files : list (string * string) := [("initproc", "rs"); ("user_shell", "tar.gz")]%string.
Definition demo_host (app : string) : list byte := name_of app ++ [x00; x01].
Definition demo_disk : MemDisk := mkMemDisk IMAGE_BLOCKS ∅.

Lemma packed_image_boots_witness :
  ∃ s s', easy_fs_pack ["initproc.rs"; "user_shell.tar.gz"]%string demo_host (BlockCacheManager_new demo_disk) = Ret s ∧
    efs_open (BlockCacheManager_new (device s)) = Ret ((layout_of IMAGE_BLOCKS 1).1, s') ∧
    load_program 2 (layout_of IMAGE_BLOCKS 1).1 "initproc" s' = Ret (Some (demo_host "initproc")) ∧
    load_program 2 (layout_of IMAGE_BLOCKS 1).1 "initproc.rs" s' = Ret None.
Proof.
  destruct (packed_image_boots demo_disk demo_host demo_files) as (s & s' & E1 & E2 & H1 & H2).
  - done.
  - by repeat constructor.
  - split.
    + by apply (bool_decide_unpack _); vm_compute.
    + repeat constructor; by apply (bool_decide_unpack _); vm_compute.
    + by apply (bool_decide_unpack _); vm_compute.
  - exists s, s'. split; [exact E1|]. split; [exact E2|]. split; [apply H1|apply H2].
    + left.
    + vm_compute. lia.
    + by apply (bool_decide_unpack _); vm_compute.
Defined.
End PackWitness.
