(* ===== verification/UserCalls.v ===== *)
(** * The system call stubs ([user/src/syscall.rs])

    A stub puts its number and its arguments in registers and executes
    [ecall]; registers it does not set hold whatever the program left there.
    [UserCall] is a stub with its arguments at their Rust types, [number_of]
    and [arguments_of] are the registers it sets, [handle] what its name promises. *)

From S2P Require Import Prelude Blocks BlockCache Address PhysMem FrameAlloc PageTable MemorySet Proto FileAttr PcbExt UserCopy ContextPath ContextArea Task Layout Efs Vfs MemDisk OsFile Blocking EventBus KernelSteps KernelThms Tools AgentCalls Syscall SysThms.

Inductive UserCall : Type :=
  | u_open (path flags : Z)
  | u_close (fd : Z)
  | u_read (fd buf len : Z)
  | u_write (fd buf len : Z)
  | u_exit (exit_code : Z)
  | u_yield
  | u_get_time
  | u_getpid
  | u_fork
  | u_exec (path : Z)
  | u_waitpid (pid exit_code : Z)
  | u_agent_create (cfg_ptr : Z)
  | u_agent_info (pid info_ptr info_len : Z)
  | u_tool_call (req_ptr req_len out_offset out_len : Z)
  | u_tool_list (buf_ptr buf_len : Z)
  | u_context_push (req_ptr req_len resp_ptr resp_len : Z)
  | u_context_query (start count out_offset out_len : Z)
  | u_context_rollback (node_idx : Z)
  | u_context_clear
  | u_heartbeat_set (interval_ms : Z)
  | u_heartbeat_stop
  | u_watch (event_mask : Z)
  | u_unwatch (event_mask : Z)
  | u_wait (timeout_ms : Z)
  | u_mailbox_recv (buf buf_len : Z)
  | u_set_loop_state (state_code : Z)
  | u_file_attr_set (name_ptr name_len tag_ptr tag_len : Z)
  | u_file_attr_del (name_ptr name_len tag_ptr tag_len : Z)
  | u_set_priority (priority : Z)
  | u_file_attr_bench (n iters use_index : Z).

(** The number, in register [x17]. *)
Definition number_of (c : UserCall) : Z :=
  match c with
  | u_open _ _ => 56
  | u_close _ => 57
  | u_read _ _ _ => 63
  | u_write _ _ _ => 64
  | u_exit _ => 93
  | u_yield => 124
  | u_get_time => 169
  | u_getpid => 172
  | u_fork => 220
  | u_exec _ => 221
  | u_waitpid _ _ => 260
  | u_agent_create _ => 500
  | u_agent_info _ _ _ => 501
  | u_tool_call _ _ _ _ => 510
  | u_tool_list _ _ => 511
  | u_context_push _ _ _ _ => 520
  | u_context_query _ _ _ _ => 521
  | u_context_rollback _ => 522
  | u_context_clear => 523
  | u_heartbeat_set _ => 530
  | u_heartbeat_stop => 531
  | u_watch _ => 532
  | u_wait _ => 533
  | u_unwatch _ => 534
  | u_mailbox_recv _ _ => 535
  | u_set_loop_state _ => 536
  | u_file_attr_del _ _ _ _ => 537
  | u_file_attr_set _ _ _ _ => 538
  | u_set_priority _ => 539
  | u_file_attr_bench _ _ _ => 540
  end.

(** The arguments, in registers [x10..]: [as usize] sign-extends an [i32], an
    [isize] or an [i64], and zero-extends a [u32]. *)
Definition arguments_of (c : UserCall) : list Z :=
  match c with
  | u_open path flags => [path; flags; 0]
  | u_close fd => [fd; 0; 0]
  | u_read fd buf len => [fd; buf; len]
  | u_write fd buf len => [fd; buf; len]
  | u_exit exit_code => [u64 exit_code; 0; 0]
  | u_yield => [0; 0; 0]
  | u_get_time => [0; 0; 0]
  | u_getpid => [0; 0; 0]
  | u_fork => [0; 0; 0]
  | u_exec path => [path; 0; 0]
  | u_waitpid pid exit_code => [u64 pid; exit_code; 0]
  | u_agent_create cfg_ptr => [cfg_ptr; 0; 0]
  | u_agent_info pid info_ptr info_len => [pid; info_ptr; info_len]
  | u_tool_call req_ptr req_len out_offset out_len => [req_ptr; req_len; out_offset; out_len]
  | u_tool_list buf_ptr buf_len => [buf_ptr; buf_len; 0]
  | u_context_push req_ptr req_len resp_ptr resp_len => [req_ptr; req_len; resp_ptr; resp_len]
  | u_context_query start count out_offset out_len => [start; count; out_offset; out_len]
  | u_context_rollback node_idx => [node_idx; 0; 0]
  | u_context_clear => [0; 0; 0]
  | u_heartbeat_set interval_ms => [interval_ms; 0; 0]
  | u_heartbeat_stop => [0; 0; 0]
  | u_watch event_mask => [event_mask; 0; 0]
  | u_wait timeout_ms => [u64 timeout_ms; 0; 0]
  | u_unwatch event_mask => [event_mask; 0; 0]
  | u_mailbox_recv buf buf_len => [buf; buf_len; 0]
  | u_set_loop_state state_code => [state_code; 0; 0]
  | u_file_attr_del name_ptr name_len tag_ptr tag_len => [name_ptr; name_len; tag_ptr; tag_len]
  | u_file_attr_set name_ptr name_len tag_ptr tag_len => [name_ptr; name_len; tag_ptr; tag_len]
  | u_set_priority priority => [priority; 0; 0]
  | u_file_attr_bench n iters use_index => [n; iters; use_index]
  end.

(** The ranges of the argument types that are not [usize]. *)
Definition is_u32 (z : Z) : Prop := 0 ≤ z < 2 ^ 32.
Definition is_i32 (z : Z) : Prop := - 2 ^ 31 ≤ z < 2 ^ 31.
Definition is_i64 (z : Z) : Prop := - 2 ^ 63 ≤ z < 2 ^ 63.
Definition typed (c : UserCall) : Prop :=
  match c with
  | u_open _ flags => is_u32 flags
  | u_exit code => is_i32 code
  | u_waitpid pid _ => is_i64 pid
  | u_wait timeout => is_i64 timeout
  | u_watch mask | u_unwatch mask => is_u32 mask
  | u_set_loop_state code => is_u32 code
  | _ => True
  end.

Lemma u32_id z : is_u32 z → u32 z = z.
Proof. intros H. by apply wrap_small. Qed.

Lemma as_i32_u64 z : is_i32 z → as_i32 (u64 z) = z.
Proof.
  unfold is_i32, as_i32, wrap. intros H. rewrite <-Znumtheory.Zmod_div_mod by (done || by exists (2 ^ 32)).
  destruct (Z.ltb_spec z 0).
  - rewrite <-(Z.mod_add z 1) by done. rewrite Z.mod_small by lia. destruct (Z.ltb_spec (z + 1 * 2 ^ 32) (2 ^ 31)); lia.
  - rewrite Z.mod_small by lia. destruct (Z.ltb_spec z (2 ^ 31)); lia.
Qed.

Lemma as_i64_u64 z : is_i64 z → as_i64 (u64 z) = z.
Proof.
  unfold is_i64, as_i64, wrap. intros H. rewrite ?Z.mod_mod by done. destruct (Z.ltb_spec z 0).
  - rewrite <-(Z.mod_add z 1) by done. rewrite Z.mod_small by lia. destruct (Z.ltb_spec (z + 1 * 2 ^ 64) (2 ^ 63)); lia.
  - rewrite Z.mod_small by lia. destruct (Z.ltb_spec z (2 ^ 63)); lia.
Qed.

Section Handlers.
Context {PF : Platform} {S : Type} `{!BlockStore S, !ElfParser}.
Context `{!PostcardVec SystemStatusInfo, !PostcardVec (QueryResult ProcessInfo), !PostcardVec ProcessInfo,
  !PostcardVec (QueryResult FileInfo), !PostcardVec (QueryResult ToolDescriptor), !PostcardVec (list (Z * Z * Z * Z))}.
Context {E : Type} `{!PostcardCodec E ToolRequest}.
Implicit Types m : Machine S.

(** The kernel function of the stub's name on the stub's arguments.  A tool call
    and a push read the time register in ticks, the other clocks are in ms. *)
Definition handle (e : Env) (c : UserCall) (m : Machine S) : outcome (sys_result * Machine S) :=
  let now := get_time_ms (time0 e) in
  match c with
  | u_open path flags => on_machine (sys_open (loop_fuel e) path flags) m
  | u_close fd => on_machine (sys_close fd) m
  | u_read fd buf len => '(o, m) ← sys_read (getchar e) fd buf len m; Ret (may_switch o, m)
  | u_write fd buf len => on_machine (sys_write fd buf len) m
  | u_exit exit_code => sys_exit exit_code m
  | u_yield => k ← sys_yield (kern m); Ret (Switched, with_kern k m)
  | u_get_time => on_machine (sys_get_time (time0 e)) m
  | u_getpid => on_kern sys_getpid m
  | u_fork => on_kern sys_fork m
  | u_exec path => on_machine (sys_exec (loop_fuel e) (sstatus e) path) m
  | u_waitpid pid exit_code => on_kern (sys_waitpid pid exit_code) m
  | u_agent_create _ => on_kern (sys_agent_create (padding e)) m
  | u_agent_info _ info_ptr info_len => on_kern (sys_agent_info info_ptr info_len) m
  | u_tool_call req_ptr req_len out_offset out_len => on_kern (sys_tool_call (E := E) (time0 e) req_ptr req_len out_offset out_len) m
  | u_tool_list buf_ptr buf_len => on_kern (sys_tool_list buf_ptr buf_len) m
  | u_context_push req_ptr req_len resp_ptr resp_len => on_kern (sys_context_push (time0 e) req_ptr req_len resp_ptr resp_len) m
  | u_context_query _ _ out_offset out_len => on_kern (sys_context_query out_offset out_len) m
  | u_context_rollback node_idx => on_kern (sys_context_rollback node_idx) m
  | u_context_clear => on_kern sys_context_clear m
  | u_heartbeat_set interval_ms => on_kern (sys_agent_heartbeat_set now interval_ms) m
  | u_heartbeat_stop => on_kern sys_agent_heartbeat_stop m
  | u_watch event_mask => on_kern (sys_agent_watch event_mask) m
  | u_wait timeout_ms =>
      '(o, k) ← sys_agent_wait timeout_ms now (get_time_ms (time1 e)) (get_time_ms (time2 e)) (kern m);
      Ret (may_switch o, with_kern k m)
  | u_unwatch event_mask => on_kern (sys_agent_unwatch event_mask) m
  | u_mailbox_recv buf buf_len => on_kern (sys_mailbox_recv buf buf_len) m
  | u_set_loop_state state_code => on_kern (sys_agent_set_loop_state state_code) m
  | u_file_attr_del name_ptr name_len tag_ptr tag_len => on_kern (sys_file_attr_del name_ptr name_len tag_ptr tag_len) m
  | u_file_attr_set name_ptr name_len tag_ptr tag_len => on_kern (sys_file_attr_set name_ptr name_len tag_ptr tag_len) m
  | u_set_priority priority => on_kern (sys_agent_set_priority priority) m
  | u_file_attr_bench n iters use_index => on_kern (sys_file_attr_bench (time0 e) (time1 e) n iters use_index) m
  end.

(** The trap context holds the registers the stub set. *)
Definition called (c : UserCall) (k : Kernel) : Prop :=
  read_cx (X_OFF 17) k = Ret (number_of c) ∧ ∃ rest, trap_args k = Ret (arguments_of c ++ rest).

(** A call's arguments after the trip through the registers. *)
Definition through_registers (c : UserCall) : UserCall :=
  match c with
  | u_open path flags => u_open path (u32 flags)
  | u_exit exit_code => u_exit (as_i32 (u64 exit_code))
  | u_waitpid pid exit_code => u_waitpid (as_i64 (u64 pid)) exit_code
  | u_wait timeout_ms => u_wait (as_i64 (u64 timeout_ms))
  | u_watch event_mask => u_watch (u32 event_mask)
  | u_set_loop_state state_code => u_set_loop_state (u32 state_code)
  | c => c
  end.

Lemma through_registers_typed c : typed c → through_registers c = c.
Proof. destruct c; cbn; try done; intros Hc; by rewrite ?u32_id, ?as_i32_u64, ?as_i64_u64. Qed.

(** The dispatcher ignores the registers a stub does not set. *)
Lemma syscall_handle e c rest m :
  typed c → syscall (E := E) e (number_of c) (λ i, nth (Z.to_nat i) (arguments_of c ++ rest) 0) m = handle e c m.
Proof. intros Hc. trans (handle e (through_registers c) m); [by destruct c|by rewrite through_registers_typed]. Qed.

(** The saved registers do not move when the saved program counter does. *)
Lemma read_write_cx i v k k' :
  0 ≤ i < 33 → write_cx SEPC_OFF v k = Ret k' → read_cx (X_OFF i) k' = read_cx (X_OFF i) k.
Proof.
  unfold write_cx, read_cx, set_bytes, get_bytes, X_OFF, SEPC_OFF. intros Hi Hw.
  apply bind_Ret in Hw as ([p t] & Et & Hw). inv_ret.
  match goal with |- context [with_phys ?ph k] => change (cur_task (with_phys ph k)) with (cur_task k) end.
  rewrite Et. cbn [mbind outcome_bind phys with_phys mem].
  rewrite (mem_read_ext _ (mem (phys k))); [done|]. intros x Hx. apply mem_write_out. rewrite length_to_le_bytes. lia.
Qed.

Lemma called_next_pc c v k k' : write_cx SEPC_OFF v k = Ret k' → called c k → called c k'.
Proof. intros Hw. unfold called, trap_args. by rewrite !(λ i Hi, read_write_cx i v k k' Hi Hw) by (split; done). Qed.

(** C31: A stub of the user library called at the types of its arguments runs
    the kernel function of its name on exactly those arguments: whatever the
    registers hold that the stub does not set, an [ecall] whose trap context
    has the stub's registers moves the program counter past the instruction,
    runs that function and stores its result in [x10]. *)
Theorem ecall_runs_its_handler e c m sepc :
  typed c → called c (kern m) → read_cx SEPC_OFF (kern m) = Ret sepc →
  trap_handler (E := E) e UserEnvCall m =
    (k ← write_cx SEPC_OFF (u64 (sepc + 4)) (kern m);
     '(r, m') ← handle e c (with_kern k m);
     match r with
     | Returned r => k ← set_return r (kern m'); Ret (Some (with_kern k m'))
     | Switched => Ret (Some m')
     | Shutdown => Ret None
     end).
Proof.
  intros Hc Hcall Hsepc. unfold trap_handler, env_call. rewrite Hsepc. cbn [mbind outcome_bind].
  destruct (write_cx SEPC_OFF (u64 (sepc + 4)) (kern m)) as [k| |] eqn:Ek; [|done|done]. cbn [mbind outcome_bind].
  destruct (called_next_pc _ _ _ _ Ek Hcall) as (-> & rest & ->). cbn [mbind outcome_bind].
  by rewrite syscall_handle.
Qed.
End Handlers.

(** ** Witness: process 1 asks for its pid *)
Module DemoCall.
Definition base : Z := PhysAddr_of_PhysPageNum 0x80400.
Definition memory : Mem := λ a, if a =? base + X_OFF 17 then xac else x00.
Definition m : Machine (Store MemDisk) := with_machine_mem memory DemoMachine.m.
End DemoCall.

Section WitnessSection.
Import DemoVec DemoElf.
Lemma ecall_runs_its_handler_witness :
  (o ← trap_handler (PF := DemoPlatform.demo) (E := unit) (mkEnv 0 0 0 0 0 [] 0) UserEnvCall DemoCall.m;
   m ← unwrap o;
   pc ← @read_cx DemoPlatform.demo SEPC_OFF (kern m);
   result ← @read_cx DemoPlatform.demo (X_OFF 10) (kern m);
   Ret (pc, result)) = Ret (4, 1).
Proof.
  rewrite (ecall_runs_its_handler (PF := DemoPlatform.demo) (E := unit) _ u_getpid DemoCall.m 0).
  - vm_compute. reflexivity.
  - done.
  - split; [vm_compute; reflexivity|]. exists [0; 0; 0]. vm_compute. reflexivity.
  - vm_compute. reflexivity.
Defined.
End WitnessSection.
