(* ===== verification/WaitModel.v ===== *)
(** * The children of a process, as [waitpid] shows them

    A process sees of its children what [sys_waitpid] answers.  [Kid] is a
    child with its fate: how many more calls of its parent it outlives, and the
    code it exits with.  [waitpid_answer] is the answer on a list of children;
    [sys_waitpid_answers] shows that it is the kernel's. *)

From stdpp Require Import gmap.
From S2P Require Import Prelude Address PhysMem FrameAlloc PageTable MemorySet Task KernelInv TaskLife.

(** A child: [None] for one that never exits. *)
Record Kid : Type := mkKid { kid_pid : Z; kid_left : option nat; kid_code : Z }.

Definition zombie (c : Kid) : bool := bool_decide (kid_left c = Some 0%nat).

(** The child one call later. *)
Definition older (c : Kid) : Kid := mkKid (kid_pid c) (Nat.pred <$> kid_left c) (kid_code c).

(** The result, the exit code variable, and the children that are left. *)
Definition waitpid_answer (pid exit_code : Z) (cs : list Kid) : (Z * Z) * list Kid :=
  if negb (existsb (λ c, wants pid (kid_pid c)) cs) then ((-1, exit_code), cs)
  else
    match list_find (λ c, zombie c && wants pid (kid_pid c)) cs with
    | Some (i, c) => ((kid_pid c, kid_code c), delete i cs)
    | None => ((-2, exit_code), cs)
    end.

(** ** The kernel answers so *)
Section Kernel.
Context {PF : Platform}.

(** [kid] describes the kernel's child [c]. *)
Record kid_of (k : Kernel) (c : Z) (kid : Kid) : Prop := {
  ko_pid : kid_pid kid = c;
  ko_zombie : zombie kid = true ↔ status_of k c = Some Zombie;
  ko_code tc : zombie kid = true → tcbs k !! c = Some tc → kid_code kid = exit_code tc;
}.

Lemma kids_find k pid l kids :
  Forall2 (kid_of k) l kids →
  list_find (reapable k pid) l = (λ x, (x.1, kid_pid x.2)) <$> list_find (λ c, zombie c && wants pid (kid_pid c)) kids.
Proof.
  induction 1 as [|c kid l kids [Hp Hz Hc] _ IH]; [done|]. cbn [list_find].
  assert (Hiff : reapable k pid c ↔ zombie kid && wants pid (kid_pid kid)).
  { unfold reapable. rewrite Hp, <-Hz, andb_True, !Is_true_true. done. }
  destruct (decide (reapable k pid c)) as [Hr|Hr].
  - rewrite decide_True by by apply Hiff. cbn. by rewrite Hp.
  - rewrite decide_False by by rewrite <-Hiff. rewrite IH. by destruct (list_find _ kids) as [[]|].
Qed.

(** Either a negative result and nothing changes, or the child that is reaped,
    its code for the caller, and the children that are left. *)
Lemma sys_waitpid_answers k p t pid ptr e kids a kids' :
  kinv k → processor k = Some p → tcbs k !! p = Some t → Forall2 (kid_of k) (children t) kids →
  waitpid_answer pid e kids = (a, kids') →
  (a.1 < 0 ∧ a.2 = e ∧ kids' = kids ∧ sys_waitpid pid ptr k = Ret (a.1, k)) ∨
  ∃ tc (K : MemorySet → Phys → Kernel), tcbs k !! a.1 = Some tc ∧ a.2 = exit_code tc ∧
    sys_waitpid pid ptr k =
      (m ← write_i32 (get_user_token t) ptr a.2 (mem (phys k));
       '(ks, ph) ← KernelStack_drop a.1 (kernel_space k) (mkPhys m (falloc (phys k)));
       ph ← drop_memory_set (memory_set tc) ph;
       Ret (a.1, K ks ph)) ∧
    ∀ ks ph, tcbs (K ks ph) = delete a.1 (<[p := set_children (kid_pid <$> kids') t]> (tcbs k)).
Proof.
  intros Hk Hp Ht Hkids. destruct (waitpid_idle k p pid ptr Hk Hp) as [H1 H2].
  assert (Hch : children_of k p = children t) by (unfold children_of; by rewrite Ht). rewrite Hch in H1, H2.
  assert (Hpids : children t = kid_pid <$> kids).
  { clear -Hkids. induction Hkids as [|c kid l kids [Hc _ _] _ IH]; [done|]. by rewrite fmap_cons, Hc, IH. }
  assert (Hex : existsb (λ c, wants pid (kid_pid c)) kids = existsb (wants pid) (children t)).
  { rewrite Hpids. clear. induction kids as [|c kids IH]; [done|]. simpl. by rewrite IH. }
  unfold waitpid_answer. rewrite Hex. pose proof (kids_find k pid _ _ Hkids) as Hfind.
  destruct (existsb (wants pid) (children t)) eqn:Ew; cbn [negb].
  2: { intros [= <- <-]. left. split_and!; try done. apply H1. intros c Hc. destruct (wants pid c) eqn:Hw; [|done].
       assert (existsb (wants pid) (children t) = true); [apply existsb_wants; by exists c|congruence]. }
  destruct (list_find _ kids) as [[i kid]|] eqn:Hf; intros [= <- <-]; cbn [fmap option_fmap option_map fst snd] in *.
  - right. pose proof Hfind as Hr. apply list_find_Some in Hr as (Hi & [Hz _] & _). destruct (status_live _ _ _ Hz) as [tc Htc].
    destruct (waitpid_reap k p pid ptr t i (kid_pid kid) tc Hk Hp Ht Htc Hfind) as (K & E & HK).
    apply list_find_Some in Hf as (Hik & Hzk & _). apply andb_prop_elim in Hzk as [Hzk _].
    destruct (Forall2_lookup_r _ _ _ _ _ Hkids Hik) as (c & Hc & [Hcp Hcz Hcc]).
    assert (Hcode : kid_code kid = exit_code tc) by (apply Hcc; [by apply Is_true_eq_true|by rewrite <-Hcp]).
    exists tc, K. rewrite Hcode. split_and!; try done. intros ks ph. destruct (HK ks ph) as (_ & _ & _ & -> & _).
    by rewrite Hpids, list_fmap_delete.
  - left. split_and!; try done. apply H2; [by apply existsb_wants|].
    apply list_find_None in Hfind. rewrite Forall_forall in Hfind. exact Hfind.
Qed.
End Kernel.
