(* ===== verification/Programs.v ===== *)
(** * User programs: the shell, init and the waiting loops of the library

    ([user/src/bin/user_shell.rs], [initproc.rs], and [wait], [waitpid],
    [sleep] and [main]'s frame in [user/src/lib.rs].)  A program is an
    interaction tree whose events are its calls to the kernel. *)

From ITree Require Import ITree.
From stdpp Require Import pretty.
From S2P Require Import Prelude.

#[global] Instance itree_mret E : MRet (itree E) := λ A a, go (RetF a).
#[global] Instance itree_mbind E : MBind (itree E) := λ A B f t, ITree.bind t f.

(** ** The calls *)

(** [getchar] reads one byte from standard input; the characters of one [print!]
    reach the kernel in as many writes as [core::fmt] cares to make; [waitpid]
    gives its result and the exit code variable after the call; [EPanic] is
    the panic handler, which prints and exits with -1. *)
Inductive callE : Type → Type :=
  | EGetchar : callE Z
  | EPrint (cs : list Z) : callE unit
  | EFork : callE Z
  | EExec (path : list Z) : callE Z
  | EWaitpid (pid exit_code : Z) : callE (Z * Z)
  | EYield : callE Z
  | EGetTime : callE Z
  | EExit (code : Z) : callE void
  | EPanic : callE void.

(** Characters are their code points. *)
Definition chars (s : string) : list Z := (λ b, Z_of_byte b) <$> String.list_byte_of_string s.
Definition print (cs : list Z) : itree callE unit := ITree.trigger (EPrint cs).
Definition println (cs : list Z) : itree callE unit := print (cs ++ [10]).
Definition panic {R} : itree callE R := v ← ITree.trigger EPanic; match v : void with end.
Definition display (z : Z) : list Z := chars (pretty z).

(** ** The library ([user/src/lib.rs]) *)
Definition waitpid_loop (pid : Z) : Z → itree callE (Z * Z) :=
  ITree.iter (λ exit_code,
    '(r, exit_code) ← ITree.trigger (EWaitpid pid exit_code);
    if r =? -2 then _ ← ITree.trigger EYield; mret (inl exit_code) else mret (inr (r, exit_code))).

(** [wait] and [waitpid]: the result and the exit code variable; a pid becomes
    an [isize]. *)
Definition wait (exit_code : Z) : itree callE (Z * Z) := waitpid_loop (-1) exit_code.
Definition waitpid (pid exit_code : Z) : itree callE (Z * Z) := waitpid_loop (as_i64 pid) exit_code.

(** The loop of [sleep], until [finish]. *)
Definition sleep_until (finish : Z) : itree callE unit :=
  ITree.iter (λ _,
    now ← ITree.trigger EGetTime;
    if now <? finish then _ ← ITree.trigger EYield; mret (inl tt) else mret (inr tt)) tt.
Definition sleep (period_ms : Z) : itree callE unit :=
  start ← ITree.trigger EGetTime; sleep_until (as_i64 (start + as_i64 period_ms)).

(** [_start]: the value of [main] is the exit code. *)
Definition start (main : itree callE Z) : itree callE Z :=
  code ← main; v ← ITree.trigger (EExit code); match v : void with end.

(** ** [initproc] *)
Definition init_turn (_ : unit) : itree callE (unit + Z) :=
  '(pid, exit_code) ← wait 0;
  if pid =? -1 then _ ← ITree.trigger EYield; mret (inl tt)
  else
    _ ← println (chars "[initproc] Released a zombie process, pid=" ++ display pid ++ chars ", exit_code=" ++ display exit_code);
    mret (inl tt).

Definition init_main : itree callE Z :=
  pid ← ITree.trigger EFork;
  if pid =? 0 then _ ← ITree.trigger (EExec (chars "user_shell" ++ [0])); mret 0
  else ITree.iter init_turn tt.

(** ** The shell *)
Definition LF : Z := 0x0a.
Definition CR : Z := 0x0d.
Definition DL : Z := 0x7f.
Definition BS : Z := 0x08.

(** [char::is_whitespace] below U+0100, and [str::trim]. *)
Definition is_whitespace (c : Z) : bool :=
  ((9 <=? c) && (c <=? 13)) || (c =? 32) || (c =? 0x85) || (c =? 0xa0).
Fixpoint trim_start (l : list Z) : list Z :=
  match l with
  | [] => []
  | c :: l' => if is_whitespace c then trim_start l' else l
  end.
Definition trim (l : list Z) : list Z := reverse (trim_start (reverse (trim_start l))).

(** Running a command; [inr] is a return from [main]. *)
Definition shell_run (cmd : list Z) : itree callE (list Z + Z) :=
  pid ← ITree.trigger EFork;
  if pid =? 0 then
    r ← ITree.trigger (EExec (cmd ++ [0]));
    if r =? -1 then _ ← println (chars "Error when executing!"); mret (inr (-4)) else panic
  else
    '(exit_pid, exit_code) ← waitpid (usize pid) 0;
    if pid =? exit_pid then
      _ ← println (chars "Shell: Process " ++ display pid ++ chars " exited with code " ++ display exit_code);
      mret (inl [])
    else panic.

Definition shell_turn (line : list Z) : itree callE (list Z + Z) :=
  c ← ITree.trigger EGetchar;
  if (c =? LF) || (c =? CR) then
    _ ← println [];
    let trimmed := trim line in
    r ← (if bool_decide (trimmed = []) then mret (inl line) else shell_run trimmed);
    match r with
    | inl line => _ ← print (chars ">> "); mret (inl line)
    | inr code => mret (inr code)
    end
  else if (c =? BS) || (c =? DL) then
    if bool_decide (line = []) then mret (inl line)
    else _ ← print [BS]; _ ← print [32]; _ ← print [BS]; mret (inl (removelast line))
  else _ ← print [c]; mret (inl (line ++ [c])).

Definition shell_main : itree callE Z :=
  _ ← println (chars "Rust user shell");
  _ ← print (chars ">> ");
  ITree.iter shell_turn [].

(** ** [usertests] *)
Fixpoint run_tests (tests : list (list Z * Z)) (pass_num : Z) : itree callE Z :=
  match tests with
  | [] => mret pass_num
  | (name, expected) :: tests =>
      _ ← println (chars "Usertests: Running " ++ name ++ [0]);
      pid ← ITree.trigger EFork;
      if pid =? 0 then _ ← ITree.trigger (EExec (name ++ [0])); panic
      else
        '(wait_pid, exit_code) ← waitpid (usize pid) 0;
        if negb (pid =? wait_pid) then panic else
        let pass_num := if exit_code =? expected then pass_num + 1 else pass_num in
        _ ← println ([27] ++ chars "[32mUsertests: Test " ++ name ++ [0] ++ chars " in Process " ++ display pid ++
                     chars " exited with code " ++ display exit_code ++ [27] ++ chars "[0m");
        run_tests tests pass_num
  end.

Definition SUCC_TESTS : list (list Z * Z) :=
  (λ name, (chars name, 0)) <$>
  ["filetest_simple"; "cat_filea"; "exit"; "fantastic_text"; "forktest_simple"; "forktest"; "forktest2"; "forktree";
   "hello_world"; "huge_write"; "matrix"; "sleep_simple"; "sleep"; "yield"]%string.
Definition FAIL_TESTS : list (list Z * Z) := [(chars "stack_overflow", -2)].

Definition verdict (succ_num err_num : Z) : itree callE Z :=
  let nsucc := Z.of_nat (length SUCC_TESTS) in
  let nerr := Z.of_nat (length FAIL_TESTS) in
  if (succ_num =? nsucc) && (err_num =? nerr) then
    _ ← println (display nsucc ++ chars " of sueecssed apps, " ++ display nerr ++ chars " of failed apps run correctly. " ++ [10] ++
                 chars "Usertests passed!");
    mret 0
  else
    _ ← (if negb (succ_num =? nsucc)
         then println (chars "all successed app_num is  " ++ display nsucc ++ chars " , but only  passed " ++ display succ_num)
         else mret tt);
    _ ← (if negb (err_num =? nerr)
         then println (chars "all failed app_num is  " ++ display nerr ++ chars " , but only  passed " ++ display err_num)
         else mret tt);
    _ ← println (chars " Usertests failed!");
    mret (-1).

Definition usertests_main : itree callE Z :=
  succ_num ← run_tests SUCC_TESTS 0;
  err_num ← run_tests FAIL_TESTS 0;
  verdict succ_num err_num.
