(* ===== verification/ProgramThms.v ===== *)
(** * Theorems on the user programs

    [run] plays a program of [Programs] against a script of what happens to it
    and collects what it prints and what its children execute; [waitpid] is
    answered from the children the program has, the way the kernel answers
    it ([WaitModel]).  The shell, init and the test runner are specified by
    what they do then. *)

From ITree Require Import ITree.
From stdpp Require Import pretty.
From S2P Require Import Prelude TaskLife WaitModel Programs.

(** ** Playing a program against a script

    The script holds the keys to be typed, the children that the coming forks
    make, each with its fate, the children of dead descendants that the
    process is given before each coming call of [waitpid], and the times.
    [kids] are the children now, in the order of the kernel's list; after a
    call of [waitpid] each of them is one call older.  At a fork both
    continuations are followed: the child's up to the program it executes,
    which is recorded in [started], then the parent's. *)
Record World : Type := mkWorld {
  keys : list Z;
  forks : list Kid;
  kids : list Kid;
  adoptions : list (list Kid);
  times : list Z;
  printed : list Z;
  started : list (list Z);
}.

(** Why a program stopped: [Blocked] is a call the script has no answer for. *)
Inductive Stop (R : Type) : Type :=
  | Done (r : R)
  | Blocked
  | Execs (path : list Z)
  | Exits (code : Z)
  | Panics.
Arguments Done {R} r.
Arguments Blocked {R}.
Arguments Execs {R} path.
Arguments Exits {R} code.
Arguments Panics {R}.

Definition set_keys l w := mkWorld l (forks w) (kids w) (adoptions w) (times w) (printed w) (started w).
Definition set_forks l w := mkWorld (keys w) l (kids w) (adoptions w) (times w) (printed w) (started w).
Definition set_kids cs w := mkWorld (keys w) (forks w) cs (adoptions w) (times w) (printed w) (started w).
Definition set_adoptions l w := mkWorld (keys w) (forks w) (kids w) l (times w) (printed w) (started w).
Definition set_times l w := mkWorld (keys w) (forks w) (kids w) (adoptions w) l (printed w) (started w).
Definition shows cs w := mkWorld (keys w) (forks w) (kids w) (adoptions w) (times w) (printed w ++ cs) (started w).
(** After a fork: the parent has the child, the child has no children. *)
Definition parent_of c l w := set_kids (kids w ++ [c]) (set_forks l w).
Definition child_world w := set_kids [] w.
(** After a call of [waitpid] that leaves the children [cs]. *)
Definition waited cs l w := set_kids (older <$> cs) (set_adoptions l w).
Definition starts p w := mkWorld (keys w) (forks w) (kids w) (adoptions w) (times w) (printed w) (started w ++ [p]).

Fixpoint run {R} (n : nat) (t : itree callE R) (w : World) : option (Stop R * World) :=
  match n with
  | O => None
  | S n =>
      match observe t with
      | RetF r => Some (Done r, w)
      | TauF t => run n t w
      | VisF e k =>
          match e in callE X return (X → itree callE R) → option (Stop R * World) with
          | EGetchar => λ k, match keys w with [] => Some (Blocked, w) | c :: l => run n (k c) (set_keys l w) end
          | EPrint cs => λ k, run n (k tt) (shows cs w)
          | EFork => λ k,
              match forks w with
              | [] => Some (Blocked, w)
              | c :: l =>
                  match run n (k 0) (child_world w) with
                  | Some (Execs path, _) => run n (k (kid_pid c)) (starts path (parent_of c l w))
                  | _ => None
                  end
              end
          | EExec path => λ _, Some (Execs path, w)
          | EWaitpid pid exit_code => λ k,
              match adoptions w with
              | [] => Some (Blocked, w)
              | adopted :: l =>
                  let '(a, cs) := waitpid_answer pid exit_code (kids w ++ adopted) in run n (k a) (waited cs l w)
              end
          | EYield => λ k, run n (k 0) w
          | EGetTime => λ k, match times w with [] => Some (Blocked, w) | z :: l => run n (k z) (set_times l w) end
          | EExit code => λ _, Some (Exits code, w)
          | EPanic => λ _, Some (Panics, w)
          end k
      end
  end.

Lemma shows_nil w : shows [] w = w.
Proof. destruct w. unfold shows. simpl. by rewrite app_nil_r. Qed.

(** The program comes to this end, with enough steps. *)
Definition plays {R} (t : itree callE R) (w : World) (x : Stop R * World) : Prop := ∃ n, run n t w = Some x.

Lemma run_mono {R} n : ∀ m (t : itree callE R) w x, run n t w = Some x → (n ≤ m)%nat → run m t w = Some x.
Proof.
  induction n as [|n IH]; intros m t w x H Hm; [done|]. destruct m as [|m]; [lia|]. simpl in *.
  destruct (observe t) as [r|t'|X e k]; [done|by apply IH; [|lia]|].
  destruct e; try done; try (apply IH; [done|lia]).
  - destruct (keys w); [done|]. apply IH; [done|lia].
  - destruct (forks w); [done|]. destruct (run n (k 0) (child_world w)) as [[[] w1]|] eqn:E; try done.
    rewrite (IH m _ _ _ E) by lia. apply IH; [done|lia].
  - destruct (adoptions w) as [|ad l]; [done|]. destruct (waitpid_answer _ _ _). apply IH; [done|lia].
  - destruct (times w); [done|]. apply IH; [done|lia].
Qed.

(** A program does what its first observation says. *)
Lemma plays_observe {R} (t t' : itree callE R) w x : observe t = observe t' → plays t' w x → plays t w x.
Proof. intros H [[|n] Hn]; [done|]. exists (S n). simpl in *. by rewrite H. Qed.

Lemma plays_ret {R} (r : R) w : plays (mret r) w (Done r, w).
Proof. by exists 1%nat. Qed.

Lemma plays_tau {R} (t t' : itree callE R) w x : observe t = TauF t' → plays t' w x → plays t w x.
Proof. intros Ho [n H]. exists (S n). simpl. by rewrite Ho. Qed.

(** One rule for each call. *)
Section Calls.
Context {R : Type} (t : itree callE R) (w : World) (x : Stop R * World).

Lemma plays_getchar h c l :
  observe t = VisF EGetchar h → keys w = c :: l → plays (h c) (set_keys l w) x → plays t w x.
Proof. intros H E [n Hn]. exists (S n). simpl. by rewrite H, E. Qed.
Lemma plays_print cs h : observe t = VisF (EPrint cs) h → plays (h tt) (shows cs w) x → plays t w x.
Proof. intros H [n Hn]. exists (S n). simpl. by rewrite H. Qed.
Lemma plays_fork h c l path w1 :
  observe t = VisF EFork h → forks w = c :: l → plays (h 0) (child_world w) (Execs path, w1) →
  plays (h (kid_pid c)) (starts path (parent_of c l w)) x → plays t w x.
Proof.
  intros H E [n Hn] [m Hm]. exists (S (n + m)). simpl. rewrite H, E. rewrite (run_mono n (n + m) _ _ _ Hn) by lia.
  apply (run_mono m); [done|lia].
Qed.
Lemma plays_waitpid pid exit_code h adopted l a cs :
  observe t = VisF (EWaitpid pid exit_code) h → adoptions w = adopted :: l →
  waitpid_answer pid exit_code (kids w ++ adopted) = (a, cs) → plays (h a) (waited cs l w) x → plays t w x.
Proof. intros H E Ea [n Hn]. exists (S n). simpl. by rewrite H, E, Ea. Qed.
Lemma plays_yield h : observe t = VisF EYield h → plays (h 0) w x → plays t w x.
Proof. intros H [n Hn]. exists (S n). simpl. by rewrite H. Qed.
Lemma plays_time h z l : observe t = VisF EGetTime h → times w = z :: l → plays (h z) (set_times l w) x → plays t w x.
Proof. intros H E [n Hn]. exists (S n). simpl. by rewrite H, E. Qed.
End Calls.

Section Stops.
Context {R : Type} (t : itree callE R) (w : World).

Lemma no_key h : observe t = VisF EGetchar h → keys w = [] → plays t w (Blocked, w).
Proof. intros H E. exists 1%nat. simpl. by rewrite H, E. Qed.
Lemma no_fork h : observe t = VisF EFork h → forks w = [] → plays t w (Blocked, w).
Proof. intros H E. exists 1%nat. simpl. by rewrite H, E. Qed.
Lemma no_wait pid code h : observe t = VisF (EWaitpid pid code) h → adoptions w = [] → plays t w (Blocked, w).
Proof. intros H E. exists 1%nat. simpl. by rewrite H, E. Qed.
Lemma no_time h : observe t = VisF EGetTime h → times w = [] → plays t w (Blocked, w).
Proof. intros H E. exists 1%nat. simpl. by rewrite H, E. Qed.
Lemma plays_exec path h : observe t = VisF (EExec path) h → plays t w (Execs path, w).
Proof. intros H. exists 1%nat. simpl. by rewrite H. Qed.
Lemma plays_exit code h : observe t = VisF (EExit code) h → plays t w (Exits code, w).
Proof. intros H. exists 1%nat. simpl. by rewrite H. Qed.
Lemma plays_panic h : observe t = VisF EPanic h → plays t w (Panics, w).
Proof. intros H. exists 1%nat. simpl. by rewrite H. Qed.
End Stops.

Lemma observe_bind {A B} (t : itree callE A) (k : A → itree callE B) :
  observe (t ≫= k) =
    match observe t with
    | RetF r => observe (k r)
    | TauF t => TauF (t ≫= k)
    | VisF e h => VisF e (λ x, h x ≫= k)
    end.
Proof.
  trans (observe (match observe t with
                  | RetF r => k r
                  | TauF t => Tau (t ≫= k)
                  | VisF e h => Vis e (λ x, h x ≫= k)
                  end)); [reflexivity|by destruct (observe t)].
Qed.

(** A program that stops in a call stops there whatever would follow. *)
Lemma run_bind {A B} (k : A → itree callE B) n : ∀ t w s w1,
  run n t w = Some (s, w1) →
  match s with
  | Done a => ∀ x, plays (k a) w1 x → plays (t ≫= k) w x
  | Blocked => plays (t ≫= k) w (Blocked, w1)
  | Execs path => plays (t ≫= k) w (Execs path, w1)
  | Exits code => plays (t ≫= k) w (Exits code, w1)
  | Panics => plays (t ≫= k) w (Panics, w1)
  end.
Proof.
  induction n as [|n IH]; intros t w s w1 H; [done|]. simpl in H.
  assert (Hstep : ∀ t' : itree callE A, ∀ w', run n t' w' = Some (s, w1) →
    (∀ x, plays (t' ≫= k) w' x → plays (t ≫= k) w x) →
    match s with
    | Done a => ∀ x, plays (k a) w1 x → plays (t ≫= k) w x
    | Blocked => plays (t ≫= k) w (Blocked, w1)
    | Execs path => plays (t ≫= k) w (Execs path, w1)
    | Exits code => plays (t ≫= k) w (Exits code, w1)
    | Panics => plays (t ≫= k) w (Panics, w1)
    end).
  { intros t' w' Ht Hgo. apply IH in Ht. destruct s; eauto. }
  pose proof (observe_bind t k) as Hb. destruct (observe t) as [r|t'|X e h].
  - injection H as <- <-. intros x Hx. by apply (plays_observe _ _ _ _ Hb).
  - apply (Hstep t' w H). intros x ?. by eapply plays_tau.
  - destruct e; simpl in H.
    + destruct (keys w) as [|c l] eqn:E; [injection H as <- <-; by eapply no_key|].
      apply (Hstep _ _ H). intros x ?. by eapply plays_getchar.
    + apply (Hstep _ _ H). intros x ?. by eapply plays_print.
    + destruct (forks w) as [|p l] eqn:E; [injection H as <- <-; by eapply no_fork|].
      destruct (run n (h 0) (child_world w)) as [[[] w2]|] eqn:Ec; try done. apply IH in Ec.
      apply (Hstep _ _ H). intros x ?. by eapply plays_fork.
    + injection H as <- <-. by eapply plays_exec.
    + destruct (adoptions w) as [|ad l] eqn:E; [injection H as <- <-; by eapply no_wait|].
      destruct (waitpid_answer _ _ _) as [a cs] eqn:Ea.
      apply (Hstep _ _ H). intros x ?. by eapply plays_waitpid.
    + apply (Hstep _ _ H). intros x ?. by eapply plays_yield.
    + destruct (times w) as [|z l] eqn:E; [injection H as <- <-; by eapply no_time|].
      apply (Hstep _ _ H). intros x ?. by eapply plays_time.
    + injection H as <- <-. by eapply plays_exit.
    + injection H as <- <-. by eapply plays_panic.
Qed.

Lemma plays_bind {A B} (t : itree callE A) (k : A → itree callE B) w a w1 x :
  plays t w (Done a, w1) → plays (k a) w1 x → plays (t ≫= k) w x.
Proof. intros [n H] Hx. by apply (run_bind k n _ _ _ _ H). Qed.

Lemma plays_bind_blocked {A B} (t : itree callE A) (k : A → itree callE B) w w1 :
  plays t w (Blocked, w1) → plays (t ≫= k) w (Blocked, w1).
Proof. intros [n H]. by apply (run_bind k n _ _ _ _ H). Qed.

(** A loop goes round, or ends. *)
Lemma observe_iter {R I} (body : I → itree callE (I + R)) i :
  observe (ITree.iter body i) =
    observe (ITree.bind (body i) (λ lr, match lr with inl j => Tau (ITree.iter body j) | inr r => go (RetF r) end)).
Proof. reflexivity. Qed.

Lemma plays_iter_next {R I} (body : I → itree callE (I + R)) i w j w1 x :
  plays (body i) w (Done (inl j), w1) → plays (ITree.iter body j) w1 x → plays (ITree.iter body i) w x.
Proof.
  intros H Hx. eapply plays_observe; [apply observe_iter|]. eapply (plays_bind (body i)); [exact H|].
  by eapply plays_tau.
Qed.

Lemma plays_iter_end {R I} (body : I → itree callE (I + R)) i w r w1 :
  plays (body i) w (Done (inr r), w1) → plays (ITree.iter body i) w (Done r, w1).
Proof.
  intros H. eapply plays_observe; [apply observe_iter|]. eapply (plays_bind (body i)); [exact H|]. by exists 1%nat.
Qed.

Lemma plays_iter_blocked {R I} (body : I → itree callE (I + R)) i w w1 :
  plays (body i) w (Blocked, w1) → plays (ITree.iter body i) w (Blocked, w1).
Proof.
  intros H. eapply plays_observe; [apply observe_iter|]. by apply (plays_bind_blocked (body i)).
Qed.

(** The rules for a call followed by a continuation. *)
Lemma then_ret {A B} (a : A) (k : A → itree callE B) w x : plays (k a) w x → plays (mret a ≫= k) w x.
Proof. by apply plays_observe. Qed.

Lemma observe_then {X B} (e : callE X) (k : X → itree callE B) :
  observe (ITree.trigger e ≫= k) = VisF e (λ y, mret y ≫= k).
Proof. reflexivity. Qed.

Section Then.
Context {B : Type} (w : World) (x : Stop B * World).

Lemma then_getchar k c l :
  keys w = c :: l → plays (k c) (set_keys l w) x → plays (ITree.trigger EGetchar ≫= k) w x.
Proof. intros E H. eapply plays_getchar; [apply observe_then|exact E|]. by apply then_ret. Qed.
Lemma then_print k cs : plays (k tt) (shows cs w) x → plays (print cs ≫= k) w x.
Proof. intros H. eapply plays_print; [apply observe_then|]. by apply then_ret. Qed.
Lemma then_fork k c l path w1 :
  forks w = c :: l → plays (k 0) (child_world w) (Execs path, w1) → plays (k (kid_pid c)) (starts path (parent_of c l w)) x →
  plays (ITree.trigger EFork ≫= k) w x.
Proof. intros E H0 H. eapply plays_fork; [apply observe_then|exact E|apply then_ret, H0|by apply then_ret]. Qed.
Lemma then_waitpid k pid exit_code adopted l a cs :
  adoptions w = adopted :: l → waitpid_answer pid exit_code (kids w ++ adopted) = (a, cs) → plays (k a) (waited cs l w) x →
  plays (ITree.trigger (EWaitpid pid exit_code) ≫= k) w x.
Proof. intros E Ea H. eapply plays_waitpid; [apply observe_then|exact E|exact Ea|]. by apply then_ret. Qed.
Lemma then_yield k : plays (k 0) w x → plays (ITree.trigger EYield ≫= k) w x.
Proof. intros H. eapply plays_yield; [apply observe_then|]. by apply then_ret. Qed.
Lemma then_time k z l :
  times w = z :: l → plays (k z) (set_times l w) x → plays (ITree.trigger EGetTime ≫= k) w x.
Proof. intros E H. eapply plays_time; [apply observe_then|exact E|]. by apply then_ret. Qed.
End Then.

Lemma then_exec {B} (k : Z → itree callE B) path w : plays (ITree.trigger (EExec path) ≫= k) w (Execs path, w).
Proof. eapply plays_exec, observe_then. Qed.
Lemma then_exit {B} (k : void → itree callE B) code w : plays (ITree.trigger (EExit code) ≫= k) w (Exits code, w).
Proof. eapply plays_exit, observe_then. Qed.

(** ** [wait], [waitpid], [sleep] *)

(** Children some calls later. *)
Definition age (n : nat) (cs : list Kid) : list Kid := Nat.iter n (fmap older) cs.

Lemma age_S n cs : age (S n) cs = age n (older <$> cs).
Proof. unfold age. by rewrite Nat.iter_succ_r. Qed.

Lemma age_add n m cs : age (n + m) cs = age m (age n cs).
Proof. unfold age. by rewrite Nat.add_comm, Nat.iter_add. Qed.

Lemma age_nil n : age n [] = [].
Proof. induction n as [|n IH]; [done|]. by rewrite age_S. Qed.

Lemma pids_age n cs : kid_pid <$> age n cs = kid_pid <$> cs.
Proof.
  revert cs. induction n as [|n IH]; intros cs; [done|]. rewrite age_S, IH, <-list_fmap_compose. by apply list_fmap_ext.
Qed.

(** Waiting for one child among others: it runs, or it has exited. *)
Section OneChild.
Context (pid code : Z) (Hp : 0 < pid < 2 ^ 63).

Lemma wants_pid c : wants pid c = true ↔ c = pid.
Proof.
  unfold wants. rewrite orb_true_iff, !Z.eqb_eq, wrap_small by lia. lia.
Qed.

Lemma answer_child bg e (n : nat) :
  pid ∉ kid_pid <$> bg →
  waitpid_answer pid e (bg ++ [mkKid pid (Some n) code]) =
    match n with O => ((pid, code), bg) | S _ => ((-2, e), bg ++ [mkKid pid (Some n) code]) end.
Proof.
  intros Hbg. unfold waitpid_answer.
  assert (Hex : existsb (λ c, wants pid (kid_pid c)) (bg ++ [mkKid pid (Some n) code]) = true).
  { rewrite existsb_app. simpl. rewrite (proj2 (wants_pid pid)) by done. apply orb_true_r. }
  rewrite Hex. cbn [negb].
  rewrite list_find_app_r.
  - cbn [list_find kid_pid]. unfold zombie. cbn [kid_left]. rewrite (proj2 (wants_pid pid)) by done. destruct n as [|n].
    + rewrite decide_True by done. cbn. by rewrite delete_middle, app_nil_r.
    + rewrite decide_False by (intros []). done.
  - apply list_find_None, Forall_forall. intros c Hc [_ Hw%Is_true_true]%andb_True. apply wants_pid in Hw. apply Hbg.
    rewrite <-Hw. by apply list_elem_of_fmap_2.
Qed.

Lemma waitpid_loop_plays turns n : ∀ bg e w,
  pid ∉ kid_pid <$> bg → kids w = bg ++ [mkKid pid (Some n) code] → adoptions w = replicate (S n) [] ++ turns →
  plays (waitpid_loop pid e) w (Done (pid, code), set_kids (age (S n) bg) (set_adoptions turns w)).
Proof.
  induction n as [|n IH]; intros bg e w Hbg Hk Hw.
  - apply plays_iter_end. eapply then_waitpid; [exact Hw|rewrite app_nil_r, Hk; exact (answer_child bg e 0 Hbg)|].
    cbn [fst snd]. rewrite (proj2 (Z.eqb_neq _ _)) by lia. apply plays_ret.
  - eapply (plays_iter_next _ _ _ e (waited (bg ++ [mkKid pid (Some (S n)) code]) (replicate (S n) [] ++ turns) w)).
    + eapply then_waitpid; [exact Hw|rewrite app_nil_r, Hk; exact (answer_child bg e (S n) Hbg)|]. apply then_yield, plays_ret.
    + rewrite age_S. apply (IH (older <$> bg) e (waited (bg ++ [mkKid pid (Some (S n)) code]) (replicate (S n) [] ++ turns) w));
        [by change (pid ∉ kid_pid <$> age 1 bg); rewrite pids_age|by unfold waited; cbn [kids set_kids]; rewrite fmap_app|done].
Qed.
End OneChild.

(** [sleep] returns at the first reading that has reached the end. *)
Lemma sleep_until_plays finish early late l : ∀ w,
  times w = early ++ late :: l → Forall (λ z, z < finish) early → finish ≤ late →
  plays (sleep_until finish) w (Done tt, set_times l w).
Proof.
  induction early as [|z early IH]; intros w Hw He Hl.
  - apply plays_iter_end. eapply then_time; [exact Hw|]. rewrite (proj2 (Z.ltb_ge _ _)) by lia. apply plays_ret.
  - inversion_clear He. eapply (plays_iter_next _ _ _ tt (set_times (early ++ late :: l) w)).
    + eapply then_time; [exact Hw|]. rewrite (proj2 (Z.ltb_lt _ _)) by lia. apply then_yield. apply plays_ret.
    + by apply (IH (set_times (early ++ late :: l) w)).
Qed.

(** ** [initproc] *)

(** Waiting for any child: what is reaped in the coming calls, and who is left. *)
Fixpoint reaped (cs : list Kid) (turns : list (list Kid)) : list Kid * list Kid :=
  match turns with
  | [] => ([], cs)
  | adopted :: turns =>
      match list_find zombie (cs ++ adopted) with
      | Some (i, c) =>
          let '(rs, cs) := reaped (older <$> delete i (cs ++ adopted)) turns in (c :: rs, cs)
      | None => reaped (older <$> (cs ++ adopted)) turns
      end
  end.

(** What init prints of a child. *)
Definition init_report (c : Kid) : list Z :=
  chars "[initproc] Released a zombie process, pid=" ++ display (kid_pid c) ++ chars ", exit_code=" ++ display (kid_code c) ++ [10].

Definition pid_ok (c : Kid) : Prop := 0 < kid_pid c.

Lemma answer_any e cs :
  waitpid_answer (-1) e cs =
    match list_find zombie cs with
    | Some (i, c) => ((kid_pid c, kid_code c), delete i cs)
    | None => ((if bool_decide (cs = []) then -1 else -2, e), cs)
    end.
Proof.
  unfold waitpid_answer. destruct cs as [|c cs]; [done|]. cbn [existsb negb]. change (wants (-1) (kid_pid c)) with true. cbn [orb negb].
  assert (Hf : list_find (λ c, zombie c && wants (-1) (kid_pid c)) (c :: cs) = list_find zombie (c :: cs)); [|by rewrite Hf].
  generalize (c :: cs). intros l. apply list_find_ext. intros x. unfold wants. simpl. by rewrite andb_true_r.
Qed.

Lemma pids_older (cs : list Kid) : Forall pid_ok (older <$> cs) ↔ Forall pid_ok cs.
Proof. by rewrite Forall_fmap. Qed.

(** [wait] returns at a child that is reaped, or when there is none. *)
Lemma wait_any_plays turns : ∀ cs e w,
  Forall pid_ok cs → Forall (Forall pid_ok) turns → kids w = cs → adoptions w = turns →
  (∃ cs', reaped cs turns = ([], cs') ∧ plays (waitpid_loop (-1) e) w (Blocked, set_kids cs' (set_adoptions [] w))) ∨
  (∃ turns' cs', (length turns' < length turns)%nat ∧ Forall pid_ok cs' ∧ Forall (Forall pid_ok) turns' ∧
     reaped cs turns = reaped cs' turns' ∧
     plays (waitpid_loop (-1) e) w (Done (-1, e), set_kids cs' (set_adoptions turns' w))) ∨
  (∃ turns' cs' c, (length turns' < length turns)%nat ∧ pid_ok c ∧ Forall pid_ok cs' ∧ Forall (Forall pid_ok) turns' ∧
     reaped cs turns = (c :: (reaped cs' turns').1, (reaped cs' turns').2) ∧
     plays (waitpid_loop (-1) e) w (Done (kid_pid c, kid_code c), set_kids cs' (set_adoptions turns' w))).
Proof.
  induction turns as [|ad turns IH]; intros cs e w Hcs Hts Hk Hw.
  - left. exists cs. split; [done|]. destruct w as [a b c d f g h]. simpl in Hk, Hw. subst.
    apply plays_iter_blocked. eapply no_wait; [apply observe_then|done].
  - apply Forall_cons in Hts as [Had Hts]. assert (Hall : Forall pid_ok (cs ++ ad)) by by apply Forall_app.
    pose proof (answer_any e (cs ++ ad)) as Ha. cbn [reaped]. destruct (list_find zombie (cs ++ ad)) as [[i c]|] eqn:Hf.
    + right; right. apply list_find_Some in Hf as (Hi & _ & _). assert (Hc : pid_ok c) by (by eapply Forall_lookup_1).
      exists turns, (older <$> delete i (cs ++ ad)), c. destruct (reaped _ turns) eqn:E.
      split_and!; [simpl; lia|done|by apply pids_older, Forall_delete|done|done|].
      apply plays_iter_end. rewrite <-Hk in Ha. eapply then_waitpid; [exact Hw|exact Ha|]. unfold pid_ok in Hc. cbn [fst snd].
      rewrite (proj2 (Z.eqb_neq _ _)) by lia. rewrite Hk. apply plays_ret.
    + rewrite <-Hk in Ha. case_bool_decide as Hn.
      * right; left. rewrite Hk in Hn, Ha. exists turns, (older <$> (cs ++ ad)). split_and!; [simpl; lia|by apply pids_older|done|done|].
        apply plays_iter_end. eapply then_waitpid; [exact Hw|rewrite Hk; exact Ha|]. apply plays_ret.
      * rewrite Hk in Ha. set (w1 := waited (cs ++ ad) turns w).
        assert (Hstep : ∀ x, plays (waitpid_loop (-1) e) w1 x → plays (waitpid_loop (-1) e) w x).
        { intros x Hx. eapply plays_iter_next; [|exact Hx].
          eapply then_waitpid; [exact Hw|rewrite Hk; exact Ha|]. apply then_yield, plays_ret. }
        destruct (IH (older <$> (cs ++ ad)) e w1) as [(cs' & E & Hp)|[(ts & cs' & Hl & A & B & E & Hp)|(ts & cs' & c & Hl & A & B & C & E & Hp)]];
          try done; [by apply pids_older|left|right; left|right; right].
        -- exists cs'. split; [done|by apply Hstep].
        -- exists ts, cs'. split_and!; try done; [simpl; lia|by apply Hstep].
        -- exists ts, cs', c. split_and!; try done; [simpl; lia|by apply Hstep].
Qed.

Lemma init_loop_plays n : ∀ turns cs w,
  (length turns < n)%nat → Forall pid_ok cs → Forall (Forall pid_ok) turns → kids w = cs → adoptions w = turns →
  plays (ITree.iter init_turn tt) w
    (Blocked, shows ((reaped cs turns).1 ≫= init_report) (set_kids (reaped cs turns).2 (set_adoptions [] w))).
Proof.
  induction n as [|n IH]; intros turns cs w Hn Hcs Hts Hk Hw; [lia|].
  destruct (wait_any_plays turns cs 0 w Hcs Hts Hk Hw)
    as [(cs' & E & Hp)|[(ts & cs' & Hl & A & B & E & Hp)|(ts & cs' & c & Hl & Hc & A & B & E & Hp)]]; rewrite E.
  - apply plays_iter_blocked, plays_bind_blocked. simpl. rewrite shows_nil. exact Hp.
  - eapply (plays_iter_next _ _ _ tt (set_kids cs' (set_adoptions ts w))).
    + eapply plays_bind; [exact Hp|]. cbn [fst snd]. apply then_yield, plays_ret.
    + by apply (IH ts cs' (set_kids cs' (set_adoptions ts w))); [lia|..].
  - pose (w1 := shows (init_report c) (set_kids cs' (set_adoptions ts w))).
    eapply (plays_iter_next _ _ _ tt w1).
    + eapply plays_bind; [exact Hp|]. cbn [fst snd]. unfold pid_ok in Hc. rewrite (proj2 (Z.eqb_neq _ _)) by lia.
      apply then_print. unfold w1, init_report. rewrite <-!app_assoc. apply plays_ret.
    + cbn [fst snd]. rewrite bind_cons.
      assert (Hx : ∀ cs2, shows (init_report c ++ cs2) (set_kids (reaped cs' ts).2 (set_adoptions [] w)) =
        shows cs2 (set_kids (reaped cs' ts).2 (set_adoptions [] w1))).
      { intros cs2. subst w1. unfold shows, set_kids, set_adoptions. cbn [keys forks kids adoptions times printed started].
        by rewrite <-app_assoc. }
      rewrite Hx. by apply (IH ts cs' w1); [lia|..].
Qed.

(** *** Who is reaped *)

(** Who a child is, apart from its age. *)
Definition ident (c : Kid) : Z * Z := (kid_pid c, kid_code c).
Definition immortal (c : Kid) : Prop := kid_left c = None.
#[global] Instance immortal_dec c : Decision (immortal c).
Proof. unfold immortal. apply _. Defined.

Lemma ident_older (cs : list Kid) : ident <$> (older <$> cs) = ident <$> cs.
Proof. rewrite <-list_fmap_compose. by apply list_fmap_ext. Qed.

Lemma immortal_older (cs : list Kid) : filter immortal (older <$> cs) = filter immortal cs.
Proof.
  induction cs as [|[p [n|] code] cs IH]; [done|..]; rewrite fmap_cons, !filter_cons.
  - rewrite !decide_False by done. exact IH.
  - rewrite !decide_True by done. by rewrite IH.
Qed.

Lemma delete_find (l : list Kid) i c : list_find zombie l = Some (i, c) → l ≡ₚ c :: delete i l.
Proof. intros (Hi & _ & _)%list_find_Some. by apply delete_Permutation. Qed.

Lemma filter_immortal_delete (l : list Kid) i c :
  list_find zombie l = Some (i, c) → filter immortal (delete i l) = filter immortal l.
Proof.
  intros (Hi & Hz & _)%list_find_Some. rewrite <-(take_drop_middle l i c Hi) at 2. rewrite delete_take_drop, !filter_app, filter_cons.
  rewrite decide_False; [done|]. intros Hm. unfold zombie in Hz. apply Is_true_true, bool_decide_eq_true in Hz. unfold immortal in Hm. congruence.
Qed.

(** Nobody is lost, nobody is reaped twice, and who never exits stays. *)
Lemma reaped_conserves turns : ∀ cs,
  (ident <$> (reaped cs turns).1) ++ (ident <$> (reaped cs turns).2) ≡ₚ ident <$> (cs ++ concat turns) ∧
  filter immortal (reaped cs turns).2 = filter immortal (cs ++ concat turns).
Proof.
  induction turns as [|ad turns IH]; intros cs; cbn [reaped concat]; [by rewrite app_nil_r|].
  destruct (list_find zombie (cs ++ ad)) as [[i c]|] eqn:Hf.
  - destruct (IH (older <$> delete i (cs ++ ad))) as [H1 H2]. destruct (reaped _ turns) as [rs cs']. cbn [fst snd] in *. split.
    + rewrite fmap_cons. cbn [app]. rewrite H1, (app_assoc cs), !fmap_app, ident_older, <-(fmap_app ident cs ad).
      rewrite app_comm_cons. apply Permutation_app_tail. symmetry.
      exact (fmap_Permutation ident _ _ (delete_find _ _ _ Hf)).
    + rewrite H2, filter_app, immortal_older, (filter_immortal_delete _ _ _ Hf), <-filter_app. by rewrite app_assoc.
  - destruct (IH (older <$> (cs ++ ad))) as [H1 H2]. split.
    + by rewrite H1, (app_assoc cs), (fmap_app ident (older <$> _)), ident_older, <-fmap_app.
    + by rewrite H2, app_assoc, filter_app, immortal_older, <-filter_app.
Qed.

Lemma reaped_app t1 t2 : ∀ cs,
  reaped cs (t1 ++ t2) =
    ((reaped cs t1).1 ++ (reaped (reaped cs t1).2 t2).1, (reaped (reaped cs t1).2 t2).2).
Proof.
  induction t1 as [|ad t1 IH]; intros cs; cbn [reaped app fst snd]; [by destruct (reaped cs t2)|].
  destruct (list_find zombie (cs ++ ad)) as [[i c]|]; [|apply IH]. rewrite IH. by destruct (reaped _ t1).
Qed.

(** How many calls reap everyone who exits. *)
Definition calls_left (c : Kid) : nat := match kid_left c with Some n => S n | None => 0 end.
Definition patience (cs : list Kid) : nat := sum_list (calls_left <$> cs).

Lemma calls_older c : (calls_left (older c) ≤ calls_left c)%nat.
Proof. unfold calls_left, older. destruct (kid_left c) as [[|n]|]; simpl; lia. Qed.

Lemma patience_older cs : (patience (older <$> cs) ≤ patience cs)%nat.
Proof.
  unfold patience. induction cs as [|c cs IH]; [done|]. rewrite !fmap_cons. cbn [sum_list]. pose proof (calls_older c). simpl in *. lia.
Qed.

Lemma patience_quiet cs : list_find zombie cs = None → (0 < patience cs)%nat → (patience (older <$> cs) < patience cs)%nat.
Proof.
  unfold patience. induction cs as [|c cs IH]; intros Hf%list_find_None Hpos; [simpl in Hpos; lia|].
  apply Forall_cons in Hf as [Hc Hf]. specialize (IH (proj2 (list_find_None _ _) Hf)).
  pose proof (patience_older cs) as Hle. unfold patience in Hle. rewrite !fmap_cons in *. simpl in *.
  assert (Hcase : calls_left c = 0%nat ∧ calls_left (older c) = 0%nat ∨ (calls_left (older c) < calls_left c)%nat).
  { unfold calls_left, older, zombie in *. destruct (kid_left c) as [[|n]|]; simpl in *; [|right; lia|by left].
    exfalso. by apply Hc. }
  lia.
Qed.

Lemma patience_zero cs : patience cs = 0%nat → filter immortal cs = cs.
Proof.
  unfold patience. induction cs as [|c cs IH]; [done|]. rewrite fmap_cons, filter_cons. simpl. intros H.
  rewrite decide_True, IH by (unfold immortal, calls_left in *; destruct (kid_left c); [lia|done]) || lia. done.
Qed.

Lemma reaped_all n : ∀ cs, (patience cs ≤ n)%nat → (reaped cs (replicate n [])).2 = filter immortal cs.
Proof.
  induction n as [|n IH]; intros cs Hn; cbn [replicate reaped]; [rewrite patience_zero; [done|lia]|]. rewrite app_nil_r.
  destruct (list_find zombie cs) as [[i c]|] eqn:Hf.
  - pose proof (IH (older <$> delete i cs)) as IH'. destruct (reaped _ _) as [rs cs']. cbn [snd] in *.
    rewrite IH', immortal_older; [by eapply filter_immortal_delete|].
    pose proof (patience_older (delete i cs)). apply delete_find in Hf as Hp. apply list_find_Some in Hf as (_ & Hz & _).
    assert (Hs : patience cs = (calls_left c + patience (delete i cs))%nat).
    { unfold patience. rewrite Hp at 1. done. }
    assert (calls_left c = 1%nat); [|lia]. unfold zombie in Hz. apply Is_true_true, bool_decide_eq_true in Hz. unfold calls_left. by rewrite Hz.
  - rewrite IH, immortal_older; [done|]. destruct (decide (patience cs = 0%nat)); [pose proof (patience_older cs); lia|].
    pose proof (patience_quiet cs Hf). lia.
Qed.

(** ** The shell *)

(** What the user typed so far, with the keys of the next line. *)
Definition is_enter (c : Z) : bool := (c =? LF) || (c =? CR).
Definition is_erase (c : Z) : bool := (c =? BS) || (c =? DL).
Definition edit (c : Z) (line : list Z) : list Z := if is_erase c then removelast line else line ++ [c].

(** The commands entered: a blank line starts none (and is not discarded). *)
Fixpoint commands (line ks : list Z) : list (list Z) :=
  match ks with
  | [] => []
  | c :: ks =>
      if is_enter c then
        if bool_decide (trim line = []) then commands line ks else trim line :: commands [] ks
      else commands (edit c line) ks
  end.

(** A child that the shell makes: its pid, for how many calls of [waitpid] it
    runs on, and its exit code.  The shell may have other children from
    before it was executed: [bg]. *)
Record Job : Type := mkJob { job_pid : Z; job_life : nat; job_code : Z }.
Definition job_kid (j : Job) : Kid := mkKid (job_pid j) (Some (job_life j)) (job_code j).
Definition job_turns (j : Job) : list (list Kid) := replicate (S (job_life j)) [].
Definition job_ok (bg : list Kid) (j : Job) : Prop := 0 < job_pid j < 2 ^ 63 ∧ job_pid j ∉ kid_pid <$> bg.

(** The other children when these jobs are done. *)
Definition after (js : list Job) (bg : list Kid) : list Kid := age (length (js ≫= job_turns)) bg.

Lemma after_cons j js bg : after (j :: js) bg = after js (age (S (job_life j)) bg).
Proof. unfold after. rewrite bind_cons, length_app, <-age_add. unfold job_turns. by rewrite length_replicate. Qed.

Lemma job_ok_age n bg j : job_ok bg j → job_ok (age n bg) j.
Proof. unfold job_ok. by rewrite pids_age. Qed.

Lemma jobs_ok_age n bg js : Forall (job_ok bg) js → Forall (job_ok (age n bg)) js.
Proof. intros H. eapply Forall_impl; [exact H|]. intros j. apply job_ok_age. Qed.

(** The echo of the keys, the reports of the jobs and the prompts. *)
Definition job_report (j : Job) : list Z :=
  chars "Shell: Process " ++ display (job_pid j) ++ chars " exited with code " ++ display (job_code j) ++ [10].
Fixpoint screen (line ks : list Z) (js : list Job) : list Z :=
  match ks with
  | [] => []
  | c :: ks =>
      if is_enter c then
        if bool_decide (trim line = []) then ([10] ++ chars ">> ") ++ screen line ks js
        else
          match js with
          | [] => [10]
          | j :: js => ([10] ++ job_report j ++ chars ">> ") ++ screen [] ks js
          end
      else if is_erase c then (if bool_decide (line = []) then [] else [BS; 32; BS]) ++ screen (removelast line) ks js
      else [c] ++ screen (line ++ [c]) ks js
  end.

Definition script (ks : list Z) (js : list Job) (bg : list Kid) (cs : list Z) (ps : list (list Z)) : World :=
  mkWorld ks (job_kid <$> js) bg (js ≫= job_turns) [] cs ps.

(** The world once the first job is started. *)
Definition launched (ks : list Z) (j : Job) (js : list Job) (bg : list Kid) (cs : list Z) (ps : list (list Z)) : World :=
  mkWorld ks (job_kid <$> js) (bg ++ [job_kid j]) ((j :: js) ≫= job_turns) [] cs ps.

(** One child from its fork to its exit. *)
Lemma job_plays {B} (k : Z * Z → itree callE B) ks j js bg cs ps x :
  job_ok bg j →
  plays (k (job_pid j, job_code j)) (script ks js (age (S (job_life j)) bg) cs ps) x →
  plays (waitpid (usize (job_pid j)) 0 ≫= k) (launched ks j js bg cs ps) x.
Proof.
  intros [Hp Hb] Hk. eapply plays_bind; [|exact Hk]. unfold waitpid.
  assert (as_i64 (usize (job_pid j)) = job_pid j) as ->.
  { unfold as_i64. rewrite wrap_idem, wrap_small by lia. destruct (Z.ltb_spec (job_pid j) (2 ^ 63)); lia. }
  exact (waitpid_loop_plays (job_pid j) (job_code j) Hp (js ≫= job_turns) (job_life j) bg 0
    (launched ks j js bg cs ps) Hb eq_refl eq_refl).
Qed.

(** The world after a few prints. *)
Local Ltac settle :=
  unfold shows, starts, script, set_forks, set_keys;
  cbn [keys forks kids adoptions times printed started]; cbn [app]; rewrite <-?app_assoc; cbn [app]; apply plays_ret.

(** What one key does. *)
Section Turns.
Context (line ks : list Z) (c : Z) (js : list Job) (bg : list Kid) (cs : list Z) (ps : list (list Z)).

Lemma turn_blank :
  is_enter c = true → trim line = [] →
  plays (shell_turn line) (script (c :: ks) js bg cs ps) (Done (inl line), script ks js bg (cs ++ ([10] ++ chars ">> ")) ps).
Proof.
  intros Hc Ht. eapply then_getchar; [done|]. unfold is_enter in Hc. rewrite Hc. apply then_print. cbv zeta.
  rewrite bool_decide_true by done. apply then_ret, then_print. settle.
Qed.

Lemma turn_run j :
  is_enter c = true → trim line ≠ [] → job_ok bg j →
  plays (shell_turn line) (script (c :: ks) (j :: js) bg cs ps)
    (Done (inl []), script ks js (age (S (job_life j)) bg) (cs ++ ([10] ++ job_report j ++ chars ">> ")) (ps ++ [trim line ++ [0]])).
Proof.
  intros Hc Ht Hj. eapply then_getchar; [done|]. unfold is_enter in Hc. rewrite Hc. apply then_print. cbv zeta.
  rewrite bool_decide_false by done.
  eapply (plays_bind (shell_run (trim line)) _ _ (inl [])
    (script ks js (age (S (job_life j)) bg) ((cs ++ [10]) ++ job_report j) (ps ++ [trim line ++ [0]]))).
  - eapply then_fork; [done|apply then_exec|]. destruct (id Hj) as [Hp Hb]. cbn [kid_pid job_kid]. rewrite (proj2 (Z.eqb_neq _ _)) by lia.
    apply (job_plays _ ks j js bg (cs ++ [10]) (ps ++ [trim line ++ [0]])); [done|]. cbn beta iota. rewrite Z.eqb_refl. apply then_print.
    unfold job_report. settle.
  - apply then_print. settle.
Qed.

Lemma turn_key :
  is_enter c = false →
  plays (shell_turn line) (script (c :: ks) js bg cs ps)
    (Done (inl (edit c line)),
     script ks js bg (cs ++ (if is_erase c then if bool_decide (line = []) then [] else [BS; 32; BS] else [c])) ps).
Proof.
  intros Hc. eapply then_getchar; [done|]. unfold is_enter in Hc. rewrite Hc. unfold edit, is_erase.
  destruct ((c =? BS) || (c =? DL)).
  - destruct (decide (line = [])) as [->|Hl].
    + rewrite app_nil_r. apply plays_ret.
    + rewrite bool_decide_false by done. apply then_print, then_print, then_print. settle.
  - apply then_print, plays_ret.
Qed.
End Turns.

Lemma shell_loop_plays ks : ∀ line js bg cs ps,
  Forall (job_ok bg) js → (length (commands line ks) ≤ length js)%nat →
  plays (ITree.iter shell_turn line) (script ks js bg cs ps)
    (Blocked, script [] (drop (length (commands line ks)) js) (after (take (length (commands line ks)) js) bg)
                (cs ++ screen line ks js) (ps ++ ((λ cmd, cmd ++ [0]) <$> commands line ks))).
Proof.
  induction ks as [|c ks IH]; intros line js bg cs ps Hjs Hn.
  { simpl. rewrite !app_nil_r. apply plays_iter_blocked. eapply no_key; [apply observe_then|done]. }
  cbn [commands screen] in *. destruct (is_enter c) eqn:Hc.
  - destruct (decide (trim line = [])) as [Ht|Ht].
    + rewrite bool_decide_true in * by done. rewrite app_assoc. eapply plays_iter_next; [by apply turn_blank|by apply IH].
    + rewrite bool_decide_false in * by done. destruct js as [|j js]; [simpl in Hn; lia|]. inversion_clear Hjs.
      rewrite (app_assoc cs), fmap_cons, (cons_middle _ ps), (app_assoc ps). cbn [length drop take]. rewrite after_cons.
      eapply plays_iter_next; [by apply turn_run|]. apply IH; [by apply jobs_ok_age|simpl in Hn; lia].
  - eapply plays_iter_next; [by apply turn_key|]. unfold edit in *.
    destruct (is_erase c); rewrite app_assoc; by apply IH.
Qed.

(** ** [usertests] *)

Definition test_report (name : list Z) (j : Job) : list Z :=
  [27] ++ chars "[32mUsertests: Test " ++ name ++ [0] ++ chars " in Process " ++ display (job_pid j) ++
  chars " exited with code " ++ display (job_code j) ++ [27] ++ chars "[0m" ++ [10].
Fixpoint tests_screen (tests : list (list Z * Z)) (js : list Job) : list Z :=
  match tests, js with
  | (name, _) :: tests, j :: js =>
      (chars "Usertests: Running " ++ name ++ [0; 10] ++ test_report name j) ++ tests_screen tests js
  | _, _ => []
  end.

(** The programs of the tests. *)
Definition names (tests : list (list Z * Z)) : list (list Z) := (λ t, t.1 ++ [0]) <$> tests.

Lemma names_app t1 t2 : names (t1 ++ t2) = names t1 ++ names t2.
Proof. apply fmap_app. Qed.

(** How many jobs exit as the tests expect. *)
Fixpoint passed (tests : list (list Z * Z)) (js : list Job) : Z :=
  match tests, js with
  | (_, expected) :: tests, j :: js => (if job_code j =? expected then 1 else 0) + passed tests js
  | _, _ => 0
  end.

Lemma run_tests_plays tests : ∀ n js js' cs ps,
  length js = length tests → Forall (job_ok []) js →
  plays (run_tests tests n) (script [] (js ++ js') [] cs ps)
    (Done (n + passed tests js), script [] js' [] (cs ++ tests_screen tests js) (ps ++ names tests)).
Proof.
  unfold names. induction tests as [|[name expected] tests IH]; intros n [|j js] js' cs ps Hl Hjs; try done.
  - simpl. rewrite !app_nil_r, Z.add_0_r. apply plays_ret.
  - inversion_clear Hjs as [|? ? Hj Hjs']. cbn [run_tests tests_screen passed]. apply then_print.
    eapply then_fork; [done|apply then_exec|]. destruct (id Hj) as [Hp Hb]. cbn [kid_pid job_kid]. rewrite (proj2 (Z.eqb_neq _ _)) by lia.
    apply (job_plays _ [] j (js ++ js') [] (cs ++ ((chars "Usertests: Running " ++ name ++ [0]) ++ [10])) (ps ++ [name ++ [0]])); [done|].
     rewrite age_nil. cbn beta iota zeta. rewrite Z.eqb_refl. cbn [negb]. apply then_print.
    rewrite fmap_cons, (cons_middle _ ps), (app_assoc ps), (app_assoc cs).
    specialize (IH (if job_code j =? expected then n + 1 else n) js js'
      (cs ++ (chars "Usertests: Running " ++ name ++ [0; 10] ++ test_report name j)) (ps ++ [name ++ [0]])).
    replace (n + ((if job_code j =? expected then 1 else 0) + passed tests js))
      with ((if job_code j =? expected then n + 1 else n) + passed tests js) by (destruct (_ =? _); lia).
    unfold test_report in *. rewrite <-?app_assoc in *. cbn [app] in *.
    unfold shows, starts, script, set_forks in *. cbn [keys forks kids adoptions times printed started] in *. rewrite <-?app_assoc. cbn [app].
    apply IH; [by injection Hl|done].
Qed.

Lemma verdict_plays succ err w : ∃ cs,
  plays (verdict succ err) w
    (Done (if (succ =? Z.of_nat (length SUCC_TESTS)) && (err =? Z.of_nat (length FAIL_TESTS)) then 0 else -1), shows cs w).
Proof.
  unfold verdict. cbv zeta. destruct w as [a b c d f out st].
  destruct (succ =? _), (err =? _); cbn [andb negb]; eexists;
    repeat first [apply then_print | apply then_ret | apply plays_ret]; unfold shows;
    cbn [keys forks kids adoptions times printed started]; rewrite <-?app_assoc; try apply plays_ret.
Qed.

Lemma passed_all tests : ∀ js,
  length js = length tests →
  passed tests js ≤ Z.of_nat (length tests) ∧
  (passed tests js = Z.of_nat (length tests) ↔ Forall2 (λ t j, job_code j = t.2) tests js).
Proof.
  induction tests as [|[name e] tests IH]; intros [|j js] Hl; try done.
  destruct (IH js) as [Hle Hiff]; [by injection Hl|]. cbn [passed length]. split; [destruct (_ =? _); lia|].
  rewrite Forall2_cons. cbn [snd]. rewrite <-Hiff. destruct (Z.eqb_spec (job_code j) e); lia.
Qed.

(** ** What [commands] reads *)
Lemma trim_start_blank a l : Forall (λ c, is_whitespace c = true) a → trim_start (a ++ l) = trim_start l.
Proof. intros Ha. induction Ha as [|c a Hc _ IH]; [done|]. simpl. by rewrite Hc. Qed.

Lemma trim_start_word c l : is_whitespace c = false → trim_start (c :: l) = c :: l.
Proof. intros Hc. simpl. by rewrite Hc. Qed.

(** A word: it does not begin or end with a blank. *)
Definition word (cmd : list Z) : Prop :=
  (∃ c l, cmd = c :: l ∧ is_whitespace c = false) ∧ (∃ c l, cmd = l ++ [c] ∧ is_whitespace c = false).

Lemma trim_word a cmd b :
  Forall (λ c, is_whitespace c = true) a → Forall (λ c, is_whitespace c = true) b → word cmd → trim (a ++ cmd ++ b) = cmd.
Proof.
  intros Ha Hb [(c & l & -> & Hc) (c' & l' & Hl & Hc')]. unfold trim. rewrite trim_start_blank by done.
  cbn [app]. rewrite trim_start_word by done. rewrite (app_comm_cons l b c), reverse_app, trim_start_blank by by apply Forall_reverse.
  rewrite Hl, reverse_snoc, trim_start_word by done. by rewrite <-reverse_snoc, reverse_involutive.
Qed.

(** Keys that stand for themselves. *)
Definition printable (c : Z) : Prop := is_enter c = false ∧ is_erase c = false.

Lemma commands_type text : ∀ line ks, Forall printable text → commands line (text ++ ks) = commands (line ++ text) ks.
Proof.
  induction text as [|c text IH]; intros line ks Ht; [by rewrite app_nil_r|]. inversion_clear Ht as [|? ? [He Hb] Ht'].
  cbn [app commands]. rewrite He. unfold edit. rewrite Hb. rewrite IH by done. by rewrite <-app_assoc.
Qed.

Lemma commands_erased line c ks e : printable c → is_erase e = true → commands line (c :: e :: ks) = commands line ks.
Proof.
  intros [Hc Hb] He. assert (is_enter e = false) as Hn.
  { unfold is_erase, is_enter, BS, DL, LF, CR in *. destruct (Z.eqb_spec e 0x0a), (Z.eqb_spec e 0x0d); subst; done. }
  cbn [commands]. rewrite Hc, Hn. unfold edit. rewrite Hb, He. by rewrite removelast_last.
Qed.

(** ** The theorems *)

(** C27: The shell starts the commands the user typed, and no other: with
    enough children to come, it reads all keys, and each entered line that is
    not blank makes exactly one child, which executes the line without the
    blanks around it. The shell waits for that very child, however long it
    runs and whatever other children [bg] there are, running or dead: it
    reports that child's exit code before it reads on, the child is gone and
    the others are still there; it never exits and never panics. A word typed
    between blanks and followed by return is a command, and a character typed
    and erased leaves no trace. *)
Theorem shell_runs_typed_commands ks js bg :
  Forall (job_ok bg) js → (length (commands [] ks) ≤ length js)%nat →
  let n := length (commands [] ks) in
  plays (start shell_main) (script ks js bg [] [])
    (Blocked, script [] (drop n js) (after (take n js) bg) (chars "Rust user shell" ++ [10] ++ chars ">> " ++ screen [] ks js)
                ((λ cmd, cmd ++ [0]) <$> commands [] ks)) ∧
  (∀ a cmd b e ks', Forall printable (a ++ cmd ++ b) → Forall (λ c, is_whitespace c = true) a →
     Forall (λ c, is_whitespace c = true) b → word cmd → is_enter e = true →
     commands [] ((a ++ cmd ++ b) ++ e :: ks') = cmd :: commands [] ks') ∧
  (∀ line c e ks', printable c → is_erase e = true → commands line (c :: e :: ks') = commands line ks').
Proof.
  intros Hjs Hn n. split_and!; [| |by intros; apply commands_erased].
  - apply plays_bind_blocked. apply then_print, then_print.
    pose proof (shell_loop_plays ks [] js bg (chars "Rust user shell" ++ [10] ++ chars ">> ") [] Hjs Hn) as H.
    unfold shows, script in *. cbn [keys forks kids adoptions times printed started app] in *. rewrite <-!app_assoc in *. exact H.
  - intros a cmd b e ks' Hp Ha Hb Hw He. rewrite commands_type by done. cbn [app commands]. rewrite He, trim_word by done.
    rewrite bool_decide_false; [done|]. by destruct Hw as [(c & l & -> & _) _].
Qed.

(** C28: [initproc] starts the shell and then reaps every process that becomes
    its child. [all] are the shell and the children of dead processes that it
    is given before each of its calls of [waitpid]. Each call reaps the first
    child that has exited, if any ([reaped]); what is printed are the reports
    of those, once each, with pid and exit code. Nobody is lost: who is not
    reported is still a child. And nobody stays a zombie: given enough calls
    after the last arrival, everyone who exits is reported and the children
    left are exactly those that never exit. The process neither exits nor
    panics (exit of the first process would stop the machine). *)
Theorem init_reaps_for_ever shell turns :
  pid_ok shell → Forall (Forall pid_ok) turns →
  let all := shell :: concat turns in
  let ends turns rs cs := plays (start init_main) (mkWorld [] [shell] [] turns [] [] [])
    (Blocked, mkWorld [] [] cs [] [] (rs ≫= init_report) [chars "user_shell" ++ [0]]) in
  (let '(rs, cs) := reaped [shell] turns in
   ends turns rs cs ∧ (ident <$> rs) ++ (ident <$> cs) ≡ₚ ident <$> all) ∧
  ∃ calls, ∀ n, (calls ≤ n)%nat →
    ∃ rs, ends (turns ++ replicate n []) rs (filter immortal all) ∧ ident <$> rs ≡ₚ ident <$> filter (λ c, ¬ immortal c) all.
Proof.
  intros Hs Hts all ends.
  assert (Hends : ∀ turns, Forall (Forall pid_ok) turns → ends turns (reaped [shell] turns).1 (reaped [shell] turns).2).
  { intros ts Hok. apply plays_bind_blocked. eapply then_fork; [done|apply then_exec|]. unfold pid_ok in Hs.
    rewrite (proj2 (Z.eqb_neq _ _)) by lia.
    by apply (init_loop_plays (Datatypes.S (length ts)) ts [shell]
      (mkWorld [] [] [shell] ts [] [] [chars "user_shell" ++ [0]])); [lia|repeat constructor|..]. }
  split.
  - pose proof (Hends turns Hts) as He. destruct (reaped_conserves turns [shell]) as [Hp _].
    by destruct (reaped [shell] turns) as [rs cs].
  - destruct (reaped_conserves turns [shell]) as [_ Him]. exists (patience (reaped [shell] turns).2). intros n Hn.
    set (ts := turns ++ replicate n []). assert (Hok : Forall (Forall pid_ok) ts) by (apply Forall_app; split; [done|by apply Forall_replicate]).
    assert (Hcs : (reaped [shell] ts).2 = filter immortal all).
    { unfold ts. rewrite reaped_app. cbn [snd]. by rewrite reaped_all, Him. }
    exists (reaped [shell] ts).1. split; [rewrite <-Hcs; by apply Hends|].
    destruct (reaped_conserves ts [shell]) as [Hp _]. rewrite Hcs in Hp.
    assert (Hall : [shell] ++ concat ts = all).
    { unfold ts, all. rewrite concat_app. assert (Hq : concat (replicate n (@nil Kid)) = []) by (clear; by induction n).
      by rewrite Hq, app_nil_r. }
    rewrite Hall in Hp. apply (Permutation_app_inv_r (ident <$> filter immortal all)). rewrite Hp, <-fmap_app. apply fmap_Permutation.
    rewrite Permutation_app_comm. symmetry. exact (filter_app_complement immortal all).
Qed.

(** [usertests] runs every test of its lists once, in order, and exits with
    0 exactly when every test exited with the code its list expects, with -1
    otherwise. *)
Theorem usertests_verdict js :
  let tests := SUCC_TESTS ++ FAIL_TESTS in
  length js = length tests → Forall (job_ok []) js →
  ∃ w code, plays (start usertests_main) (script [] js [] [] []) (Exits code, w) ∧
    started w = names tests ∧
    (code = 0 ∨ code = -1) ∧ (code = 0 ↔ Forall2 (λ t j, job_code j = t.2) tests js).
Proof.
  intros tests Hl Hjs. pose (n := length SUCC_TESTS). pose (j1 := take n js). pose (j2 := drop n js).
  assert (E : js = j1 ++ j2) by (subst j1 j2; by rewrite take_drop).
  assert (L1 : length j1 = length SUCC_TESTS) by (subst j1 n; rewrite length_take, Hl; done).
  assert (L2 : length j2 = length FAIL_TESTS) by (subst j2 n; rewrite length_drop, Hl; done).
  clearbody j1 j2. subst js. apply Forall_app in Hjs as [H1 H2].
  destruct (passed_all SUCC_TESTS j1 L1) as [_ P1], (passed_all FAIL_TESTS j2 L2) as [_ P2].
  pose proof (run_tests_plays SUCC_TESTS 0 j1 j2 [] [] L1 H1) as R1.
  pose proof (run_tests_plays FAIL_TESTS 0 j2 [] (tests_screen SUCC_TESTS j1) (names SUCC_TESTS) L2 H2) as R2.
  rewrite app_nil_r in R2. rewrite (names_app SUCC_TESTS FAIL_TESTS : names tests = _).
  set (ok := (passed SUCC_TESTS j1 =? Z.of_nat (length SUCC_TESTS)) && (passed FAIL_TESTS j2 =? Z.of_nat (length FAIL_TESTS))).
  assert (Hv : Forall2 (λ t j, job_code j = t.2) tests (j1 ++ j2) ↔ ok = true).
  { subst ok. rewrite andb_true_iff, !Z.eqb_eq, P1, P2. unfold tests. split; [|by intros [? ?]; apply Forall2_app].
    intros H. by apply Forall2_app_inv in H; [|by rewrite L1]. }
  set (w := script [] [] [] (tests_screen SUCC_TESTS j1 ++ tests_screen FAIL_TESTS j2) (names SUCC_TESTS ++ names FAIL_TESTS)).
  destruct (verdict_plays (passed SUCC_TESTS j1) (passed FAIL_TESTS j2) w) as [cs Hend].
  exists (shows cs w), (if ok then 0 else -1).
  split_and!; [|done|destruct ok; by auto|rewrite Hv; by destruct ok].
  eapply plays_bind; [|apply then_exit]. eapply plays_bind; [exact R1|]. eapply plays_bind; [exact R2|]. exact Hend.
Qed.

(** ** Witnesses *)

(** A shell with two older children, one dead and one running. *)
Definition two_kids : list Kid := [mkKid 9 (Some 0%nat) 3; mkKid 8 (Some 5%nat) 4].

Lemma shell_runs_typed_commands_witness :
  ∃ cs, plays (start shell_main) (script (chars " lx" ++ [BS] ++ chars "s" ++ [CR; CR]) [mkJob 2 2 7] two_kids [] [])
    (Blocked, script [] [] [mkKid 9 (Some 0%nat) 3; mkKid 8 (Some 2%nat) 4] cs [chars "ls" ++ [0]]).
Proof.
  destruct (shell_runs_typed_commands (chars " lx" ++ [BS] ++ chars "s" ++ [CR; CR]) [mkJob 2 2 7] two_kids) as [H _].
  - constructor; [|constructor]. split; [simpl; lia|]. refine (bool_decide_unpack _ _). vm_compute. exact I.
  - vm_compute. lia.
  - eexists. exact H.
Defined.

(** The shell never exits; an orphan that runs and one that is dead arrive. *)
Lemma init_reaps_for_ever_witness :
  let shell := mkKid 2 None 0 in
  let turns := [[]; [mkKid 5 (Some 1%nat) (-2); mkKid 6 (Some 0%nat) 7]; []] in
  plays (start init_main) (mkWorld [] [shell] [] turns [] [] [])
    (Blocked, mkWorld [] [] [shell] [] []
      (chars "[initproc] Released a zombie process, pid=6, exit_code=7" ++ [10] ++
       chars "[initproc] Released a zombie process, pid=5, exit_code=-2" ++ [10]) [chars "user_shell" ++ [0]]).
Proof.
  intros shell turns. destruct (init_reaps_for_ever shell turns) as [H _].
  - done.
  - by repeat constructor.
  - apply H.
Defined.

Lemma usertests_verdict_witness :
  ∃ w, plays (start usertests_main) (script [] (replicate 15 (mkJob 2 1 0)) [] [] []) (Exits (-1), w).
Proof.
  destruct (usertests_verdict (replicate 15 (mkJob 2 1 0))) as (w & code & H & _ & Hc & Hv).
  - reflexivity.
  - repeat constructor; simpl; try lia; apply not_elem_of_nil.
  - destruct Hc as [-> | ->]; [|by exists w].
    exfalso. destruct Hv as [Hv _]. specialize (Hv eq_refl).
    apply (Forall2_lookup_lr _ _ _ 14%nat (chars "stack_overflow", -2) (mkJob 2 1 0)) in Hv; [|by vm_compute..]. by vm_compute in Hv.
Defined.
