(* ===== verification/TestPrograms.v ===== *)
(** * Small user programs ([user/src/bin/])

    [hello_world], [sleep_simple] and [usertests_simple], played against a
    script of the kernel's answers. *)

From ITree Require Import ITree.
From stdpp Require Import pretty.
From S2P Require Import Prelude WaitModel Programs ProgramThms.

(** ** [hello_world] *)
Definition hello_main : itree callE Z := _ ← println (chars "Hello world from user mode program!"); mret 0.

(** ** [sleep_simple] *)
Definition sleep_simple_main : itree callE Z :=
  _ ← println (chars "into sleep test!");
  start ← ITree.trigger EGetTime;
  _ ← println (chars "current time_msec = " ++ display start);
  _ ← sleep 100;
  end_ ← ITree.trigger EGetTime;
  _ ← println (chars "time_msec = " ++ display end_ ++ chars " after sleeping 100 ticks, delta = " ++
               display (as_i64 (end_ - start)) ++ chars "ms!");
  _ ← println (chars "r_sleep passed!");
  mret 0.

(** ** [usertests_simple] *)
Definition TESTS : list (list Z) :=
  chars <$> ["exit"; "fantastic_text"; "forktest"; "forktest2"; "forktest_simple"; "hello_world"; "matrix"; "sleep";
             "sleep_simple"; "stack_overflow"; "yield"]%string.

Fixpoint simple_tests (tests : list (list Z)) : itree callE unit :=
  match tests with
  | [] => mret tt
  | test :: tests =>
      _ ← println (chars "Usertests: Running " ++ test ++ [0]);
      pid ← ITree.trigger EFork;
      if pid =? 0 then _ ← ITree.trigger (EExec (test ++ [0])); panic
      else
        '(wait_pid, exit_code) ← waitpid (usize pid) 0;
        if negb (pid =? wait_pid) then panic else
        _ ← println ([27] ++ chars "[32mUsertests: Test " ++ test ++ [0] ++ chars " in Process " ++ display pid ++
                     chars " exited with code " ++ display exit_code ++ [27] ++ chars "[0m");
        simple_tests tests
  end.

Definition usertests_simple_main : itree callE Z :=
  _ ← simple_tests TESTS; _ ← println (chars "Usertests passed!"); mret 0.

(** ** What they do *)

(** [sleep_simple] returns once the clock has moved 100 ms, however often it
    has to look, and reports the time it measured around the call. *)
Lemma sleep_simple_ends t0 t1 early late t2 :
  0 ≤ t1 < 2 ^ 62 → Forall (λ z, z < t1 + 100) early → t1 + 100 ≤ late →
  ∃ cs, plays sleep_simple_main (mkWorld [] [] [] [] ([t0; t1] ++ early ++ [late; t2]) [] [])
    (Done 0, mkWorld [] [] [] [] [] cs []).
Proof.
  intros Ht He Hl. unfold sleep_simple_main. eexists. apply then_print. eapply then_time; [done|]. apply then_print.
  eapply plays_bind.
  - unfold sleep. eapply then_time; [done|]. apply (sleep_until_plays _ early late [t2]); [done| |].
    + assert (as_i64 (t1 + as_i64 100) = t1 + 100) as ->; [|done].
      change (as_i64 100) with 100. unfold as_i64. rewrite wrap_small by lia. destruct (Z.ltb_spec (t1 + 100) (2 ^ 63)); lia.
    + change (as_i64 100) with 100. unfold as_i64. rewrite wrap_small by lia. destruct (Z.ltb_spec (t1 + 100) (2 ^ 63)); lia.
  - eapply then_time; [done|]. apply then_print, then_print. apply plays_ret.
Qed.

Lemma simple_tests_play tests : ∀ js cs ps,
  length js = length tests → Forall (job_ok []) js →
  ∃ cs', plays (simple_tests tests) (script [] js [] cs ps)
    (Done tt, script [] [] [] (cs ++ cs') (ps ++ ((λ t, t ++ [0]) <$> tests))).
Proof.
  induction tests as [|test tests IH]; intros [|j js] cs ps Hl Hjs; try done.
  { exists []. simpl. rewrite !app_nil_r. apply plays_ret. }
  inversion_clear Hjs as [|? ? Hj Hjs']. destruct (id Hj) as [Hp Hb]. cbn [simple_tests].
  set (head := (chars "Usertests: Running " ++ test ++ [0]) ++ [10]).
  set (tail := ([27] ++ chars "[32mUsertests: Test " ++ test ++ [0] ++ chars " in Process " ++ display (job_pid j) ++
    chars " exited with code " ++ display (job_code j) ++ [27] ++ chars "[0m") ++ [10]).
  destruct (IH js ((cs ++ head) ++ tail) (ps ++ [test ++ [0]])) as (cs' & H); [by injection Hl|done|].
  exists (head ++ tail ++ cs').
  assert (E : cs ++ head ++ tail ++ cs' = ((cs ++ head) ++ tail) ++ cs') by (by rewrite <-!app_assoc).
  assert (E' : ps ++ ((λ t, t ++ [0]) <$> test :: tests) = (ps ++ [test ++ [0]]) ++ ((λ t, t ++ [0]) <$> tests)) by (by rewrite <-app_assoc).
  rewrite E, E'. clear E E'. apply then_print. eapply then_fork; [done|apply then_exec|]. cbn [kid_pid job_kid]. rewrite (proj2 (Z.eqb_neq _ _)) by lia.
  apply (job_plays _ [] j js [] (cs ++ head) (ps ++ [test ++ [0]])); [done|]. rewrite age_nil. cbn beta iota zeta. rewrite Z.eqb_refl. cbn [negb]. apply then_print. exact H.
Qed.

(** [usertests_simple] runs every test once, in order, and reports success
    whatever the exit codes of the tests are. *)
Theorem usertests_simple_ignores_codes js :
  length js = length TESTS → Forall (job_ok []) js →
  ∃ cs, plays (start usertests_simple_main) (script [] js [] [] [])
    (Exits 0, script [] [] [] (cs ++ chars "Usertests passed!" ++ [10]) ((λ t, t ++ [0]) <$> TESTS)).
Proof.
  intros Hl Hjs. destruct (simple_tests_play TESTS js [] [] Hl Hjs) as (cs & H). exists cs.
  eapply plays_bind; [|apply then_exit]. unfold usertests_simple_main. eapply plays_bind; [exact H|].
  apply then_print. apply plays_ret.
Qed.
