(* ===== verification/UserApi.v ===== *)
(** * The one-line functions of the user library ([user/src/lib.rs])

    A wrapper issues one stub of [UserCalls] and reads its result.  Strings
    and buffers are given by pointer and length, as the stub passes them. *)

From S2P Require Import Prelude Blocks BlockCache Address PhysMem FrameAlloc PageTable MemorySet Proto FileAttr PcbExt UserCopy ContextPath ContextArea Task Layout Efs Vfs MemDisk OsFile Blocking EventBus KernelInv AgentSched KernelSteps KernelThms Tools AgentCalls Syscall SysThms UserCalls.

Record Wrapper (R : Type) : Type := mkWrapper { issued : UserCall; decoded : Z → R }.
Arguments mkWrapper {R} issued decoded.
Arguments issued {R} w.
Arguments decoded {R} w.

(** [Result<usize, isize>] of a result register. *)
Definition err_or_usize (r : Z) : Z + Z := if r <? 0 then inl r else inr (usize r).

Module Api.
(** Files and processes. *)
Definition open (path flags : Z) : Wrapper Z := mkWrapper (u_open path flags) id.
Definition close (fd : Z) : Wrapper Z := mkWrapper (u_close fd) id.
Definition read (fd buf len : Z) : Wrapper Z := mkWrapper (u_read fd buf len) id.
Definition write (fd buf len : Z) : Wrapper Z := mkWrapper (u_write fd buf len) id.
Definition exit (exit_code : Z) : Wrapper Z := mkWrapper (u_exit exit_code) id.
Definition yield_ : Wrapper Z := mkWrapper u_yield id.
Definition get_time : Wrapper Z := mkWrapper u_get_time id.
Definition getpid : Wrapper Z := mkWrapper u_getpid id.
Definition fork : Wrapper Z := mkWrapper u_fork id.
Definition exec (path : Z) : Wrapper Z := mkWrapper (u_exec path) id.

(** Agents. *)
Definition agent_create : Wrapper Z := mkWrapper (u_agent_create 0) id.
Definition tool_list (buf len : Z) : Wrapper (Z + Z) := mkWrapper (u_tool_list buf len) err_or_usize.
Definition context_push (req req_len resp resp_len : Z) : Wrapper (Z + Z) :=
  mkWrapper (u_context_push req req_len resp resp_len) err_or_usize.
Definition context_rollback (keep_count : Z) : Wrapper Z := mkWrapper (u_context_rollback keep_count) id.
Definition context_clear : Wrapper Z := mkWrapper u_context_clear id.
Definition agent_heartbeat_set (interval_ms : Z) : Wrapper Z := mkWrapper (u_heartbeat_set interval_ms) id.
Definition agent_heartbeat_stop : Wrapper Z := mkWrapper u_heartbeat_stop id.
Definition agent_watch (event_mask : Z) : Wrapper Z := mkWrapper (u_watch event_mask) id.
Definition agent_unwatch (event_mask : Z) : Wrapper Z := mkWrapper (u_unwatch event_mask) id.
Definition agent_wait (timeout_ms : Z) : Wrapper Z :=
  mkWrapper (u_wait timeout_ms) (λ r, if r <? 0 then 0 else u32 r).
Definition mailbox_recv (buf len : Z) : Wrapper Z := mkWrapper (u_mailbox_recv buf len) id.
Definition agent_set_loop_state (state : Z) : Wrapper Z := mkWrapper (u_set_loop_state state) id.

(** File attributes; a null tag with length 0 means every attribute. *)
Definition file_attr_set_tag (name name_len tag tag_len : Z) : Wrapper Z :=
  mkWrapper (u_file_attr_set name name_len tag tag_len) id.
Definition file_attr_del_tag (name name_len tag tag_len : Z) : Wrapper Z :=
  mkWrapper (u_file_attr_del name name_len tag tag_len) id.
Definition file_attr_del_all (name name_len : Z) : Wrapper Z := mkWrapper (u_file_attr_del name name_len 0 0) id.
Definition agent_set_priority (priority : Z) : Wrapper Z := mkWrapper (u_set_priority priority) id.
Definition file_attr_bench (n iters : Z) (use_index : bool) : Wrapper Z :=
  mkWrapper (u_file_attr_bench n iters (if use_index then 1 else 0)) id.
End Api.

(** The constants of the library, a second copy of the kernel's. *)
Module Const.
Definition RDONLY : Z := 0.
Definition WRONLY : Z := Z.shiftl 1 0.
Definition RDWR : Z := Z.shiftl 1 1.
Definition CREATE : Z := Z.shiftl 1 9.
Definition TRUNC : Z := Z.shiftl 1 10.
Definition LOOP_STATE_IDLE : Z := 0.
Definition LOOP_STATE_THINKING : Z := 1.
Definition LOOP_STATE_CALLING : Z := 2.
Definition LOOP_STATE_OBSERVING : Z := 3.
Definition LOOP_STATE_DONE : Z := 4.
Definition HEARTBEAT : Z := Z.shiftl 1 0.
Definition MESSAGE : Z := Z.shiftl 1 1.
Definition FILE_MODIFIED : Z := Z.shiftl 1 2.

Lemma flags_agree : [WRONLY; RDWR; CREATE; TRUNC] = [O_WRONLY; O_RDWR; O_CREATE; O_TRUNC].
Proof. done. Qed.
Lemma events_agree : [HEARTBEAT; MESSAGE; FILE_MODIFIED] = [EVENT_HEARTBEAT; EVENT_MESSAGE; EVENT_FILE_MODIFIED].
Proof. done. Qed.
Lemma states_agree :
  [LOOP_STATE_IDLE; LOOP_STATE_THINKING; LOOP_STATE_CALLING; LOOP_STATE_OBSERVING; LOOP_STATE_DONE] =
  loop_state_code <$> [LIdle; LThinking; LCalling; LObserving; LDone].
Proof. done. Qed.
End Const.

(** [loop_state_name] of a state code. *)
Definition loop_state_name (s : Z) : string :=
  if s =? 0 then "Idle" else if s =? 1 then "Thinking" else if s =? 2 then "Calling"
  else if s =? 3 then "Observing" else if s =? 4 then "Done" else "?".

(** A code the kernel accepts has a name, and different codes have different names. *)
Lemma loop_state_name_inj s s' :
  is_Some (loop_state_of s) → loop_state_name s = loop_state_name s' → s = s'.
Proof.
  unfold loop_state_of, loop_state_name.
  destruct (Z.eqb_spec s 0), (Z.eqb_spec s 1), (Z.eqb_spec s 2), (Z.eqb_spec s 3), (Z.eqb_spec s 4);
  destruct (Z.eqb_spec s' 0), (Z.eqb_spec s' 1), (Z.eqb_spec s' 2), (Z.eqb_spec s' 3), (Z.eqb_spec s' 4);
    intros [? Hs]; (discriminate || congruence).
Qed.

Section Invoke.
Context {PF : Platform} {S : Type} `{!BlockStore S, !ElfParser}.
Context `{!PostcardVec SystemStatusInfo, !PostcardVec (QueryResult ProcessInfo), !PostcardVec ProcessInfo,
  !PostcardVec (QueryResult FileInfo), !PostcardVec (QueryResult ToolDescriptor), !PostcardVec (list (Z * Z * Z * Z))}.
Context {E : Type} `{!PostcardCodec E ToolRequest}.

(** What the program sees of a wrapper, when the kernel returns to it at once. *)
Definition invoke {R} (e : Env) (w : Wrapper R) (m : Machine S) : outcome (option R * Machine S) :=
  '(r, m) ← handle (E := E) e (issued w) m;
  Ret (match r with Returned r => Some (decoded w r) | _ => None end, m).

(** Through the trap: the register [x10] the program finds decodes to the
    result of [invoke]. *)
Lemma invoke_ecall {R} e (w : Wrapper R) m sepc k r m1 :
  typed (issued w) → called (issued w) (kern m) → read_cx SEPC_OFF (kern m) = Ret sepc →
  write_cx SEPC_OFF (u64 (sepc + 4)) (kern m) = Ret k →
  handle (E := E) e (issued w) (with_kern k m) = Ret (Returned r, m1) →
  invoke e w (with_kern k m) = Ret (Some (decoded w r), m1) ∧
  trap_handler (E := E) e UserEnvCall m = (k ← set_return r (kern m1); Ret (Some (with_kern k m1))).
Proof.
  intros Ht Hc Hs Hw Hh. split; [unfold invoke; by rewrite Hh|]. unfold trap_handler, env_call. rewrite Hs.
  cbn [mbind outcome_bind]. rewrite Hw. cbn [mbind outcome_bind].
  destruct (called_next_pc _ _ _ _ Hw Hc) as (-> & rest & ->). cbn [mbind outcome_bind].
  rewrite syscall_handle by done. by rewrite Hh.
Qed.

(** For a task that is no agent the kernel answers [agent_wait] with an error
    at once, which the program sees as an empty mask. *)
Lemma agent_wait_without_agent e tmo m p t :
  processor (kern m) = Some p → tcbs (kern m) !! p = Some t → agent_ext t = None →
  invoke e (Api.agent_wait tmo) m = Ret (Some 0, m).
Proof.
  intros Hp Ht Hn. unfold invoke, Api.agent_wait, handle, sys_agent_wait, agent_wait_iter, current_task, get_task. cbn [issued].
  rewrite Hp. cbn [unwrap mbind outcome_bind]. rewrite Ht. cbn [unwrap mbind outcome_bind]. rewrite Hn, Hp.
  cbn [unwrap mbind outcome_bind]. rewrite Ht. cbn [unwrap mbind outcome_bind]. rewrite Hn. by destruct m.
Qed.
End Invoke.
