(* ===== verification/StackBounds.v ===== *)
(** * Where kernel stacks lie ([os/src/task/pid.rs])

    [kernel_stack_position] computes with wrapping addresses at the top of the
    address space; up to which pid the result is the stack it means to be. *)

From S2P Require Import Prelude Address PhysMem FrameAlloc PageTable MemorySet KernelSpace UserCopy PcbExt FileAttr Task.

(** The first page of the stack of [p]; it has two, and the page below is the
    guard page to the stack of [p + 1]. *)
Definition stack_vpn (p : Z) : Z := 0x7ffffff - 3 * p - 2.

Definition with_guard (p v : Z) : Prop := stack_vpn p - 1 ≤ v < stack_vpn p + 2.

Lemma kernel_stack_position_eq p :
  0 ≤ p < 2 ^ 50 →
  kernel_stack_position p = (2 ^ 64 - (p + 1) * 0x3000, 2 ^ 64 - (p + 1) * 0x3000 + 0x2000).
Proof.
  intros Hp. unfold kernel_stack_position, TRAMPOLINE, KERNEL_STACK_SIZE, PAGE_SIZE.
  rewrite (wrap_small 64 (2 ^ 64 - 1 - _ + 1)) by lia.
  rewrite (wrap_small 64 (_ - p * _)) by lia. rewrite wrap_small by lia. f_equal; lia.
Qed.

Lemma high_address a : 2 ^ 64 - 2 ^ 38 ≤ a < 2 ^ 64 → VirtAddr_from a = a - (2 ^ 64 - 2 ^ 39).
Proof.
  intros Ha. rewrite VirtAddr_from_mod. symmetry. apply Z.mod_unique with (2 ^ 25 - 1); [left; lia|lia].
Qed.

(** [KernelStack::new] pushes the two pages of the stack. *)
Lemma KernelStack_new_eq `{Platform} p ks ph :
  0 ≤ p → 3 * p + 3 ≤ 2 ^ 26 →
  KernelStack_new p ks ph =
    ms_push (mkMapArea (mkSimpleRange (stack_vpn p) (stack_vpn p + 2)) [] Framed (Z.lor MP_R MP_W)) None ks ph.
Proof.
  intros H0 Hp. unfold KernelStack_new. rewrite kernel_stack_position_eq by lia.
  unfold insert_framed_area, MapArea_new, SimpleRange_new. rewrite !high_address by lia.
  unfold va_floor, va_ceil, PAGE_SIZE. rewrite (proj2 (Z.eqb_neq _ 0)) by lia.
  assert (Hf : (2 ^ 64 - (p + 1) * 0x3000 - (2 ^ 64 - 2 ^ 39)) / 0x1000 = stack_vpn p)
    by (symmetry; apply Z.div_unique with 0; unfold stack_vpn; lia).
  assert (Hc : (2 ^ 64 - (p + 1) * 0x3000 + 0x2000 - (2 ^ 64 - 2 ^ 39) - 1 + 0x1000) / 0x1000 = stack_vpn p + 2)
    by (symmetry; apply Z.div_unique with 0xfff; unfold stack_vpn; lia).
  rewrite Hf, Hc, (proj2 (Z.leb_le _ _)) by lia. done.
Qed.

(** C36: the bounds of kernel stacks. For every pid [p] whose stack and guard
    page fit in the upper half of the address space ([3 * p + 3 <= 2 ^ 26])
    the wrapping arithmetic gives the addresses it means, [KernelStack::new]
    maps exactly the two pages between them, these and the guard page are
    mapped by nothing else of the kernel space, and they are disjoint from
    those of every other pid. The bound is exact: from the next pid on the
    bottom of the stack is not a canonical address. *)
Theorem kernel_stacks_fit (PF : Platform) `{!PlatformLaws} `{!KernelLayout} p :
  0 ≤ p < 2 ^ 50 →
  let '(bottom, top) := kernel_stack_position p in
  (usize_from_VirtAddr (VirtAddr_from bottom) = bottom ↔ 3 * p + 3 ≤ 2 ^ 26) ∧
  (3 * p + 3 ≤ 2 ^ 26 →
     top = TRAMPOLINE - p * (KERNEL_STACK_SIZE + PAGE_SIZE) ∧ bottom = top - KERNEL_STACK_SIZE ∧ get_top p = top ∧
     (∀ ks ph, KernelStack_new p ks ph =
        ms_push (mkMapArea (mkSimpleRange (stack_vpn p) (stack_vpn p + 2)) [] Framed (Z.lor MP_R MP_W)) None ks ph) ∧
     (∀ v, with_guard p v → kernel_view v = None) ∧
     (∀ q v, q ≠ p → with_guard p v → ¬ with_guard q v)).
Proof.
  intros Hp. pose proof (kernel_stack_position_eq p Hp) as Hpos. rewrite Hpos. split.
  - rewrite VirtAddr_roundtrip by lia. lia.
  - intros Hb. split_and!.
    + unfold TRAMPOLINE, KERNEL_STACK_SIZE, PAGE_SIZE. rewrite wrap_small by lia. lia.
    + unfold KERNEL_STACK_SIZE. lia.
    + unfold get_top. by rewrite Hpos.
    + intros ks ph. apply KernelStack_new_eq; lia.
    + intros v Hv. unfold with_guard, stack_vpn in Hv. apply kernel_view_gap; lia.
    + intros q v Hne Hv Hv'. unfold with_guard, stack_vpn in *. lia.
Qed.

(** ** Witness: the last pid whose stack fits, and the first whose does not *)
Lemma kernel_stacks_fit_witness :
  usize_from_VirtAddr (VirtAddr_from (kernel_stack_position 22369620).1) = (kernel_stack_position 22369620).1 ∧
  usize_from_VirtAddr (VirtAddr_from (kernel_stack_position 22369621).1) ≠ (kernel_stack_position 22369621).1.
Proof.
  pose proof (@kernel_stacks_fit DemoPlatform.demo _ _ 22369620 ltac:(lia)) as H1.
  pose proof (@kernel_stacks_fit DemoPlatform.demo _ _ 22369621 ltac:(lia)) as H2.
  destruct (kernel_stack_position 22369620) as [b1 t1], (kernel_stack_position 22369621) as [b2 t2]. cbn [fst].
  split; [apply H1; lia|]. intros E. apply H2 in E. lia.
Defined.
