(* ===== verification/ExecLoad.v ===== *)
(** * Running a file ([sys_exec], [TaskControlBlock::exec])

    The composition of the file system, the loader and the address spaces: the
    file named in user memory becomes the address space of the task.  First,
    how a well-formed space looks to the copies of [UserCopy]. *)

From S2P Require Import Prelude Address PhysMem FrameAlloc PageTable MemorySet ElfLoad UserCopy PcbExt Task Blocks BlockCache Layout LayoutLemmas Efs Vfs MemDisk FsInv FsSpec OsFile KernelInv CallThms FsThms Syscall SysFiles.

(** ** The user pages of a space *)
Section Pages.
Context {PF : Platform} {PFL : PlatformLaws} (lo : Z).

(** Pages with their frames, all areas together. *)
Definition ms_pages (ms : MemorySet) : list (Z * Z) := areas ms ≫= data_frames.

Definition user_page (ms : MemorySet) (v : Z) : Prop := 0 ≤ v < 2 ^ 26 ∧ v ∈ (ms_pages ms).*1.
Definition user_frame (ms : MemorySet) (v : Z) : Z := default 0 ((list_to_map (ms_pages ms) : gmap Z Z) !! v).

Lemma ms_pages_frames ms : (ms_pages ms).*2 = ms_frames ms.
Proof.
  unfold ms_pages, ms_frames, area_frames. induction (areas ms) as [|a l IH]; [done|].
  by rewrite !bind_cons, fmap_app, IH.
Qed.

Lemma ms_pages_keys ms : (ms_pages ms).*1 = (ms_entries ms).*1.
Proof.
  unfold ms_pages, ms_entries. induction (areas ms) as [|a l IH]; [done|].
  by rewrite !bind_cons, !fmap_app, IH, area_entries_keys.
Qed.

Section Space.
Context (B : list (Z * Z)) (ph : Phys) (ms : MemorySet).
Context (Hph : phys_inv lo ph) (Hsp : MemorySet.space lo B ph ms).

Lemma ms_pages_nodup : NoDup (ms_pages ms).*1 ∧ NoDup (ms_pages ms).*2.
Proof.
  rewrite ms_pages_keys, ms_pages_frames. pose proof (sp_keys _ _ _ _ _ (sc_sp _ _ _ _ Hsp)) as Hk.
  pose proof (sp_nodup _ _ _ _ _ (sc_sp _ _ _ _ Hsp)) as Hf. rewrite fmap_app in Hk.
  apply NoDup_app in Hk as (_ & _ & Hk), Hf as (_ & _ & Hf). done.
Qed.

Lemma user_frame_elem v : user_page ms v → (v, user_frame ms v) ∈ ms_pages ms.
Proof.
  intros [_ ([v' f] & Hv & Hin)%list_elem_of_fmap]. simpl in Hv. subst v'. unfold user_frame.
  by rewrite (elem_of_list_to_map_1 _ _ _ (proj1 ms_pages_nodup) Hin).
Qed.

Lemma user_frame_view v :
  user_page ms v → ∃ p, 0 ≤ p < 256 ∧ p_owned lo ph (user_frame ms v) ∧
    pt_view (mem ph) (page_table ms) v = Some (pte_new (user_frame ms v) p).
Proof.
  intros Hv. pose proof (user_frame_elem v Hv) as Hin. apply list_elem_of_bind in Hin as (a & Hin & Ha).
  apply list_elem_of_lookup in Hin as [i Hi]. destruct (space_lookup lo _ _ _ _ _ _ _ Hsp Ha Hi) as (Hr & Ho & He).
  exists (Z.lor (map_perm a) PTE_V). split_and!; [| |done|].
  1,2: apply lor_byte_range; [|apply PTE_V_range];
    pose proof (sc_areas _ _ _ _ Hsp) as Hwf; rewrite Forall_forall in Hwf; apply (aw_perm _ (Hwf a Ha)).
  by rewrite (sp_rep _ _ _ _ _ (sc_sp _ _ _ _ Hsp)) by done.
Qed.

(** The user half of a well-formed space can be read and written. *)
Lemma space_uspace : uspace (ms_token ms) (user_page ms) (user_frame ms) (mem ph).
Proof.
  apply (uspace_of_pt lo); [done|apply Hsp| |].
  - intros v Hv. destruct (user_frame_view v Hv) as (p & Hp & Ho & He).
    pose proof (owned_page lo ph _ Hph Ho) as Hw. destruct (page_writable_spec _ Hw) as (_ & Hr & _).
    pose proof (sp_nodup _ _ _ _ _ (sc_sp _ _ _ _ Hsp)) as Hnd. apply NoDup_app in Hnd as (_ & Hd & _).
    destruct (proj1 Hv). split_and!; [lia|lia|done| |exists (pte_new (user_frame ms v) p); by rewrite pte_ppn_new by (lia || done)].
    intros Hin. apply (Hd _ Hin). rewrite <-ms_pages_frames. apply list_elem_of_fmap. eexists. split; [|by apply user_frame_elem]. done.
  - intros v v' Hv%user_frame_elem Hv'%user_frame_elem Heq. rewrite Heq in Hv.
    apply list_elem_of_lookup in Hv as [i Hi], Hv' as [j Hj]. pose proof (proj2 ms_pages_nodup) as Hnd.
    assert (i = j) as ->; [|congruence].
    eapply (NoDup_lookup _ _ _ (user_frame ms v') Hnd); rewrite list_lookup_fmap; [by rewrite Hi|by rewrite Hj].
Qed.
End Space.
End Pages.

(** ** The space of a program about to run *)
Section Program.
Context {PF : Platform} {PFL : PlatformLaws} `{!ElfParser} (lo : Z).
Context (elf_data : list byte) (elf : ElfFile).

Definition stack_top : Z := (last_end (elf_segments elf_data (elf_program_headers elf)) + 3) * PAGE_SIZE.

(** The segments of a loaded program with [ctx] in its trap context. *)
Definition started_segments (ctx : list byte) : list segment :=
  let ss := elf_segments elf_data (elf_program_headers elf) in
  (ss ++ [stack_segment (last_end ss)]) ++ [mkSegment 0x7fffffe 0x7ffffff (Z.lor MP_R MP_W) ctx].

Definition start_context (sst kernel_satp : Z) (pid : Z) : list byte :=
  app_init_context sst (elf_entry_point elf) stack_top kernel_satp (get_top pid) trap_handler_addr.

Lemma start_context_length sst satp pid : Z.of_nat (length (start_context sst satp pid)) ≤ PAGE_SIZE.
Proof.
  unfold start_context, app_init_context, PAGE_SIZE. rewrite !length_app, !length_replicate, !length_to_le_bytes. lia.
Qed.

Lemma loading_started ph0 ms ph :
  loading lo ph0 (program_segments elf_data (elf_program_headers elf)) ms ph → loaded lo (started_segments []) ms ph.
Proof. intros Hld%loading_loaded. unfold program_segments in Hld. unfold started_segments. by rewrite <-app_assoc. Qed.

Lemma trap_cx_page_view ms ph ppn :
  phys_inv lo ph → pt_inv lo ph (page_table ms) → 0 ≤ ppn < 2 ^ 44 →
  pt_view (mem ph) (page_table ms) 0x7fffffe = Some (pte_new ppn (Z.lor (Z.lor MP_R MP_W) PTE_V)) →
  trap_cx_page ms (mem ph) = Ret ppn.
Proof.
  intros Hph Hpt Hp Hv. unfold trap_cx_page.
  change (VirtPageNum_of_VirtAddr (VirtAddr_from TRAP_CONTEXT)) with (Ret 0x7fffffe).
  cbn [mbind outcome_bind]. unfold ms_translate. rewrite (translate_view lo ph _ 0x7fffffe _ Hph Hpt ltac:(done) Hv).
  cbn [mbind outcome_bind unwrap]. by rewrite pte_ppn_new.
Qed.

Lemma trap_cx_page_frame ms ph ph' :
  phys_inv lo ph → phys_inv lo ph' → loaded lo (started_segments []) ms ph →
  (∀ q, q ∈ pt_frames (page_table ms) → same_page (mem ph) (mem ph') q ∧ p_owned lo ph' q) →
  trap_cx_page ms (mem ph') = trap_cx_page ms (mem ph).
Proof.
  intros Hph Hph' Hld Hs. pose proof (sc_sp _ _ _ _ (lo_space _ _ _ _ Hld)) as Hsp. pose proof (sp_pt _ _ _ _ _ Hsp) as Hpt.
  assert (Hin : trap_segment ∈ started_segments []) by (apply elem_of_app; right; by apply list_elem_of_singleton).
  destruct (loaded_byte lo _ ms ph trap_segment (0x7fffffe * PAGE_SIZE) Hld Hin) as (f & Hf & Hv & _); [done|].
  change (0x7fffffe * PAGE_SIZE / PAGE_SIZE) with 0x7fffffe in Hv. cbn [sg_perm trap_segment] in Hv.
  destruct (page_writable_spec f (owned_page lo ph f Hph (sp_owned _ _ _ _ _ Hsp f Hf))) as (_ & Hrange & _).
  rewrite (trap_cx_page_view ms ph f) by (done || lia). apply (trap_cx_page_view ms ph'); [done| |lia|].
  - destruct Hpt as [T HT]. exists T. by eapply pt_wf_frame.
  - rewrite <-Hv. by apply (pt_view_frame lo ph).
Qed.

(** The program as it starts: its segments in place, and [ppn] the frame of
    its trap context. *)
Record started (ctx : list byte) (ppn : Z) (ms : MemorySet) (ph : Phys) : Prop := {
  sd_loaded : loaded lo (started_segments ctx) ms ph;
  sd_trap : pt_view (mem ph) (page_table ms) 0x7fffffe = Some (pte_new ppn (Z.lor (Z.lor MP_R MP_W) PTE_V));
  sd_frame : ppn ∈ ms_frames ms;
}.

(** Writing the trap context. *)
Lemma write_context ms ph ctx :
  phys_inv lo ph → loaded lo (started_segments []) ms ph → Z.of_nat (length ctx) ≤ PAGE_SIZE →
  ∃ ppn m, trap_cx_page ms (mem ph) = Ret ppn ∧ set_bytes (mem ph) ppn 0 ctx = Ret m ∧
    started ctx ppn ms (mkPhys m (falloc ph)) ∧ (∀ q, q ≠ ppn → same_page (mem ph) m q).
Proof.
  intros Hph Hld Hl. assert (Hld0 := Hld). unfold started_segments in Hld0. cbv zeta in Hld0.
  destruct (loaded_write lo _ _ ms ph ctx Hph Hld0 eq_refl eq_refl Hl) as (ppn & m & Hin & Hv & Em & Hsame & Hld').
  cbn [sg_start sg_end sg_perm] in Hv, Hld'. pose proof (sc_sp _ _ _ _ (lo_space _ _ _ _ Hld)) as Hsp.
  destruct (page_writable_spec ppn (owned_page lo ph ppn Hph (sp_owned _ _ _ _ _ Hsp ppn Hin))) as (_ & Hrange & _).
  pose proof (sp_pt _ _ _ _ _ Hsp) as Hpt. exists ppn, m. split_and!; [|exact Em| |exact Hsame].
  - apply (trap_cx_page_view ms ph); [done|done|lia|done].
  - split; [exact Hld'| |exact Hin]. rewrite <-Hv. apply (pt_view_frame lo ph (mkPhys m (falloc ph))); [done|done|done|done|].
    intros q Hq. split; [|by apply (pt_inv_owned lo _ _ _ Hpt)]. apply Hsame. intros ->.
    pose proof (sp_nodup _ _ _ _ _ Hsp) as Hnd. apply NoDup_app in Hnd as (_ & Hd & _). by apply (Hd ppn).
Qed.

Definition all_frames (ms : MemorySet) : list Z := pt_frames (page_table ms) ++ ms_frames ms.

(** [k'] is [k] with the program in place of the space of task [p]. *)
Record exec_post (ctx : list byte) (old : MemorySet) (k k' : Kernel) (p ppn : Z) (ms : MemorySet) : Prop := {
  xp_state : k' = upd_task p (set_memory ppn ms) (with_phys (phys k') k);
  xp_phys : phys_inv lo (phys k');
  xp_started : started ctx ppn ms (phys k');
  xp_fresh q : q ∈ all_frames ms → ¬ p_owned lo (phys k) q;
  xp_owned q : p_owned lo (phys k') q ↔ q ∈ all_frames ms ∨ (p_owned lo (phys k) q ∧ ¬ q ∈ all_frames old);
  xp_mem q : p_owned lo (phys k) q → same_page (mem (phys k)) (mem (phys k')) q;
}.

Lemma TCB_exec_ok B sst p k t :
  phys_inv lo (phys k) → tcbs k !! p = Some t → MemorySet.space lo B (phys k) (memory_set t) →
  elf_ok elf_data elf → 3 + 3 * elf_pages elf_data elf ≤ FrameAlloc.free_count (falloc (phys k)) →
  ∃ k' ppn ms, TCB_exec sst p elf_data k = Ret k' ∧
    exec_post (start_context sst (ms_token (kernel_space k)) p) (memory_set t) k k' p ppn ms.
Proof.
  intros Hph Ht Hsp Hok Hfree. set (ctx := start_context sst (ms_token (kernel_space k)) p).
  destruct (from_elf_ok lo elf_data elf _ Hph Hok Hfree) as (ms & ph1 & E1 & Hld & _).
  pose proof (ld_state _ _ _ _ _ Hld) as [Hph1 _ Hnew Hown1 Hmem1]. apply loading_started in Hld.
  assert (Hold : ∀ q, q ∈ all_frames (memory_set t) → p_owned lo (phys k) q).
  { intros q [Hq|Hq]%elem_of_app; [by apply (pt_inv_owned lo _ _ _ (sp_pt _ _ _ _ _ (sc_sp _ _ _ _ Hsp)))|].
    by apply (sp_owned _ _ _ _ _ (sc_sp _ _ _ _ Hsp)). }
  destruct (drop_memory_set_ok lo B (memory_set t) ph1 Hph1) as (ph2 & E2 & Hph2 & Hm2 & Hown2).
  { apply (space_frame lo B (phys k)); [done|done|done|]. intros q Hq. split; [apply Hown1; by left|by apply Hmem1]. }
  assert (Hld2 : loaded lo (started_segments []) ms ph2).
  { apply (loaded_frame lo _ _ ph1); [done|done|done|]. intros q Hq. split; [by rewrite Hm2|].
    apply Hown2. split; [|apply Hown1; by right]. intros Ho. by apply (Hnew q Hq), Hold. }
  destruct (write_context ms ph2 ctx Hph2 Hld2 (start_context_length _ _ _)) as (ppn & m & Et & Em & Hst & Hsame).
  exists (upd_task p (set_memory ppn ms) (with_phys (mkPhys m (falloc ph2)) k)), ppn, ms. split.
  - unfold TCB_exec. rewrite E1. cbn [mbind outcome_bind]. rewrite <-Hm2, Et. cbn [mbind outcome_bind].
    rewrite (proj2 (get_task_Ret p k t) Ht). cbn [mbind outcome_bind]. rewrite E2. cbn [mbind outcome_bind].
    unfold ctx, start_context, stack_top in Em. by rewrite Em.
  - split; [done|exact Hph2|exact Hst|exact Hnew| |].
    + intros q. cbn [phys upd_task with_tcbs with_phys]. change (p_owned lo (mkPhys m (falloc ph2)) q) with (p_owned lo ph2 q). rewrite Hown2, Hown1. unfold all_frames in *.
      split; [intros [? [?|?]]; tauto|]. intros [Hq|[? ?]]; [|tauto]. split; [|by right]. intros Ho. by apply (Hnew q Hq), Hold.
    + intros q Hq x Hx. simpl. rewrite (Hsame q); [|intros ->; apply (Hnew ppn); [apply elem_of_app; right; apply Hst|done]|done].
      rewrite Hm2. by apply (Hmem1 q Hq).
Qed.
End Program.

(** ** [sys_exec] *)
Section Exec.
Context {PF : Platform} {PFL : PlatformLaws} {S : Type} `{!BlockStore S, !StoreLaws S, !ElfParser}.

(** The task's space holds [name], with its terminator, at [path]. *)
Definition name_at (ph : Phys) (ms : MemorySet) (path : Z) (name : string) : Prop :=
  0 ≤ path ∧ ascii name ∧ (∀ x, path ≤ x < path + Z.of_nat (length (name_of name)) + 1 → user_page ms (x / PAGE_SIZE)) ∧
  mem_read (user_bytes (user_frame ms) (mem ph)) path (length (name_of name) + 1) = name_of name ++ [x00].

Lemma loaded_perm lo ss ms ph s : loaded lo ss ms ph → s ∈ ss → 0 ≤ sg_perm s < 256.
Proof.
  intros [Hsp Ha] [j Hj]%list_elem_of_lookup. destruct (Forall2_lookup_l _ _ _ _ _ Ha Hj) as (a & Hja & [_ <- _]).
  pose proof (sc_areas _ _ _ _ Hsp) as Hwf. rewrite Forall_forall in Hwf. apply (aw_perm _ (Hwf a (list_elem_of_lookup_2 _ _ _ Hja))).
Qed.

(** What the copies read of a loaded program. *)
Lemma loaded_user_byte lo ss ms ph s va :
  phys_inv lo ph → loaded lo ss ms ph → s ∈ ss → in_segment s (va / PAGE_SIZE) → 0 ≤ va < 2 ^ 38 →
  user_page ms (va / PAGE_SIZE) ∧
  user_bytes (user_frame ms) (mem ph) va = nth (Z.to_nat (va - sg_start s * PAGE_SIZE)) (sg_data s) x00.
Proof.
  intros Hph Hld Hs Hin Hva. destruct (loaded_byte lo ss ms ph s va Hld Hs Hin) as (f & Hf & Hview & Hb).
  assert (Hv : 0 ≤ va / PAGE_SIZE < 2 ^ 26).
  { unfold PAGE_SIZE. split; [apply Z.div_pos; lia|apply Z.div_lt_upper_bound; lia]. }
  pose proof (sc_sp _ _ _ _ (lo_space _ _ _ _ Hld)) as Hsp.
  assert (Hpg : user_page ms (va / PAGE_SIZE)).
  { split; [done|]. rewrite ms_pages_keys. rewrite (sp_rep _ _ _ _ _ Hsp) in Hview by lia.
    apply elem_of_list_to_map_2 in Hview. rewrite elem_of_app in Hview.
    destruct Hview as [Heq%list_elem_of_singleton|Hin']; [injection Heq; lia|].
    apply list_elem_of_fmap. by eexists (_, _). }
  split; [done|]. destruct (user_frame_view lo _ ph ms (lo_space _ _ _ _ Hld) _ Hpg) as (p & Hp & Ho & Hview').
  assert (Hr : ∀ q, p_owned lo ph q → 0 ≤ q < 2 ^ 44).
  { intros q Hq. by destruct (page_writable_spec q (owned_page lo ph q Hph Hq)) as (_ & ? & _). }
  assert (Hff : user_frame ms (va / PAGE_SIZE) = f); [|rewrite <-Hb; unfold user_bytes; by rewrite <-Hff].
  rewrite Hview in Hview'. injection Hview' as Heq. apply (f_equal pte_ppn) in Heq.
  pose proof (lor_byte_range _ _ (loaded_perm lo ss ms ph s Hld Hs) PTE_V_range) as Hfl.
  pose proof (Hr f (sp_owned _ _ _ _ _ Hsp f Hf)) as Hfr. pose proof (Hr _ Ho) as Hur.
  by rewrite !pte_ppn_new in Heq.
Qed.

Lemma name_at_path lo B (m : Machine S) ms path name :
  phys_inv lo (phys (kern m)) → MemorySet.space lo B (phys (kern m)) ms → name_at (phys (kern m)) ms path name →
  path_is (user_page ms) (user_frame ms) m (ms_token ms) path name.
Proof.
  intros Hph Hsp (Hp & Ha & HW & Hm). split; [by apply (space_uspace lo B)|]. split; [done|]. split; [|by split].
  intros x Hx. apply HW. lia.
Qed.

Lemma sys_exec_missing total W frame (m : Machine S) D p t fuel sst path name :
  geometry (rootfs m) total → task_of m = Ret (p, t) → path_is W frame m (get_user_token t) path name →
  (length (name_of name) < fuel)%nat → disk_rep (rootfs m) total (disk m) D → file_index name D = None →
  ∃ s', disk_rep (rootfs m) total s' D ∧ sys_exec fuel sst path m = Ret (-1, with_disk s' m).
Proof.
  intros G Ht Hpath Hf HD Hidx. unfold sys_exec. rewrite Ht. cbn [mbind outcome_bind].
  rewrite (user_path_ok W frame fuel m _ path name) by done. cbn [mbind outcome_bind].
  destruct (open_file_ok (rootfs m) total G (disk m) D name 0 HD) as (s1 & E1 & HD1); [done|].
  unfold spec_open in *. rewrite Hidx in *. exists s1. split; [exact HD1|]. rewrite E1. done.
Qed.
End Exec.

(** C10: [exec] runs the named file. A task whose space holds a path calls
    [sys_exec]. If no file has that name it returns -1 and nothing changes. If
    there is one with an ELF file the loader accepts, and the frames for it,
    it returns 0 and the task's space is the program: each segment's bytes in
    place with its permissions, an empty stack, and a trap context that enters
    at the entry point with the task's own kernel stack; nothing else is
    mapped there. The program's frames are new, exactly the frames of the
    old space are freed, no other page in use changes, and neither does
    anything else of the kernel or any file. *)
Theorem exec_runs_the_file `{PlatformLaws} {S : Type} `{!BlockStore S, !StoreLaws S, !ElfParser}
    lo B total (m : Machine S) D p t fuel sst path name :
  geometry (rootfs m) total → disk_rep (rootfs m) total (disk m) D → task_of m = Ret (p, t) →
  phys_inv lo (phys (kern m)) → MemorySet.space lo B (phys (kern m)) (memory_set t) →
  name_at (phys (kern m)) (memory_set t) path name → (length (name_of name) < fuel)%nat →
  (file_index name D = None →
     ∃ s', disk_rep (rootfs m) total s' D ∧ sys_exec fuel sst path m = Ret (-1, with_disk s' m)) ∧
  (∀ i data elf, D !! i = Some (name, data) → elf_ok data elf → (length data + 512 ≤ 512 * fuel)%nat →
     3 + 3 * elf_pages data elf ≤ FrameAlloc.free_count (falloc (phys (kern m))) →
     ∃ s' k' ppn ms, disk_rep (rootfs m) total s' D ∧
       sys_exec fuel sst path m = Ret (0, with_disk s' (with_kern k' m)) ∧
       let ctx := start_context data elf sst (ms_token (kernel_space (kern m))) p in
       exec_post lo data elf ctx (memory_set t) (kern m) k' p ppn ms ∧
       (∀ s va, s ∈ started_segments data elf ctx → in_segment s (va / PAGE_SIZE) →
          ∃ f, f ∈ ms_frames ms ∧
            pt_view (mem (phys k')) (page_table ms) (va / PAGE_SIZE) = Some (pte_new f (Z.lor (sg_perm s) PTE_V)) ∧
            mem (phys k') (f * PAGE_SIZE + va mod PAGE_SIZE) = nth (Z.to_nat (va - sg_start s * PAGE_SIZE)) (sg_data s) x00) ∧
       (∀ v, 0 ≤ v < 0x7ffffff → (∀ s, s ∈ started_segments data elf ctx → ¬ in_segment s v) →
          pt_view (mem (phys k')) (page_table ms) v = None)).
Proof.
  intros G HD Ht Hph Hsp Hname Hfuel. pose proof (name_at_path lo B m _ path name Hph Hsp Hname) as Hpath. split.
  - intros Hidx. by eapply sys_exec_missing.
  - intros i data elf Hi Hok Hfuel2 Hfree.
    destruct (sys_exec_ok total (user_page (memory_set t)) (user_frame (memory_set t)) m D p t fuel sst path name i data)
      as (s' & HD' & E); [done..|].
    apply cur_task_inv in Ht as [_ Ht].
    destruct (TCB_exec_ok lo data elf B sst p (kern m) t Hph Ht Hsp Hok Hfree) as (k' & ppn & ms & Ek & Hx).
    rewrite Ek in E. exists s', k', ppn, ms. pose proof (sd_loaded _ _ _ _ _ _ _ (xp_started _ _ _ _ _ _ _ _ _ _ Hx)) as Hld.
    split; [exact HD'|]. split; [exact E|]. cbv zeta. split; [exact Hx|]. split.
    + intros s va. by eapply loaded_byte.
    + intros v. by eapply loaded_unmapped.
Qed.

(** ** Witness: a program on disk whose text is its own name runs itself *)
Section ExecWitness.
Definition self_name : string := "note"%string.
Definition self_elf : list byte := [x7f; x45; x4c; x46] ++ name_of self_name ++ [x00].
Definition self_file : ElfFile := mkElfFile (take 4 self_elf) [Some (DemoElfFile.header self_elf)] 0x1000.

Lemma self_elf_ok : @elf_ok demo_parser self_elf self_file.
Proof.
  split; try done.
  - constructor; [|constructor]. exists (DemoElfFile.header self_elf), true. split_and!; [done|done|].
    intros _. by split; simpl.
  - repeat constructor.
Qed.

Lemma self_disk : ∃ s : Store MemDisk, disk_rep FsThms.Sample.efs0 1040 s [(self_name, self_elf)].
Proof.
  destruct FsThms.Sample.empty0 as (s0 & HD). pose proof FsThms.Sample.geometry0 as G.
  destruct (create_refines _ 1040 G s0 [] self_name HD) as (s1 & _ & HD1);
    [done|by apply (bool_decide_unpack _); vm_compute|by apply (bool_decide_unpack _); vm_compute|].
  destruct (write_refines _ 1040 G s1 [(self_name, [])] 0 (self_name, []) 0 self_elf HD1) as (s2 & _ & HD2); try done.
  by exists s2.
Qed.

Definition self_machine (ms : MemorySet) (ph : Phys) (s : Store MemDisk) : Machine (Store MemDisk) :=
  mkMachine (mkKernel {[1 := mkTCB 0 0 after_timer Running ms None [] 0 [] None 16]} [] (Some 1) [] (mkPidAllocator 2 [])
    ph (mkMemorySet (mkPageTable 0x80400 []) []) FileAttr.new) [] FsThms.Sample.efs0 s [].

Lemma exec_runs_the_file_witness :
  ∃ (m m' : Machine (Store MemDisk)), @sys_exec DemoPlatform.demo _ _ demo_parser 10 0 0x1000 m = Ret (0, m').
Proof.
  destruct (@from_elf_ok DemoPlatform.demo _ 0x80204 demo_parser self_elf self_file DemoPlatform.boot
    DemoPlatform.boot_inv self_elf_ok ltac:(by vm_compute)) as (ms & ph & _ & Hld & Hf).
  destruct self_disk as (s & HD). pose proof (loading_loaded _ _ _ _ _ Hld) as Hlo.
  assert (Hph : @phys_inv DemoPlatform.demo 0x80204 ph) by apply Hld.
  set (seg := header_segment self_elf (DemoElfFile.header self_elf)).
  assert (Hb : ∀ x, 0x1000 ≤ x < 0x1005 → user_page ms (x / PAGE_SIZE) ∧
    user_bytes (user_frame ms) (mem ph) x = nth (Z.to_nat (x - 0x1000)) (sg_data seg) x00).
  { intros x Hx. apply (@loaded_user_byte DemoPlatform.demo _ 0x80204 _ ms ph seg x Hph Hlo); [left| |lia].
    unfold in_segment. change (sg_start seg) with 1. change (sg_end seg) with 3. unfold PAGE_SIZE.
    split; [apply Z.div_le_lower_bound|apply Z.div_lt_upper_bound]; lia. }
  destruct (exec_runs_the_file (H := DemoPlatform.demo) (H1 := demo_parser) 0x80204 [@trampoline_entry DemoPlatform.demo] 1040 (self_machine ms ph s)
    [(self_name, self_elf)] 1 (mkTCB 0 0 after_timer Running ms None [] 0 [] None 16) 10 0 0x1000 self_name)
    as [_ Hexec].
  - apply FsThms.Sample.geometry0.
  - exact HD.
  - done.
  - exact Hph.
  - apply Hlo.
  - split; [lia|]. split; [by repeat constructor|]. split; [intros x Hx; change (Z.of_nat (length (name_of self_name))) with 4 in Hx; apply Hb; lia|].
    rewrite (mem_read_ext _ (λ x, nth (Z.to_nat (x - 0x1000)) (sg_data seg) x00)); [done|]. intros x Hx. apply Hb, Hx.
  - vm_compute. lia.
  - destruct (Hexec 0%nat self_elf self_file) as (s' & k' & _ & _ & _ & E & _); [done|exact self_elf_ok|vm_compute; lia| |].
    + etrans; [|exact Hf]. by vm_compute.
    + by do 2 eexists.
Defined.
End ExecWitness.
