(* ===== verification/Boot.v ===== *)
(** * Start-up ([os/src/main.rs])

    [rust_main] from [mm::init] on: memory, the test of the mapping, the
    driver's DMA requests, the root directory, the demo attributes and the
    first process.  [run_tasks], which it ends in, is the machine's step
    relation.  Clearing the BSS, logging, the trap vector and the timer are
    left out; so is what the kernel prints. *)

From S2P Require Import Prelude Address PhysMem FrameAlloc PageTable MemorySet KernelSpace Virtio ElfLoad UserCopy Proto PcbExt FileAttr Utf8 Task Blocks BlockCache Words Bitmap Layout LayoutLemmas InodeMap InodeIO Efs Vfs MemDisk FsInv FsOps FsFile FsDir FsCreate FsSpec FsBoot FsThms Durable OsFile Blocking EventBus KernelInv AgentSched KernelSteps Tools Syscall SysThms SysFiles Pack ExecLoad.

(** The kernel before its first process. *)
Definition boot_kernel (ph : Phys) (ks : MemorySet) : Kernel :=
  mkKernel ∅ [] None [] PidAllocator_new ph ks (init_demo_attrs FileAttr.new).

Section Main.
Context {PF : Platform} {S : Type} `{!BlockStore S, !ElfParser}.

(** [VirtIOBlk::new], as far as memory goes: its DMA requests, in order. *)
Definition driver_init (requests : list Z) (ph : Phys) : outcome (list Z * Phys) :=
  for_each (λ pages '(q, ph), '(_, q, ph) ← dma_alloc pages q ph; Ret (q, ph)) requests ([], ph).

(** The lazy statics [ROOT_INODE], [INITPROC] and [FILE_ATTR_STORE] are forced
    in the order of their first use. *)
Definition list_apps (s : S) : outcome (EasyFileSystem * list string * S) :=
  '(efs, s) ← efs_open s;
  '(names, s) ← ls (root_inode efs) s;
  Ret (efs, names, s).

Definition add_initproc (fuel : nat) (sst : Z) (efs : EasyFileSystem) (k : Kernel) (s : S)
    : outcome (Kernel * S) :=
  '(o, s) ← open_file efs "initproc" 0 s;
  inode ← unwrap o;
  '(v, _, s) ← read_all fuel (replicate 512 x00) [] inode s;
  '(pid, k) ← TCB_new sst v k;
  Ret (add_task pid k, s).

Definition rust_main (fuel : nat) (requests : list Z) (sst : Z) (m : Mem) (s : S)
    : outcome (list Z * list string * Machine S) :=
  '(kernel_space, ph, _) ← mm_init m;
  _ ← remap_test kernel_space (mem ph);
  '(queue_frames, ph) ← driver_init requests ph;
  '(efs, names, s) ← list_apps s;
  '(k, s) ← add_initproc fuel sst efs (boot_kernel ph kernel_space) s;
  Ret (queue_frames, names, mkMachine k [] efs s []).
End Main.

(** ** The kernel stack of the first process *)
Section Stack.
Context {PF : Platform} {PFL : PlatformLaws} {KL : KernelLayout} (lo : Z).

(** Any function on a range of page numbers is the lookup of some list. *)
Lemma omap_keys (V : Z → option Z) l :
  (omap (λ v, (λ e, (v, e)) <$> V v) l).*1 = filter (λ v, is_Some (V v)) l.
Proof.
  induction l as [|x l IH]; [done|]. destruct (V x) as [e|] eqn:Hx.
  - rewrite filter_cons_True by eauto. simpl. rewrite Hx. simpl. f_equal. exact IH.
  - rewrite filter_cons_False by (rewrite Hx; by intros [? ?]). simpl. rewrite Hx. exact IH.
Qed.

Lemma entries_exist (V : Z → option Z) (n : Z) :
  ∃ E : list (Z * Z), NoDup E.*1 ∧ (∀ v, 0 ≤ v < n → (list_to_map E : gmap Z Z) !! v = V v) ∧
    (∀ v, v ∈ E.*1 → is_Some (V v)).
Proof.
  set (E := omap (λ v, (λ e, (v, e)) <$> V v) (seqZ 0 n)). exists E.
  assert (Hk : E.*1 = filter (λ v, is_Some (V v)) (seqZ 0 n)) by apply omap_keys.
  assert (Hnd : NoDup E.*1) by (rewrite Hk; apply NoDup_filter, NoDup_seqZ).
  split_and!; [done| |intros v; rewrite Hk; by intros [? _]%list_elem_of_filter].
  intros v Hv. destruct (V v) as [e|] eqn:Hvv.
  - apply elem_of_list_to_map_1; [done|]. unfold E. apply list_elem_of_omap. exists v.
    split; [apply elem_of_seqZ; lia|]. by rewrite Hvv.
  - apply not_elem_of_list_to_map. rewrite Hk. intros [[e He] _]%list_elem_of_filter. congruence.
Qed.

Lemma kernel_sp ph pt :
  kernel_mapped lo ph pt →
  ∃ E, sp_inv lo ph pt [] E ∧ ∀ v, v ∈ E.*1 → is_Some (kernel_view v).
Proof.
  intros [Hph Hpt Hview]. destruct (entries_exist kernel_view (2 ^ 27)) as (E & Hnd & HE & Hk).
  exists E. split; [|exact Hk]. split; try done.
  - intros v Hv. by rewrite Hview, HE.
  - rewrite app_nil_r. destruct Hpt as [T Hwf]. apply (wf_nodup _ _ _ _ Hwf).
  - set_solver.
Qed.

(** A map keeps the root of the table. *)
Lemma pt_map_root vpn ppn flags pt ph pt' ph' :
  pt_map vpn ppn flags pt ph = Ret (pt', ph') → root_ppn pt' = root_ppn pt.
Proof.
  unfold pt_map, find_pte_create. intros E. destruct (indexes vpn) as [[i0 i1] i2]. by inv_ret.
Qed.

Lemma map_one_root v a pt ph a' pt' ph' :
  map_one v (a, pt, ph) = Ret (a', pt', ph') → root_ppn pt' = root_ppn pt.
Proof. unfold map_one. intros E. inv_ret; by eapply pt_map_root. Qed.

Lemma area_map_root a pt ph a' pt' ph' :
  area_map a pt ph = Ret (a', pt', ph') → root_ppn pt' = root_ppn pt.
Proof.
  unfold area_map. intros E. eapply (for_each_keeps (λ st, root_ppn st.1.2 = root_ppn pt)) in E; [done| |done].
  intros v [[? ?] ?] [[? ?] ?] E' H. simpl in *. rewrite <-H. by eapply map_one_root.
Qed.

(** The pages of the kernel stack of pid 0, just below the trampoline. *)
Definition stack_page (v : Z) : Prop := 0x7fffffd ≤ v < 0x7ffffff.

Record stack_added (ms : MemorySet) (ph : Phys) (ms' : MemorySet) (ph' : Phys) (fn : list Z) : Prop := {
  st_phys : phys_inv lo ph';
  st_pt : pt_inv lo ph' (page_table ms');
  st_token : ms_token ms' = ms_token ms;
  st_grows : sgrows lo ph (page_table ms) ph' (page_table ms') fn;
  st_zero f : f ∈ fn → zero_page (mem ph') f;
  st_stack v : stack_page v → ∃ f, f ∈ fn ∧
    pt_view (mem ph') (page_table ms') v = Some (pte_new f (Z.lor (Z.lor MP_R MP_W) PTE_V));
  st_rest v : 0 ≤ v < 2 ^ 27 → ¬ stack_page v → pt_view (mem ph') (page_table ms') v = kernel_view v;
}.

Lemma first_stack_ok ms ph :
  kernel_mapped lo ph (page_table ms) → 6 ≤ FrameAlloc.free_count (falloc ph) →
  ∃ ms' ph' fn, KernelStack_new 0 ms ph = Ret (ms', ph') ∧ stack_added ms ph ms' ph' fn ∧
    FrameAlloc.free_count (falloc ph) - 6 ≤ FrameAlloc.free_count (falloc ph').
Proof.
  intros Hkm Hfree. destruct (kernel_sp ph _ Hkm) as (E & Hsp & HE).
  set (a := mkMapArea (mkSimpleRange 0x7fffffd 0x7ffffff) [] Framed (Z.lor MP_R MP_W)).
  assert (Hgap : ∀ v, stack_page v → v ∉ E.*1).
  { intros v Hv Hin. apply HE in Hin as [e He]. rewrite kernel_view_gap in He; [done|..]; unfold stack_page in Hv; lia. }
  destruct (map_run_ok lo 2 a (page_table ms) ph [] E 0x7fffffd (km_phys _ _ _ Hkm) Hsp) as
    (fn & pt' & ph' & Hl & Em & Hph' & Hsp' & Hg & Hz & Hf); [done|done|done|done| |constructor|lia|].
  { intros v Hv. apply Hgap. unfold stack_page. lia. }
  set (a' := mkMapArea _ _ _ _) in Em. destruct fn as [|f0 [|f1 [|]]]; try done.
  assert (Ea : area_map a (page_table ms) ph = Ret (a', pt', ph')) by exact Em.
  exists (mkMemorySet pt' (areas ms ++ [a'])), ph', [f0; f1]. split_and!; [|split; try done|lia].
  - change (KernelStack_new 0 ms ph) with (ms_push a None ms ph). unfold ms_push. by rewrite Ea.
  - apply Hsp'.
  - unfold ms_token, token. simpl. by rewrite (area_map_root _ _ _ _ _ _ Ea).
  - intros v Hv. assert (Hv' : v = 0x7fffffd ∨ v = 0x7fffffe) by (unfold stack_page in Hv; lia).
    exists (if decide (v = 0x7fffffd) then f0 else f1). split; [case_decide; set_solver|].
    simpl. rewrite (sp_rep _ _ _ _ _ Hsp') by (unfold stack_page in Hv; lia).
    apply elem_of_list_to_map_1; [apply (sp_keys _ _ _ _ _ Hsp')|]. apply elem_of_app. right.
    destruct Hv' as [-> | ->]; [left|right; left].
  - intros v Hv Hns. simpl. rewrite (sp_rep _ _ _ _ _ Hsp') by done. rewrite list_to_map_app, lookup_union_l.
    + rewrite <-(sp_rep _ _ _ _ _ Hsp) by done. by apply (km_view _ _ _ Hkm).
    + apply not_elem_of_list_to_map. intros Hin. rewrite area_entries_keys in Hin. apply Hns.
      simpl in Hin. rewrite !elem_of_cons in Hin. unfold stack_page. destruct Hin as [->|[-> |[]%elem_of_nil]]; lia.
Qed.
End Stack.

(** ** The first process *)
Section First.
Context {PF : Platform} {PFL : PlatformLaws} {KL : KernelLayout} `{!ElfParser} (lo : Z).
Context (elf_data : list byte) (elf : ElfFile).

(** The program loaded, then the kernel stack mapped: the two do not meet. *)
Record stack_beside (ks : MemorySet) (ms : MemorySet) (ks' : MemorySet) (fn : list Z) (ph : Phys) : Prop := {
  sb_phys : phys_inv lo ph;
  sb_loaded : loaded lo (started_segments elf_data elf []) ms ph;
  sb_pt : pt_inv lo ph (page_table ks');
  sb_token : ms_token ks' = ms_token ks;
  sb_apart q : q ∈ pt_frames (page_table ms) ++ ms_frames ms → q ∉ pt_frames (page_table ks') ∧ q ∉ fn;
  sb_zero f : f ∈ fn → zero_page (mem ph) f;
  sb_stack v : stack_page v → ∃ f, f ∈ fn ∧
    pt_view (mem ph) (page_table ks') v = Some (pte_new f (Z.lor (Z.lor MP_R MP_W) PTE_V));
  sb_rest v : 0 ≤ v < 2 ^ 27 → ¬ stack_page v → pt_view (mem ph) (page_table ks') v = kernel_view v;
}.

Lemma load_beside_stack ph ks :
  kernel_mapped lo ph (page_table ks) → elf_ok elf_data elf →
  9 + 3 * elf_pages elf_data elf ≤ FrameAlloc.free_count (falloc ph) →
  ∃ ms ph1 ks' ph2 fn, from_elf elf_data ph = Ret (ms, stack_top elf_data elf, elf_entry_point elf, ph1) ∧
    KernelStack_new 0 ks ph1 = Ret (ks', ph2) ∧ stack_beside ks ms ks' fn ph2 ∧
    trap_cx_page ms (mem ph2) = trap_cx_page ms (mem ph1) ∧
    (∀ q, q ∈ pt_frames (page_table ms) ++ ms_frames ms → ¬ p_owned lo ph q).
Proof.
  intros Hkm Hok Hfree. pose proof (km_phys _ _ _ Hkm) as Hph.
  destruct (from_elf_ok lo elf_data elf ph Hph Hok ltac:(lia)) as (ms & ph1 & E1 & Hld & Hf1).
  pose proof (ld_state _ _ _ _ _ Hld) as Hch. pose proof (ch_phys _ _ _ _ _ Hch) as Hph1.
  assert (Hkm1 : kernel_mapped lo ph1 (page_table ks)).
  { apply (kernel_mapped_frame lo ph); [done..|]. intros q Hq. split; [by apply (ch_mem _ _ _ _ _ Hch)|].
    apply (ch_owned _ _ _ _ _ Hch). by left. }
  destruct (first_stack_ok lo ks ph1 Hkm1 ltac:(lia)) as (ks' & ph2 & fn & E2 & Hst & _).
  pose proof (st_phys _ _ _ _ _ _ Hst) as Hph2. destruct (st_grows _ _ _ _ _ _ Hst) as [_ Ht Hn Ho Hm].
  assert (Hq : ∀ q, q ∈ pt_frames (page_table ms) ++ ms_frames ms → p_owned lo ph1 q ∧ q ∉ pt_frames (page_table ks)).
  { intros q Hq. split; [apply (ch_owned _ _ _ _ _ Hch); by right|]. intros Hk.
    apply (ch_new _ _ _ _ _ Hch q Hq). by apply (pt_inv_owned lo _ _ _ (km_pt _ _ _ Hkm)). }
  assert (Hsame : ∀ q, q ∈ pt_frames (page_table ms) ++ ms_frames ms → same_page (mem ph1) (mem ph2) q ∧ p_owned lo ph2 q).
  { intros q [Hq1 Hq2]%Hq. split; [by apply Hm|]. apply Ho. by left. }
  apply loading_started in Hld.
  exists ms, ph1, ks', ph2, fn. split_and!; [exact E1|exact E2| | |apply (ch_new _ _ _ _ _ Hch)].
  - destruct Hst as [_ Hpt Htok _ Hz Hs Hr]. split; [exact Hph2| |exact Hpt|exact Htok| |exact Hz|exact Hs|exact Hr].
    + by apply (loaded_frame lo _ _ ph1 ph2 Hph1 Hph2).
    + intros q [Hq1 Hq2]%Hq. split; [intros [?|?]%Ht; contradiction|intros Hf; exact (Hn q Hf Hq1)].
  - apply (trap_cx_page_frame lo elf_data elf); [exact Hph1|exact Hph2|exact Hld|].
    intros q Hin. apply Hsame, elem_of_app. by left.
Qed.

(** What [TCB_new] leaves of the boot kernel: the control block [t] of pid 0,
    its address space and its kernel stack. *)
Definition first_task (ppn : Z) (ms : MemorySet) : TaskControlBlock :=
  mkTCB ppn (stack_top elf_data elf) (goto_trap_return (get_top 0)) Ready ms None [] 0
    [Some FStdin; Some FStdout; Some FStdout] None DEFAULT_PRIORITY.

Record first_space (sst : Z) (ks : MemorySet) (ppn : Z) (ms ks' : MemorySet) (ph : Phys) : Prop := {
  fs_phys : phys_inv lo ph;
  fs_started : started lo elf_data elf (start_context elf_data elf sst (ms_token ks) 0) ppn ms ph;
  fs_kernel : pt_inv lo ph (page_table ks') ∧ ms_token ks' = ms_token ks;
  fs_stack v : stack_page v → ∃ f, zero_page (mem ph) f ∧ ¬ f ∈ (pt_frames (page_table ms) ++ ms_frames ms) ∧
    pt_view (mem ph) (page_table ks') v = Some (pte_new f (Z.lor (Z.lor MP_R MP_W) PTE_V));
  fs_rest v : 0 ≤ v < 2 ^ 27 → ¬ stack_page v → pt_view (mem ph) (page_table ks') v = kernel_view v;
  fs_apart q : q ∈ pt_frames (page_table ms) ++ ms_frames ms → q ∉ pt_frames (page_table ks');
}.

Lemma stack_beside_start sst ks ms ks' fn ph :
  stack_beside ks ms ks' fn ph →
  ∃ ppn m, trap_cx_page ms (mem ph) = Ret ppn ∧
    set_bytes (mem ph) ppn 0 (start_context elf_data elf sst (ms_token ks) 0) = Ret m ∧
    first_space sst ks ppn ms ks' (mkPhys m (falloc ph)).
Proof.
  intros [Hph Hld Hpt Htok Hap Hz Hs Hr].
  destruct (write_context lo elf_data elf ms ph _ Hph Hld (start_context_length elf_data elf sst (ms_token ks) 0)) as
    (ppn & m & Et & Em & Hst & Hsame).
  assert (Hppn : ppn ∈ pt_frames (page_table ms) ++ ms_frames ms) by (apply elem_of_app; right; apply Hst).
  assert (Hk : ∀ q, q ∈ pt_frames (page_table ks') → same_page (mem ph) m q ∧ p_owned lo ph q).
  { intros q Hq. split; [|by apply (pt_inv_owned lo _ _ _ Hpt)]. apply Hsame. intros ->. by destruct (Hap ppn Hppn). }
  assert (Hvk : ∀ v, 0 ≤ v → pt_view m (page_table ks') v = pt_view (mem ph) (page_table ks') v).
  { intros v Hv'. exact (pt_view_frame lo ph (mkPhys m (falloc ph)) _ _ Hph Hph Hpt Hv' Hk). }
  exists ppn, m. split_and!; [exact Et|exact Em|]. split; [exact Hph|exact Hst| | | |]; simpl.
  - split; [|done]. destruct Hpt as [T HT]. exists T. by eapply pt_wf_frame.
  - intros v Hv'. destruct (Hs v Hv') as (f & Hf & Hfv). exists f.
    assert (Hne : ¬ f ∈ (pt_frames (page_table ms) ++ ms_frames ms)) by (intros Hq; by destruct (Hap f Hq)).
    split_and!; [|done|rewrite Hvk; [done|unfold stack_page in Hv'; lia]].
    intros x Hx. rewrite (Hsame f) by (done || congruence). by apply (Hz f).
  - intros v Hv' Hns. rewrite Hvk by lia. by apply Hr.
  - intros q Hq. by apply Hap.
Qed.

(** [TCB_new] on the boot kernel. *)
Lemma first_TCB_ok sst ph ks :
  kernel_mapped lo ph (page_table ks) → elf_ok elf_data elf →
  9 + 3 * elf_pages elf_data elf ≤ FrameAlloc.free_count (falloc ph) →
  ∃ ppn ms ks' ph', first_space sst ks ppn ms ks' ph' ∧
    (∀ q, q ∈ pt_frames (page_table ms) ++ ms_frames ms → ¬ p_owned lo ph q) ∧
    TCB_new sst elf_data (boot_kernel ph ks) =
      Ret (0, mkKernel {[0 := first_task ppn ms]} [] None [] (mkPidAllocator 1 []) ph' ks' (init_demo_attrs FileAttr.new)).
Proof.
  intros Hkm Hok Hfree.
  destruct (load_beside_stack ph ks Hkm Hok Hfree) as (ms & ph1 & ks' & ph2 & fn & E1 & E2 & Hsb & Hcx & Hnew).
  destruct (stack_beside_start sst ks ms ks' fn ph2 Hsb) as (ppn & m & Et & Em & Hfs).
  exists ppn, ms, ks', (mkPhys m (falloc ph2)). split; [done|]. split; [exact Hnew|].
  unfold TCB_new, boot_kernel. cbn [phys]. rewrite E1. cbn [mbind outcome_bind].
  rewrite <-Hcx, Et. cbn [mbind outcome_bind pids].
  change (pa_alloc PidAllocator_new) with (0, mkPidAllocator 1 []). cbn [kernel_space].
  rewrite E2. cbn [mbind outcome_bind]. destruct (fs_kernel _ _ _ _ _ _ Hfs) as [_ ->].
  unfold start_context in Em. rewrite Em. done.
Qed.

(** The boot kernel with its first process satisfies the invariant. *)
Lemma first_os_inv ppn ms ph ks attrs :
  os_inv (mkKernel {[0 := first_task ppn ms]} [0] None [] (mkPidAllocator 1 []) ph ks attrs).
Proof.
  set (k := mkKernel _ _ _ _ _ _ _ _).
  assert (Hl : ∀ p t, tcbs k !! p = Some t ↔ p = 0 ∧ t = first_task ppn ms).
  { intros p t. unfold k. cbn [tcbs]. rewrite lookup_singleton_Some. naive_solver. }
  assert (Hst : ∀ p s, status_of k p = Some s ↔ p = 0 ∧ s = Ready).
  { intros p s. unfold status_of. rewrite fmap_Some. setoid_rewrite Hl. naive_solver. }
  assert (Hch : ∀ p, children_of k p = []).
  { intros p. unfold children_of. destruct (tcbs k !! p) as [t|] eqn:E; [|done]. by apply Hl in E as [-> ->]. }
  assert (Hext : ∀ p, ext_of k p = None).
  { intros p. unfold ext_of. destruct (tcbs k !! p) as [t|] eqn:E; [|done]. by apply Hl in E as [-> ->]. }
  split; split.
  - intros p. rewrite Hst. unfold k. cbn [ready_queue]. rewrite list_elem_of_singleton. naive_solver.
  - intros p. rewrite Hst. naive_solver.
  - intros p. rewrite Hst. split; [by intros ?%elem_of_nil|naive_solver].
  - apply NoDup_singleton.
  - constructor.
  - exists Ready. by rewrite Hst.
  - intros p c. rewrite Hch. by intros ?%elem_of_nil.
  - intros p. rewrite Hch. constructor.
  - intros c [t [-> ->]%Hl]. done.
  - exists (λ _, 0%nat). intros p c. rewrite Hch. by intros ?%elem_of_nil.
  - intros p _. apply Hch.
  - split; simpl; [lia|constructor|by intros p ?%elem_of_nil|].
    intros p. unfold is_Some. setoid_rewrite lookup_singleton_Some. split.
    + intros (t & <- & _). split; [lia|apply not_elem_of_nil].
    + intros [? _]. exists (first_task ppn ms). split; [lia|done].
  - intros p ext. by rewrite Hext.
  - intros p. rewrite Hst. naive_solver.
  - intros p d. by intros ?%elem_of_nil.
Qed.
End First.

(** ** The driver's requests *)
Section Driver.
Context {PF : Platform} {PFL : PlatformLaws} (lo : Z).

Lemma dma_post_app ph ph1 ph2 fs1 fs2 :
  dma_post lo ph ph1 fs1 → dma_post lo ph1 ph2 fs2 → dma_post lo ph ph2 (fs1 ++ fs2).
Proof.
  intros [P1 P2 P3 P4 P5] [Q1 Q2 Q3 Q4 Q5].
  assert (Hn : ∀ f, f ∈ fs1 → f ∉ fs2).
  { intros f Hf Hf2. destruct (Q3 f Hf2) as [Hno _]. apply Hno, P4. by left. }
  split; [done| | | |].
  - by rewrite Q2, P2, drop_drop, length_app.
  - intros f [Hf|Hf]%elem_of_app.
    + destruct (P3 f Hf) as [Hno Hz]. split; [done|]. intros x Hx. rewrite (Q5 f (Hn f Hf) x Hx). by apply (Hz x).
    + destruct (Q3 f Hf) as [Hno Hz]. split; [|done]. intros Ho. apply Hno, P4. by right.
  - intros f. rewrite Q4, P4, elem_of_app. tauto.
  - intros f Hf x Hx. rewrite elem_of_app in Hf.
    rewrite (Q5 f) by (tauto || done). apply (P5 f); tauto.
Qed.

Lemma upcoming_length fa : fa_inv lo fa → Z.of_nat (length (upcoming fa)) = FrameAlloc.free_count fa.
Proof.
  intros [(_ & Hce & _) _ _]. unfold upcoming, FrameAlloc.free_count.
  rewrite length_app, length_reverse, length_seqZ. lia.
Qed.

Definition pages_of (requests : list Z) : Z := foldr Z.add 0 requests.

Lemma pages_of_nonneg requests : Forall (λ r, 0 < r) requests → 0 ≤ pages_of requests.
Proof. induction 1; simpl; [done|]. unfold pages_of in *. lia. Qed.

(** While the free frames are one run, the requests get its pages in order. *)
Lemma driver_run requests : ∀ q ph a n,
  phys_inv lo ph → upcoming (falloc ph) = seqZ a n → Forall (λ r, 0 < r) requests →
  pages_of requests ≤ n → pages_of requests < 2 ^ 32 →
  ∃ ph', for_each (λ pages '(q, ph), '(_, q, ph) ← dma_alloc pages q ph; Ret (q, ph)) requests (q, ph) =
      Ret (q ++ seqZ a (pages_of requests), ph') ∧
    dma_post lo ph ph' (seqZ a (pages_of requests)).
Proof.
  induction requests as [|r requests IH]; intros q ph a n Hph Hu Hr Hn Hlt.
  { exists ph. simpl. rewrite app_nil_r. split; [done|by apply dma_post_nil]. }
  apply Forall_cons in Hr as [Hr Hrs]. pose proof (pages_of_nonneg _ Hrs) as Hnn.
  change (pages_of (r :: requests)) with (r + pages_of requests) in *.
  assert (Hs : seqZ a n = seqZ a r ++ seqZ (a + r) (n - r)) by (rewrite <-seqZ_app by lia; f_equal; lia).
  assert (Hl : length (seqZ a r) = Z.to_nat r) by apply length_seqZ.
  destruct (dma_alloc_spec lo r q ph Hph ltac:(lia)) as [(b & ph1 & Hfs & E & Hp)|[Hno _]].
  2:{ destruct (Hno a). rewrite Hu, Hs. by apply take_app_length'. }
  rewrite Hu, Hs, take_app_length' in Hfs by done. rewrite Hu, Hs, take_app_length' in E, Hp by done.
  destruct (IH (q ++ seqZ a r) ph1 (a + r) (n - r)) as (ph2 & E2 & Hp2); [apply Hp| |done|lia|lia|].
  { rewrite (dp_upcoming _ _ _ _ Hp), Hu, Hs. by apply drop_app_length. }
  exists ph2. cbn [for_each]. rewrite E. cbn [mbind outcome_bind]. rewrite E2, <-app_assoc, <-seqZ_app by lia.
  split; [done|]. rewrite seqZ_app by lia. by eapply dma_post_app.
Qed.

Lemma driver_init_ok requests ph a n :
  phys_inv lo ph → upcoming (falloc ph) = seqZ a n → Forall (λ r, 0 < r) requests →
  pages_of requests ≤ n → pages_of requests < 2 ^ 32 →
  ∃ ph', driver_init requests ph = Ret (seqZ a (pages_of requests), ph') ∧
    dma_post lo ph ph' (seqZ a (pages_of requests)) ∧
    FrameAlloc.free_count (falloc ph') = n - pages_of requests.
Proof.
  intros Hph Hu Hr Hn Hlt. destruct (driver_run requests [] ph a n Hph Hu Hr Hn Hlt) as (ph' & E & Hp).
  exists ph'. split_and!; [exact E|done|]. rewrite <-upcoming_length by apply Hp.
  rewrite (dp_upcoming _ _ _ _ Hp), Hu, length_drop, !length_seqZ. pose proof (pages_of_nonneg _ Hr). lia.
Qed.
End Driver.

(** ** The disk at start-up *)
Section Files.
Context {PF : Platform} {S : Type} `{!BlockStore S, !StoreLaws S, !ElfParser} (efs : EasyFileSystem) (total : Z).
Context (G : geometry efs total).

Lemma list_apps_ok s s1 (D : FsSpec.disk) :
  efs_open s = Ret (efs, s1) → disk_rep efs total s1 D →
  ∃ s2, list_apps s = Ret (efs, D.*1, s2) ∧ disk_rep efs total s2 D.
Proof.
  intros E HD. destruct (ls_refines efs total G s1 D HD) as (s2 & E2 & HD2). exists s2. split; [|done].
  unfold list_apps. rewrite E. cbn [mbind outcome_bind]. by rewrite E2.
Qed.

Lemma add_initproc_ok fuel sst k k' pid s (D : FsSpec.disk) elf_data :
  disk_rep efs total s D → ("initproc"%string, elf_data) ∈ D → (length elf_data + 512 ≤ 512 * fuel)%nat →
  TCB_new sst elf_data k = Ret (pid, k') →
  ∃ s', add_initproc fuel sst efs k s = Ret (add_task pid k', s') ∧ disk_rep efs total s' D.
Proof.
  intros HD Hin Hf E. apply list_elem_of_lookup in Hin as [i Hi].
  pose proof (file_index_unique D i _ elf_data (dr_unique _ _ _ _ HD) Hi) as Hidx. unfold add_initproc.
  destruct (open_file_ok efs total G s D "initproc" 0 HD) as (s1 & -> & HD1); [congruence|].
  unfold spec_open in *. rewrite Hidx in *. cbn [fmap option_fmap option_map mbind outcome_bind fst snd from_option unwrap] in *.
  destruct (read_all_ok total efs D i _ G Hi fuel 0%nat (replicate 512 x00) [] (opened efs 0 i) s1) as (f' & s2 & -> & HD2);
    [done..|lia|cbn [snd]; lia|].
  exists s2. split; [|done]. cbn [mbind outcome_bind].
  change ([] ++ drop 0 ("initproc"%string, elf_data).2) with elf_data. by rewrite E.
Qed.
End Files.

(** ** Start-up as a whole *)
Section Startup.
Context {PF : Platform} {PFL : PlatformLaws} {KL : KernelLayout}.
Context {S : Type} `{!BlockStore S, !StoreLaws S, !ElfParser} (efs : EasyFileSystem) (total : Z).
Context (G : geometry efs total).

Definition kernel_end : Z := ekernel / PAGE_SIZE.

Lemma upcoming_all ph :
  no_recycled ph → upcoming (falloc ph) = seqZ (current (falloc ph)) (FrameAlloc.free_count (falloc ph)).
Proof. unfold no_recycled, upcoming, FrameAlloc.free_count. intros ->. simpl. f_equal; lia. Qed.

(** Memory and the driver. *)
Lemma boot_memory m requests need :
  Forall (λ r, 0 < r) requests → 0 ≤ need → kernel_end + 70 + pages_of requests + need ≤ 0x88000 →
  ∃ ks ph a ph', mm_init m = Ret (ks, ph, ms_token ks) ∧ kernel_mapped kernel_end ph (page_table ks) ∧
    driver_init requests ph = Ret (seqZ a (pages_of requests), ph') ∧
    kernel_mapped kernel_end ph' (page_table ks) ∧ need ≤ FrameAlloc.free_count (falloc ph') ∧
    (∀ f, f ∈ seqZ a (pages_of requests) → p_owned kernel_end ph' f ∧ zero_page (mem ph') f).
Proof.
  intros Hr Hn Hend. pose proof (pages_of_nonneg _ Hr) as Hnn.
  destruct (mm_init_ok m) as (ks & ph & E & Hkm & Hnr & _ & Hfree); [fold kernel_end; lia|]. fold kernel_end in Hkm, Hfree.
  assert (Hk : 0 ≤ kernel_end) by (pose proof layout_pages; unfold kernel_end; lia).
  destruct (driver_init_ok kernel_end requests ph _ _ (km_phys _ _ _ Hkm) (upcoming_all ph Hnr) Hr) as (ph' & E' & Hp & Hf);
    [lia|lia|].
  exists ks, ph, (current (falloc ph)), ph'. split_and!; [exact E|exact Hkm|exact E'| |lia|].
  - by eapply dma_post_mapped.
  - intros f Hin. split; [apply (dp_owned _ _ _ _ Hp); by left|by apply (dp_fresh _ _ _ _ Hp)].
Qed.

Lemma rust_main_ok fuel requests sst m s s1 (D : FsSpec.disk) elf_data elf :
  srodata < erodata → Forall (λ r, 0 < r) requests →
  ekernel + (79 + pages_of requests + 3 * elf_pages elf_data elf) * PAGE_SIZE ≤ MEMORY_END →
  efs_open s = Ret (efs, s1) → disk_rep efs total s1 D → ("initproc"%string, elf_data) ∈ D →
  (length elf_data + 512 ≤ 512 * fuel)%nat → elf_ok elf_data elf →
  ∃ a ks0 ppn ms ks ph s',
    rust_main fuel requests sst m s = Ret (seqZ a (pages_of requests), D.*1,
      mkMachine (mkKernel {[0 := first_task elf_data elf ppn ms]} [0] None [] (mkPidAllocator 1 []) ph ks
        (init_demo_attrs FileAttr.new)) [] efs s' []) ∧
    first_space kernel_end elf_data elf sst ks0 ppn ms ks ph ∧
    (∀ f, a ≤ f < a + pages_of requests → ¬ f ∈ (pt_frames (page_table ms) ++ ms_frames ms)) ∧
    disk_rep efs total s' D.
Proof.
  intros Hro Hr Hend Eo HD Hin Hfuel Hok.
  assert (Hpg : 0 ≤ elf_pages elf_data elf).
  { unfold elf_pages. pose proof (segment_pages_nonneg elf_data _ (eo_headers _ _ Hok)). lia. }
  destruct (boot_memory m requests (9 + 3 * elf_pages elf_data elf) Hr) as
    (ks0 & ph & a & ph1 & E1 & Hkm & E2 & Hkm1 & Hfree & Hdma); [lia| |].
  { pose proof layout_pages as (_ & _ & _ & _ & Hk & _). unfold kernel_end, PAGE_SIZE, MEMORY_END in *. lia. }
  destruct (list_apps_ok efs total G s s1 D Eo HD) as (s2 & E3 & HD2).
  destruct (first_TCB_ok kernel_end elf_data elf sst ph1 ks0 Hkm1 Hok Hfree) as (ppn & ms & ks & ph2 & Hfs & Hnew & E4).
  destruct (add_initproc_ok efs total G fuel sst _ _ 0 s2 D elf_data HD2 Hin Hfuel E4) as (s3 & E5 & HD3).
  exists a, ks0, ppn, ms, ks, ph2, s3. split_and!; [|exact Hfs| |exact HD3].
  - unfold rust_main. rewrite E1. cbn [mbind outcome_bind]. rewrite (remap_test_ok kernel_end ph ks0 Hkm Hro).
    cbn [mbind outcome_bind]. rewrite E2. cbn [mbind outcome_bind]. rewrite E3. cbn [mbind outcome_bind]. by rewrite E5.
  - intros f Hf Hq. apply (Hnew f Hq). apply Hdma, elem_of_seqZ. lia.
Qed.
End Startup.

(** C3: From the host's files to a running system. Let the packing tool write
    a disk from any host files that fit, one of them [initproc] with an ELF
    file the kernel can load; then on a machine with the RAM for it [rust_main]
    reaches the scheduler without panic. It has listed the packed programs;
    the driver holds consecutive zeroed pages that no user page maps; the only
    task is process 0, ready, with the standard descriptors, whose pages hold
    the segments of [initproc] byte for byte, its empty stack and the trap
    context that enters it, and nothing else; its kernel stack is mapped in
    the kernel space, which is otherwise as [mm_init] made it and shares no
    page with the program; the disk still holds the host's files.  And
    every state the machine reaches from there satisfies the kernel's
    invariant. *)
Theorem system_starts (PF : Platform) `{!PlatformLaws} `{!KernelLayout} `{!ElfParser} {D : Type}
    `{!BlockDevice D, !DeviceLaws D}
    `{!PostcardVec SystemStatusInfo, !PostcardVec (QueryResult ProcessInfo), !PostcardVec ProcessInfo,
      !PostcardVec (QueryResult FileInfo), !PostcardVec (QueryResult ToolDescriptor), !PostcardVec (list (Z * Z * Z * Z))}
    {E : Type} `{!PostcardCodec E ToolRequest}
    (d : D) host (files : list (string * string)) fuel requests sst m elf :
  let efs := (layout_of IMAGE_BLOCKS 1).1 in
  let elf_data := host "initproc"%string in
  IMAGE_BLOCKS ≤ dev_size d → Forall (λ app, String.index 0 "." app.1 = None) files →
  packable efs IMAGE_BLOCKS host files.*1 → "initproc"%string ∈ files.*1 → elf_ok elf_data elf →
  (length elf_data + 512 ≤ 512 * fuel)%nat →
  srodata < erodata → Forall (λ r, 0 < r) requests →
  ekernel + (79 + pages_of requests + 3 * elf_pages elf_data elf) * PAGE_SIZE ≤ MEMORY_END →
  ∃ img a ks0 ppn ms mach,
    easy_fs_pack (host_name <$> files) host (BlockCacheManager_new d) = Ret img ∧
    rust_main fuel requests sst m (BlockCacheManager_new (device img)) =
      Ret (seqZ a (pages_of requests), files.*1, mach) ∧
    let k := kern mach in
    tcbs k = {[0 := first_task elf_data elf ppn ms]} ∧ ready_queue k = [0] ∧
    first_space kernel_end elf_data elf sst ks0 ppn ms (kernel_space k) (phys k) ∧
    (∀ s va, s ∈ started_segments elf_data elf (start_context elf_data elf sst (ms_token ks0) 0) → in_segment s (va / PAGE_SIZE) →
       ∃ f, f ∈ ms_frames ms ∧
         pt_view (mem (phys k)) (page_table ms) (va / PAGE_SIZE) = Some (pte_new f (Z.lor (sg_perm s) PTE_V)) ∧
         mem (phys k) (f * PAGE_SIZE + va mod PAGE_SIZE) = nth (Z.to_nat (va - sg_start s * PAGE_SIZE)) (sg_data s) x00) ∧
    (∀ v, 0 ≤ v < 0x7ffffff →
       (∀ s, s ∈ started_segments elf_data elf (start_context elf_data elf sst (ms_token ks0) 0) → ¬ in_segment s v) →
       pt_view (mem (phys k)) (page_table ms) v = None) ∧
    (∀ f, a ≤ f < a + pages_of requests → ¬ f ∈ (pt_frames (page_table ms) ++ ms_frames ms)) ∧
    disk_rep efs IMAGE_BLOCKS (disk mach) (file_of host <$> files.*1) ∧
    (∀ mach', rtc (mstep (E := E)) mach mach' → os_inv (kern mach')).
Proof.
  intros efs elf_data Hd Hdots Hpk Hin Hok Hfuel Hro Hr Hend.
  destruct (pack_image_ok d host files Hd Hdots Hpk) as (G & img & s1 & E1 & E2 & HD). fold efs in G, E2, HD.
  assert (Hnames : (file_of host <$> files.*1).*1 = files.*1).
  { rewrite <-list_fmap_compose. change (fst ∘ file_of host) with (@id string). by rewrite list_fmap_id. }
  destruct (rust_main_ok efs IMAGE_BLOCKS G fuel requests sst m _ s1 _ elf_data elf Hro Hr Hend E2 HD) as
    (a & ks0 & ppn & ms & ks & ph & s' & E3 & Hfs & Hq & HD'); [|exact Hfuel|exact Hok|].
  { apply list_elem_of_fmap. by exists "initproc"%string. }
  rewrite Hnames in E3. pose proof (sd_loaded _ _ _ _ _ _ _ (fs_started _ _ _ _ _ _ _ _ _ Hfs)) as Hld.
  exists img, a, ks0, ppn, ms. eexists. split; [exact E1|]. split; [exact E3|]. cbn [kern tcbs ready_queue kernel_space phys disk].
  split; [done|]. split; [done|]. split; [exact Hfs|]. split_and!; [| |exact Hq|exact HD'|].
  - intros s va. by eapply loaded_byte.
  - intros v. by eapply loaded_unmapped.
  - intros mach' Hrtc. refine (rtc_machine_inv _ _ _ Hrtc). apply first_os_inv.
Qed.

(** ** Witness: two host files, the first the ELF file of [ElfLoad] *)
Section Witness.
Import DemoVec.

Definition boot_host (app : string) : list byte := if decide (app = "initproc"%string) then DemoElfFile.file else name_of app.
Definition boot_files : list (string * string) := [("initproc", "rs"); ("user_shell", "rs")]%string.

Lemma boot_packable : packable (layout_of IMAGE_BLOCKS 1).1 IMAGE_BLOCKS boot_host boot_files.*1.
Proof.
  split.
  - by apply (bool_decide_unpack _); vm_compute.
  - repeat constructor; by apply (bool_decide_unpack _); vm_compute.
  - by apply (bool_decide_unpack _); vm_compute.
Qed.

Lemma system_starts_witness :
  ∃ img a ppn ms (mach : Machine (Store MemDisk)),
    easy_fs_pack ["initproc.rs"; "user_shell.rs"]%string boot_host (BlockCacheManager_new (mkMemDisk IMAGE_BLOCKS ∅)) = Ret img ∧
    @rust_main DemoPlatform.demo _ _ demo_parser 2 [2; 1] 0 (λ _, xff) (BlockCacheManager_new (device img)) =
      Ret (seqZ a 3, ["initproc"; "user_shell"]%string, mach) ∧
    tcbs (kern mach) = {[0 := first_task DemoElfFile.file demo_elf ppn ms]} ∧ os_inv (kern mach).
Proof.
  destruct (@system_starts DemoPlatform.demo _ _ demo_parser MemDisk _ _ _ _ _ _ _ _ unit _ (mkMemDisk IMAGE_BLOCKS ∅)
    boot_host boot_files 2 [2; 1] 0 (λ _, xff) demo_elf) as
    (img & a & ks0 & ppn & ms & mach & E1 & E2 & Ht & _ & _ & _ & _ & _ & _ & Hos).
  - done.
  - by repeat constructor.
  - exact boot_packable.
  - left.
  - exact demo_elf_ok.
  - vm_compute. lia.
  - done.
  - by repeat constructor.
  - by vm_compute.
  - exists img, a, ppn, ms, mach. split; [exact E1|]. split; [exact E2|]. split; [exact Ht|]. apply Hos, rtc_refl.
Defined.
End Witness.
